(* ===== verification/_CoqProject ===== *)
-Q . S2P
Prelude.v
GoStrings.v
GoEncoding.v
Cursor.v
EndpointClient.v
TenantRouter.v
Env.v
Auth.v
SessionStore.v
Paging.v
ChatStore.v
GoJson.v
JsonText.v
GoFloat.v
ChatService.v
RealtimeRooms.v
RealtimeWS.v
Users.v
Tenants.v
GoTime.v
FileStore.v
Wire.v
Gin.v
Binding.v
SessionHub.v
SessionServices.v
ChatApi.v
OrgApi.v
TenantApi.v
SessionApi.v
GoPath.v
Logger.v
Files.v
Sha256.v
Vectorman.v
DbmanApi.v
DbmanInv.v
Rpc.v
Clients.v
Remote.v
RemoteChat.v
RemoteOrg.v
Composition.v
EndToEnd.v
Delivery.v
HubSubscriber.v
NoteDelivery.v
SocketWriters.v
Wiring.v
