(* ===== verification/Prelude.v ===== *)
(** * msg_server: a multi-tenant messenger back end

    This development models the Go services of src/server and proves what they promise.  Six
    services (chat, session, orgHub, tenantHub, fileman, vectorman) keep no tables of their own: they call
    a seventh, dbman, over HTTP, and dbman runs SQL on the PostgreSQL pool of the tenant.  chat and
    session also push events to WebSockets, on their own node or through Redis channels, and chat
    publishes to a message queue and indexes texts in vectorman.

    ** Files

    Shared.
    - [Prelude]: errors as values, the state-and-error monad, 64-bit integers, list lemmas, tactics.
    - [GoStrings], [GoEncoding], [GoJson], [GoTime], [JsonText], [GoPath], [GoFloat], [Sha256]: what the code uses of
      Go's strings, unicode/utf8, strconv, encoding/base64, encoding/json (writing, reading), time, path/filepath,
      the float64 of a JSON number and crypto/sha256, on byte strings.
    - [Env]: common/env/env.go and the deduplicating loops of session/service/helpers.go.
    - [Cursor]: the pagination cursors of chat/service/chat_service.go and
      orgHub/service/user_service.go.  [Paging]: keyset queries, and a client that follows cursors.
    - [Auth]: common/auth and common/middleware, tokens and the gin middlewares.
    - [Logger]: common/log/logger.go over a file system in which every call can fail.
    - [Gin], [Binding]: requests, the binding of JSON bodies and the answers (common/transport/httpresp).  [Wire]:
      the JSON of every domain type.

    Tables and services.
    - [ChatStore]: chat/domain/models.go, dbman/repository/chat_repository.go and
      dbman/service/chat_service.go, the chat tables.  [ChatService]: chat/service/chat_service.go and
      vectorman_client.go over that store.
    - [SessionStore]: session/domain and dbman/repository/session_repository.go, the session tables.
      [SessionServices]: the services of session/service over that store and the hub.
    - [Users]: dbman/repository/user_repository.go, dbman/service/user_service.go and
      orgHub/service/user_service.go, over the tables of [ChatStore].
    - [Tenants]: dbman/repository/tenant_repository.go, dbman/service/tenant_service.go and
      tenantHub/service/tenant_service.go, composed with the PostgreSQL router.
    - [FileStore]: dbman/repository/file_repository.go.
    - [TenantRouter]: the routers that find the PostgreSQL pool, Redis client, AMQP connection or MinIO
      client of a tenant (common/infra/db, common/infra/cache, common/infra/object and
      chat/service/publisher.go), as one machine with four instances.
    - [SessionHub]: session/service/hub.go, the sockets of a user on a node and the Redis fan-out, with the text of its
      events.  [HubSubscriber]: the life of the hub's subscription to Redis, and the nodes that share it.
      [SocketWriters]: the goroutines that write to one connection, in session and in chat.
    - [RealtimeRooms], [RealtimeWS]: chat/service/realtime_service.go and the gate of its endpoint in
      chat/api/handler.go: rooms and their consumers; frames and idempotency keys.
    - [Files]: fileman/service/file_service.go and fileman/api/handler.go.
    - [Vectorman]: the embedding, the three back ends, the handlers and the start of vectorman.

    HTTP interfaces: [ChatApi], [OrgApi], [TenantApi], [SessionApi], [DbmanApi] (the api/handler.go of each service,
    with its routes), and [DbmanInv], the invariant of all of dbman's tables under every route.

    The network and the whole.
    - [EndpointClient]: common/infra/dbman/client.go, the client of dbman: round robin over
      endpoints, failover, and a circuit breaker per endpoint.
    - [Rpc]: a call over a network that acts on the tables behind it.  [Clients]: the dbman_client.go of each service.
    - [Remote], [RemoteChat], [RemoteOrg]: every method of a client against the operation of dbman it stands for.
    - [Composition]: services, clients and dbman together.  [EndToEnd]: a message from the request to the tables;
      [Delivery]: on to the sockets of its room at every node; [NoteDelivery]: a note from the request to the inboxes
      and to the sockets of its recipients at every node.
    - [Wiring]: the app packages and the main functions: configuration, start and shutdown of the processes.

    ** Conventions

    A comment above a definition names the Go function or type it translates.  A method that
    returns a value and an error is a function in [M], from a state to a state and a [result];
    the state it leaves on an error path is part of its meaning.  Table operations have the prefix
    repo_, dbman's services dbman_, the methods of a dbman client the name of their service (chat_, session_, org_),
    handlers of chat and orgHub api_ and orgapi_; a name without a prefix is the service's, or dbman's handler.  A
    table is a finite map from its key, or a list where rows have an order or no usable key; a statement that
    violates a key, a foreign key or a check fails and changes nothing, and a transaction that fails
    restores the state.  Times are nanoseconds since the epoch, written in UTC; [Env] carries what a
    statement takes from the database: NOW() and a fresh UUID.

    A handler is a step of the service's state that yields a response; bodies are texts, parsed by
    [JsonText.parse_json] and bound by the codecs of [Wire].  A nil slice and an empty one are the same value
    of the model except where the code answers null for one; a number written with a fraction or an exponent
    is kept as its literal ([JReal]).  A payload on its way to a socket is the JSON value that is written; one that was
    read into an any has the members of its objects sorted ([GoJson.any_of_json]).

    Services are written over interfaces, which are type classes: [SessionStore.SessionStore],
    [ChatService.ChatBackend] and [Users.OrgBackend] are the operations a service needs of dbman.  Each has two
    instances, dbman called directly, where a call runs once and its answer arrives, and dbman behind its client and
    the network, where an attempt may be lost before or after it ran, and the theorems of Remote relate
    the two.  A theorem over the direct store says nothing of calls that are lost or repeated; those that are about any
    store, or about the network, say so.  [RealtimeWS.RedisKV] with its laws is the documented behaviour of
    SET NX and DEL; [Paging.TextOrder] is the collation of the database, any total order.

    Code outside the repository is a parameter: the network (for each attempt of each call, whether it is lost, runs
    and loses its answer, or is answered), connections and metadata providers, the JWT library and bcrypt (with the
    part of their documentation that is used as hypotheses), Redis, AMQP, MinIO, the servers of the vector back
    ends, the image library, the texts of gin's errors and whether its required tag looks into structs, system calls
    on files, and the text functions of PostgreSQL and the text a JSONB column reads back ([ChatStore.Postgres]).  The
    database fails where the model says: a pool that cannot be reached, a constraint, a row that is not there.  Each such property has a witness with
    concrete instances.

    Concurrency is modelled where the code has it: the critical sections of a mutex are the steps, and
    the relations [EndpointClient.client_step], [TenantRouter.sys_step], [SessionHub.hub_step],
    [HubSubscriber.node_step], [SocketWriters.write_step], [RealtimeRooms.rt_step] and [RealtimeWS.ws_step] interleave
    them in any order.

    ** What the theorems show

    - dbman client: Post reaches the one healthy endpoint wherever the round robin starts; under any
      interleaving no count reaches the threshold without being reset; a 4xx ends the call.
    - Network: what one side marshals the other reads back; a call of a client that arrives does to the tables what
      the operation of dbman does, an answer that is lost makes a write happen twice, an error of dbman counts against
      its endpoint.  When the first call of a request arrives, a posted message is in the tables, as it was asked for
      and once, and is handed to every socket of its room at every node that listens; a note is in the inboxes of its
      recipients and is handed to their sessions at every node with a live subscription, once.
    - dbman: whatever the bodies, every route keeps the invariant of all the tables, and an answer that is an error,
      or gin's redirect of a path with a slash too many, leaves them as they were.
    - Routers: connections handed out are open and never two for a tenant, metadata are at most the time
      to live old and never older than an invalidation, a lookup does what its specification [looks_up] says and
      the concurrent sections implement it; a configuration change made through the tenant service takes effect on the
      next lookup.  A lookup that overlaps an invalidation can undo it.
    - Access: protected routes run only with a valid token and an allowed role; tokens round-trip, between all the
      services of one environment; the handlers of orgHub and chat act in the tenant and as the user of the token;
      a WebSocket needs a member of the room, and a frame speaks only for its connection.
    - Session: the hub is a table from key and session to socket, broadcasts reach exactly the tenant's
      sockets; in a cluster every node with a live subscription delivers a notification to its own sockets once;
      writes to one socket exclude each other, and one that fails drops its frame and frees the lock; the tables keep their keys through
      every service call; a login validates until it is replaced.
    - Chat: the tables keep their keys and references; sending stores, publishes, indexes and, where the
      database can still be reached, marks read; following the cursors enumerates messages, rooms and audit entries completely
      and without repetition; a read mark covers what is not after the message; reranking permutes.
    - Realtime: rooms and running consumers correspond; queued messages are delivered in order, at most
      once, and only to the room they were published for; a client message identifier that the store
      has accepted is not sent to it again for 24 hours, whatever Redis answers.
    - Users and tenants: the audit replays to the aliases; a created user can authenticate; the tenant
      table stays valid.
    - Files: the objects of two tenants do not meet if no tenant identifier is a folder of the other's.
    - Logger: while nothing fails the lines are kept in order across the rotated files, and a free name is found.
    - Vectorman: chat's vector client over HTTP gets what the back end answers.
    - Processes: a shutdown closes what the start opened, before the requests are drained.
    - Properties named after a defect state it exactly: [limit_200_truncates], [lost_reply_stores_twice],
      [refused_requests_cut_off_service], [no_user_over_the_network], [rest_ignores_membership]; others are plain
      theorems of their files, such as [lost_reply_stores_frame_twice], [blank_tenant_opens_bucket], [tenant_routes_ignore_tenant], [subscriber_error_deafens_node],
      [shutdown_releases_before_draining], [chat_writers_collide], [reconnect_loses_session], [notify_races_with_register], [mark_read_clears_unread], [redis_error_silences_room],
      [invalidate_races_with_lookup], [failed_rotation_silences_logger], [notification_hands_over_token].

    ** Bounds and fuel

    Loops over a list recurse on it.  The scanning loops of [GoStrings] and the parser of [JsonText] take the length
    of the text as fuel, which every step shortens; the attempts of [Post] are as many as there are endpoints, as in the
    code; [walk] and [crawl] take the number of requests a client may make and give [None] when that is not
    enough or a request fails, and the theorems say that one more than the number of items gives a listing; [drain] takes the work a consumer has queued; the search for a free
    name of a rotated file takes one attempt more than there are files ([next_rotated_path_terminates]).  Integers of
    the code are unbounded except where it wraps: the 32-bit round-robin counter, UnixNano, token
    lifetimes, the words of SHA-256 and parsed numbers.

    ** Not modelled

    fmt.Sprintf and runtime.Caller for the logger's messages, which are arguments; the images of thumbnails; timeouts
    of HTTP clients and servers other than as an outcome of a call; HTTP below the status and the body.  PostgreSQL
    refuses a text with the character NUL, where the tables of the model store it: the theorems that follow a request
    to the tables are about texts without one.  A commit whose outcome gets lost, and what is left on the wire of a
    frame whose writing times out half-way.  The order in which Go iterates over maps is that of the model's maps.
    A number -0 of a JSON text is read as 0, and a number read
    into an any keeps its digits where the code keeps a float64: the theorems on the hub's events ask for integers that a
    float64 holds ([GoFloat.exact]). *)

From stdpp Require Export base tactics numbers list strings gmap sets fin_maps sorting relations.
From Stdlib Require Export ZArith Lia Ascii.

(** ** Errors as values

    A Go function of type [func(...) (A, error)] returns [Ok a] or [Err e]; [e] is the text
    of [err.Error()], which is what the handlers put in their responses. *)
Inductive result (A : Type) : Type :=
| Ok (a : A)
| Err (e : string).
Arguments Ok {A} a.
Arguments Err {A} e.

#[export] Instance result_ret : MRet result := λ _ a, Ok a.
#[export] Instance result_bind : MBind result := λ _ _ f r,
  match r with Ok a => f a | Err e => Err e end.
#[export] Instance result_fmap : FMap result := λ _ _ f r,
  match r with Ok a => Ok (f a) | Err e => Err e end.

#[export] Instance result_eq_dec {A} `{EqDecision A} : EqDecision (result A).
Proof. solve_decision. Defined.

Definition is_Ok {A} (r : result A) : bool := match r with Ok _ => true | Err _ => false end.
Definition is_Err {A} (r : result A) : bool := negb (is_Ok r).

(** ** State passing with errors

    [M S A] is a Go method on an object with state [S]: it returns [(A, error)] and the state
    it leaves behind, on the error paths too. *)
Definition M (S A : Type) : Type := S → S * result A.

#[export] Instance M_ret {S} : MRet (M S) := λ _ a s, (s, Ok a).
#[export] Instance M_bind {S} : MBind (M S) := λ _ _ f m s,
  match m s with
  | (s', Ok a) => f a s'
  | (s', Err e) => (s', Err e)
  end.

Definition fail {S A} (e : string) : M S A := λ s, (s, Err e).
Definition lift {S A} (r : result A) : M S A := λ s, (s, r).
Definition get_state {S} : M S S := λ s, (s, Ok s).
Definition put_state {S} (s' : S) : M S unit := λ _, (s', Ok tt).

(** ** Tactics *)

(** Case analysis on the scrutinee of a [match] or [if] in the goal or in a hypothesis. *)
Ltac case_go :=
  match goal with
  | |- context [match ?x with _ => _ end] =>
      lazymatch x with context [match _ with _ => _ end] => fail | _ => destruct x eqn:? end
  | H : context [match ?x with _ => _ end] |- _ =>
      lazymatch x with context [match _ with _ => _ end] => fail | _ => destruct x eqn:? end
  end.

(** Turn boolean tests in the context into propositions. *)
Ltac reflect_bools :=
  repeat match goal with
  | H : bool_decide _ = true |- _ => apply bool_decide_eq_true in H
  | H : bool_decide _ = false |- _ => apply bool_decide_eq_false in H
  | H : (_ && _)%bool = true |- _ => apply andb_true_iff in H as [? ?]
  | H : (_ || _)%bool = false |- _ => apply orb_false_iff in H as [? ?]
  | H : negb _ = true |- _ => apply negb_true_iff in H
  | H : negb _ = false |- _ => apply negb_false_iff in H
  | H : Z.leb _ _ = true |- _ => apply Z.leb_le in H
  | H : Z.leb _ _ = false |- _ => apply Z.leb_gt in H
  | H : Z.ltb _ _ = true |- _ => apply Z.ltb_lt in H
  | H : Z.ltb _ _ = false |- _ => apply Z.ltb_ge in H
  | H : Z.eqb _ _ = true |- _ => apply Z.eqb_eq in H
  | H : Z.eqb _ _ = false |- _ => apply Z.eqb_neq in H
  end.

Ltac go := repeat (case_go; simplify_eq/=); reflect_bools; try done.

(** Decide a closed proposition by evaluating its decision procedure. *)
Ltac by_computation := apply (bool_decide_eq_true_1 _); vm_compute; reflexivity.

(** ** Fixed-width integers *)

Definition int64_min : Z := (- 2 ^ 63)%Z.
Definition int64_max : Z := (2 ^ 63 - 1)%Z.
Definition uint64_max : Z := (2 ^ 64 - 1)%Z.

(** Two's complement reading of the low 64 bits. *)
Definition wrap64 (z : Z) : Z := ((z + 2 ^ 63) mod 2 ^ 64 - 2 ^ 63)%Z.

Definition is_int64 (z : Z) : Prop := (int64_min ≤ z ≤ int64_max)%Z.

Lemma wrap64_id z : is_int64 z → wrap64 z = z.
Proof.
  unfold is_int64, int64_min, int64_max, wrap64. intros H.
  rewrite Z.mod_small; lia.
Qed.

Lemma wrap64_range z : is_int64 (wrap64 z).
Proof.
  unfold is_int64, int64_min, int64_max, wrap64.
  pose proof (Z.mod_pos_bound (z + 2 ^ 63) (2 ^ 64) ltac:(lia)). lia.
Qed.

Definition wrap32u (z : Z) : Z := (z mod 2 ^ 32)%Z.

(** ** Lists *)

(** First occurrence wins: the [seen]-map loop the code writes in several places.  [keep]
    is the result so far, in order. *)
Fixpoint dedupe_acc {A} `{EqDecision A} (seen : list A) (l : list A) : list A :=
  match l with
  | [] => []
  | x :: l' =>
      if decide (x ∈ seen) then dedupe_acc seen l' else x :: dedupe_acc (x :: seen) l'
  end.

Definition dedupe {A} `{EqDecision A} (l : list A) : list A := dedupe_acc [] l.

Section dedupe.
Context {A : Type} `{EqDecision A}.
Implicit Types l seen : list A.

Lemma elem_of_dedupe_acc seen l x : x ∈ dedupe_acc seen l ↔ x ∈ l ∧ x ∉ seen.
Proof.
  revert seen. induction l as [|y l IH]; intros seen; simpl; [set_solver|].
  case_decide as Hy; [rewrite IH; set_solver|].
  rewrite !elem_of_cons, IH, elem_of_cons.
  destruct (decide (x = y)); naive_solver.
Qed.

Lemma NoDup_dedupe_acc seen l : NoDup (dedupe_acc seen l).
Proof.
  revert seen. induction l as [|y l IH]; intros seen; simpl; [constructor|].
  case_decide; [done|]. constructor; [|done].
  rewrite elem_of_dedupe_acc. set_solver.
Qed.

Lemma dedupe_acc_id seen l : NoDup l → (∀ x, x ∈ l → x ∉ seen) → dedupe_acc seen l = l.
Proof.
  revert seen. induction l as [|y l IH]; intros seen Hnd Hs; simpl; [done|].
  apply NoDup_cons in Hnd as [Hy Hnd].
  rewrite decide_False by (apply Hs; left). f_equal. apply IH; [done|].
  intros x Hx. rewrite not_elem_of_cons. split; [set_solver|apply Hs; by right].
Qed.

Lemma dedupe_acc_ext seen1 seen2 l :
  (∀ x, x ∈ seen1 ↔ x ∈ seen2) → dedupe_acc seen1 l = dedupe_acc seen2 l.
Proof.
  revert seen1 seen2. induction l as [|y l IH]; intros s1 s2 Hs; simpl; [done|].
  case_decide as H1; case_decide as H2; rewrite Hs in H1; try done.
  - by apply IH.
  - f_equal. apply IH. intros x. rewrite !elem_of_cons, Hs. done.
Qed.

Lemma elem_of_dedupe l x : x ∈ dedupe l ↔ x ∈ l.
Proof. unfold dedupe. rewrite elem_of_dedupe_acc. set_solver. Qed.

Lemma NoDup_dedupe l : NoDup (dedupe l).
Proof. apply NoDup_dedupe_acc. Qed.

Lemma dedupe_id l : NoDup l → dedupe l = l.
Proof. intros. apply dedupe_acc_id; set_solver. Qed.

Lemma dedupe_length l : length (dedupe l) ≤ length l.
Proof.
  unfold dedupe. generalize (@nil A) as seen.
  induction l as [|x l IH]; intros seen; simpl; [done|].
  case_decide; simpl; [specialize (IH seen)|specialize (IH (x :: seen))]; lia.
Qed.
End dedupe.

(** Filters that keep everything or nothing. *)
Lemma filter_all_elem {A} (Q : A → Prop) `{∀ x, Decision (Q x)} (l : list A) :
  (∀ x, x ∈ l → Q x) → filter Q l = l.
Proof.
  induction l as [|x l IH]; intros Hall; [done|].
  rewrite filter_cons_True by (apply Hall; by left). f_equal. apply IH. intros y Hy. apply Hall. by right.
Qed.

Lemma filter_none_elem {A} (Q : A → Prop) `{∀ x, Decision (Q x)} (l : list A) :
  (∀ x, x ∈ l → ¬ Q x) → filter Q l = [].
Proof.
  induction l as [|x l IH]; intros Hall; [done|].
  rewrite filter_cons_False by (apply Hall; by left). apply IH. intros y Hy. apply Hall. by right.
Qed.

Create HintDb msg discriminated.
#[export] Hint Resolve NoDup_dedupe wrap64_range : msg.
Create Rewrite HintDb msg.
#[export] Hint Rewrite @elem_of_dedupe : msg.
