(* ===== verification/GoStrings.v ===== *)
(** * Go strings

    A Go [string] is a sequence of bytes: Rocq's [string], whose characters are bytes.  This
    file holds the functions of Go's [strings], [unicode] and [unicode/utf8] packages that
    the services call, on those bytes: [TrimSpace] and [ToLower] decode UTF-8 the way Go
    does, an ill-formed byte being U+FFFD of width 1.  The lower-case table is Go's
    [unicode.CaseRanges] restricted to the code points whose lower case differs, as
    (first, last, stride, delta) rows. *)

From S2P Require Import Prelude.

Notation strlen := Stdlib.Strings.String.length.

(** ** Bytes *)

Definition byte_of (z : Z) : ascii := ascii_of_N (Z.to_N z).
Definition code (a : ascii) : Z := Z.of_N (N_of_ascii a).

Fixpoint of_bytes (l : list Z) : string :=
  match l with
  | [] => EmptyString
  | z :: l' => String (byte_of z) (of_bytes l')
  end.

Fixpoint chars (s : string) : list ascii :=
  match s with
  | EmptyString => []
  | String a s' => a :: chars s'
  end.

Fixpoint of_chars (l : list ascii) : string :=
  match l with
  | [] => EmptyString
  | a :: l' => String a (of_chars l')
  end.

Definition rev_string (s : string) : string := of_chars (rev (chars s)).

(** ** Prefixes and suffixes *)

(** The rest of [s] after [p], if [s] starts with [p]. *)
Fixpoint strip_prefix (p s : string) : option string :=
  match p, s with
  | EmptyString, _ => Some s
  | String a p', String b s' => if decide (a = b) then strip_prefix p' s' else None
  | String _ _, EmptyString => None
  end.

Definition HasPrefix (s p : string) : bool :=
  match strip_prefix p s with Some _ => true | None => false end.

Definition TrimPrefix (s p : string) : string :=
  match strip_prefix p s with Some s' => s' | None => s end.

Definition HasSuffix (s p : string) : bool := HasPrefix (rev_string s) (rev_string p).

Definition TrimSuffix (s p : string) : string :=
  match strip_prefix (rev_string p) (rev_string s) with
  | Some s' => rev_string s'
  | None => s
  end.

(** [strings.Contains]. *)
Fixpoint Contains (s p : string) : bool :=
  HasPrefix s p ||
  match s with EmptyString => false | String _ s' => Contains s' p end.

(** [strings.SplitN(s, sep, 2)] for a one-byte [sep]: the text before the first [sep] and,
    when there is one, the text after it. *)
Fixpoint SplitN2 (sep : ascii) (s : string) : string * option string :=
  match s with
  | EmptyString => (EmptyString, None)
  | String a s' =>
      if decide (a = sep) then (EmptyString, Some s')
      else let '(b, r) := SplitN2 sep s' in (String a b, r)
  end.

(** [strings.Split(s, sep)] for a one-byte [sep]. *)
Fixpoint Split (sep : ascii) (s : string) : list string :=
  match s with
  | EmptyString => [EmptyString]
  | String a s' =>
      if decide (a = sep) then EmptyString :: Split sep s'
      else match Split sep s' with
           | w :: ws => String a w :: ws
           | [] => [String a EmptyString]
           end
  end.

(** ** White space *)

(** The UTF-8 encodings of the code points of [unicode.IsSpace]. *)
Definition space_encodings : list string :=
  map of_bytes
    ([[9]; [10]; [11]; [12]; [13]; [32]; [194; 133]; [194; 160]; [225; 154; 128];
      [226; 128; 168]; [226; 128; 169]; [226; 128; 175]; [226; 129; 159]; [227; 128; 128]]
     ++ map (λ z, [226; 128; 128 + z]) [0; 1; 2; 3; 4; 5; 6; 7; 8; 9; 10])%Z.

(** One step of a trimming loop: drop one of [ps] from the front. *)
Fixpoint strip_any (ps : list string) (s : string) : option string :=
  match ps with
  | [] => None
  | p :: ps' => match strip_prefix p s with Some s' => Some s' | None => strip_any ps' s end
  end.

(** The loop; [strlen s] steps are enough since every step drops a byte. *)
Fixpoint trim_steps (n : nat) (ps : list string) (s : string) : string :=
  match n with
  | O => s
  | S n' => match strip_any ps s with Some s' => trim_steps n' ps s' | None => s end
  end.

Definition trim_front (ps : list string) (s : string) : string := trim_steps (strlen s) ps s.

Definition trim_back (ps : list string) (s : string) : string :=
  rev_string (trim_front (map rev_string ps) (rev_string s)).

(** [strings.TrimSpace]. *)
Definition TrimSpace (s : string) : string :=
  trim_back space_encodings (trim_front space_encodings s).

(** [strings.TrimRight(s, "/")]. *)
Definition TrimRightSlash (s : string) : string := trim_back ["/"%string] s.

(** ** UTF-8 *)

Definition rune_error : Z := 65533.

Definition cont (lo hi : Z) (a : ascii) : bool := (lo <=? code a)%Z && (code a <=? hi)%Z.

(** [utf8.DecodeRuneInString] on a non-empty string: the rune and the rest. *)
Definition decode_rune (a : ascii) (s : string) : Z * string :=
  let b0 := code a in
  let bad := (rune_error, s) in
  if (b0 <? 128)%Z then (b0, s)
  else if (b0 <? 194)%Z then bad
  else if (b0 <? 224)%Z then
    match s with
    | String b1 s1 =>
        if cont 128 191 b1 then (((b0 - 192) * 64 + (code b1 - 128))%Z, s1) else bad
    | _ => bad
    end
  else if (b0 <? 240)%Z then
    match s with
    | String b1 (String b2 s2) =>
        let lo := if (b0 =? 224)%Z then 160%Z else 128%Z in
        let hi := if (b0 =? 237)%Z then 159%Z else 191%Z in
        if cont lo hi b1 && cont 128 191 b2
        then (((b0 - 224) * 4096 + (code b1 - 128) * 64 + (code b2 - 128))%Z, s2) else bad
    | _ => bad
    end
  else if (b0 <? 245)%Z then
    match s with
    | String b1 (String b2 (String b3 s3)) =>
        let lo := if (b0 =? 240)%Z then 144%Z else 128%Z in
        let hi := if (b0 =? 244)%Z then 143%Z else 191%Z in
        if cont lo hi b1 && cont 128 191 b2 && cont 128 191 b3
        then (((b0 - 240) * 262144 + (code b1 - 128) * 4096 + (code b2 - 128) * 64
               + (code b3 - 128))%Z, s3) else bad
    | _ => bad
    end
  else bad.

Fixpoint decode_steps (n : nat) (s : string) : list Z :=
  match n, s with
  | S n', String a s' => let '(r, rest) := decode_rune a s' in r :: decode_steps n' rest
  | _, _ => []
  end.

(** [[]rune(s)]. *)
Definition runes (s : string) : list Z := decode_steps (strlen s) s.

(** [utf8.EncodeRune] on a valid rune. *)
Definition encode_rune (r : Z) : string :=
  if (r <? 128)%Z then of_bytes [r]
  else if (r <? 2048)%Z then of_bytes [192 + r / 64; 128 + r mod 64]%Z
  else if (r <? 65536)%Z then
    of_bytes [224 + r / 4096; 128 + (r / 64) mod 64; 128 + r mod 64]%Z
  else of_bytes [240 + r / 262144; 128 + (r / 4096) mod 64; 128 + (r / 64) mod 64;
                 128 + r mod 64]%Z.

Definition of_runes (l : list Z) : string :=
  foldr (λ r acc, encode_rune r +:+ acc) EmptyString l.

(** ** Case *)

Definition lower_ranges : list (Z * Z * Z * Z) :=
  [(65, 90, 1, 32);
   (192, 214, 1, 32); (216, 222, 1, 32); (256, 302, 2, 1); (304, 304, 1, -199); (306, 310, 2,
   1); (313, 327, 2, 1); (330, 374, 2, 1); (376, 376, 1, -121); (377, 381, 2, 1); (385, 385, 1,
   210); (386, 388, 2, 1); (390, 390, 1, 206); (391, 391, 1, 1); (393, 394, 1, 205); (395, 395,
   1, 1); (398, 398, 1, 79); (399, 399, 1, 202); (400, 400, 1, 203); (401, 401, 1, 1); (403,
   403, 1, 205); (404, 404, 1, 207); (406, 406, 1, 211); (407, 407, 1, 209); (408, 408, 1, 1);
   (412, 412, 1, 211); (413, 413, 1, 213); (415, 415, 1, 214); (416, 420, 2, 1); (422, 422, 1,
   218); (423, 423, 1, 1); (425, 425, 1, 218); (428, 428, 1, 1); (430, 430, 1, 218); (431, 431,
   1, 1); (433, 434, 1, 217); (435, 437, 2, 1); (439, 439, 1, 219); (440, 440, 1, 1); (444, 444,
   1, 1); (452, 452, 1, 2); (453, 453, 1, 1); (455, 455, 1, 2); (456, 456, 1, 1); (458, 458, 1,
   2); (459, 475, 2, 1); (478, 494, 2, 1); (497, 497, 1, 2); (498, 500, 2, 1); (502, 502, 1,
   -97); (503, 503, 1, -56); (504, 542, 2, 1); (544, 544, 1, -130); (546, 562, 2, 1); (570, 570,
   1, 10795); (571, 571, 1, 1); (573, 573, 1, -163); (574, 574, 1, 10792); (577, 577, 1, 1);
   (579, 579, 1, -195); (580, 580, 1, 69); (581, 581, 1, 71); (582, 590, 2, 1); (880, 882, 2,
   1); (886, 886, 1, 1); (895, 895, 1, 116); (902, 902, 1, 38); (904, 906, 1, 37); (908, 908, 1,
   64); (910, 911, 1, 63); (913, 929, 1, 32); (931, 939, 1, 32); (975, 975, 1, 8); (984, 1006,
   2, 1); (1012, 1012, 1, -60); (1015, 1015, 1, 1); (1017, 1017, 1, -7); (1018, 1018, 1, 1);
   (1021, 1023, 1, -130); (1024, 1039, 1, 80); (1040, 1071, 1, 32); (1120, 1152, 2, 1); (1162,
   1214, 2, 1); (1216, 1216, 1, 15); (1217, 1229, 2, 1); (1232, 1326, 2, 1); (1329, 1366, 1,
   48); (4256, 4293, 1, 7264); (4295, 4295, 1, 7264); (4301, 4301, 1, 7264); (5024, 5103, 1,
   38864); (5104, 5109, 1, 8); (7312, 7354, 1, -3008); (7357, 7359, 1, -3008); (7680, 7828, 2,
   1); (7838, 7838, 1, -7615); (7840, 7934, 2, 1); (7944, 7951, 1, -8); (7960, 7965, 1, -8);
   (7976, 7983, 1, -8); (7992, 7999, 1, -8); (8008, 8013, 1, -8); (8025, 8031, 2, -8); (8040,
   8047, 1, -8); (8072, 8079, 1, -8); (8088, 8095, 1, -8); (8104, 8111, 1, -8); (8120, 8121, 1,
   -8); (8122, 8123, 1, -74); (8124, 8124, 1, -9); (8136, 8139, 1, -86); (8140, 8140, 1, -9);
   (8152, 8153, 1, -8); (8154, 8155, 1, -100); (8168, 8169, 1, -8); (8170, 8171, 1, -112);
   (8172, 8172, 1, -7); (8184, 8185, 1, -128); (8186, 8187, 1, -126); (8188, 8188, 1, -9);
   (8486, 8486, 1, -7517); (8490, 8490, 1, -8383); (8491, 8491, 1, -8262); (8498, 8498, 1, 28);
   (8544, 8559, 1, 16); (8579, 8579, 1, 1); (9398, 9423, 1, 26); (11264, 11311, 1, 48); (11360,
   11360, 1, 1); (11362, 11362, 1, -10743); (11363, 11363, 1, -3814); (11364, 11364, 1, -10727);
   (11367, 11371, 2, 1); (11373, 11373, 1, -10780); (11374, 11374, 1, -10749); (11375, 11375, 1,
   -10783); (11376, 11376, 1, -10782); (11378, 11378, 1, 1); (11381, 11381, 1, 1); (11390,
   11391, 1, -10815); (11392, 11490, 2, 1); (11499, 11501, 2, 1); (11506, 11506, 1, 1); (42560,
   42604, 2, 1); (42624, 42650, 2, 1); (42786, 42798, 2, 1); (42802, 42862, 2, 1); (42873,
   42875, 2, 1); (42877, 42877, 1, -35332); (42878, 42886, 2, 1); (42891, 42891, 1, 1); (42893,
   42893, 1, -42280); (42896, 42898, 2, 1); (42902, 42920, 2, 1); (42922, 42922, 1, -42308);
   (42923, 42923, 1, -42319); (42924, 42924, 1, -42315); (42925, 42925, 1, -42305); (42926,
   42926, 1, -42308); (42928, 42928, 1, -42258); (42929, 42929, 1, -42282); (42930, 42930, 1,
   -42261); (42931, 42931, 1, 928); (42932, 42946, 2, 1); (42948, 42948, 1, -48); (42949, 42949,
   1, -42307); (42950, 42950, 1, -35384); (42951, 42953, 2, 1); (42960, 42960, 1, 1); (42966,
   42968, 2, 1); (42997, 42997, 1, 1); (65313, 65338, 1, 32); (66560, 66599, 1, 40); (66736,
   66771, 1, 40); (66928, 66938, 1, 39); (66940, 66954, 1, 39); (66956, 66962, 1, 39); (66964,
   66965, 1, 39); (68736, 68786, 1, 64); (71840, 71871, 1, 32); (93760, 93791, 1, 32); (125184,
   125217, 1, 34)]%Z.

(** [unicode.ToLower]. *)
Fixpoint rune_lower (rows : list (Z * Z * Z * Z)) (r : Z) : Z :=
  match rows with
  | [] => r
  | (lo, hi, stride, delta) :: rows' =>
      if ((lo <=? r) && (r <=? hi) && ((r - lo) mod stride =? 0))%Z then (r + delta)%Z
      else rune_lower rows' r
  end.

Definition ascii_lower (a : ascii) : ascii :=
  if ((65 <=? code a) && (code a <=? 90))%Z then byte_of (code a + 32) else a.

Definition is_ascii (s : string) : bool := forallb (λ a, (code a <? 128)%Z) (chars s).

Fixpoint map_ascii_lower (s : string) : string :=
  match s with
  | EmptyString => EmptyString
  | String a s' => String (ascii_lower a) (map_ascii_lower s')
  end.

(** [strings.ToLower]: bytewise on an ASCII string, [strings.Map(unicode.ToLower, s)]
    otherwise. *)
Definition ToLower (s : string) : string :=
  if is_ascii s then map_ascii_lower s
  else of_runes (map (rune_lower lower_ranges) (runes s)).

(** * Lemmas *)

(** ** Characters, reversal and append *)

#[global] Arguments TrimSpace : simpl never.
#[global] Arguments TrimRightSlash : simpl never.
#[global] Arguments ToLower : simpl never.

Lemma of_chars_chars s : of_chars (chars s) = s.
Proof. induction s; simpl; congruence. Qed.

Lemma chars_of_chars l : chars (of_chars l) = l.
Proof. induction l; simpl; congruence. Qed.

Lemma append_cons a s t : String a s +:+ t = String a (s +:+ t).
Proof. reflexivity. Qed.

Lemma append_nil t : EmptyString +:+ t = t.
Proof. reflexivity. Qed.

Lemma chars_app s t : chars (s +:+ t) = chars s ++ chars t.
Proof. induction s as [|a s IH]; [done|]. rewrite append_cons. cbn. by rewrite IH. Qed.

Lemma length_chars s : length (chars s) = strlen s.
Proof. induction s; simpl; congruence. Qed.

Lemma chars_inj s t : chars s = chars t → s = t.
Proof. intros H. by rewrite <-(of_chars_chars s), H, of_chars_chars. Qed.

Lemma app_assoc_s s t u : (s +:+ t) +:+ u = s +:+ (t +:+ u).
Proof. apply chars_inj. by rewrite !chars_app, app_assoc. Qed.

Lemma app_nil_r_s s : s +:+ EmptyString = s.
Proof. apply chars_inj. by rewrite chars_app, app_nil_r. Qed.

Lemma app_inj_l_s s t u : s +:+ t = s +:+ u → t = u.
Proof. intros H%(f_equal chars). rewrite !chars_app in H. apply chars_inj. by simplify_list_eq. Qed.

Lemma app_inj_r_s s t u : s +:+ u = t +:+ u → s = t.
Proof. intros H%(f_equal chars). rewrite !chars_app in H. apply chars_inj. by simplify_list_eq. Qed.

Lemma length_append s t : strlen (s +:+ t) = strlen s + strlen t.
Proof. by rewrite <-!length_chars, chars_app, length_app. Qed.

Lemma rev_string_involutive s : rev_string (rev_string s) = s.
Proof. unfold rev_string. by rewrite chars_of_chars, rev_involutive, of_chars_chars. Qed.

Lemma rev_string_app s t : rev_string (s +:+ t) = rev_string t +:+ rev_string s.
Proof.
  apply chars_inj. unfold rev_string.
  by rewrite !chars_app, !chars_of_chars, rev_app_distr.
Qed.

Lemma length_rev_string s : strlen (rev_string s) = strlen s.
Proof. unfold rev_string. by rewrite <-!length_chars, chars_of_chars, length_rev. Qed.

#[export] Hint Rewrite app_assoc_s app_nil_r_s length_append rev_string_involutive
  rev_string_app length_rev_string chars_app chars_of_chars of_chars_chars : msg.

(** ** Prefixes *)

Lemma strip_prefix_Some p s r : strip_prefix p s = Some r ↔ s = p +:+ r.
Proof.
  revert s. induction p as [|a p IH]; intros s; simpl.
  { rewrite append_nil. naive_solver. }
  rewrite append_cons. destruct s as [|b s]; [naive_solver|].
  case_decide; [subst; rewrite IH; naive_solver|naive_solver].
Qed.

Lemma strip_prefix_app p r : strip_prefix p (p +:+ r) = Some r.
Proof. by apply strip_prefix_Some. Qed.

Lemma HasPrefix_true s p : HasPrefix s p = true ↔ ∃ r, s = p +:+ r.
Proof.
  unfold HasPrefix. destruct (strip_prefix p s) as [r|] eqn:E.
  - apply strip_prefix_Some in E. naive_solver.
  - split; [done|]. intros [r ->]. by rewrite strip_prefix_app in E.
Qed.

Lemma TrimPrefix_app p r : TrimPrefix (p +:+ r) p = r.
Proof. unfold TrimPrefix. by rewrite strip_prefix_app. Qed.

Lemma TrimSuffix_app s p : TrimSuffix (s +:+ p) p = s.
Proof. unfold TrimSuffix. by rewrite rev_string_app, strip_prefix_app, rev_string_involutive. Qed.

Lemma TrimSuffix_cases s p : TrimSuffix s p = s ∨ s = TrimSuffix s p +:+ p.
Proof.
  unfold TrimSuffix. destruct (strip_prefix (rev_string p) (rev_string s)) as [r|] eqn:E; [right|by left].
  apply strip_prefix_Some in E. apply (f_equal rev_string) in E.
  by rewrite rev_string_app, !rev_string_involutive in E.
Qed.

Lemma strip_prefix_extend p s t :
  strip_prefix p (s +:+ t) = None → strip_prefix p s = None.
Proof.
  intros H. destruct (strip_prefix p s) as [r|] eqn:E; [|done].
  apply strip_prefix_Some in E as ->. rewrite app_assoc_s, strip_prefix_app in H. done.
Qed.

(** ** Trimming *)

Lemma strip_any_Some ps s r :
  strip_any ps s = Some r → ∃ p, p ∈ ps ∧ s = p +:+ r.
Proof.
  induction ps as [|p ps IH]; simpl; [done|].
  destruct (strip_prefix p s) eqn:E; intros H.
  - simplify_eq. apply strip_prefix_Some in E. set_solver.
  - destruct (IH H) as (q & ? & ?). set_solver.
Qed.

Lemma strip_any_None ps s :
  strip_any ps s = None ↔ ∀ p, p ∈ ps → strip_prefix p s = None.
Proof.
  induction ps as [|p ps IH]; simpl; [set_solver|].
  destruct (strip_prefix p s) eqn:E; [|rewrite IH; set_solver].
  split; [done|]. intros H. specialize (H p). rewrite E in H. set_solver.
Qed.

Lemma strip_any_extend ps s t : strip_any ps (s +:+ t) = None → strip_any ps s = None.
Proof. rewrite !strip_any_None. eauto using strip_prefix_extend. Qed.

(** A set of strings a trimming loop removes: none is empty, so the loop ends. *)
Definition nonempty_all (ps : list string) : Prop := Forall (λ p, p ≠ EmptyString) ps.

Lemma trim_steps_stops ps n s :
  nonempty_all ps → strlen s ≤ n → strip_any ps (trim_steps n ps s) = None.
Proof.
  intros Hne. revert s. induction n as [|n IH]; intros s Hn; simpl.
  - destruct (strip_any ps s) as [r|] eqn:E; [|done].
    apply strip_any_Some in E as (p & Hp & ->).
    rewrite length_append in Hn. destruct p; simpl in Hn; [|lia].
    unfold nonempty_all in Hne. rewrite Forall_forall in Hne. by destruct (Hne _ Hp).
  - destruct (strip_any ps s) as [r|] eqn:E; [|done].
    apply IH. apply strip_any_Some in E as (p & Hp & ->).
    unfold nonempty_all in Hne. rewrite Forall_forall in Hne. specialize (Hne _ Hp).
    rewrite length_append in Hn. destruct p; simpl in Hn; [done|lia].
Qed.

Lemma trim_steps_id ps n s : strip_any ps s = None → trim_steps n ps s = s.
Proof. destruct n; simpl; [done|]. by intros ->. Qed.

Lemma trim_steps_suffix ps n s : ∃ w, s = w +:+ trim_steps n ps s.
Proof.
  revert s. induction n as [|n IH]; intros s; simpl; [by exists EmptyString|].
  destruct (strip_any ps s) as [r|] eqn:E; [|by exists EmptyString].
  apply strip_any_Some in E as (p & _ & ->). destruct (IH r) as [w Hw].
  exists (p +:+ w). by rewrite app_assoc_s, <-Hw.
Qed.

Lemma trim_front_stops ps s : nonempty_all ps → strip_any ps (trim_front ps s) = None.
Proof. intros. by apply trim_steps_stops. Qed.

Lemma trim_front_suffix ps s : ∃ w, s = w +:+ trim_front ps s.
Proof. apply trim_steps_suffix. Qed.

Lemma trim_back_stops ps s :
  nonempty_all (map rev_string ps) →
  strip_any (map rev_string ps) (rev_string (trim_back ps s)) = None.
Proof. intros. unfold trim_back. rewrite rev_string_involutive. by apply trim_front_stops. Qed.

Lemma trim_back_prefix ps s : ∃ w, s = trim_back ps s +:+ w.
Proof.
  destruct (trim_front_suffix (map rev_string ps) (rev_string s)) as [w Hw].
  exists (rev_string w). unfold trim_back. rewrite <-rev_string_app, <-Hw.
  by rewrite rev_string_involutive.
Qed.

Lemma space_encodings_nonempty : nonempty_all space_encodings.
Proof. unfold nonempty_all. repeat constructor; done. Qed.

Lemma rev_space_encodings_nonempty : nonempty_all (map rev_string space_encodings).
Proof. unfold nonempty_all. repeat constructor; done. Qed.

#[export] Hint Resolve space_encodings_nonempty rev_space_encodings_nonempty : msg.

#[global] Opaque space_encodings lower_ranges.

(** No white space at either end. *)
Definition trimmed (s : string) : Prop :=
  strip_any space_encodings s = None
  ∧ strip_any (map rev_string space_encodings) (rev_string s) = None.

#[export] Instance trimmed_dec s : Decision (trimmed s).
Proof. unfold trimmed. apply _. Defined.

Lemma TrimSpace_trimmed s : trimmed (TrimSpace s).
Proof.
  unfold TrimSpace. set (f := trim_front space_encodings s).
  split; [|apply trim_back_stops; auto with msg].
  destruct (trim_back_prefix space_encodings f) as [w Hw].
  apply (strip_any_extend _ _ w). rewrite <-Hw. apply trim_front_stops. auto with msg.
Qed.

Lemma trimmed_TrimSpace s : trimmed s → TrimSpace s = s.
Proof.
  intros [H1 H2]. unfold TrimSpace, trim_back, trim_front.
  rewrite (trim_steps_id space_encodings), trim_steps_id by done.
  apply rev_string_involutive.
Qed.

Lemma TrimSpace_idem s : TrimSpace (TrimSpace s) = TrimSpace s.
Proof. apply trimmed_TrimSpace, TrimSpace_trimmed. Qed.

(** [TrimSpace] returns a contiguous part of its argument. *)
Lemma TrimSpace_infix s : ∃ w w', s = w +:+ TrimSpace s +:+ w'.
Proof.
  unfold TrimSpace. destruct (trim_front_suffix space_encodings s) as [w Hw].
  destruct (trim_back_prefix space_encodings (trim_front space_encodings s)) as [w' Hw'].
  exists w, w'. by rewrite <-Hw'.
Qed.

Lemma TrimSpace_nil : TrimSpace EmptyString = EmptyString.
Proof. reflexivity. Qed.

#[export] Hint Resolve TrimSpace_trimmed : msg.
#[export] Hint Rewrite TrimSpace_idem TrimSpace_nil : msg.

(** Visible ASCII characters are never part of white space. *)
Definition plain (a : ascii) : bool := ((33 <=? code a) && (code a <=? 126))%Z.

Definition no_head (a : ascii) (ps : list string) : bool :=
  forallb (λ p, match p with
                | EmptyString => false
                | String b _ => negb (Ascii.eqb a b) end) ps.

Lemma no_head_strip a ps s : no_head a ps = true → strip_any ps (String a s) = None.
Proof.
  unfold no_head. intros H. rewrite forallb_forall in H. apply strip_any_None.
  intros p Hp. apply list_elem_of_In in Hp. specialize (H p Hp).
  destruct p as [|b p]; [done|]. cbn. apply negb_true_iff, Ascii.eqb_neq in H.
  by rewrite decide_False by congruence.
Qed.

Lemma strip_any_plain a s :
  plain a = true →
  strip_any space_encodings (String a s) = None
  ∧ strip_any (map rev_string space_encodings) (String a s) = None.
Proof.
  intros Ha.
  assert (no_head a space_encodings && no_head a (map rev_string space_encodings) = true) as H.
  { revert Ha. destruct a as [[] [] [] [] [] [] [] []]; vm_compute; done. }
  apply andb_true_iff in H as [? ?]. split; by apply no_head_strip.
Qed.

Lemma plain_trimmed s : Forall (λ a, plain a = true) (chars s) → trimmed s.
Proof.
  intros H. split.
  - destruct s as [|a s]; [done|]. apply Forall_cons_1 in H as [Ha _].
    exact (proj1 (strip_any_plain a s Ha)).
  - apply Forall_rev in H. unfold rev_string.
    destruct (rev (chars s)) as [|a l]; [done|]. apply Forall_cons_1 in H as [Ha _].
    exact (proj2 (strip_any_plain a (of_chars l) Ha)).
Qed.

(** ** Splitting *)

Lemma SplitN2_app sep b r :
  sep ∉ chars b → SplitN2 sep (b +:+ String sep r) = (b, Some r).
Proof.
  induction b as [|a b IH]; intros H.
  - rewrite append_nil. cbn. by rewrite decide_True.
  - cbn in H. apply not_elem_of_cons in H as [H1 H2].
    rewrite append_cons. cbn. by rewrite decide_False, IH by congruence.
Qed.

Lemma SplitN2_None sep s b : SplitN2 sep s = (b, None) → b = s ∧ sep ∉ chars s.
Proof.
  revert b. induction s as [|a s IH]; cbn; intros b H; [simplify_eq; set_solver|].
  case_decide; [done|]. destruct (SplitN2 sep s) as [b' [r|]] eqn:E; simplify_eq.
  destruct (IH b' eq_refl) as [-> ?]. set_solver.
Qed.

Lemma SplitN2_Some sep s b r :
  SplitN2 sep s = (b, Some r) → s = b +:+ String sep r ∧ sep ∉ chars b.
Proof.
  revert b. induction s as [|a s IH]; cbn; intros b H; [done|].
  case_decide; [simplify_eq; split; [done|set_solver]|].
  destruct (SplitN2 sep s) as [b' [r'|]] eqn:E; simplify_eq.
  destruct (IH b' eq_refl) as [-> ?].
  rewrite append_cons. split; [done|]. cbn. set_solver.
Qed.

(** ** Case *)

Lemma ascii_lower_idem a : ascii_lower (ascii_lower a) = ascii_lower a.
Proof. by destruct a as [[] [] [] [] [] [] [] []]. Qed.

Lemma ascii_lower_ascii a : (code (ascii_lower a) <? 128)%Z = (code a <? 128)%Z.
Proof. by destruct a as [[] [] [] [] [] [] [] []]. Qed.

Lemma is_ascii_lower s : is_ascii (map_ascii_lower s) = is_ascii s.
Proof.
  unfold is_ascii. induction s as [|a s IH]; [done|]. cbn.
  by rewrite ascii_lower_ascii, IH.
Qed.

Lemma ToLower_ascii s : is_ascii s = true → ToLower s = map_ascii_lower s.
Proof. unfold ToLower. by intros ->. Qed.

Lemma ToLower_ascii_idem s : is_ascii s = true → ToLower (ToLower s) = ToLower s.
Proof.
  intros H. rewrite (ToLower_ascii s) by done. rewrite ToLower_ascii by by rewrite is_ascii_lower.
  clear H. induction s as [|a s IH]; cbn; [done|]. by rewrite ascii_lower_idem, IH.
Qed.

(** ASCII white space is a single byte, so an ASCII string stays trimmed in lower case. *)
Definition single_or_other (a : ascii) (ps : list string) : bool :=
  forallb (λ p, match p with
                | EmptyString => false
                | String b EmptyString => true
                | String b _ => negb (Ascii.eqb a b) end) ps.

Lemma single_or_other_strip a ps s t :
  single_or_other a ps = true → strip_any ps (String a s) = None → strip_any ps (String a t) = None.
Proof.
  unfold single_or_other. intros H. rewrite forallb_forall in H.
  rewrite !strip_any_None. intros Hs p Hp. specialize (Hs p Hp). apply list_elem_of_In in Hp. specialize (H p Hp).
  destruct p as [|b p]; [done|]. cbn in *. case_decide; [|done].
  destruct p as [|c p]; [done|]. simplify_eq. by rewrite Ascii.eqb_refl in H.
Qed.

Lemma lower_head a s t :
  (code a <? 128)%Z = true →
  (strip_any space_encodings (String a s) = None → strip_any space_encodings (String (ascii_lower a) t) = None)
  ∧ (strip_any (map rev_string space_encodings) (String a s) = None →
     strip_any (map rev_string space_encodings) (String (ascii_lower a) t) = None).
Proof.
  intros Ha.
  assert ((plain (ascii_lower a)
    || Ascii.eqb (ascii_lower a) a && single_or_other a space_encodings
       && single_or_other a (map rev_string space_encodings)) = true) as H.
  { revert Ha. destruct a as [[] [] [] [] [] [] [] []]; vm_compute; done. }
  apply orb_true_iff in H as [H|H].
  - destruct (strip_any_plain _ t H). done.
  - apply andb_true_iff in H as [[H1 H2]%andb_true_iff H3]. apply Ascii.eqb_eq in H1. rewrite H1.
    exact (conj (single_or_other_strip a _ s t H2) (single_or_other_strip a _ s t H3)).
Qed.

Lemma rev_map_ascii_lower s : rev_string (map_ascii_lower s) = map_ascii_lower (rev_string s).
Proof.
  apply chars_inj. unfold rev_string. rewrite chars_of_chars.
  assert (Hm : ∀ s, chars (map_ascii_lower s) = map ascii_lower (chars s)).
  { intros s'. induction s' as [|a s' IH]; cbn; [done|]. by f_equal. }
  by rewrite !Hm, chars_of_chars, map_rev.
Qed.

Lemma trimmed_ToLower s : is_ascii s = true → trimmed s → trimmed (ToLower s).
Proof.
  intros Ha [H1 H2]. rewrite ToLower_ascii by done. split.
  - destruct s as [|a s]; [done|]. cbn in Ha. apply andb_true_iff in Ha as [Ha _].
    exact (proj1 (lower_head a s (map_ascii_lower s) Ha) H1).
  - rewrite rev_map_ascii_lower. destruct (rev_string s) as [|a s'] eqn:E; [done|].
    assert (Hin : In a (chars s)).
    { apply in_rev. rewrite <-(chars_of_chars (rev _)). fold (rev_string s). rewrite E. by left. }
    unfold is_ascii in Ha. rewrite forallb_forall in Ha. apply Ha in Hin. exact (proj2 (lower_head a s' (map_ascii_lower s') Hin) H2).
Qed.

Example TrimSpace_ex : TrimSpace (of_bytes [32; 227; 128; 128; 97; 32; 98; 194; 160; 9]%Z) = "a b"%string.
Proof. vm_compute. reflexivity. Qed.

Example ToLower_ex : ToLower (of_bytes [65; 196; 176; 226; 132; 170; 255]%Z)
  = of_bytes [97; 105; 107; 239; 191; 189]%Z.
Proof. vm_compute. reflexivity. Qed.
