(* ===== verification/GoEncoding.v ===== *)
(** * Go encodings: [strconv] and [encoding/base64]

    Decimal integers ([strconv.ParseInt(s, 10, 64)], [strconv.Atoi] and the [%d] verb of
    [fmt]) and unpadded URL-safe base64 ([base64.RawURLEncoding]), with the round trips the
    pagination cursors rest on. *)

From S2P Require Import Prelude GoStrings.
From Stdlib Require Import DecimalString DecimalZ DecimalPos.

(** ** strconv *)

Inductive num_error := ErrNone | ErrSyntax | ErrRange.

#[export] Instance num_error_eq_dec : EqDecision num_error.
Proof. solve_decision. Defined.

Definition digit_of (a : ascii) : option Z :=
  if ((48 <=? code a) && (code a <=? 57))%Z then Some (code a - 48)%Z else None.

(** The digit loop of [strconv.ParseUint(s, 10, 64)]: it stops at the first character that is
    no digit and at the first digit that overflows. *)
Fixpoint parse_uint_loop (n : Z) (s : string) : Z * num_error :=
  match s with
  | EmptyString => (n, ErrNone)
  | String a s' =>
      match digit_of a with
      | None => (0%Z, ErrSyntax)
      | Some d =>
          if (uint64_max / 10 + 1 <=? n)%Z then (uint64_max, ErrRange)
          else if (uint64_max <? n * 10 + d)%Z then (uint64_max, ErrRange)
          else parse_uint_loop (n * 10 + d) s'
      end
  end.

Definition ParseUint (s : string) : Z * num_error :=
  match s with EmptyString => (0%Z, ErrSyntax) | _ => parse_uint_loop 0 s end.

(** [strconv.ParseInt(s, 10, 64)]: the value returned on a range error is the nearest
    [int64], which callers that drop the error see. *)
Definition ParseInt (s : string) : Z * num_error :=
  let '(neg, digits) :=
    match s with
    | String a s' =>
        if decide (a = "+"%char) then (false, s')
        else if decide (a = "-"%char) then (true, s') else (false, s)
    | EmptyString => (false, s)
    end in
  match ParseUint digits with
  | (_, ErrSyntax) => (0%Z, ErrSyntax)
  | (un, e) =>
      if negb neg && (2 ^ 63 <=? un)%Z then (int64_max, ErrRange)
      else if neg && (2 ^ 63 <? un)%Z then (int64_min, ErrRange)
      else ((if neg then - un else un)%Z, e)
  end.

(** [strconv.Atoi] on a 64-bit platform. *)
Definition Atoi (s : string) : Z * num_error := ParseInt s.

(** The [%d] verb. *)
Definition FormatInt (z : Z) : string := NilZero.string_of_int (Z.to_int z).

(** ** base64 *)

(** Six bits, the most significant first. *)
Record sextet := Sextet { x5 : bool; x4 : bool; x3 : bool; x2 : bool; x1 : bool; x0 : bool }.

Definition sextet_code (x : sextet) : Z :=
  (32 * Z.b2z (x5 x) + 16 * Z.b2z (x4 x) + 8 * Z.b2z (x3 x) + 4 * Z.b2z (x2 x)
   + 2 * Z.b2z (x1 x) + Z.b2z (x0 x))%Z.

Definition sextet_of (z : Z) : sextet :=
  Sextet (Z.testbit z 5) (Z.testbit z 4) (Z.testbit z 3) (Z.testbit z 2) (Z.testbit z 1)
    (Z.testbit z 0).

(** The URL-safe alphabet: [A-Z a-z 0-9 - _]. *)
Definition encode_char (x : sextet) : ascii :=
  let c := sextet_code x in
  byte_of (if c <? 26 then c + 65 else if c <? 52 then c + 71 else if c <? 62 then c - 4
           else if c =? 62 then 45 else 95)%Z.

Definition decode_char (a : ascii) : option sextet :=
  let c := code a in
  (if (65 <=? c) && (c <=? 90) then Some (sextet_of (c - 65))
   else if (97 <=? c) && (c <=? 122) then Some (sextet_of (c - 71))
   else if (48 <=? c) && (c <=? 57) then Some (sextet_of (c + 4))
   else if c =? 45 then Some (sextet_of 62) else if c =? 95 then Some (sextet_of 63)
   else None)%Z.

(** [Ascii b0 ... b7] has its least significant bit first. *)
Definition first6 (a : ascii) : sextet :=
  match a with Ascii _ _ a2 a3 a4 a5 a6 a7 => Sextet a7 a6 a5 a4 a3 a2 end.
Definition mid6 (a b : ascii) : sextet :=
  match a, b with Ascii a0 a1 _ _ _ _ _ _, Ascii _ _ _ _ b4 b5 b6 b7 =>
    Sextet a1 a0 b7 b6 b5 b4 end.
Definition mid6' (b c : ascii) : sextet :=
  match b, c with Ascii b0 b1 b2 b3 _ _ _ _, Ascii _ _ _ _ _ _ c6 c7 =>
    Sextet b3 b2 b1 b0 c7 c6 end.
Definition last6 (c : ascii) : sextet :=
  match c with Ascii c0 c1 c2 c3 c4 c5 _ _ => Sextet c5 c4 c3 c2 c1 c0 end.

Definition zero_byte : ascii := Ascii false false false false false false false false.

(** [base64.RawURLEncoding.EncodeToString]. *)
Fixpoint b64_encode (s : string) : string :=
  match s with
  | EmptyString => EmptyString
  | String a EmptyString =>
      of_chars [encode_char (first6 a); encode_char (mid6 a zero_byte)]
  | String a (String b EmptyString) =>
      of_chars [encode_char (first6 a); encode_char (mid6 a b); encode_char (mid6' b zero_byte)]
  | String a (String b (String c s')) =>
      String (encode_char (first6 a)) (String (encode_char (mid6 a b))
        (String (encode_char (mid6' b c)) (String (encode_char (last6 c)) (b64_encode s'))))
  end.

(** The decoder skips CR and LF; any other character outside the alphabet is an error. *)
Fixpoint b64_sextets (s : string) : option (list sextet) :=
  match s with
  | EmptyString => Some []
  | String a s' =>
      if decide (a = "013"%char ∨ a = "010"%char) then b64_sextets s'
      else match decode_char a, b64_sextets s' with
           | Some x, Some l => Some (x :: l)
           | _, _ => None
           end
  end.

Definition byte1 (x y : sextet) : ascii :=
  Ascii (x4 y) (x5 y) (x0 x) (x1 x) (x2 x) (x3 x) (x4 x) (x5 x).
Definition byte2 (y z : sextet) : ascii :=
  Ascii (x2 z) (x3 z) (x4 z) (x5 z) (x0 y) (x1 y) (x2 y) (x3 y).
Definition byte3 (z w : sextet) : ascii :=
  Ascii (x0 w) (x1 w) (x2 w) (x3 w) (x4 w) (x5 w) (x0 z) (x1 z).

(** Four characters give three bytes; a last group of two or three gives one or two, its
    spare bits ignored; a last group of one is an error. *)
Fixpoint b64_bytes (l : list sextet) : option string :=
  match l with
  | [] => Some EmptyString
  | [_] => None
  | [x; y] => Some (of_chars [byte1 x y])
  | [x; y; z] => Some (of_chars [byte1 x y; byte2 y z])
  | x :: y :: z :: w :: l' =>
      match b64_bytes l' with
      | Some s => Some (String (byte1 x y) (String (byte2 y z) (String (byte3 z w) s)))
      | None => None
      end
  end.

(** [base64.RawURLEncoding.DecodeString]; [None] is an error. *)
Definition b64_decode (s : string) : option string :=
  match b64_sextets s with Some l => b64_bytes l | None => None end.

(** * Lemmas *)

(** ** Decimal round trip *)

Lemma parse_uint_step a d n s :
  digit_of a = Some d → (0 ≤ n)%Z → (0 ≤ d)%Z → (n * 10 + d ≤ uint64_max)%Z →
  parse_uint_loop n (String a s) = parse_uint_loop (n * 10 + d) s.
Proof.
  intros Hd Hn Hd0 Hle. cbn [parse_uint_loop]. rewrite Hd.
  change (uint64_max / 10 + 1)%Z with 1844674407370955162%Z.
  change uint64_max with 18446744073709551615%Z in *.
  destruct (Z.leb_spec 1844674407370955162 n); [lia|].
  destruct (Z.ltb_spec 18446744073709551615 (n * 10 + d)); [lia|done].
Qed.

Lemma of_uint_acc_le d acc : (Zpos acc ≤ Zpos (Pos.of_uint_acc d acc))%Z.
Proof.
  revert acc. induction d; intros acc; cbn -[Pos.mul Pos.add]; try lia;
    (etransitivity; [|apply IHd]); lia.
Qed.

Ltac digit_step k IH :=
  rewrite (parse_uint_step _ k) by first [reflexivity | lia];
  match goal with
  | |- parse_uint_loop ?z _ = (Zpos (Pos.of_uint_acc _ ?a), _) =>
      replace z with (Zpos a) by lia; apply IH; done
  end.

Lemma parse_uint_loop_pos d acc :
  (Zpos (Pos.of_uint_acc d acc) ≤ uint64_max)%Z →
  parse_uint_loop (Zpos acc) (NilEmpty.string_of_uint d) = (Zpos (Pos.of_uint_acc d acc), ErrNone).
Proof.
  revert acc. induction d; intros acc Hle; [done|..];
    cbn [NilEmpty.string_of_uint Pos.of_uint_acc] in *;
    match goal with
    | |- context [Pos.of_uint_acc _ ?a] => pose proof (of_uint_acc_le d a)
    end;
    [digit_step 0%Z IHd|digit_step 1%Z IHd|digit_step 2%Z IHd|digit_step 3%Z IHd
    |digit_step 4%Z IHd|digit_step 5%Z IHd|digit_step 6%Z IHd|digit_step 7%Z IHd
    |digit_step 8%Z IHd|digit_step 9%Z IHd].
Qed.

Lemma parse_uint_loop_zero d :
  (Z.of_N (Pos.of_uint d) ≤ uint64_max)%Z →
  parse_uint_loop 0 (NilEmpty.string_of_uint d) = (Z.of_N (Pos.of_uint d), ErrNone).
Proof.
  induction d; intros Hle; [done|exact (IHd Hle)|..];
    exact (parse_uint_loop_pos d _ Hle).
Qed.

Lemma ParseUint_digits d :
  (Z.of_N (Pos.of_uint d) ≤ uint64_max)%Z →
  ParseUint (NilZero.string_of_uint d) = (Z.of_N (Pos.of_uint d), ErrNone).
Proof.
  intros Hle. pose proof (parse_uint_loop_zero d Hle) as H.
  destruct d; [done|exact H..].
Qed.

Lemma ParseInt_nosign d :
  ParseInt (NilZero.string_of_uint d)
  = match ParseUint (NilZero.string_of_uint d) with
    | (_, ErrSyntax) => (0%Z, ErrSyntax)
    | (un, e) => if (2 ^ 63 <=? un)%Z then (int64_max, ErrRange) else (un, e)
    end.
Proof. destruct d; reflexivity. Qed.

Lemma ParseInt_minus s :
  ParseInt (String "-" s)
  = match ParseUint s with
    | (_, ErrSyntax) => (0%Z, ErrSyntax)
    | (un, e) => if (2 ^ 63 <? un)%Z then (int64_min, ErrRange) else ((- un)%Z, e)
    end.
Proof. reflexivity. Qed.

(** Reading back what [%d] printed. *)
Lemma ParseInt_FormatInt z : is_int64 z → ParseInt (FormatInt z) = (z, ErrNone).
Proof.
  unfold is_int64, int64_min, int64_max. intros Hz.
  pose proof (DecimalZ.of_to z) as Hof. unfold FormatInt.
  destruct (Z.to_int z) as [d|d]; cbn [NilZero.string_of_int Z.of_int] in *.
  - assert (Z.of_N (Pos.of_uint d) = z) as Hd by exact Hof.
    rewrite ParseInt_nosign, ParseUint_digits, Hd by (unfold uint64_max; lia).
    destruct (Z.leb_spec (2 ^ 63) z); [lia|done].
  - assert (- Z.of_N (Pos.of_uint d) = z)%Z as Hd by exact Hof.
    rewrite ParseInt_minus, ParseUint_digits by (unfold uint64_max; lia).
    destruct (Z.ltb_spec (2 ^ 63) (Z.of_N (Pos.of_uint d))); [lia|by rewrite Hd].
Qed.

(** The text of an integer holds digits and a sign only: no colon, so the cursors can be split again. *)
Lemma string_of_uint_digits d : Forall (λ a, is_Some (digit_of a)) (chars (NilEmpty.string_of_uint d)).
Proof. induction d; cbn; constructor; (done || by eexists). Qed.

Lemma FormatInt_no_char c z : digit_of c = None → c ≠ "-"%char → c ∉ chars (FormatInt z).
Proof.
  intros Hc Hm.
  assert (∀ d, c ∉ chars (NilEmpty.string_of_uint d)) as Hu.
  { intros d Hin. pose proof (string_of_uint_digits d) as Hd. rewrite Forall_forall in Hd. apply Hd in Hin as [? ?]. congruence. }
  assert (c ≠ "0"%char) as Hz by (intros ->; done).
  unfold FormatInt. destruct (Z.to_int z) as [d|d]; pose proof (Hu d); destruct d; cbn in *; set_solver.
Qed.

Lemma FormatInt_no_colon z : ":"%char ∉ chars (FormatInt z).
Proof. by apply FormatInt_no_char. Qed.

Lemma FormatInt_inj x y : FormatInt x = FormatInt y → x = y.
Proof.
  assert (∀ z, NilZero.int_of_string (FormatInt z) = Some (Z.to_int z)) as Hz.
  { intros z. apply NilZero.isi; destruct z; cbn; try done; intros [= E]; by apply Unsigned.to_uint_nonnil in E. }
  intros E. apply (f_equal NilZero.int_of_string) in E. rewrite !Hz in E. injection E as E.
  by rewrite <-(DecimalZ.of_to x), E, DecimalZ.of_to.
Qed.

(** [ParseInt] always returns an [int64], also next to an error. *)
Lemma parse_uint_loop_range s n :
  (0 ≤ n ≤ uint64_max)%Z → (0 ≤ (parse_uint_loop n s).1 ≤ uint64_max)%Z.
Proof.
  revert n. induction s as [|a s IH]; intros n Hn; [done|]. cbn [parse_uint_loop].
  destruct (digit_of a) as [d|] eqn:Hd; [|cbn; unfold uint64_max; lia].
  case_match; [cbn; unfold uint64_max; lia|].
  destruct (Z.ltb_spec uint64_max (n * 10 + d)); [cbn; unfold uint64_max; lia|].
  apply IH. unfold digit_of in Hd. case_match; simplify_eq. reflect_bools. lia.
Qed.

Lemma ParseInt_range s : is_int64 (ParseInt s).1.
Proof.
  unfold ParseInt, is_int64, int64_min, int64_max.
  match goal with |- context [let '(neg, digits) := ?x in _] => destruct x as [neg ds] end.
  assert (0 ≤ (ParseUint ds).1 ≤ uint64_max)%Z as Hr.
  { unfold ParseUint. destruct ds; [cbn; unfold uint64_max; lia|].
    apply parse_uint_loop_range. unfold uint64_max; lia. }
  destruct (ParseUint ds) as [un e]. cbn in Hr.
  destruct e; cbn; destruct neg; cbn;
    repeat match goal with
    | |- context [(?a <=? ?b)%Z] => destruct (Z.leb_spec a b)
    | |- context [(?a <? ?b)%Z] => destruct (Z.ltb_spec a b)
    end; cbn; unfold int64_max, int64_min; lia.
Qed.

#[export] Hint Resolve ParseInt_range FormatInt_no_colon : msg.

(** ** base64 round trip *)

Lemma decode_encode_char x : decode_char (encode_char x) = Some x.
Proof. by destruct x as [[] [] [] [] [] []]. Qed.

Lemma encode_char_not_crlf x : ¬ (encode_char x = "013"%char ∨ encode_char x = "010"%char).
Proof. destruct x as [[] [] [] [] [] []]; intros [H|H]; discriminate H. Qed.

Lemma b64_sextets_cons x s :
  b64_sextets (String (encode_char x) s)
  = match b64_sextets s with Some l => Some (x :: l) | None => None end.
Proof.
  cbn [b64_sextets]. rewrite decide_False by apply encode_char_not_crlf.
  by rewrite decode_encode_char.
Qed.

Lemma byte1_first_mid a b : byte1 (first6 a) (mid6 a b) = a.
Proof. by destruct a, b. Qed.
Lemma byte2_mid_mid' a b c : byte2 (mid6 a b) (mid6' b c) = b.
Proof. by destruct a, b, c. Qed.
Lemma byte3_mid'_last b c : byte3 (mid6' b c) (last6 c) = c.
Proof. by destruct b, c. Qed.

Lemma string_ind3 (P : string → Prop) :
  P EmptyString → (∀ a, P (String a EmptyString)) →
  (∀ a b, P (String a (String b EmptyString))) →
  (∀ a b c s, P s → P (String a (String b (String c s)))) → ∀ s, P s.
Proof.
  intros H0 H1 H2 H3. refine (fix go s := _).
  destruct s as [|a [|b [|c s]]]; [done|apply H1|apply H2|apply H3, go].
Qed.

Lemma b64_decode_encode s : b64_decode (b64_encode s) = Some s.
Proof.
  unfold b64_decode. revert s. apply string_ind3.
  - done.
  - intros a. cbn [b64_encode of_chars]. rewrite !b64_sextets_cons. cbn -[byte1].
    by rewrite byte1_first_mid.
  - intros a b. cbn [b64_encode of_chars]. rewrite !b64_sextets_cons. cbn -[byte1 byte2].
    by rewrite byte1_first_mid, byte2_mid_mid'.
  - intros a b c s IH. cbn [b64_encode]. rewrite !b64_sextets_cons.
    destruct (b64_sextets (b64_encode s)) as [l|]; [|done]. cbn [b64_bytes].
    rewrite IH, byte1_first_mid, byte2_mid_mid', byte3_mid'_last.
    by destruct l as [|? [|? [|? ?]]].
Qed.

Lemma b64_encode_nonempty s : s ≠ EmptyString → b64_encode s ≠ EmptyString.
Proof. destruct s as [|a [|b [|c s]]]; done. Qed.

Lemma b64_encode_chars s : Forall (λ a, ∃ x, a = encode_char x) (chars (b64_encode s)).
Proof.
  revert s. apply string_ind3; intros; cbn [b64_encode chars of_chars];
    repeat (apply Forall_cons_2; [by eexists|]); try apply Forall_nil_2; done.
Qed.

Lemma encode_char_plain x : plain (encode_char x) = true.
Proof. by destruct x as [[] [] [] [] [] []]. Qed.

(** The encoded text has no white space at either end. *)
Lemma b64_encode_trimmed s : trimmed (b64_encode s).
Proof.
  apply plain_trimmed. eapply Forall_impl; [apply b64_encode_chars|].
  intros a [x ->]. apply encode_char_plain.
Qed.

#[export] Hint Resolve b64_encode_trimmed : msg.
