(* ===== verification/Cursor.v ===== *)
(** * Pagination cursors

    The opaque [next_cursor] strings of the list endpoints: message cursors and room cursors
    of the chat service (server/chat/service/chat_service.go) and alias-audit cursors of
    orgHub (server/orgHub/service/user_service.go).  A [time.Time] is the number of
    nanoseconds since the epoch; [UnixNano] is its low 64 bits. *)

From S2P Require Import Prelude GoStrings GoEncoding.

Notation time := Z (only parsing).

Definition UnixNano (t : time) : Z := wrap64 t.

(** ** Message cursors *)

(* server/chat/service/chat_service.go: encodeMessageCursor *)
Definition encodeMessageCursor (messageID : string) : string := b64_encode messageID.

(* server/chat/service/chat_service.go: decodeMessageCursor *)
Definition decodeMessageCursor (cursor : string) : result string :=
  match b64_decode cursor with
  | None => Err "illegal base64 data"
  | Some decoded =>
      let messageID := TrimSpace decoded in
      if decide (messageID = "") then Err "invalid cursor" else Ok messageID
  end.

(** ** Room cursors *)

(* server/chat/service/chat_service.go: encodeRoomCursor *)
Definition encodeRoomCursor (createdAt : time) (roomID : string) : string :=
  b64_encode (FormatInt (UnixNano createdAt) +:+ String ":" roomID).

(* server/chat/service/chat_service.go: decodeRoomCursor *)
Definition decodeRoomCursor (cursor : string) : result (time * string) :=
  match b64_decode cursor with
  | None => Err "illegal base64 data"
  | Some decoded =>
      match SplitN2 ":" decoded with
      | (_, None) => Err "invalid cursor format"
      | (p0, Some p1) =>
          match ParseInt p0 with
          | (nanos, ErrNone) =>
              let roomID := TrimSpace p1 in
              if decide (roomID = "") then Err "invalid cursor room id" else Ok (nanos, roomID)
          | _ => Err "invalid syntax"
          end
      end
  end.

(** ** Alias-audit cursors *)

(* server/orgHub/service/user_service.go: encodeAliasAuditCursor *)
Definition encodeAliasAuditCursor (createdAt : time) (id : string) : string :=
  b64_encode (FormatInt (UnixNano createdAt) +:+ String ":" id).

(* server/orgHub/service/user_service.go: decodeAliasAuditCursor *)
Definition decodeAliasAuditCursor (cursor : string) : result (time * string) :=
  match b64_decode cursor with
  | None => Err "illegal base64 data"
  | Some decoded =>
      match SplitN2 ":" decoded with
      | (_, None) => Err "invalid cursor format"
      | (p0, Some p1) =>
          match ParseInt p0 with
          | (nanos, ErrNone) =>
              let id := TrimSpace p1 in
              if decide (id = "") then Err "invalid cursor id" else Ok (nanos, id)
          | _ => Err "invalid syntax"
          end
      end
  end.

(** * Lemmas *)

Lemma message_cursor_decodes id :
  decodeMessageCursor (encodeMessageCursor id)
  = if decide (TrimSpace id = "") then Err "invalid cursor" else Ok (TrimSpace id).
Proof. unfold decodeMessageCursor, encodeMessageCursor. by rewrite b64_decode_encode. Qed.

Lemma room_cursor_decodes t id :
  decodeRoomCursor (encodeRoomCursor t id)
  = if decide (TrimSpace id = "") then Err "invalid cursor room id"
    else Ok (wrap64 t, TrimSpace id).
Proof.
  unfold decodeRoomCursor, encodeRoomCursor. rewrite b64_decode_encode.
  rewrite SplitN2_app by auto with msg.
  by rewrite ParseInt_FormatInt by apply wrap64_range.
Qed.

Lemma alias_cursor_decodes t id :
  decodeAliasAuditCursor (encodeAliasAuditCursor t id)
  = if decide (TrimSpace id = "") then Err "invalid cursor id"
    else Ok (wrap64 t, TrimSpace id).
Proof.
  unfold decodeAliasAuditCursor, encodeAliasAuditCursor. rewrite b64_decode_encode.
  rewrite SplitN2_app by auto with msg.
  by rewrite ParseInt_FormatInt by apply wrap64_range.
Qed.

(** A cursor the service hands out is never blank, so the next request uses it. *)
Lemma encodeMessageCursor_not_blank id :
  id ≠ "" → TrimSpace (encodeMessageCursor id) ≠ "".
Proof.
  intros Hid. unfold encodeMessageCursor. rewrite trimmed_TrimSpace by auto with msg.
  by apply b64_encode_nonempty.
Qed.

(** The identifiers the database hands out: not blank, no white space at the ends. *)
Definition clean_id (id : string) : Prop := trimmed id ∧ id ≠ "".

#[export] Instance clean_id_dec id : Decision (clean_id id).
Proof. unfold clean_id. apply _. Defined.

Lemma message_cursor_clean id :
  clean_id id → decodeMessageCursor (encodeMessageCursor id) = Ok id.
Proof.
  intros [Ht Hne]. rewrite message_cursor_decodes, trimmed_TrimSpace by done.
  by rewrite decide_False.
Qed.

(** A room cursor and an alias-audit cursor made from a time in the range of UnixNano and an
    identifier that is not blank and has no white space at its ends decode to that time and that
    identifier, whatever characters (colons included) the identifier holds. *)
Theorem room_cursor_roundtrip (t : time) (id : string) :
  is_int64 t → clean_id id →
  decodeRoomCursor (encodeRoomCursor t id) = Ok (t, id)
  ∧ decodeAliasAuditCursor (encodeAliasAuditCursor t id) = Ok (t, id).
Proof.
  intros Ht [Hid Hne].
  rewrite room_cursor_decodes, alias_cursor_decodes, wrap64_id by done.
  by rewrite trimmed_TrimSpace, !decide_False by done.
Qed.

Lemma room_cursor_roundtrip_witness :
  decodeRoomCursor (encodeRoomCursor 1700000000000000000 "a:b") = Ok (1700000000000000000%Z, "a:b")
  ∧ decodeAliasAuditCursor (encodeAliasAuditCursor 1700000000000000000 "a:b")
    = Ok (1700000000000000000%Z, "a:b").
Proof.
  apply (room_cursor_roundtrip 1700000000000000000 "a:b").
  - unfold is_int64, int64_min, int64_max. lia.
  - split; [split; vm_compute; reflexivity|discriminate].
Defined.
