(* ===== verification/EndpointClient.v ===== *)
(** * The dbman client: endpoint failover with cooldown

    server/common/infra/dbman/client.go, which every service uses to reach dbman.  A client
    keeps a round-robin counter and, per endpoint, a count of consecutive failures and the
    end of its cooldown.  The network is a parameter: what each attempt of a call met, and
    the readings of the clock around it. *)

From S2P Require Import Prelude GoStrings GoEncoding Cursor.

(** ** State *)

(* server/common/infra/dbman/client.go: Client *)
Record Client := mkClient {
  endpoints : list string;
  next : Z;
  failThreshold : Z;
  endpointCooldown : Z;
  failureCnt : gmap string Z;
  cooldownTo : gmap string time;
}.

Definition set_next (n : Z) (c : Client) : Client :=
  mkClient (endpoints c) n (failThreshold c) (endpointCooldown c) (failureCnt c) (cooldownTo c).
Definition set_failureCnt (m : gmap string Z) (c : Client) : Client :=
  mkClient (endpoints c) (next c) (failThreshold c) (endpointCooldown c) m (cooldownTo c).
Definition set_cooldownTo (m : gmap string time) (c : Client) : Client :=
  mkClient (endpoints c) (next c) (failThreshold c) (endpointCooldown c) (failureCnt c) m.

(** ** Construction *)

(* server/common/infra/dbman/client.go: normalizeEndpoints *)
Fixpoint normalize_loop (seen : list string) (endpoints : list string) : list string :=
  match endpoints with
  | [] => []
  | endpoint :: rest =>
      let normalized := TrimRightSlash (TrimSpace endpoint) in
      if decide (normalized = "") then normalize_loop seen rest
      else if decide (normalized ∈ seen) then normalize_loop seen rest
      else normalized :: normalize_loop (normalized :: seen) rest
  end.

Definition normalizeEndpoints (endpoints : list string) : list string :=
  normalize_loop [] endpoints.

(* server/common/infra/dbman/client.go: intFromEnv *)
Definition intFromEnv (value : string) (fallback : Z) : Z :=
  let v := TrimSpace value in
  if decide (v = "") then fallback
  else match Atoi v with
       | (n, ErrNone) => if (n <=? 0)%Z then fallback else n
       | _ => fallback
       end.

(** A [time.Duration] is an [int64] of nanoseconds, so the product wraps. *)
(* server/common/infra/dbman/client.go: durationFromEnvMillis *)
Definition durationFromEnvMillis (value : string) (fallback : Z) : Z :=
  let v := TrimSpace value in
  if decide (v = "") then fallback
  else match Atoi v with
       | (n, ErrNone) => if (n <=? 0)%Z then fallback else wrap64 (n * 1000000)
       | _ => fallback
       end.

Definition defaultFailThreshold : Z := 3.
Definition defaultEndpointCooldown : Z := 10 * 1000000000.

(* server/common/infra/dbman/client.go: NewClientWithEndpoints *)
Definition NewClientWithEndpoints (getenv : string → string) (eps : list string) : Client :=
  mkClient (normalizeEndpoints eps) 0
    (intFromEnv (getenv "DBMAN_FAIL_THRESHOLD") defaultFailThreshold)
    (durationFromEnvMillis (getenv "DBMAN_COOLDOWN_MS") defaultEndpointCooldown) ∅ ∅.

(** ** The breaker, one atomic section per function *)

(* server/common/infra/dbman/client.go: isCoolingDown *)
Definition isCoolingDown (endpoint : string) (now : time) (c : Client) : Client * bool :=
  match cooldownTo c !! endpoint with
  | None => (c, false)
  | Some until =>
      if (until <? now)%Z then (set_cooldownTo (delete endpoint (cooldownTo c)) c, false)
      else (c, true)
  end.

(* server/common/infra/dbman/client.go: onFailure *)
Definition onFailure (endpoint : string) (now : time) (c : Client) : Client :=
  let count := (default 0 (failureCnt c !! endpoint) + 1)%Z in
  if (failThreshold c <=? count)%Z then
    set_failureCnt (<[endpoint := 0%Z]> (failureCnt c))
      (set_cooldownTo (<[endpoint := (now + endpointCooldown c)%Z]> (cooldownTo c)) c)
  else set_failureCnt (<[endpoint := count]> (failureCnt c)) c.

(* server/common/infra/dbman/client.go: onSuccess *)
Definition onSuccess (endpoint : string) (c : Client) : Client :=
  set_cooldownTo (delete endpoint (cooldownTo c))
    (set_failureCnt (<[endpoint := 0%Z]> (failureCnt c)) c).

(** ** Post *)

(** What one attempt met: no request could be built, the transport failed, or a response came
    back with a status and a body that decodes into [out] or not. *)
Inductive outcome (A : Type) :=
| ReqErr (e : string)
| DoErr (e : string)
| Response (status : Z) (body : result A).
Arguments ReqErr {A} e.
Arguments DoErr {A} e.
Arguments Response {A} status body.

(** An attempt and the readings of [time.Now()] before and after it. *)
Record Attempt (A : Type) := mkAttempt {
  checked_at : time;
  met : outcome A;
  ended_at : time;
}.
Arguments mkAttempt {A}.
Arguments checked_at {A}.
Arguments met {A}.
Arguments ended_at {A}.

(* server/common/infra/dbman/client.go: Post #65-68 *)
Definition normalizePath (path : string) : string :=
  if HasPrefix path "/" then path else String "/"%char path.

Section Post.
Context {A : Type}.
(** The network: the attempt with the given offset, URL and body. *)
Variable net : nat → string → string → Attempt A.

(** The endpoint of an offset: [c.endpoints[(start+offset)%len(c.endpoints)]]. *)
Definition endpoint_at (eps : list string) (start : Z) (offset : nat) : string :=
  nth (Z.to_nat ((start + Z.of_nat offset) mod Z.of_nat (length eps))) eps "".

(* server/common/infra/dbman/client.go: Post *)
Fixpoint post_loop (fuel offset : nat) (start : Z) (path body : string)
    (lastErr : option string) (c : Client) : Client * result A :=
  match fuel with
  | O => (c, Err (default "dbman request failed" lastErr))
  | S fuel' =>
      let endpoint := endpoint_at (endpoints c) start offset in
      let att := net offset (endpoint +:+ path) body in
      let continue_with := post_loop fuel' (S offset) start path body in
      let '(c, cooling) := isCoolingDown endpoint (checked_at att) c in
      if cooling then continue_with lastErr c
      else
        let failed e c := continue_with (Some e) (onFailure endpoint (ended_at att) c) in
        match met att with
        | ReqErr e => failed e c
        | DoErr e =>
            failed ("dbman request failed endpoint=" +:+ endpoint +:+ ": " +:+ e) c
        | Response status decoded =>
            let status_error :=
              "dbman status " +:+ FormatInt status +:+ " endpoint=" +:+ endpoint in
            if (500 <=? status)%Z then failed status_error c
            else if (300 <=? status)%Z then (c, Err status_error)
            else match decoded with
                 | Err e => (onFailure endpoint (ended_at att) c, Err e)
                 | Ok out => (onSuccess endpoint c, Ok out)
                 end
        end
  end.

(** [payload] is the result of marshalling the request. *)
(* server/common/infra/dbman/client.go: Post *)
Definition Post (path : string) (payload : result string) : M Client A := λ c,
  match endpoints c with
  | [] => (c, Err "dbman endpoint is not configured")
  | _ =>
      match payload with
      | Err e => (c, Err e)
      | Ok body =>
          let n := length (endpoints c) in
          let new := wrap32u (next c + 1) in
          let start := (wrap32u (new - 1) mod Z.of_nat n)%Z in
          post_loop n 0 start (normalizePath path) body None (set_next new c)
      end
  end.
End Post.

(** ** Interleavings

    [Post] runs in many goroutines at once; the atomic add and each mutex section is one
    step, in any order and for any endpoint. *)
Inductive client_step : Client → Client → Prop :=
| step_next c : client_step c (set_next (wrap32u (next c + 1)) c)
| step_check endpoint now c : client_step c (isCoolingDown endpoint now c).1
| step_failure endpoint now c : client_step c (onFailure endpoint now c)
| step_success endpoint c : client_step c (onSuccess endpoint c).

(** The number of consecutive failures recorded against an endpoint. *)
Definition failures (c : Client) (endpoint : string) : Z := default 0%Z (failureCnt c !! endpoint).

(** A count that reaches the threshold is reset in the same section. *)
Definition breaker_inv (c : Client) : Prop :=
  (0 < failThreshold c)%Z ∧ ∀ endpoint, (0 ≤ failures c endpoint < failThreshold c)%Z.

(** * Lemmas *)

(** ** Normalization *)

Lemma elem_of_normalize_loop seen eps e :
  e ∈ normalize_loop seen eps ↔
  e ≠ "" ∧ e ∉ seen ∧ ∃ raw, raw ∈ eps ∧ e = TrimRightSlash (TrimSpace raw).
Proof.
  revert seen. induction eps as [|raw eps IH]; intros seen; cbn [normalize_loop].
  { split; [set_solver|]. intros (_ & _ & raw & Hraw & _). by apply elem_of_nil in Hraw. }
  set (n := TrimRightSlash (TrimSpace raw)).
  repeat case_decide; try rewrite elem_of_cons; rewrite IH; setoid_rewrite elem_of_cons.
  - naive_solver.
  - naive_solver.
  - destruct (decide (e = n)); naive_solver.
Qed.

Lemma NoDup_normalize_loop seen eps : NoDup (normalize_loop seen eps).
Proof.
  revert seen. induction eps as [|raw eps IH]; intros seen; cbn [normalize_loop]; [constructor|].
  repeat case_decide; [apply IH..|]. constructor; [|apply IH].
  rewrite elem_of_normalize_loop. set_solver.
Qed.

(** ** What the sections leave alone *)

Section frame.
Variables (endpoint : string) (now : time) (c : Client).

Lemma isCoolingDown_frame :
  endpoints (isCoolingDown endpoint now c).1 = endpoints c
  ∧ failThreshold (isCoolingDown endpoint now c).1 = failThreshold c
  ∧ endpointCooldown (isCoolingDown endpoint now c).1 = endpointCooldown c
  ∧ failureCnt (isCoolingDown endpoint now c).1 = failureCnt c.
Proof. unfold isCoolingDown. repeat case_match; done. Qed.

Lemma onFailure_frame :
  endpoints (onFailure endpoint now c) = endpoints c
  ∧ failThreshold (onFailure endpoint now c) = failThreshold c
  ∧ endpointCooldown (onFailure endpoint now c) = endpointCooldown c.
Proof. unfold onFailure. repeat case_match; done. Qed.

Lemma isCoolingDown_None :
  cooldownTo c !! endpoint = None → isCoolingDown endpoint now c = (c, false).
Proof. unfold isCoolingDown. by intros ->. Qed.

Lemma isCoolingDown_other e :
  cooldownTo c !! e = None → cooldownTo (isCoolingDown endpoint now c).1 !! e = None.
Proof.
  intros He. unfold isCoolingDown. repeat case_match; cbn; [|done..].
  rewrite lookup_delete. by case_decide.
Qed.

Lemma onFailure_other e :
  e ≠ endpoint → cooldownTo c !! e = None → cooldownTo (onFailure endpoint now c) !! e = None.
Proof. intros Hne He. unfold onFailure. case_match; cbn; [|done]. by rewrite lookup_insert_ne. Qed.
End frame.

Lemma failures_onFailure e now c e' :
  failures (onFailure e now c) e' =
    if decide (e = e') then
      (if (failThreshold c <=? failures c e + 1)%Z then 0 else failures c e + 1)%Z
    else failures c e'.
Proof.
  unfold failures, onFailure. case_match; cbn; rewrite lookup_insert; by case_decide.
Qed.

Lemma failures_onSuccess e c e' :
  failures (onSuccess e c) e' = if decide (e = e') then 0%Z else failures c e'.
Proof. unfold failures. cbn. rewrite lookup_insert. by case_decide. Qed.

Lemma client_step_inv c c' : client_step c c' → breaker_inv c → breaker_inv c'.
Proof.
  intros Hst [Hpos Hall]. destruct Hst as [c|e now c|e now c|e c].
  - done.
  - destruct (isCoolingDown_frame e now c) as (_ & Ht & _ & Hf).
    split; [by rewrite Ht|]. intros e'. unfold failures. rewrite Ht, Hf. apply Hall.
  - destruct (onFailure_frame e now c) as (_ & Ht & _).
    split; [by rewrite Ht|]. intros e'. rewrite Ht, failures_onFailure.
    pose proof (Hall e). case_decide; [case_match; reflect_bools; lia|apply Hall].
  - split; [done|]. intros e'. rewrite failures_onSuccess. case_decide; [cbn; lia|apply Hall].
Qed.

(** ** The rotation *)

Lemma endpoint_at_lookup eps start k :
  eps ≠ [] → (0 ≤ start)%Z →
  eps !! Z.to_nat ((start + Z.of_nat k) mod Z.of_nat (length eps)) = Some (endpoint_at eps start k).
Proof.
  intros Hne Hs. unfold endpoint_at.
  assert (0 < Z.of_nat (length eps))%Z by (destruct eps; cbn; [done|lia]).
  pose proof (Z.mod_pos_bound (start + Z.of_nat k) (Z.of_nat (length eps)) ltac:(lia)).
  destruct (lookup_lt_is_Some_2 eps (Z.to_nat ((start + Z.of_nat k) mod Z.of_nat (length eps))))
    as [x Hx]; [lia|].
  rewrite Hx. f_equal. symmetry. by apply nth_lookup_Some.
Qed.

(** The endpoints in the order a call tries them. *)
Definition probe_order (eps : list string) (start : Z) : list string :=
  endpoint_at eps start <$> seq 0 (length eps).

Lemma probe_order_rotation eps start :
  (0 ≤ start)%Z →
  probe_order eps start = drop (Z.to_nat (start mod Z.of_nat (length eps))) eps
                          ++ take (Z.to_nat (start mod Z.of_nat (length eps))) eps.
Proof.
  intros Hs. destruct (decide (eps = [])) as [->|Hne]; [by rewrite drop_nil, take_nil|].
  assert (0 < Z.of_nat (length eps))%Z by (destruct eps; cbn; [done|lia]).
  set (r := Z.to_nat (start mod Z.of_nat (length eps))).
  pose proof (Z.mod_pos_bound start (Z.of_nat (length eps)) ltac:(lia)) as Hb.
  assert (Hr : r < length eps) by lia.
  apply list_eq. intros i. unfold probe_order. rewrite list_lookup_fmap.
  destruct (decide (i < length eps)) as [Hi|Hi].
  - rewrite lookup_seq_lt by done. cbn.
    rewrite <-endpoint_at_lookup by done.
    assert ((start + Z.of_nat i) mod Z.of_nat (length eps)
            = (Z.of_nat r + Z.of_nat i) mod Z.of_nat (length eps))%Z as ->.
    { unfold r. rewrite Z2Nat.id by lia. by rewrite Z.add_mod_idemp_l by lia. }
    destruct (decide (r + i < length eps)) as [Hlt|Hge].
    + rewrite Z.mod_small by lia. rewrite lookup_app_l by (rewrite length_drop; lia).
      rewrite lookup_drop. f_equal. lia.
    + rewrite lookup_app_r by (rewrite length_drop; lia). rewrite length_drop.
      rewrite lookup_take_lt by lia. f_equal.
      replace (Z.of_nat r + Z.of_nat i)%Z
        with ((Z.of_nat r + Z.of_nat i - Z.of_nat (length eps)) + 1 * Z.of_nat (length eps))%Z by lia.
      rewrite Z.mod_add, Z.mod_small by lia. lia.
  - rewrite lookup_ge_None_2 by (rewrite length_seq; lia). cbn.
    symmetry. apply lookup_ge_None_2. rewrite length_app, length_drop, length_take. lia.
Qed.

Lemma probe_order_perm eps start : (0 ≤ start)%Z → probe_order eps start ≡ₚ eps.
Proof.
  intros Hs. rewrite probe_order_rotation by done.
  rewrite Permutation_app_comm. by rewrite take_drop.
Qed.

Lemma endpoint_at_covers eps start e :
  (0 ≤ start)%Z → e ∈ eps → ∃ k, k < length eps ∧ endpoint_at eps start k = e.
Proof.
  intros Hs He. rewrite <-(probe_order_perm eps start Hs) in He.
  unfold probe_order in He. apply list_elem_of_fmap in He as (k & -> & Hk).
  apply elem_of_seq in Hk. exists k. split; [lia|done].
Qed.

Lemma endpoint_at_in eps start k : eps ≠ [] → (0 ≤ start)%Z → endpoint_at eps start k ∈ eps.
Proof. intros. eapply list_elem_of_lookup_2, endpoint_at_lookup; done. Qed.

(** ** Post *)

Section post_lemmas.
Context {A : Type}.
Variable net : nat → string → string → Attempt A.
Implicit Types (c : Client) (path body : string).

(** A fold of the loop's continuation, so that a proof looks at one attempt at a time. *)
Lemma post_loop_S fuel off start path body lastErr c :
  post_loop net (S fuel) off start path body lastErr c =
  let endpoint := endpoint_at (endpoints c) start off in
  let att := net off (endpoint +:+ path) body in
  let continue_with := post_loop net fuel (S off) start path body in
  let '(c, cooling) := isCoolingDown endpoint (checked_at att) c in
  if cooling then continue_with lastErr c
  else
    let failed e c := continue_with (Some e) (onFailure endpoint (ended_at att) c) in
    match met att with
    | ReqErr e => failed e c
    | DoErr e => failed ("dbman request failed endpoint=" +:+ endpoint +:+ ": " +:+ e) c
    | Response status decoded =>
        let status_error := "dbman status " +:+ FormatInt status +:+ " endpoint=" +:+ endpoint in
        if (500 <=? status)%Z then failed status_error c
        else if (300 <=? status)%Z then (c, Err status_error)
        else match decoded with
             | Err e => (onFailure endpoint (ended_at att) c, Err e)
             | Ok out => (onSuccess endpoint c, Ok out)
             end
    end.
Proof. reflexivity. Qed.

(** Every run of the loop is a sequence of atomic sections. *)
Lemma post_loop_steps fuel off start path body lastErr c :
  rtc client_step c (post_loop net fuel off start path body lastErr c).1.
Proof.
  revert off lastErr c. induction fuel as [|fuel IH]; intros off lastErr c; [apply rtc_refl|].
  rewrite post_loop_S. cbv zeta.
  set (e := endpoint_at _ _ _). set (att := net _ _ _).
  eapply rtc_l; [apply (step_check e (checked_at att))|].
  destruct (isCoolingDown e (checked_at att) c) as [c1 cooling]. cbn [fst].
  destruct cooling; [apply IH|].
  destruct (met att) as [er|er|status [out|er]];
    repeat case_match; cbn [fst];
    first [ eapply rtc_l; [apply (step_failure e (ended_at att))|]; first [apply IH|apply rtc_refl]
          | eapply rtc_l; [apply (step_success e)|]; apply rtc_refl
          | apply rtc_refl ].
Qed.

Lemma Post_steps path payload c : rtc client_step c (Post net path payload c).1.
Proof.
  unfold Post. destruct (endpoints c) eqn:E; [apply rtc_refl|].
  destruct payload; [|apply rtc_refl]. cbv zeta.
  eapply rtc_l; [apply step_next|]. apply post_loop_steps.
Qed.

(** A healthy endpoint: any request to it is answered with a status below 300 and a body
    that decodes. *)
Definition healthy (e : string) (path : string) : Prop :=
  ∀ off body, ∃ status out,
    met (net off (e +:+ path) body) = Response status (Ok out) ∧ (status < 300)%Z.

(** A failing endpoint: no request, no transport or a status of 500 and above. *)
Definition down (e : string) (path : string) : Prop :=
  ∀ off body,
    match met (net off (e +:+ path) body) with
    | ReqErr _ | DoErr _ => True
    | Response status _ => (500 <= status)%Z
    end.

Lemma post_loop_failover fuel off start path body lastErr c e :
  cooldownTo c !! e = None →
  healthy e path →
  (∀ k, off ≤ k < off + fuel → endpoint_at (endpoints c) start k ≠ e →
        down (endpoint_at (endpoints c) start k) path) →
  (∃ k, off ≤ k < off + fuel ∧ endpoint_at (endpoints c) start k = e) →
  ∃ out c', post_loop net fuel off start path body lastErr c = (c', Ok out)
            ∧ failures c' e = 0%Z ∧ cooldownTo c' !! e = None.
Proof.
  intros Hcool Hup. revert off lastErr c Hcool.
  induction fuel as [|fuel IH]; intros off lastErr c Hcool Hdown (k & Hk & He); [lia|].
  rewrite post_loop_S. cbv zeta.
  destruct (decide (endpoint_at (endpoints c) start off = e)) as [Heq|Hne].
  - rewrite Heq, isCoolingDown_None by done. cbn iota beta.
    destruct (Hup off body) as (status & out & -> & Hst).
    destruct (Z.leb_spec 500 status); [lia|]. destruct (Z.leb_spec 300 status); [lia|].
    exists out, (onSuccess e c). rewrite failures_onSuccess, decide_True by done.
    cbn. by rewrite lookup_delete_eq.
  - set (e' := endpoint_at (endpoints c) start off) in *.
    set (att := net off (e' +:+ path) body).
    pose proof (Hdown off ltac:(lia) Hne off body) as Hd. fold e' in Hd. fold att in Hd.
    pose proof (isCoolingDown_frame e' (checked_at att) c) as (Hep & _).
    pose proof (isCoolingDown_other e' (checked_at att) c e Hcool) as Hcool1.
    destruct (isCoolingDown e' (checked_at att) c) as [c1 cooling]. cbn [fst] in Hep, Hcool1.
    assert (Hnext : ∀ lastErr c2, endpoints c2 = endpoints c → cooldownTo c2 !! e = None →
      ∃ out c', post_loop net fuel (S off) start path body lastErr c2 = (c', Ok out)
            ∧ failures c' e = 0%Z ∧ cooldownTo c' !! e = None).
    { intros l c2 Hep2 Hc2. apply IH; [done|..]; rewrite Hep2.
      - intros j Hj. apply Hdown. lia.
      - exists k. split; [|done]. destruct (decide (k = off)) as [->|]; [done|lia]. }
    destruct cooling; [by apply Hnext|].
    destruct (onFailure_frame e' (ended_at att) c1) as (Hep' & _).
    destruct (met att) as [er|er|status decoded];
      [| |destruct (Z.leb_spec 500 status); [|lia]];
      (apply Hnext; [by rewrite Hep'|by apply onFailure_other]).
Qed.

(** When every attempt finds its endpoint cooling down, nothing is sent and nothing changes. *)
Lemma post_loop_all_cooling fuel off start path body lastErr c :
  (∀ k, off ≤ k < off + fuel →
     let e := endpoint_at (endpoints c) start k in
     isCoolingDown e (checked_at (net k (e +:+ path) body)) c = (c, true)) →
  post_loop net fuel off start path body lastErr c
  = (c, Err (default "dbman request failed" lastErr)).
Proof.
  revert off. induction fuel as [|fuel IH]; intros off H; [done|].
  rewrite post_loop_S. cbv zeta. rewrite (H off) by lia.
  apply IH. intros k Hk. apply H. lia.
Qed.
End post_lemmas.

(** ** The breaker over a run of failures *)

Definition fail_run (e : string) (ts : list time) (c : Client) : Client :=
  foldl (λ c t, onFailure e t c) c ts.

Lemma fail_run_below e ts c :
  (failures c e + Z.of_nat (length ts) < failThreshold c)%Z →
  failures (fail_run e ts c) e = (failures c e + Z.of_nat (length ts))%Z
  ∧ cooldownTo (fail_run e ts c) = cooldownTo c
  ∧ failThreshold (fail_run e ts c) = failThreshold c
  ∧ endpointCooldown (fail_run e ts c) = endpointCooldown c.
Proof.
  revert c. induction ts as [|t ts IH]; intros c Hlt; cbn [length] in *.
  { cbn. split; [lia|done]. }
  cbn [fail_run foldl]. fold (fail_run e ts (onFailure e t c)).
  destruct (onFailure_frame e t c) as (_ & Ht & Hcd).
  assert (failures (onFailure e t c) e = failures c e + 1)%Z as Hf.
  { rewrite failures_onFailure, decide_True by done.
    destruct (Z.leb_spec (failThreshold c) (failures c e + 1)); lia. }
  assert (cooldownTo (onFailure e t c) = cooldownTo c) as Hc.
  { unfold onFailure. fold (failures c e).
    destruct (Z.leb_spec (failThreshold c) (failures c e + 1)); [lia|done]. }
  destruct (IH (onFailure e t c)) as (H1 & H2 & H3 & H4); [rewrite Hf, Ht; lia|].
  rewrite H1, H2, H3, H4, Hf, Hc, Ht, Hcd. split; [lia|done].
Qed.

Lemma fail_run_app e ts1 ts2 c : fail_run e (ts1 ++ ts2) c = fail_run e ts2 (fail_run e ts1 c).
Proof. unfold fail_run. by rewrite foldl_app. Qed.

(** * Properties *)

(** The failure counters stay below the threshold.  Whatever the interleaving of atomic
    sections of concurrent calls, and in particular after any call of Post, an endpoint's count
    of consecutive failures is non-negative and below the threshold: reaching the threshold
    resets it in the section that starts the cooldown. *)
Theorem client_breaker_invariant (c c' : Client) :
  breaker_inv c → rtc client_step c c' →
  breaker_inv c' ∧
  ∀ A (net : nat → string → string → Attempt A) path payload,
    breaker_inv (Post net path payload c').1.
Proof.
  intros Hinv Hsteps.
  assert (Hkeep : ∀ c1 c2, rtc client_step c1 c2 → breaker_inv c1 → breaker_inv c2).
  { induction 1; eauto using client_step_inv. }
  split; [by eapply Hkeep|]. intros A net path payload.
  eapply (Hkeep c'); [apply Post_steps|by eapply Hkeep].
Qed.

Lemma client_breaker_invariant_witness :
  breaker_inv (onFailure "http://a" 5 (NewClientWithEndpoints (λ _, "") ["http://a"])).
Proof.
  apply (client_breaker_invariant (NewClientWithEndpoints (λ _, "") ["http://a"])).
  - split; [vm_compute; done|]. intros e. unfold failures. cbn. rewrite lookup_empty. cbn.
    split; [done|vm_compute; done].
  - apply rtc_once, step_failure.
Defined.

(** C31: Failover.  If one configured endpoint is not cooling down and answers every request, and
    every other endpoint fails on every request (no request, no transport, or a 5xx status),
    then Post succeeds, wherever the round robin starts, and leaves that endpoint with no
    recorded failure and no cooldown. *)
Theorem Post_failover {A} (net : nat → string → string → Attempt A)
    (path body e : string) (c : Client) :
  e ∈ endpoints c → cooldownTo c !! e = None →
  healthy net e (normalizePath path) →
  (∀ e', e' ∈ endpoints c → e' ≠ e → down net e' (normalizePath path)) →
  ∃ out c', Post net path (Ok body) c = (c', Ok out)
            ∧ failures c' e = 0%Z ∧ cooldownTo c' !! e = None.
Proof.
  intros He Hcool Hup Hdown. unfold Post.
  destruct (endpoints c) as [|e0 eps] eqn:Eeps; [by apply elem_of_nil in He|].
  rewrite <-Eeps in *. cbv zeta.
  set (start := (_ mod Z.of_nat (length (endpoints c)))%Z).
  assert (0 < Z.of_nat (length (endpoints c)))%Z by (rewrite Eeps; cbn; lia).
  assert (Hs : (0 ≤ start)%Z) by (apply Z.mod_pos_bound; lia).
  apply post_loop_failover; cbn; [done|done|..].
  - intros k Hk Hne. apply Hdown; [|done]. apply endpoint_at_in; [by rewrite Eeps|done].
  - destruct (endpoint_at_covers (endpoints c) start e Hs He) as (k & Hk & <-).
    exists k. split; [lia|done].
Qed.

Definition demo_net (off : nat) (url body : string) : Attempt string :=
  mkAttempt 0 (if HasPrefix url "http://up" then Response 201 (Ok "made") else DoErr "refused") 1.

Lemma Post_failover_witness :
  ∃ out c', Post demo_net "x" (Ok "{}") (NewClientWithEndpoints (λ _, "") ["http://dn"; " http://up/ "])
            = (c', Ok out) ∧ failures c' "http://up" = 0%Z ∧ cooldownTo c' !! "http://up" = None.
Proof.
  apply (Post_failover demo_net "x" "{}" "http://up"
           (NewClientWithEndpoints (λ _, "") ["http://dn"; " http://up/ "])).
  - vm_compute. apply elem_of_cons; right. apply elem_of_cons; by left.
  - reflexivity.
  - intros off body. exists 201%Z, "made". split; [reflexivity|lia].
  - intros e' He' Hne off body.
    assert (endpoints (NewClientWithEndpoints (λ _, "") ["http://dn"; " http://up/ "])
            = ["http://dn"; "http://up"]) as E by (vm_compute; reflexivity).
    rewrite E in He'. apply elem_of_cons in He' as [->|He'].
    + vm_compute. exact I.
    + apply list_elem_of_singleton in He'. done.
Defined.

(** The breaker opens at the threshold and closes when the cooldown ends.  For an endpoint
    with no recorded failure and no cooldown, n consecutive failures leave it available while n is
    below the threshold; the failure that reaches the threshold, at time t, makes it unavailable
    exactly up to t + cooldown. *)
Theorem breaker_opens_at_threshold (e : string) (ts : list time) (t now : time) (c : Client) :
  failures c e = 0%Z → cooldownTo c !! e = None → (0 < failThreshold c)%Z →
  ((Z.of_nat (length ts) < failThreshold c)%Z →
     isCoolingDown e now (fail_run e ts c) = (fail_run e ts c, false))
  ∧ (Z.of_nat (length (ts ++ [t])) = failThreshold c →
     (isCoolingDown e now (fail_run e (ts ++ [t]) c)).2
     = (now <=? t + endpointCooldown c)%Z).
Proof.
  intros Hf Hc Hpos. split; intros Hlen.
  - destruct (fail_run_below e ts c) as (_ & Hcd & _); [lia|].
    apply isCoolingDown_None. by rewrite Hcd.
  - rewrite length_app in Hlen. cbn [length] in Hlen.
    destruct (fail_run_below e ts c) as (Hf' & Hcd & Ht & Hcool); [lia|].
    rewrite fail_run_app. cbn [fail_run foldl].
    change (foldl (λ c t, onFailure e t c) c ts) with (fail_run e ts c).
    unfold onFailure. fold (failures (fail_run e ts c) e). rewrite Hf', Ht, Hcool.
    destruct (Z.leb_spec (failThreshold c) (failures c e + Z.of_nat (length ts) + 1)); [|lia].
    unfold isCoolingDown. cbn. rewrite lookup_insert_eq.
    destruct (Z.ltb_spec (t + endpointCooldown c) now), (Z.leb_spec now (t + endpointCooldown c));
      cbn; lia || done.
Qed.

Lemma breaker_opens_at_threshold_witness :
  let c := NewClientWithEndpoints (λ _, "") ["http://a"] in
  ((2 < failThreshold c)%Z →
     isCoolingDown "http://a" 20 (fail_run "http://a" [1; 2]%Z c)
     = (fail_run "http://a" [1; 2]%Z c, false))
  ∧ (3%Z = failThreshold c →
     (isCoolingDown "http://a" 20 (fail_run "http://a" ([1; 2] ++ [3])%Z c)).2
     = (20 <=? 3 + endpointCooldown c)%Z).
Proof.
  apply (breaker_opens_at_threshold "http://a" [1; 2]%Z 3 20
           (NewClientWithEndpoints (λ _, "") ["http://a"])); [reflexivity..|vm_compute; done].
Defined.

(** A 3xx or 4xx answer ends the call.  When the first endpoint tried is available and answers
    with a status in 300..499, Post reports that status at once: no other endpoint is tried and no
    failure is recorded against any endpoint. *)
Theorem Post_client_error_no_failover {A} (net : nat → string → string → Attempt A)
    (path body : string) (c : Client) (status : Z) (decoded : result A) :
  let start := (wrap32u (wrap32u (next c + 1) - 1) mod Z.of_nat (length (endpoints c)))%Z in
  let e := endpoint_at (endpoints c) start 0 in
  endpoints c ≠ [] → cooldownTo c !! e = None →
  met (net 0 (e +:+ normalizePath path) body) = Response status decoded →
  (300 ≤ status < 500)%Z →
  Post net path (Ok body) c
  = (set_next (wrap32u (next c + 1)) c,
     Err ("dbman status " +:+ FormatInt status +:+ " endpoint=" +:+ e)).
Proof.
  cbv zeta. intros Hne Hcool Hmet Hst. unfold Post.
  destruct (endpoints c) as [|e0 eps] eqn:Eeps; [done|]. rewrite <-Eeps in *. cbv zeta.
  rewrite Eeps at 1. cbn [length]. rewrite post_loop_S. cbv zeta.
  cbn [endpoints set_next]. rewrite isCoolingDown_None by done. cbn iota beta.
  rewrite Hmet. destruct (Z.leb_spec 500 status); [lia|].
  by destruct (Z.leb_spec 300 status); [|lia].
Qed.

Lemma Post_client_error_no_failover_witness :
  Post (λ _ _ _, mkAttempt 0 (Response 404 (Ok "x")) 1) "p" (Ok "{}")
    (NewClientWithEndpoints (λ _, "") ["http://a"; "http://b"])
  = (set_next 1 (NewClientWithEndpoints (λ _, "") ["http://a"; "http://b"]),
     Err "dbman status 404 endpoint=http://a").
Proof.
  apply (Post_client_error_no_failover (λ _ _ _, mkAttempt 0 (Response 404 (Ok "x")) 1) "p" "{}"
    (NewClientWithEndpoints (λ _, "") ["http://a"; "http://b"]) 404 (Ok "x")).
  - vm_compute. discriminate.
  - reflexivity.
  - reflexivity.
  - lia.
Defined.
