(* ===== verification/TenantRouter.v ===== *)
(** * Tenant routers: which data store serves a tenant

    The four routers that choose between a shared and a dedicated back end for a tenant:
    server/common/infra/db/tenant_db_router.go (PostgreSQL pools),
    server/common/infra/cache/tenant_redis_router.go (Redis clients),
    server/chat/service/publisher.go (AMQP connections) and
    server/common/infra/object/tenant_minio_router.go (MinIO clients).  They are the same
    machine over different metadata: a cache of tenant metadata with a time to live, a map of
    dedicated connections, one mutex, and a double-checked creation.  The section below is that
    machine, over a class of the metadata's policy; the modules are its four instances.

    Opening a connection and asking the metadata provider are parameters. *)

From S2P Require Import Prelude GoStrings GoEncoding Cursor.

(** ** What a router reads of the metadata *)
Class RouterPolicy (Meta : Type) := {
  meta_active : Meta → bool;
  meta_dedicated : Meta → bool;
}.

(** A connection object: its identity and the address it was opened with. *)
Record Conn := mkConn { conn_id : nat; conn_addr : string }.

#[export] Instance Conn_eq_dec : EqDecision Conn.
Proof. solve_decision. Defined.

(** What a lookup hands out: the shared back end or a dedicated connection. *)
Inductive target := Shared | Dedicated (c : Conn).

#[export] Instance target_eq_dec : EqDecision target.
Proof. solve_decision. Defined.

Section router.
Context {Meta : Type} `{RouterPolicy Meta}.

(** [opened] counts the connections made so far and [closed] lists the ones closed. *)
(* server/common/infra/db/tenant_db_router.go: TenantDBRouter #51-63 *)
Record Router := mkRouter {
  metaCache : gmap string (Meta * time);
  dedicated : gmap string Conn;
  opened : nat;
  closed : list nat;
}.

Definition empty_router : Router := mkRouter ∅ ∅ 0 [].
Definition set_metaCache (m : gmap string (Meta * time)) (r : Router) : Router :=
  mkRouter m (dedicated r) (opened r) (closed r).
Definition set_dedicated (m : gmap string Conn) (r : Router) : Router :=
  mkRouter (metaCache r) m (opened r) (closed r).
Definition close_conns (ids : list nat) (r : Router) : Router :=
  mkRouter (metaCache r) (dedicated r) (opened r) (ids ++ closed r).

(** A successful dial makes a new connection object. *)
Definition new_conn (addr : string) (r : Router) : Router * Conn :=
  (mkRouter (metaCache r) (dedicated r) (S (opened r)) (closed r), mkConn (opened r) addr).

Definition cacheTTL : time := 30 * 1000000000.

(** *** The atomic sections *)

Definition fresh_meta (now : time) (tenantID : string) (r : Router) : option Meta :=
  match metaCache r !! tenantID with
  | Some (m, fetchedAt) => if (now - fetchedAt <? cacheTTL)%Z then Some m else None
  | None => None
  end.

Definition store_meta (now : time) (tenantID : string) (m : Meta) (r : Router) : Router :=
  set_metaCache (<[tenantID := (m, now)]> (metaCache r)) r.

(** The section under the write lock: look again, then open and record. *)
Definition install (open : Meta → M Router Conn) (tenantID : string) (m : Meta) :
    M Router Conn := λ r,
  match dedicated r !! tenantID with
  | Some existing => (r, Ok existing)
  | None =>
      match open m r with
      | (r', Err e) => (r', Err e)
      | (r', Ok c) => (set_dedicated (<[tenantID := c]> (dedicated r')) r', Ok c)
      end
  end.

(** *** The operations, uninterrupted *)

(* server/common/infra/db/tenant_db_router.go: TenantDBRouter.loadTenantMeta *)
Definition loadMeta (fetch : string → result Meta) (now : time) (tenantID : string) :
    M Router Meta := λ r,
  match fresh_meta now tenantID r with
  | Some m => (r, Ok m)
  | None =>
      match fetch tenantID with
      | Err e => (r, Err e)
      | Ok m => (store_meta now tenantID m r, Ok m)
      end
  end.

(** The metadata the decision was based on comes back too ([None] for a blank tenant). *)
(* server/common/infra/db/tenant_db_router.go: TenantDBRouter.DBForTenant *)
Definition route (fetch : string → result Meta) (open : Meta → M Router Conn)
    (now : time) (tenantID : string) : M Router (target * option Meta) := λ r,
  if decide (TrimSpace tenantID = "") then (r, Ok (Shared, None))
  else
    match loadMeta fetch now tenantID r with
    | (r, Err e) => (r, Err e)
    | (r, Ok meta) =>
        if negb (meta_active meta) then (r, Err "tenant is inactive")
        else if negb (meta_dedicated meta) then (r, Ok (Shared, Some meta))
        else
          match dedicated r !! tenantID with
          | Some existing => (r, Ok (Dedicated existing, Some meta))
          | None =>
              match install open tenantID meta r with
              | (r, Err e) => (r, Err e)
              | (r, Ok c) => (r, Ok (Dedicated c, Some meta))
              end
          end
    end.

(** [closes]: whether dropping a connection closes it (MinIO clients have no Close). *)
(* server/common/infra/db/tenant_db_router.go: TenantDBRouter.InvalidateTenant *)
Definition InvalidateTenant (closes : bool) (tenantID : string) (r : Router) : Router :=
  let tenantID := TrimSpace tenantID in
  if decide (tenantID = "") then r
  else
    let r := set_metaCache (delete tenantID (metaCache r)) r in
    match dedicated r !! tenantID with
    | Some c =>
        let r := if closes then close_conns [conn_id c] r else r in
        set_dedicated (delete tenantID (dedicated r)) r
    | None => r
    end.

(* server/common/infra/db/tenant_db_router.go: TenantDBRouter.Close *)
Definition Close (r : Router) : Router :=
  set_dedicated ∅ (close_conns (conn_id ∘ snd <$> map_to_list (dedicated r)) r).

(** *** Interleavings

    Where one call of [route] stands between its atomic sections. *)
Inductive pc :=
| Start
| Fetching
| Storing (m : Meta)
| Deciding (m : Meta)
| Installing (m : Meta)
| Returned (res : result (target * option Meta)).

(** [W] is what the outside answers at a moment: the provider and the connection attempts. *)
Section threads.
Context {W : Type}.
Variables (fetch : W → string → result Meta) (open : W → Meta → M Router Conn) (closes : bool).

Inductive thread_step (now : time) (tenantID : string) : Router → pc → Router → pc → Prop :=
| step_blank r :
    TrimSpace tenantID = "" → thread_step now tenantID r Start r (Returned (Ok (Shared, None)))
| step_cached r m :
    TrimSpace tenantID ≠ "" → fresh_meta now tenantID r = Some m →
    thread_step now tenantID r Start r (Deciding m)
| step_stale r :
    TrimSpace tenantID ≠ "" → fresh_meta now tenantID r = None →
    thread_step now tenantID r Start r Fetching
| step_fetch_err w r e :
    fetch w tenantID = Err e → thread_step now tenantID r Fetching r (Returned (Err e))
| step_fetch w r m :
    fetch w tenantID = Ok m → thread_step now tenantID r Fetching r (Storing m)
| step_store r m :
    thread_step now tenantID r (Storing m) (store_meta now tenantID m r) (Deciding m)
| step_inactive r m :
    meta_active m = false →
    thread_step now tenantID r (Deciding m) r (Returned (Err "tenant is inactive"))
| step_shared r m :
    meta_active m = true → meta_dedicated m = false →
    thread_step now tenantID r (Deciding m) r (Returned (Ok (Shared, Some m)))
| step_existing r m c :
    meta_active m = true → meta_dedicated m = true → dedicated r !! tenantID = Some c →
    thread_step now tenantID r (Deciding m) r (Returned (Ok (Dedicated c, Some m)))
| step_missing r m :
    meta_active m = true → meta_dedicated m = true → dedicated r !! tenantID = None →
    thread_step now tenantID r (Deciding m) r (Installing m)
| step_install w r m r' c :
    install (open w) tenantID m r = (r', Ok c) →
    thread_step now tenantID r (Installing m) r' (Returned (Ok (Dedicated c, Some m)))
| step_install_err w r m r' e :
    install (open w) tenantID m r = (r', Err e) →
    thread_step now tenantID r (Installing m) r' (Returned (Err e)).

(** The steps of one call alone. *)
Definition call_step (now : time) (tenantID : string) (x y : Router * pc) : Prop :=
  thread_step now tenantID x.1 x.2 y.1 y.2.

(** A router and the calls in flight. *)
Record Sys := mkSys { shared_state : Router; calls : gmap nat (time * string * pc) }.

Inductive sys_step : Sys → Sys → Prop :=
| sys_call r ts i now tenantID :
    ts !! i = None → sys_step (mkSys r ts) (mkSys r (<[i := (now, tenantID, Start)]> ts))
| sys_thread r ts i now tenantID p r' p' :
    ts !! i = Some (now, tenantID, p) → thread_step now tenantID r p r' p' →
    sys_step (mkSys r ts) (mkSys r' (<[i := (now, tenantID, p')]> ts))
| sys_invalidate r ts tenantID :
    sys_step (mkSys r ts) (mkSys (InvalidateTenant closes tenantID r) ts)
| sys_close r ts :
    sys_step (mkSys r ts) (mkSys (Close r) ts).
End threads.
End router.
Arguments Router : clear implicits.
Arguments pc : clear implicits.
Arguments Sys : clear implicits.

(** *** The contract of opening a connection

    An attempt touches neither map, closes nothing of before, and leaves at most one new open
    connection behind: the one it returns.  With [closes = false] (MinIO, whose clients have no
    Close) an attempt that fails may leave one. *)
Class OpenLaw {Meta} (closes : bool) (open : Meta → M (Router Meta) Conn) : Prop := {
  open_frame m r : metaCache (open m r).1 = metaCache r ∧ dedicated (open m r).1 = dedicated r;
  open_counts m r :
    ∃ ids, closed (open m r).1 = ids ++ closed r ∧ opened r ≤ opened (open m r).1
           ∧ Forall (λ i, opened r ≤ i < opened (open m r).1) ids;
  open_fresh m r c :
    (open m r).2 = Ok c →
    opened r ≤ conn_id c < opened (open m r).1 ∧ (conn_id c ∈ closed (open m r).1 → conn_id c ∈ closed r);
  open_no_leak m r i :
    closes = true → opened r ≤ i < opened (open m r).1 →
    i ∈ closed (open m r).1 ∨ ∃ c, (open m r).2 = Ok c ∧ conn_id c = i;
}.

(** The connections in use are open, distinct and, where connections are closed at all, the only
    open ones. *)
Record router_inv {Meta} (closes : bool) (r : Router Meta) : Prop := mkRouterInv {
  inv_bound : ∀ id c, dedicated r !! id = Some c → conn_id c < opened r;
  inv_closed_bound : ∀ i, i ∈ closed r → i < opened r;
  inv_distinct : ∀ id1 id2 c1 c2,
    dedicated r !! id1 = Some c1 → dedicated r !! id2 = Some c2 → conn_id c1 = conn_id c2 → id1 = id2;
  inv_live : ∀ id c, dedicated r !! id = Some c → conn_id c ∉ closed r;
  inv_no_leak : closes = true → ∀ i, i < opened r →
    i ∈ closed r ∨ ∃ id c, dedicated r !! id = Some c ∧ conn_id c = i;
}.

(** *** A history of uninterrupted operations, the latest first *)
Inductive op :=
| OpRoute (now : time) (tenantID : string)
| OpInvalidate (now : time) (tenantID : string)
| OpClose (now : time).

Definition op_time (o : op) : time :=
  match o with OpRoute t _ | OpInvalidate t _ | OpClose t => t end.

(** [now] is not before any operation, nor is an operation before an older one. *)
Fixpoint ordered (ops : list op) (now : time) : Prop :=
  match ops with
  | [] => True
  | o :: older => (op_time o ≤ now)%Z ∧ ordered older (op_time o)
  end.

(** *** What a lookup does

    The outcome of an uninterrupted lookup, case by case. *)
Section lookup.
Context {Meta : Type} `{RouterPolicy Meta}.
Variables (fetch : string → result Meta) (open : Meta → M (Router Meta) Conn) (now : time) (id : string) (r : Router Meta).

(** Nothing is cached for the tenant, or it has been for 30 seconds or more. *)
Definition outdated : Prop := ∀ m t, metaCache r !! id = Some (m, t) → (30 * 1000000000 ≤ now - t)%Z.

(** The metadata it decides on, and the cache it leaves: what is cached, for less than 30 seconds, without asking the
    provider; otherwise what the provider answers, cached from now on. *)
Inductive decides_on : Meta → gmap string (Meta * time) → Prop :=
| on_cached m t : metaCache r !! id = Some (m, t) → (now - t < 30 * 1000000000)%Z → decides_on m (metaCache r)
| on_answer m : outdated → fetch id = Ok m → decides_on m (<[id := (m, now)]> (metaCache r)).

Definition with_cache (cache : gmap string (Meta * time)) : Router Meta := mkRouter cache (dedicated r) (opened r) (closed r).

Inductive looks_up : Router Meta → result (target * option Meta) → Prop :=
| for_no_tenant : TrimSpace id = "" → looks_up r (Ok (Shared, None))
| for_unknown e : TrimSpace id ≠ "" → outdated → fetch id = Err e → looks_up r (Err e)
| for_inactive m cache :
    TrimSpace id ≠ "" → decides_on m cache → meta_active m = false → looks_up (with_cache cache) (Err "tenant is inactive")
| for_shared m cache :
    TrimSpace id ≠ "" → decides_on m cache → meta_active m = true → meta_dedicated m = false →
    looks_up (with_cache cache) (Ok (Shared, Some m))
| for_dedicated m cache c :
    TrimSpace id ≠ "" → decides_on m cache → meta_active m = true → meta_dedicated m = true →
    dedicated r !! id = Some c → looks_up (with_cache cache) (Ok (Dedicated c, Some m))
| for_new m cache r' c :
    TrimSpace id ≠ "" → decides_on m cache → meta_active m = true → meta_dedicated m = true →
    dedicated r !! id = None → open m (with_cache cache) = (r', Ok c) →
    looks_up (mkRouter (metaCache r') (<[id := c]> (dedicated r')) (opened r') (closed r')) (Ok (Dedicated c, Some m))
| for_failed m cache r' e :
    TrimSpace id ≠ "" → decides_on m cache → meta_active m = true → meta_dedicated m = true →
    dedicated r !! id = None → open m (with_cache cache) = (r', Err e) → looks_up r' (Err e).
End lookup.

Section history.
Context {Meta : Type} `{RouterPolicy Meta}.
(** The provider's answer at each time. *)
Variables (P : time → string → result Meta) (open : Meta → M (Router Meta) Conn) (closes : bool).

Definition run_op (o : op) (r : Router Meta) : Router Meta :=
  match o with
  | OpRoute now tenantID => (route (P now) open now tenantID r).1
  | OpInvalidate _ tenantID => InvalidateTenant closes tenantID r
  | OpClose _ => Close r
  end.

Definition run_ops (ops : list op) : Router Meta := foldr run_op empty_router ops.

(** A cached entry is what the provider said when it was fetched, and no invalidation of its
    tenant came later. *)
Definition cache_ok (ops : list op) (now : time) (r : Router Meta) : Prop :=
  ∀ id m at_, metaCache r !! id = Some (m, at_) →
    TrimSpace id ≠ "" ∧ P at_ id = Ok m ∧ (at_ ≤ now)%Z
    ∧ ∀ t id', OpInvalidate t id' ∈ ops → TrimSpace id' = id → (t ≤ at_)%Z.
End history.

(** ** PostgreSQL pools *)
Module DBRouter.
(* server/common/infra/db/tenant_db_router.go: TenantDBMeta *)
Record TenantDBMeta := mkDBMeta {
  DeploymentMode : string;
  DedicatedDSN : string;
  IsActive : bool;
}.

#[global] Instance db_policy : RouterPolicy TenantDBMeta := {
  meta_active := IsActive;
  meta_dedicated m :=
    negb (bool_decide (DeploymentMode m ≠ "dedicated")
          || bool_decide (TrimSpace (DedicatedDSN m) = ""));
}.

(** The provider used when none is configured; [query] is the row of [tenants], if any. *)
(* server/common/infra/db/tenant_db_router.go: sharedTenantMetaProvider.GetTenantDBMeta *)
Definition sharedTenantMetaProvider (query : string → result (option TenantDBMeta))
    (tenantID : string) : result TenantDBMeta :=
  match query tenantID with
  | Err e => Err e
  | Ok None => Err "tenant not found"
  | Ok (Some meta) =>
      Ok (mkDBMeta (ToLower (TrimSpace (DeploymentMode meta))) (DedicatedDSN meta) (IsActive meta))
  end.

(** The provider that asks dbman; [post] is the decoded response of [Client.Post]. *)
(* server/common/infra/dbman/tenant_meta_provider.go: TenantMetaProvider.GetTenantDBMeta *)
Definition dbmanMetaProvider (post : string → result TenantDBMeta) (tenantID : string) :
    result TenantDBMeta :=
  match post tenantID with
  | Err e => Err e
  | Ok resp =>
      Ok (mkDBMeta (ToLower (TrimSpace (DeploymentMode resp))) (TrimSpace (DedicatedDSN resp))
            (IsActive resp))
  end.

(** [pgx_new] is the outcome of [pgxpool.New] on a DSN. *)
Definition open_pool (pgx_new : string → result unit) (m : TenantDBMeta) :
    M (Router TenantDBMeta) Conn := λ r,
  match pgx_new (DedicatedDSN m) with
  | Err e => (r, Err e)
  | Ok _ => let '(r', c) := new_conn (DedicatedDSN m) r in (r', Ok c)
  end.

(** A new router, and the provider it asks: the one it is given, or the shared pool's table. *)
(* server/common/infra/db/tenant_db_router.go: NewTenantDBRouterWithProvider *)
Definition NewTenantDBRouterWithProvider (query : string → result (option TenantDBMeta))
    (provider : option (string → result TenantDBMeta)) : (string → result TenantDBMeta) * Router TenantDBMeta :=
  (default (sharedTenantMetaProvider query) provider, empty_router).

(* server/common/infra/db/tenant_db_router.go: NewTenantDBRouter *)
Definition NewTenantDBRouter (query : string → result (option TenantDBMeta)) :
    (string → result TenantDBMeta) * Router TenantDBMeta :=
  NewTenantDBRouterWithProvider query (Some (sharedTenantMetaProvider query)).

(* server/common/infra/db/tenant_db_router.go: TenantDBRouter.DBForTenant *)
Definition DBForTenant (fetch : string → result TenantDBMeta) (pgx_new : string → result unit)
    (now : time) (tenantID : string) : M (Router TenantDBMeta) target := λ r,
  match route fetch (open_pool pgx_new) now tenantID r with
  | (r', Ok (t, _)) => (r', Ok t)
  | (r', Err e) => (r', Err e)
  end.
End DBRouter.

(** ** Redis clients *)
Module RedisRouter.
(* server/common/infra/cache/tenant_redis_router.go: redisMeta *)
Record redisMeta := mkRedisMeta { Mode : string; Addr : string; IsActive : bool }.

#[global] Instance redis_policy : RouterPolicy redisMeta := {
  meta_active := IsActive;
  meta_dedicated m :=
    negb (bool_decide (Mode m ≠ "dedicated") || bool_decide (TrimSpace (Addr m) = ""));
}.

(** The fetch of [loadMeta]: a router without a provider serves everyone from the shared client. *)
(* server/common/infra/cache/tenant_redis_router.go: NewTenantRedisRouter *)
Definition NewTenantRedisRouter : Router redisMeta := empty_router.

(* server/common/infra/cache/tenant_redis_router.go: TenantRedisRouter.loadMeta *)
Definition fetch_meta (provider : option (string → result redisMeta)) (tenantID : string) :
    result redisMeta :=
  match provider with
  | None => Ok (mkRedisMeta "shared" "" true)
  | Some p =>
      match p tenantID with
      | Err e => Err e
      | Ok m => Ok (mkRedisMeta (ToLower (TrimSpace (Mode m))) (TrimSpace (Addr m)) (IsActive m))
      end
  end.

(** [redis.NewClient] connects lazily and cannot fail. *)
Definition open_client (m : redisMeta) : M (Router redisMeta) Conn := λ r,
  let '(r', c) := new_conn (Addr m) r in (r', Ok c).

(* server/common/infra/cache/tenant_redis_router.go: TenantRedisRouter.ClientForTenant *)
Definition ClientForTenant (provider : option (string → result redisMeta))
    (now : time) (tenantID : string) : M (Router redisMeta) target := λ r,
  match route (fetch_meta provider) open_client now tenantID r with
  | (r', Ok (t, _)) => (r', Ok t)
  | (r', Err e) => (r', Err e)
  end.

(* server/common/infra/cache/tenant_redis_router.go: TenantRedisRouter.InvalidateTenant *)
Definition InvalidateRedis (tenantID : string) (r : Router redisMeta) : Router redisMeta :=
  InvalidateTenant true tenantID r.

(* server/common/infra/cache/tenant_redis_router.go: TenantRedisRouter.Close *)
Definition CloseRedis (r : Router redisMeta) : Router redisMeta := Close r.
End RedisRouter.

(** ** AMQP publishers *)
Module MQRouter.
(* server/chat/service/publisher.go: mqMeta *)
Record mqMeta := mkMQMeta { mode : string; url : string; isActive : bool }.

#[global] Instance mq_policy : RouterPolicy mqMeta := {
  meta_active := isActive;
  meta_dedicated m :=
    negb (bool_decide (mode m ≠ "dedicated") || bool_decide (TrimSpace (url m) = ""));
}.

(* server/chat/service/publisher.go: AMQPPublisher.loadMeta *)
Definition fetch_mq_meta (provider : option (string → result mqMeta)) (tenantID : string) :
    result mqMeta :=
  match provider with
  | None => Ok (mkMQMeta "shared" "" true)
  | Some p =>
      match p tenantID with
      | Err e => Err e
      | Ok m => Ok (mkMQMeta (ToLower (TrimSpace (mode m))) (TrimSpace (url m)) (isActive m))
      end
  end.

(** The outcomes of [amqp.Dial], [conn.Channel] and [ExchangeDeclare] on a URL.  A connection
    whose channel or exchange cannot be set up is closed again. *)
Definition open_publisher (dial channel declare : string → result unit) (m : mqMeta) :
    M (Router mqMeta) Conn := λ r,
  match dial (url m) with
  | Err e => (r, Err e)
  | Ok _ =>
      let '(r, conn) := new_conn (url m) r in
      match channel (url m) with
      | Err e => (close_conns [conn_id conn] r, Err e)
      | Ok _ =>
          match declare (url m) with
          | Err e => (close_conns [conn_id conn] r, Err e)
          | Ok _ => (r, Ok conn)
          end
      end
  end.

(* server/chat/service/publisher.go: AMQPPublisher.publisherForTenant *)
Definition publisherForTenant (provider : option (string → result mqMeta))
    (dial channel declare : string → result unit) (now : time) (tenantID : string) :
    M (Router mqMeta) target := λ r,
  match route (fetch_mq_meta provider) (open_publisher dial channel declare) now tenantID r with
  | (r', Ok (t, _)) => (r', Ok t)
  | (r', Err e) => (r', Err e)
  end.

(** [send] is the outcome of [PublishWithContext] on a connection, for a routing key and body. *)
(* server/chat/service/publisher.go: AMQPPublisher.Publish *)
Definition Publish (provider : option (string → result mqMeta))
    (dial channel declare : string → result unit) (send : target → string → string → result unit)
    (now : time) (tenantID key : string) (payload : result string) : M (Router mqMeta) unit := λ r,
  match publisherForTenant provider dial channel declare now tenantID r with
  | (r, Err e) => (r, Err e)
  | (r, Ok publisher) =>
      match payload with
      | Err e => (r, Err e)
      | Ok body =>
          let routingKey :=
            if decide (TrimSpace tenantID ≠ "") then tenantID +:+ "." +:+ key else key in
          (r, send publisher routingKey body)
      end
  end.

(* server/chat/service/publisher.go: AMQPPublisher.InvalidateTenant *)
Definition InvalidateMQ (tenantID : string) (r : Router mqMeta) : Router mqMeta :=
  InvalidateTenant true tenantID r.

(* server/chat/service/publisher.go: AMQPPublisher.Close *)
Definition CloseMQ (r : Router mqMeta) : Router mqMeta := Close r.
End MQRouter.

(** ** MinIO clients *)
Module MinIORouter.
(* server/common/infra/object/tenant_minio_router.go: TenantMinIOMeta *)
Record TenantMinIOMeta := mkMinIOMeta {
  Mode : string;
  Endpoint : string;
  AccessKey : string;
  SecretKey : string;
  UseSSL : bool;
  Bucket : string;
  IsActive : bool;
}.

#[global] Instance minio_policy : RouterPolicy TenantMinIOMeta := {
  meta_active := IsActive;
  meta_dedicated m :=
    negb (bool_decide (Mode m ≠ "dedicated") || bool_decide (TrimSpace (Endpoint m) = "")
          || bool_decide (TrimSpace (Bucket m) = ""));
}.

(* server/common/infra/object/tenant_minio_router.go: NewTenantMinIORouter *)
Definition NewTenantMinIORouter : Router TenantMinIOMeta := empty_router.

(* server/common/infra/object/tenant_minio_router.go: TenantMinIORouter.loadMeta *)
Definition fetch_minio_meta (provider : string → result TenantMinIOMeta) (tenantID : string) :
    result TenantMinIOMeta :=
  match provider tenantID with
  | Err e => Err e
  | Ok m =>
      Ok (mkMinIOMeta (ToLower (TrimSpace (Mode m))) (TrimSpace (Endpoint m)) (AccessKey m)
            (SecretKey m) (UseSSL m) (TrimSpace (Bucket m)) (IsActive m))
  end.

(** The outcomes of [NewClient] on the metadata and of [EnsureBucket] on a bucket. *)
Definition open_minio (newClient : TenantMinIOMeta → result unit)
    (ensureBucket : string → string → result unit) (m : TenantMinIOMeta) :
    M (Router TenantMinIOMeta) Conn := λ r,
  match newClient m with
  | Err e => (r, Err e)
  | Ok _ =>
      let '(r, client) := new_conn (Endpoint m) r in
      match ensureBucket (Endpoint m) (Bucket m) with
      | Err e => (r, Err e)
      | Ok _ => (r, Ok client)
      end
  end.

(** The client, the bucket and the prefix of the tenant's object keys. *)
(* server/common/infra/object/tenant_minio_router.go: TenantMinIORouter.Resolve *)
Definition Resolve (sharedBucket : string) (provider : string → result TenantMinIOMeta)
    (newClient : TenantMinIOMeta → result unit) (ensureBucket : string → string → result unit)
    (now : time) (tenantID : string) : M (Router TenantMinIOMeta) (target * string * string) := λ r,
  match route (fetch_minio_meta provider) (open_minio newClient ensureBucket) now tenantID r with
  | (r', Err e) => (r', Err e)
  | (r', Ok (t, None)) => (r', Ok (t, sharedBucket, ""))
  | (r', Ok (Shared, Some _)) =>
      (r', Ok (Shared, sharedBucket, "tenants/" +:+ tenantID +:+ "/"))
  | (r', Ok (Dedicated c, Some meta)) => (r', Ok (Dedicated c, Bucket meta, ""))
  end.

(* server/common/infra/object/tenant_minio_router.go: TenantMinIORouter.InvalidateTenant *)
Definition InvalidateMinIO (tenantID : string) (r : Router TenantMinIOMeta) :
    Router TenantMinIOMeta := InvalidateTenant false tenantID r.
End MinIORouter.

(** * Lemmas *)

(** ** The instances of the contract *)

Section open_laws.
Lemma new_conn_spec {Meta} addr (r : Router Meta) :
  new_conn addr r
  = (mkRouter (metaCache r) (dedicated r) (S (opened r)) (closed r), mkConn (opened r) addr).
Proof. reflexivity. Qed.

#[export] Instance open_pool_law pgx_new : OpenLaw true (DBRouter.open_pool pgx_new).
Proof.
  split; intros m r; unfold DBRouter.open_pool; rewrite ?new_conn_spec; destruct (pgx_new _);
    cbn; try done.
  - exists []. repeat split; [lia|constructor].
  - exists []. repeat split; [lia|constructor].
  - intros c [= <-]; cbn. split; [lia|done].
  - intros i _ Hi. right. eexists. split; [done|]. cbn. lia.
  - lia.
Qed.

#[export] Instance open_client_law : OpenLaw true RedisRouter.open_client.
Proof.
  split; intros m r; unfold RedisRouter.open_client; rewrite ?new_conn_spec; cbn; try done.
  - exists []. repeat split; [lia|constructor].
  - intros c [= <-]; cbn. split; [lia|done].
  - intros i _ Hi. right. eexists. split; [done|]. cbn. lia.
Qed.

#[export] Instance open_publisher_law dial channel declare :
  OpenLaw true (MQRouter.open_publisher dial channel declare).
Proof.
  split; intros m r; unfold MQRouter.open_publisher; rewrite ?new_conn_spec;
    (destruct (dial _); [destruct (channel _); [destruct (declare _)|]|]); cbn; try done.
  1,4: exists []; repeat split; [lia|constructor].
  1-2: exists [opened r]; repeat split; [lia|repeat constructor; lia].
  - intros c [= <-]; cbn. split; [lia|done].
  - intros i _ Hi. right. eexists. split; [done|]. cbn. lia.
  - intros i _ Hi. left. apply elem_of_cons. left. lia.
  - intros i _ Hi. left. apply elem_of_cons. left. lia.
  - lia.
Qed.

#[export] Instance open_minio_law newClient ensureBucket :
  OpenLaw false (MinIORouter.open_minio newClient ensureBucket).
Proof.
  split; intros m r; unfold MinIORouter.open_minio; rewrite ?new_conn_spec;
    (destruct (newClient _); [destruct (ensureBucket _ _)|]); cbn; try done.
  1-3: exists []; repeat split; [lia|constructor].
  intros c [= <-]; cbn. split; [lia|done].
Qed.
End open_laws.

(** ** The connection invariant *)

Section invariant.
Context {Meta : Type} `{RouterPolicy Meta}.
Context (closes : bool).
Implicit Types r : Router Meta.

Lemma empty_router_inv : router_inv closes (empty_router (Meta := Meta)).
Proof.
  split; cbn; intros *; rewrite ?lookup_empty; try done; try lia; try set_solver.
Qed.

Lemma store_meta_inv now id m r : router_inv closes r → router_inv closes (store_meta now id m r).
Proof. intros []. by split. Qed.

Lemma InvalidateTenant_inv id r : router_inv closes r → router_inv closes (InvalidateTenant closes id r).
Proof.
  intros Hr. unfold InvalidateTenant. case_decide; [done|]. cbn.
  destruct Hr as [Hb Hcb Hd Hl Hn]. destruct (dedicated r !! TrimSpace id) as [c|] eqn:E; [|by split].
  assert (Hdel : ∀ i c', delete (TrimSpace id) (dedicated r) !! i = Some c' →
            TrimSpace id ≠ i ∧ dedicated r !! i = Some c').
  { intros i c'. by rewrite lookup_delete_Some. }
  assert (Hd' : ∀ id1 id2 c1 c2, delete (TrimSpace id) (dedicated r) !! id1 = Some c1 →
            delete (TrimSpace id) (dedicated r) !! id2 = Some c2 →
            conn_id c1 = conn_id c2 → id1 = id2).
  { intros id1 id2 c1 c2 [_ H1]%Hdel [_ H2]%Hdel. by apply (Hd id1 id2 c1 c2). }
  destruct closes; split; cbn; try done.
  - intros i c' [_ Hi]%Hdel. by eapply Hb.
  - intros i [->|Hi]%elem_of_cons; [by eapply Hb|by apply Hcb].
  - intros i c' [Hne Hc']%Hdel [Heq|Hin]%elem_of_cons; [|by eapply Hl].
    apply Hne. symmetry. by apply (Hd i (TrimSpace id) c' c).
  - intros _ i Hi. destruct (Hn eq_refl i Hi) as [Hin|(id' & c' & Hc' & Hci)].
    { left. by right. }
    destruct (decide (id' = TrimSpace id)) as [->|Hne].
    + simplify_eq. left. by left.
    + right. exists id', c'. split; [|done]. by rewrite lookup_delete_ne.
  - intros i c' [_ Hi]%Hdel. by eapply Hb.
  - intros i c' [_ Hi]%Hdel. by eapply Hl.
Qed.

Lemma Close_inv r : router_inv closes r → router_inv closes (Close r).
Proof.
  intros [Hb Hcb Hd Hl Hn]. split; cbn; try (intros *; rewrite ?lookup_empty; done).
  - intros i [Hi|Hi]%elem_of_app; [|by apply Hcb].
    apply list_elem_of_fmap in Hi as ([id c] & -> & Hi%elem_of_map_to_list). cbn. eauto.
  - intros Hc i Hi. left. destruct (Hn Hc i Hi) as [Hin|(id & c & Hidc & <-)].
    + apply elem_of_app. by right.
    + apply elem_of_app. left. apply list_elem_of_fmap. exists (id, c).
      split; [done|]. by apply elem_of_map_to_list.
Qed.

Lemma install_inv (open : Meta → M (Router Meta) Conn) `{!OpenLaw closes open} id m r :
  router_inv closes r → router_inv closes (install open id m r).1.
Proof.
  intros Hr. unfold install. destruct (dedicated r !! id) as [c|] eqn:E; [done|].
  destruct (open_frame m r) as [_ Hded]. destruct (open_counts m r) as (ids & Hcl & Hop & Hids).
  pose proof (open_fresh m r) as Hfresh. pose proof (open_no_leak m r) as Hleak.
  destruct Hr as [Hb Hcb Hd Hl Hn]. rewrite Forall_forall in Hids.
  destruct (open m r) as [r' [c|e]]; cbn in *.
  - destruct (Hfresh c eq_refl) as [Hc1 Hc2]. split; cbn; rewrite ?Hded.
    + intros id' c' [[_ <-]|[_ Hc']]%lookup_insert_Some; [lia|]. apply Hb in Hc'. lia.
    + intros i Hi. rewrite Hcl, elem_of_app in Hi.
      destruct Hi as [Hi|Hi]; [apply Hids in Hi; lia|apply Hcb in Hi; lia].
    + intros id1 id2 c1 c2 [[<- <-]|[Hn1 H1]]%lookup_insert_Some
        [[<- <-]|[Hn2 H2]]%lookup_insert_Some Heq; try done.
      * apply Hb in H2. lia.
      * apply Hb in H1. lia.
      * by eapply Hd.
    + intros id' c' [[_ <-]|[_ Hc']]%lookup_insert_Some Hin.
      * apply Hc2, Hcb in Hin. lia.
      * rewrite Hcl, elem_of_app in Hin. destruct Hin as [Hin|Hin]; [|by eapply Hl].
        apply Hids in Hin. apply Hb in Hc'. lia.
    + intros Hc i Hi. destruct (decide (i < opened r)) as [Hlt|Hge].
      * destruct (Hn Hc i Hlt) as [Hin|(id' & c' & Hc' & <-)].
        { left. rewrite Hcl. apply elem_of_app. by right. }
        right. exists id', c'. split; [|done].
        rewrite lookup_insert_ne; [done|]. intros ->. congruence.
      * destruct (Hleak i Hc ltac:(lia)) as [Hin|(c' & [= <-] & <-)]; [by left|].
        right. exists id, c. by rewrite lookup_insert_eq.
  - split; rewrite ?Hded.
    + intros id' c' Hc'%Hb. lia.
    + intros i Hi. rewrite Hcl, elem_of_app in Hi.
      destruct Hi as [Hi|Hi]; [apply Hids in Hi; lia|apply Hcb in Hi; lia].
    + done.
    + intros id' c' Hc' Hin. rewrite Hcl, elem_of_app in Hin.
      destruct Hin as [Hin|Hin]; [|by eapply Hl]. apply Hids in Hin. apply Hb in Hc'. lia.
    + intros Hc i Hi. destruct (decide (i < opened r)) as [Hlt|Hge].
      * destruct (Hn Hc i Hlt) as [Hin|?]; [|by right]. left. rewrite Hcl. apply elem_of_app. by right.
      * destruct (Hleak i Hc ltac:(lia)) as [Hin|(c' & ? & _)]; [by left|done].
Qed.

Context {W : Type} (fetch : W → string → result Meta) (open : W → Meta → M (Router Meta) Conn).
Context `{!∀ w, OpenLaw closes (open w)}.

Lemma thread_step_inv now id r p r' p' :
  thread_step fetch open now id r p r' p' → router_inv closes r → router_inv closes r'.
Proof.
  intros Hst Hr. destruct Hst as [| | | | | | | | | | w r m r' c Hi | w r m r' e Hi]; try done;
    try by apply store_meta_inv.
  all: pose proof (install_inv (open w) id m r Hr) as Hinv; by rewrite Hi in Hinv.
Qed.

Lemma sys_step_inv s s' :
  sys_step fetch open closes s s' →
  router_inv closes (shared_state s) → router_inv closes (shared_state s').
Proof.
  intros Hst Hr. destruct Hst; cbn in *; eauto using thread_step_inv, InvalidateTenant_inv, Close_inv.
Qed.

Lemma sys_steps_inv s s' :
  rtc (sys_step fetch open closes) s s' →
  router_inv closes (shared_state s) → router_inv closes (shared_state s').
Proof. induction 1; eauto using sys_step_inv. Qed.
End invariant.

(** ** Histories *)

Section history_lemmas.
Context {Meta : Type} `{RouterPolicy Meta}.
Variables (P : time → string → result Meta) (open : Meta → M (Router Meta) Conn) (closes : bool).
Context `{!OpenLaw closes open}.
Implicit Types r : Router Meta.

Lemma install_metaCache id m r : metaCache (install open id m r).1 = metaCache r.
Proof.
  unfold install. destruct (dedicated r !! id); [done|].
  destruct (open_frame m r) as [Hm _]. by destruct (open m r) as [r' [c|e]].
Qed.

(** Routing leaves the cache as [loadMeta] does. *)
Lemma route_metaCache fetch now id r :
  TrimSpace id ≠ "" →
  metaCache (route fetch open now id r).1 = metaCache (loadMeta fetch now id r).1.
Proof.
  intros Hid. unfold route. rewrite decide_False by done.
  destruct (loadMeta fetch now id r) as [r1 [m|e]]; [|done].
  repeat case_match; try done; cbn.
  all: match goal with Hi : install _ _ _ _ = _ |- _ =>
         pose proof (install_metaCache id m r1) as Hm; rewrite Hi in Hm; done end.
Qed.

Lemma loadMeta_cache_ok ops now id r :
  TrimSpace id ≠ "" →
  (∀ o, o ∈ ops → op_time o ≤ now)%Z →
  cache_ok P ops now r → cache_ok P ops now (loadMeta (P now) now id r).1.
Proof.
  intros Hid Hops Hr. unfold loadMeta. destruct (fresh_meta now id r); [done|].
  destruct (P now id) as [m|e] eqn:E; [|done]. cbn.
  intros id' m' t'. unfold store_meta. cbn [metaCache set_metaCache].
  intros [[<- [= <- <-]]|[_ Hl]]%lookup_insert_Some; [|by apply Hr].
  repeat split; [done|done|done|]. intros t id' Ht _. by apply (Hops _ Ht).
Qed.

Lemma ordered_bound ops now o : ordered ops now → o ∈ ops → (op_time o ≤ now)%Z.
Proof.
  revert now. induction ops as [|o' ops IH]; intros now; [by intros _ ?%elem_of_nil|].
  intros [Hle Hord] [->|Hin]%elem_of_cons; [done|]. etrans; [by apply IH|done].
Qed.

Lemma run_op_cache_ok ops o now r :
  ordered (o :: ops) now → cache_ok P ops (op_time o) r →
  cache_ok P (o :: ops) now (run_op P open closes o r).
Proof.
  intros [Hle Hord] Hr.
  assert (Hmono : ∀ r', cache_ok P ops (op_time o) r' →
            (∀ id m t, metaCache r' !! id = Some (m, t) →
               ∀ t' id', o = OpInvalidate t' id' → TrimSpace id' = id → (t' ≤ t)%Z) →
            cache_ok P (o :: ops) now r').
  { intros r' Hr' Hinv id m t Hl. destruct (Hr' id m t Hl) as (H1 & H2 & H3 & H4).
    repeat split; [done|done|lia|]. intros t' id' [Heq|Hin]%elem_of_cons; eauto. }
  destruct o as [t id|t id|t]; cbn [run_op op_time] in *.
  - apply Hmono; [|done]. destruct (decide (TrimSpace id = "")) as [Hb|Hb].
    + unfold route. by rewrite decide_True.
    + intros i m ti. rewrite route_metaCache by done.
      apply loadMeta_cache_ok; [done| |done]. intros o Ho. by eapply ordered_bound.
  - unfold InvalidateTenant. case_decide as Hb; cbn.
    + apply Hmono; [done|]. intros i m ti Hl ?? [= <- <-] <-.
      destruct (Hr _ _ _ Hl) as [Hne _]. by rewrite TrimSpace_idem in Hne.
    + apply Hmono.
      * intros i m ti. destruct (dedicated r !! TrimSpace id), closes; cbn;
          intros [_ Hl]%lookup_delete_Some; by apply Hr.
      * intros i m ti Hl ?? [= <- <-] <-. exfalso.
        destruct (dedicated r !! TrimSpace id), closes; cbn in Hl;
          by rewrite lookup_delete_eq in Hl.
  - by apply Hmono.
Qed.

Lemma run_ops_cache_ok ops now : ordered ops now → cache_ok P ops now (run_ops P open closes ops).
Proof.
  revert now. induction ops as [|o ops IH]; intros now Hord.
  - intros id m t Hl. cbn in Hl. by rewrite lookup_empty in Hl.
  - cbn. apply run_op_cache_ok; [done|]. apply IH. by destruct Hord.
Qed.

Lemma route_meta fetch now id r t m :
  (route fetch open now id r).2 = Ok (t, Some m) → (loadMeta fetch now id r).2 = Ok m ∧ TrimSpace id ≠ "".
Proof.
  unfold route. case_decide as Hb; [done|].
  destruct (loadMeta fetch now id r) as [r1 [m'|e]]; [|done].
  repeat case_match; intros; simplify_eq/=; done.
Qed.

(** An uninterrupted call is a run of its atomic sections. *)
Lemma route_steps {W} (fetch : W → string → result Meta) (opens : W → Meta → M (Router Meta) Conn)
    w now id r :
  rtc (call_step fetch opens now id) (r, Start)
      ((route (fetch w) (opens w) now id r).1, Returned (route (fetch w) (opens w) now id r).2).
Proof.
  unfold route. case_decide as Hb; [by apply rtc_once, step_blank|].
  assert (Hdec : ∀ r1 m, rtc (call_step fetch opens now id) (r, Start) (r1, Deciding m) →
    rtc (call_step fetch opens now id) (r, Start)
      (let res := if negb (meta_active m) then (r1, Err "tenant is inactive")
        else if negb (meta_dedicated m) then (r1, Ok (Shared, Some m))
        else match dedicated r1 !! id with
             | Some existing => (r1, Ok (Dedicated existing, Some m))
             | None => match install (opens w) id m r1 with
                       | (r2, Err e) => (r2, Err e)
                       | (r2, Ok c) => (r2, Ok (Dedicated c, Some m))
                       end
             end in (res.1, Returned res.2))).
  { intros r1 m Hr1. cbv zeta.
    destruct (meta_active m) eqn:Ea; [|by eapply rtc_r; [done|apply step_inactive]].
    destruct (meta_dedicated m) eqn:Ed; [|by eapply rtc_r; [done|apply step_shared]].
    cbn. destruct (dedicated r1 !! id) as [c|] eqn:El;
      [by eapply rtc_r; [done|apply step_existing]|].
    assert (Hr2 : rtc (call_step fetch opens now id) (r, Start) (r1, Installing m)).
    { eapply rtc_r; [exact Hr1|by apply step_missing]. }
    destruct (install (opens w) id m r1) as [r2 [c|e]] eqn:Ei; (eapply rtc_r; [exact Hr2|]);
      [by eapply step_install|by eapply step_install_err]. }
  unfold loadMeta. destruct (fresh_meta now id r) as [m|] eqn:Ef.
  - apply Hdec. by apply rtc_once, step_cached.
  - destruct (fetch w id) as [m|e] eqn:Ew.
    + apply Hdec. apply (rtc_l _ _ (r, Fetching)); [by apply step_stale|].
      apply (rtc_l _ _ (r, Storing m)); [by apply (step_fetch _ _ _ _ w)|].
      by apply rtc_once, step_store.
    + apply (rtc_l _ _ (r, Fetching)); [by apply step_stale|].
      by apply rtc_once, (step_fetch_err _ _ _ _ w).
Qed.
End history_lemmas.

(** The uninterrupted call inside a system. *)
Lemma call_steps_sys {Meta} `{RouterPolicy Meta} {W} (fetch : W → string → result Meta)
    (open : W → Meta → M (Router Meta) Conn) closes now id i ts x y :
  rtc (call_step fetch open now id) x y →
  rtc (sys_step fetch open closes) (mkSys x.1 (<[i := (now, id, x.2)]> ts))
                                   (mkSys y.1 (<[i := (now, id, y.2)]> ts)).
Proof.
  induction 1 as [x|x y z Hst _ IH]; [apply rtc_refl|].
  eapply rtc_l; [|exact IH].
  rewrite <-(insert_insert_eq ts i (now, id, y.2) (now, id, x.2)).
  by eapply sys_thread; [apply lookup_insert_eq|].
Qed.

(** * Properties *)

(** C28: Connections under concurrency.  Start a router empty and let any number of lookups,
    invalidations and closes interleave at their atomic sections, the provider and the
    connection attempts answering anything.  Then at every moment the dedicated connections in
    the map are open, no two tenants share one, and (where connections are closed at all) every
    other connection ever opened has been closed; and the connection a lookup hands out is, at
    that moment, the one in the map, open. *)
Theorem router_connections_safe {Meta} `{RouterPolicy Meta} (closes : bool) {W}
    (fetch : W → string → result Meta) (open : W → Meta → M (Router Meta) Conn) (s : Sys Meta) :
  (∀ w, OpenLaw closes (open w)) →
  rtc (sys_step fetch open closes) (mkSys empty_router ∅) s →
  router_inv closes (shared_state s)
  ∧ ∀ now id p r' c m,
      thread_step fetch open now id (shared_state s) p r' (Returned (Ok (Dedicated c, Some m))) →
      dedicated r' !! id = Some c ∧ conn_id c ∉ closed r'.
Proof.
  intros Hopen Hsteps. assert (Hinv : router_inv closes (shared_state s)).
  { eapply sys_steps_inv; [apply Hopen|exact Hsteps|]. apply empty_router_inv. }
  split; [done|]. intros now id p r' c m Hst.
  assert (Hinv' : router_inv closes r') by (eapply thread_step_inv; [apply Hopen|done..]).
  assert (Hl : dedicated r' !! id = Some c); [|split; [done|]; by eapply inv_live].
  inversion Hst; subst; [done|].
  match goal with Hi : install _ _ _ _ = _ |- _ => unfold install in Hi; revert Hi end.
  destruct (dedicated (shared_state s) !! id) eqn:E; [by intros [= <- <-]|].
  destruct (open w m (shared_state s)) as [r2 [c2|e]]; [|done]. intros [= <- <-]. cbn.
  apply lookup_insert_eq.
Qed.

Lemma router_connections_safe_witness :
  let fetch := λ (_ : unit) (_ : string), Ok (DBRouter.mkDBMeta "dedicated" "dsn" true) in
  let open := λ (_ : unit), DBRouter.open_pool (λ _, Ok tt) in
  let s := mkSys (InvalidateTenant true "t" empty_router) ∅ in
  router_inv true (shared_state s)
  ∧ ∀ now id p r' c m,
      thread_step fetch open now id (shared_state s) p r' (Returned (Ok (Dedicated c, Some m))) →
      dedicated r' !! id = Some c ∧ conn_id c ∉ closed r'.
Proof.
  apply (router_connections_safe true
    (λ (_ : unit) (_ : string), Ok (DBRouter.mkDBMeta "dedicated" "dsn" true))
    (λ (_ : unit), DBRouter.open_pool (λ _, Ok tt))
    (mkSys (InvalidateTenant true "t" empty_router) ∅)).
  - intros w. apply open_pool_law.
  - apply rtc_once, sys_invalidate.
Defined.

(** C29: Bounded staleness.  After any history of uninterrupted lookups, invalidations and closes,
    the metadata on which a lookup decides is what the provider answered for that tenant at some
    moment less than 30 seconds before, and at or after every invalidation of the tenant. *)
Theorem route_bounded_staleness {Meta} `{RouterPolicy Meta} (P : time → string → result Meta)
    (open : Meta → M (Router Meta) Conn) (closes : bool) (ops : list op) (now : time) (id : string)
    (t : target) (m : Meta) :
  OpenLaw closes open → ordered ops now →
  (route (P now) open now id (run_ops P open closes ops)).2 = Ok (t, Some m) →
  ∃ at_, P at_ id = Ok m ∧ (now - 30 * 1000000000 < at_ ≤ now)%Z
         ∧ ∀ ti id', OpInvalidate ti id' ∈ ops → TrimSpace id' = id → (ti ≤ at_)%Z.
Proof.
  intros Hlaw Hord Hr. apply route_meta in Hr as [Hload Hid].
  pose proof (run_ops_cache_ok P open closes ops now Hord) as Hcache.
  unfold loadMeta, fresh_meta in Hload. revert Hload.
  destruct (metaCache (run_ops P open closes ops) !! id) as [[m' t']|] eqn:Em.
  - destruct (Hcache _ _ _ Em) as (_ & HP & Hle & Hinv).
    destruct (Z.ltb_spec (now - t') cacheTTL) as [Hlt|Hge].
    + intros [= <-]. exists t'. repeat split; [done| |done|done].
      unfold cacheTTL in Hlt. lia.
    + destruct (P now id) as [m2|e] eqn:EP; [|done]. intros [= <-]. exists now.
      repeat split; [done|lia|lia|]. intros ti id' Hin _. by apply (ordered_bound ops now _ Hord Hin).
  - destruct (P now id) as [m2|e] eqn:EP; [|done]. intros [= <-]. exists now.
    repeat split; [done|lia|lia|]. intros ti id' Hin _. by apply (ordered_bound ops now _ Hord Hin).
Qed.

Lemma route_bounded_staleness_witness :
  let P := λ (t : time) (_ : string), Ok (DBRouter.mkDBMeta (if (t <? 5)%Z then "shared" else "x") "" true) in
  ∃ at_, P at_ "t" = Ok (DBRouter.mkDBMeta "x" "" true) ∧ (9 - 30 * 1000000000 < at_ ≤ 9)%Z
         ∧ ∀ ti id', OpInvalidate ti id' ∈ [OpInvalidate 7 " t "; OpRoute 3 "t"] →
             TrimSpace id' = "t" → (ti ≤ at_)%Z.
Proof.
  apply (route_bounded_staleness
    (λ (t : time) (_ : string), Ok (DBRouter.mkDBMeta (if (t <? 5)%Z then "shared" else "x") "" true))
    (DBRouter.open_pool (λ _, Ok tt)) true [OpInvalidate 7 " t "; OpRoute 3 "t"] 9 "t"
    Shared (DBRouter.mkDBMeta "x" "" true)).
  - apply open_pool_law.
  - cbn. lia.
  - vm_compute. reflexivity.
Defined.

Lemma loadMeta_outdated {Meta} (fetch : string → result Meta) now id (r : Router Meta) :
  outdated now id r →
  loadMeta fetch now id r
  = match fetch id with Err e => (r, Err e) | Ok m => (with_cache r (<[id := (m, now)]> (metaCache r)), Ok m) end.
Proof.
  intros Ho. unfold loadMeta, fresh_meta. destruct (metaCache r !! id) as [[m t]|] eqn:E; [|by destruct (fetch id)].
  specialize (Ho m t E). rewrite (proj2 (Z.ltb_ge _ _)) by (unfold cacheTTL; lia). by destruct (fetch id).
Qed.

Lemma loadMeta_decides {Meta} (fetch : string → result Meta) now id (r : Router Meta) m cache :
  decides_on fetch now id r m cache → loadMeta fetch now id r = (with_cache r cache, Ok m).
Proof.
  intros [m' t Hc Ht|m' Ho Hf].
  - unfold loadMeta, fresh_meta. rewrite Hc, (proj2 (Z.ltb_lt _ _)) by (unfold cacheTTL; lia). by destruct r.
  - by rewrite loadMeta_outdated, Hf by done.
Qed.

Lemma loadMeta_cases {Meta} (fetch : string → result Meta) now id (r : Router Meta) :
  (∃ e, outdated now id r ∧ fetch id = Err e) ∨ ∃ m cache, decides_on fetch now id r m cache.
Proof.
  destruct (metaCache r !! id) as [[m t]|] eqn:E.
  - destruct (decide (now - t < 30 * 1000000000)%Z) as [Hlt|Hge].
    + right. exists m, (metaCache r). by eapply on_cached.
    + assert (outdated now id r) as Ho by (intros m' t'; rewrite E; intros [= <- <-]; lia).
      destruct (fetch id) as [m'|e] eqn:Ef; [right|left; by exists e]. eexists _, _. by apply on_answer.
  - assert (outdated now id r) as Ho by (intros m' t'; by rewrite E).
    destruct (fetch id) as [m'|e] eqn:Ef; [right|left; by exists e]. eexists _, _. by apply on_answer.
Qed.

Lemma looks_up_route {Meta} `{RouterPolicy Meta} fetch (open : Meta → M (Router Meta) Conn) now id (r r' : Router Meta) out :
  looks_up fetch open now id r r' out → route fetch open now id r = (r', out).
Proof.
  unfold route, install. intros [Hb|e Hb Ho Hf|m cache Hb Hd|m cache Hb Hd|m cache c Hb Hd|m cache r2 c Hb Hd|m cache r2 e Hb Hd];
    [by rewrite decide_True| |rewrite decide_False, (loadMeta_decides _ _ _ _ _ _ Hd) by done..];
    [by rewrite decide_False, loadMeta_outdated, Hf by done|intros..].
  - by rewrite H0.
  - by rewrite H0, H1.
  - rewrite H0, H1. cbn [negb with_cache dedicated]. by rewrite H2.
  - rewrite H0, H1. cbn [negb]. change (dedicated (with_cache r cache)) with (dedicated r). by rewrite H2, H3.
  - rewrite H0, H1. cbn [negb]. change (dedicated (with_cache r cache)) with (dedicated r). by rewrite H2, H3.
Qed.

Lemma route_looks_up {Meta} `{RouterPolicy Meta} fetch (open : Meta → M (Router Meta) Conn) now id (r : Router Meta) :
  ∃ r' out, looks_up fetch open now id r r' out.
Proof.
  destruct (decide (TrimSpace id = "")) as [Hb|Hb]; [by eexists _, _; apply for_no_tenant|].
  destruct (loadMeta_cases fetch now id r) as [(e & Ho & Hf)|(m & cache & Hd)]; [by eexists _, _; eapply for_unknown|].
  destruct (meta_active m) eqn:Ha; [|by eexists _, _; eapply for_inactive].
  destruct (meta_dedicated m) eqn:Hm; [|by eexists _, _; eapply for_shared].
  destruct (dedicated r !! id) as [c|] eqn:Hc; [by eexists _, _; eapply for_dedicated|].
  destruct (open m (with_cache r cache)) as [r' [c|e]] eqn:Eo; eexists _, _; [by eapply for_new|by eapply for_failed].
Qed.

(** C24: What a lookup does, alone and among others.  Alone, it does what [looks_up] says and nothing else: a blank tenant is
    served from the shared back end; metadata cached for less than 30 seconds are used without asking the provider, and
    otherwise the provider is asked and what it answers is cached; a tenant that is inactive is refused, one that is
    not dedicated is served from the shared back end, a dedicated one from the connection it has, or from one that is
    opened then and kept, or, when opening fails, it gets the error and no connection is kept.  Whatever other calls are in flight, a lookup that is not interrupted takes the interleaving
    system from its start to that outcome.  And a lookup that comes to open a connection after another has
    recorded one for its tenant returns that one and opens none. *)
Theorem route_refines_sections {Meta} `{RouterPolicy Meta} (closes : bool) {W}
    (fetch : W → string → result Meta) (open : W → Meta → M (Router Meta) Conn) (w : W)
    (now : time) (id : string) (i : nat) (r : Router Meta)
    (ts : gmap nat (time * string * pc Meta)) :
  (∀ r' out, looks_up (fetch w) (open w) now id r r' out ↔ route (fetch w) (open w) now id r = (r', out))
  ∧ (∀ r' out, looks_up (fetch w) (open w) now id r r' out →
       rtc (sys_step fetch open closes) (mkSys r (<[i := (now, id, Start)]> ts)) (mkSys r' (<[i := (now, id, Returned out)]> ts)))
  ∧ (∀ m c r' p, dedicated r !! id = Some c → thread_step fetch open now id r (Installing m) r' p →
       r' = r ∧ p = Returned (Ok (Dedicated c, Some m))).
Proof.
  split_and!.
  - intros r' out. split; [apply looks_up_route|]. intros Hr.
    destruct (route_looks_up (fetch w) (open w) now id r) as (r2 & out2 & Hl).
    pose proof (looks_up_route _ _ _ _ _ _ _ Hl) as Hr2. rewrite Hr in Hr2. by injection Hr2 as <- <-.
  - intros r' out Hl%looks_up_route.
    pose proof (call_steps_sys fetch open closes now id i ts (r, Start) (_, _) (route_steps fetch open w now id r)) as Hs.
    by rewrite Hl in Hs.
  - intros m c r' p Hc Hstep. inversion Hstep; subst; unfold install in *; rewrite Hc in *; by simplify_eq.
Qed.

(** A dedicated connection outlives the address it was opened for.  Once a tenant has a
    dedicated pool, a lookup returns that pool whatever DSN the tenant's current metadata name,
    cached or just fetched, as long as the tenant is active and dedicated: only an invalidation
    (or a close) makes the router follow a changed DSN.  The MinIO router in the same situation
    combines the old endpoint's client with the new bucket. *)
Theorem dedicated_client_ignores_new_address (r : Router DBRouter.TenantDBMeta) (c : Conn)
    (fetch : string → result DBRouter.TenantDBMeta) (pgx_new : string → result unit)
    (now : time) (id dsn : string)
    (rm : Router MinIORouter.TenantMinIOMeta) (provider : string → result MinIORouter.TenantMinIOMeta)
    newClient ensureBucket sharedBucket endpoint ak sk ssl bucket :
  TrimSpace id ≠ "" → trimmed dsn ∧ dsn ≠ "" →
  dedicated r !! id = Some c → metaCache r !! id = None →
  fetch id = Ok (DBRouter.mkDBMeta "dedicated" dsn true) →
  trimmed endpoint ∧ endpoint ≠ "" → trimmed bucket ∧ bucket ≠ "" →
  dedicated rm !! id = Some c → metaCache rm !! id = None →
  provider id = Ok (MinIORouter.mkMinIOMeta "dedicated" endpoint ak sk ssl bucket true) →
  (DBRouter.DBForTenant fetch pgx_new now id r).2 = Ok (Dedicated c)
  ∧ (MinIORouter.Resolve sharedBucket provider newClient ensureBucket now id rm).2
    = Ok (Dedicated c, bucket, "").
Proof.
  intros Hid [Hdsn Hdne] Hc Hm Hf [Hep Hepne] [Hb Hbne] Hcm Hmm Hp. split.
  - unfold DBRouter.DBForTenant, route, loadMeta, fresh_meta. rewrite decide_False, Hm, Hf by done.
    cbn. rewrite (bool_decide_false (_ ≠ _)) by naive_solver.
    rewrite trimmed_TrimSpace, bool_decide_false by done. cbn. by rewrite Hc.
  - unfold MinIORouter.Resolve, route, loadMeta, fresh_meta. rewrite decide_False, Hmm by done.
    unfold MinIORouter.fetch_minio_meta. rewrite Hp. cbn.
    rewrite !(trimmed_TrimSpace endpoint), !(trimmed_TrimSpace bucket) by done.
    rewrite (bool_decide_false (_ ≠ _)) by (intros Hn; apply Hn; vm_compute; reflexivity).
    rewrite !bool_decide_false by done. cbn. by rewrite Hcm.
Qed.

Lemma dedicated_client_ignores_new_address_witness :
  let c := mkConn 0 "old" in
  let r := mkRouter ∅ {["t" := c]} 1 [] in
  let rm := mkRouter ∅ {["t" := c]} 1 [] in
  (DBRouter.DBForTenant (λ _, Ok (DBRouter.mkDBMeta "dedicated" "new" true)) (λ _, Ok tt) 5 "t" r).2
  = Ok (Dedicated c)
  ∧ (MinIORouter.Resolve "shared" (λ _, Ok (MinIORouter.mkMinIOMeta "dedicated" "new" "a" "s" true "b2" true))
      (λ _, Ok tt) (λ _ _, Ok tt) 5 "t" rm).2 = Ok (Dedicated c, "b2", "").
Proof.
  eapply (dedicated_client_ignores_new_address (mkRouter ∅ {["t" := mkConn 0 "old"]} 1 [])
    (mkConn 0 "old") _ _ 5 "t" "new" (mkRouter ∅ {["t" := mkConn 0 "old"]} 1 []));
    try reflexivity; try (vm_compute; split; [split; reflexivity|discriminate]);
    vm_compute; discriminate.
Defined.

(** An invalidation can be undone by a lookup in flight.  There is an interleaving in which a
    lookup fetches a tenant's metadata, the tenant is then changed and invalidated, and the lookup
    stores what it fetched: with no call in flight any more, the router serves the tenant by the old
    metadata (say, as active) for up to 30 seconds, although the invalidation came after the change. *)
Theorem invalidate_races_with_lookup {Meta} `{RouterPolicy Meta} (closes : bool)
    (open : unit → Meta → M (Router Meta) Conn) (old : Meta) (now : time) (id : string) :
  TrimSpace id = id → id ≠ "" → meta_active old = true → meta_dedicated old = false →
  ∃ s1 s2,
    rtc (sys_step (λ _ _, Ok old) open closes) (mkSys empty_router ∅) s1
    ∧ s2 = mkSys (InvalidateTenant closes id (shared_state s1)) (calls s1)
    ∧ ∃ s3, rtc (sys_step (λ _ _, Err "not asked again") open closes) s2 s3
        ∧ (∀ i c, calls s3 !! i = Some c → ∃ res, c.2 = Returned res)
        ∧ ∀ now', (now ≤ now' < now + cacheTTL)%Z → fresh_meta now' id (shared_state s3) = Some old.
Proof.
  intros Hid Hne Hact Hded.
  set (inv := InvalidateTenant closes id (empty_router (Meta := Meta))).
  exists (mkSys empty_router {[0 := (now, id, Storing old)]}), (mkSys inv {[0 := (now, id, Storing old)]}).
  split; [|split; [done|]].
  - eapply rtc_l; [by apply (sys_call _ _ _ _ _ 0 now id)|].
    eapply rtc_l; [eapply sys_thread; [apply lookup_insert_eq|]; by apply step_stale; rewrite ?Hid|].
    rewrite insert_insert_eq.
    eapply rtc_l; [eapply sys_thread; [apply lookup_insert_eq|]; by apply (step_fetch _ _ _ _ tt)|].
    rewrite insert_insert_eq. apply rtc_refl.
  - exists (mkSys (store_meta now id old inv)
             {[0 := (now, id, Returned (Ok (Shared, Some old)))]}). repeat split.
    + unfold singletonM, map_singleton.
      eapply rtc_l; [eapply sys_thread; [apply lookup_insert_eq|]; apply step_store|].
      rewrite insert_insert_eq.
      eapply rtc_l; [eapply sys_thread; [apply lookup_insert_eq|]; by apply step_shared|].
      rewrite insert_insert_eq. apply rtc_refl.
    + intros i c Hc. cbn in Hc. apply lookup_singleton_Some in Hc as [_ <-]. cbn. eauto.
    + intros now' Hn. unfold fresh_meta. cbn. rewrite lookup_insert_eq.
      destruct (Z.ltb_spec (now' - now) cacheTTL); [done|lia].
Qed.

Lemma invalidate_races_with_lookup_witness :
  ∃ s1 s2,
    rtc (sys_step (λ _ _, Ok (DBRouter.mkDBMeta "shared" "" true))
           (λ _ : unit, DBRouter.open_pool (λ _, Ok tt)) true) (mkSys empty_router ∅) s1
    ∧ s2 = mkSys (InvalidateTenant true "t" (shared_state s1)) (calls s1)
    ∧ ∃ s3, rtc (sys_step (λ _ _, Err "not asked again")
                   (λ _ : unit, DBRouter.open_pool (λ _, Ok tt)) true) s2 s3
        ∧ (∀ i c, calls s3 !! i = Some c → ∃ res, c.2 = Returned res)
        ∧ ∀ now', (0 ≤ now' < 0 + cacheTTL)%Z →
            fresh_meta now' "t" (shared_state s3) = Some (DBRouter.mkDBMeta "shared" "" true).
Proof.
  apply (invalidate_races_with_lookup true (λ _ : unit, DBRouter.open_pool (λ _, Ok tt))
    (DBRouter.mkDBMeta "shared" "" true) 0 "t"); [vm_compute; reflexivity|discriminate|reflexivity..].
Defined.
