(* ===== verification/Env.v ===== *)
(** * Environment variables and shared string loops

    server/common/env/env.go, and the trim-and-dedupe loop that it and
    server/session/service/helpers.go share. *)

From S2P Require Import Prelude GoStrings GoEncoding.

(** The loop over [items] of [dedupeAndTrim] and of [CSV]: [seen] is the set so far. *)
Fixpoint dedupe_trim_loop (seen : list string) (items : list string) : list string :=
  match items with
  | [] => []
  | item :: rest =>
      let value := TrimSpace item in
      if decide (value = "") then dedupe_trim_loop seen rest
      else if decide (value ∈ seen) then dedupe_trim_loop seen rest
      else value :: dedupe_trim_loop (value :: seen) rest
  end.

(* server/session/service/helpers.go: dedupeAndTrim *)
Definition dedupeAndTrim (items : list string) : list string := dedupe_trim_loop [] items.

(* server/session/service/helpers.go: containsString *)
Fixpoint containsString (items : list string) (target : string) : bool :=
  match items with
  | [] => false
  | item :: rest =>
      if decide (TrimSpace item = TrimSpace target) then true else containsString rest target
  end.

(** [strconv.ParseBool]. *)
Definition ParseBool (s : string) : option bool :=
  if decide (s ∈ ["1"; "t"; "T"; "TRUE"; "true"; "True"]) then Some true
  else if decide (s ∈ ["0"; "f"; "F"; "FALSE"; "false"; "False"]) then Some false
  else None.

Section env.
(** [os.Getenv]: the empty string for a variable that is not set. *)
Variable getenv : string → string.

(* server/common/env/env.go: String *)
Definition env_String (key fallback : string) : string :=
  let v := getenv key in if decide (v = "") then fallback else v.

(* server/common/env/env.go: Int *)
Definition env_Int (key : string) (fallback : Z) : Z :=
  let v := getenv key in
  if decide (v = "") then fallback
  else match Atoi v with
       | (n, ErrNone) => if (n <=? 0)%Z then fallback else n
       | _ => fallback
       end.

(* server/common/env/env.go: Bool *)
Definition env_Bool (key : string) (fallback : bool) : bool :=
  let v := getenv key in
  if decide (v = "") then fallback else default fallback (ParseBool v).

(* server/common/env/env.go: CSV *)
Definition env_CSV (key : string) (fallback : list string) : list string :=
  let v := TrimSpace (getenv key) in
  if decide (v = "") then fallback
  else
    let result := dedupe_trim_loop [] (Split ","%char v) in
    if decide (length result = 0) then fallback else result.
End env.

(** * Lemmas *)

Lemma elem_of_dedupe_trim_loop seen items v :
  v ∈ dedupe_trim_loop seen items ↔ v ≠ "" ∧ v ∉ seen ∧ ∃ raw, raw ∈ items ∧ v = TrimSpace raw.
Proof.
  revert seen. induction items as [|raw items IH]; intros seen; cbn [dedupe_trim_loop].
  { split; [set_solver|]. intros (_ & _ & raw & Hraw & _). by apply elem_of_nil in Hraw. }
  set (n := TrimSpace raw).
  repeat case_decide; try rewrite elem_of_cons; rewrite IH; setoid_rewrite elem_of_cons.
  - naive_solver.
  - naive_solver.
  - destruct (decide (v = n)); naive_solver.
Qed.

Lemma NoDup_dedupe_trim_loop seen items : NoDup (dedupe_trim_loop seen items).
Proof.
  revert seen. induction items as [|raw items IH]; intros seen; cbn [dedupe_trim_loop]; [constructor|].
  repeat case_decide; [apply IH..|]. constructor; [|apply IH].
  rewrite elem_of_dedupe_trim_loop. set_solver.
Qed.

Lemma elem_of_dedupeAndTrim items v :
  v ∈ dedupeAndTrim items ↔ v ≠ "" ∧ ∃ raw, raw ∈ items ∧ v = TrimSpace raw.
Proof. unfold dedupeAndTrim. rewrite elem_of_dedupe_trim_loop. set_solver. Qed.

Lemma NoDup_dedupeAndTrim items : NoDup (dedupeAndTrim items).
Proof. apply NoDup_dedupe_trim_loop. Qed.

(** Lists that are already clean come through unchanged, so the functions are idempotent. *)
Lemma dedupe_trim_loop_id seen items :
  NoDup items → (∀ v, v ∈ items → trimmed v ∧ v ≠ "" ∧ v ∉ seen) →
  dedupe_trim_loop seen items = items.
Proof.
  revert seen. induction items as [|v items IH]; intros seen Hnd Hall; cbn [dedupe_trim_loop]; [done|].
  apply NoDup_cons in Hnd as [Hv Hnd]. destruct (Hall v) as (Ht & Hne & Hs); [by left|].
  rewrite trimmed_TrimSpace, !decide_False by done. f_equal. apply IH; [done|].
  intros w Hw. destruct (Hall w) as (Ht' & Hne' & Hs'); [by right|].
  repeat split; [apply Ht'..|done|]. intros [->|?]%elem_of_cons; [|done]. done.
Qed.

Lemma dedupeAndTrim_idem items : dedupeAndTrim (dedupeAndTrim items) = dedupeAndTrim items.
Proof.
  apply dedupe_trim_loop_id; [apply NoDup_dedupeAndTrim|].
  intros v (Hne & raw & _ & ->)%elem_of_dedupeAndTrim.
  split; [apply TrimSpace_trimmed|]. split; [done|apply not_elem_of_nil].
Qed.

Lemma containsString_true items target :
  containsString items target = true ↔ ∃ item, item ∈ items ∧ TrimSpace item = TrimSpace target.
Proof.
  induction items as [|i items IH]; cbn [containsString].
  - split; [done|]. intros (? & ?%elem_of_nil & _). done.
  - case_decide; [split; [|done]; eauto using list_elem_of_here|].
    rewrite IH. setoid_rewrite elem_of_cons. naive_solver.
Qed.

#[export] Hint Resolve NoDup_dedupeAndTrim : msg.

(** * Properties *)

(** Configuration readers are total and sane.  An integer variable yields a positive number or
    the fallback; a list variable yields the fallback or a non-empty list without duplicates of
    non-blank items with no white space at their ends, in which every item is one of the
    comma-separated parts, trimmed, and every non-blank part is there. *)
Theorem env_values_sane (getenv : string → string) (key : string) (n : Z) (fallback : list string) :
  (env_Int getenv key n = n ∨ 0 < env_Int getenv key n ≤ int64_max)%Z
  ∧ (env_CSV getenv key fallback = fallback
     ∨ (env_CSV getenv key fallback ≠ []
        ∧ NoDup (env_CSV getenv key fallback)
        ∧ ∀ v, v ∈ env_CSV getenv key fallback ↔
               v ≠ "" ∧ ∃ part, part ∈ Split ","%char (TrimSpace (getenv key)) ∧ v = TrimSpace part)).
Proof.
  split.
  - unfold env_Int. case_decide; [by left|]. unfold Atoi.
    pose proof (ParseInt_range (getenv key)) as Hr. destruct (ParseInt (getenv key)) as [m []]; try by left.
    destruct (Z.leb_spec m 0); [by left|]. right. unfold is_int64 in Hr. cbn in Hr. lia.
  - unfold env_CSV. case_decide; [by left|]. case_decide as Hl; [by left|]. right.
    split; [by intros E; rewrite E in Hl|]. split; [apply NoDup_dedupe_trim_loop|].
    intros v. rewrite elem_of_dedupe_trim_loop. set_solver.
Qed.
