(* ===== verification/Auth.v ===== *)
(** * Tokens and the authentication middleware

    server/common/auth/auth_service.go (tokens), server/common/middleware/auth.go (the two gin
    middlewares) and the errors of server/common/transport/httpresp/response.go.  The JWT
    library is a parameter, with the part of its documented behaviour the code relies on as
    hypotheses. *)

From S2P Require Import Prelude GoStrings GoEncoding Cursor.

(** ** Responses *)

Definition ErrUnauthorized : string := "unauthorized".
Definition ErrInvalidCredentials : string := "invalid credentials".
Definition ErrCannotUpdateOtherUserState : string := "cannot update another user's status".
Definition ErrMissingBearerToken : string := "bearer token is required".
Definition ErrInvalidToken : string := "invalid token".
Definition ErrForbidden : string := "forbidden".
Definition ErrInsufficientRole : string := "insufficient permissions".

(** What a handler answers: a status with an error body, or a status with a value. *)
Inductive response (A : Type) :=
| RError (status : Z) (message : string)
| RJson (status : Z) (body : A).
Arguments RError {A} status message.
Arguments RJson {A} status body.

Definition status_of {A} (r : response A) : Z :=
  match r with RError s _ | RJson s _ => s end.

(** ** Tokens *)

(* server/common/auth/auth_service.go: Claims *)
Record Claims := mkClaims {
  UserID : string;
  TenantID : string;
  Role : string;
  IssuedAt : time;
  ExpiresAt : time;
}.

(* server/common/auth/auth_service.go: Service *)
Record AuthService := mkAuthService { secret : string; ttl : time }.

(* server/common/auth/auth_service.go: NewService *)
Definition NewService (secret : string) (ttlMinutes : Z) : AuthService :=
  mkAuthService secret (wrap64 (ttlMinutes * 60000000000)).

(** [jwt.NewNumericDate] truncates to the second. *)
Definition NewNumericDate (t : time) : time := (t / 1000000000 * 1000000000)%Z.

Definition HS256 : string := "HS256".

Section jwt.
(** [SignedString] for an algorithm, a key and claims. *)
Variable SignedString : string → string → Claims → result string.
(** [ParseWithClaims] at a time, with the key function on the token's algorithm: the claims and
    whether the token is valid. *)
Variable ParseWithClaims : time → string → (string → result string) → result (Claims * bool).

(* server/common/auth/auth_service.go: GenerateToken *)
Definition GenerateToken (s : AuthService) (now : time) (userID tenantID role : string) :
    result string :=
  let claims :=
    mkClaims userID tenantID role (NewNumericDate now) (NewNumericDate (now + ttl s)) in
  SignedString HS256 (secret s) claims.

(* server/common/auth/auth_service.go: ParseToken *)
Definition ParseToken (s : AuthService) (now : time) (token : string) : result Claims :=
  let keyfunc alg :=
    if decide (alg ≠ HS256) then Err "unexpected signing method" else Ok (secret s) in
  match ParseWithClaims now token keyfunc with
  | Err e => Err e
  | Ok (claims, valid) => if negb valid then Err "invalid token" else Ok claims
  end.

(* server/common/auth/auth_service.go: ParseAuthContext *)
Definition ParseAuthContext (s : AuthService) (now : time) (token : string) :
    result (string * string * string) :=
  match ParseToken s now token with
  | Err e => Err e
  | Ok claims => Ok (UserID claims, TenantID claims, Role claims)
  end.
End jwt.

(** ** The middlewares

    A gin context: the request's headers and the values set so far ([any] in Go, of which the
    code sets only strings). *)
Inductive any := AnyString (s : string) | AnyOther.

Record Ctx := mkCtx { headers : string → string; keys : gmap string any }.

Definition ctx_set (k v : string) (c : Ctx) : Ctx :=
  mkCtx (headers c) (<[k := AnyString v]> (keys c)).

(** [c.GetString]: the empty string when the key is missing or is not a string. *)
Definition GetString (c : Ctx) (k : string) : string :=
  match keys c !! k with Some (AnyString s) => s | _ => "" end.

(** A middleware aborts with a response or calls the next handler. *)
Inductive outcome_mw := AbortWith (status : Z) (message : string) | Next (c : Ctx).

(* server/common/middleware/auth.go: AuthRequired *)
Definition AuthRequired (parse : string → result (string * string * string)) (c : Ctx) :
    outcome_mw :=
  let header := headers c "Authorization" in
  if negb (HasPrefix header "Bearer ") then AbortWith 401 ErrMissingBearerToken
  else
    let token := TrimPrefix header "Bearer " in
    match parse token with
    | Err _ => AbortWith 401 ErrInvalidToken
    | Ok (userID, tenantID, role) =>
        Next (ctx_set "auth_role" role
               (ctx_set "auth_tenant_id" tenantID
                 (ctx_set "auth_user_id" userID (ctx_set "auth_access_token" token c))))
    end.

(* server/common/middleware/auth.go: RequireRoles *)
Definition RequireRoles (roles : list string) (c : Ctx) : outcome_mw :=
  let allowed := TrimSpace <$> roles in
  match keys c !! "auth_role" with
  | None => AbortWith 403 ErrForbidden
  | Some AnyOther => AbortWith 403 ErrForbidden
  | Some (AnyString role) =>
      if decide (role ∈ allowed) then Next c else AbortWith 403 ErrInsufficientRole
  end.

(** A route: its middlewares in order, then its handler. *)
Fixpoint serve {A} (mws : list (Ctx → outcome_mw)) (handler : Ctx → response A) (c : Ctx) :
    response A :=
  match mws with
  | [] => handler c
  | mw :: rest =>
      match mw c with
      | AbortWith status message => RError status message
      | Next c' => serve rest handler c'
      end
  end.

(** * Lemmas *)

Lemma AuthRequired_no_bearer parse c :
  HasPrefix (headers c "Authorization") "Bearer " = false →
  AuthRequired parse c = AbortWith 401 ErrMissingBearerToken.
Proof. unfold AuthRequired. by intros ->. Qed.

Lemma AuthRequired_next parse c c' :
  AuthRequired parse c = Next c' →
  ∃ token userID tenantID role,
    headers c "Authorization" = "Bearer " +:+ token
    ∧ parse token = Ok (userID, tenantID, role)
    ∧ headers c' = headers c
    ∧ GetString c' "auth_access_token" = token ∧ GetString c' "auth_user_id" = userID
    ∧ GetString c' "auth_tenant_id" = tenantID ∧ keys c' !! "auth_role" = Some (AnyString role).
Proof.
  unfold AuthRequired. destruct (HasPrefix _ _) eqn:Hp; [|done]. cbn [negb].
  apply HasPrefix_true in Hp as [token Htok]. rewrite Htok, TrimPrefix_app.
  destruct (parse token) as [[[u t] r]|e] eqn:E; [|done]. intros [= <-].
  exists token, u, t, r. unfold GetString. cbn.
  repeat split; by simplify_map_eq.
Qed.

Lemma AuthRequired_ok parse c token userID tenantID role :
  headers c "Authorization" = "Bearer " +:+ token →
  parse token = Ok (userID, tenantID, role) →
  ∃ c', AuthRequired parse c = Next c'.
Proof.
  intros Hh Hp. unfold AuthRequired. rewrite Hh.
  assert (HasPrefix ("Bearer " +:+ token) "Bearer " = true) as -> by (apply HasPrefix_true; eauto).
  cbn [negb]. rewrite TrimPrefix_app, Hp. eauto.
Qed.

(** * Properties *)

(** Access control of role-protected routes.  A request to a route behind AuthRequired and
    RequireRoles reaches the handler exactly when its Authorization header is "Bearer " and a token
    that parses, and the token's role is one of the allowed roles (trimmed); the handler then sees
    the token and the claims of that token and no other.  Otherwise the answer is 401 without a
    valid token and 403 with a valid token of another role, and the handler does not run. *)
Theorem protected_route_access {A} (parse : string → result (string * string * string))
    (roles : list string) (handler : Ctx → response A) (c : Ctx) :
  let route := serve [AuthRequired parse; RequireRoles roles] in
  (∀ token userID tenantID role,
     headers c "Authorization" = "Bearer " +:+ token →
     parse token = Ok (userID, tenantID, role) →
     if decide (role ∈ (TrimSpace <$> roles)) then
       ∃ c', route handler c = handler c'
             ∧ GetString c' "auth_access_token" = token ∧ GetString c' "auth_user_id" = userID
             ∧ GetString c' "auth_tenant_id" = tenantID ∧ GetString c' "auth_role" = role
     else route handler c = RError 403 ErrInsufficientRole)
  ∧ ((∀ token claims, headers c "Authorization" = "Bearer " +:+ token → parse token ≠ Ok claims) →
     ∃ message, route handler c = RError 401 message).
Proof.
  cbv zeta. split.
  - intros token u t role Hh Hp. destruct (AuthRequired_ok parse c token u t role Hh Hp) as [c' Hc'].
    destruct (AuthRequired_next parse c c' Hc') as (token' & u' & t' & r' & Hh' & Hp' & _ & H1 & H2 & H3 & H4).
    rewrite Hh in Hh'. apply app_inj_l_s in Hh' as <-. rewrite Hp in Hp'. simplify_eq.
    cbn [serve]. rewrite Hc'. unfold RequireRoles. rewrite H4.
    case_decide; [|done]. exists c'. repeat split; [done..|]. unfold GetString. by rewrite H4.
  - intros Hno. cbn [serve]. destruct (AuthRequired parse c) as [st msg|c'] eqn:E.
    + unfold AuthRequired in E. repeat case_match; simplify_eq; eauto.
    + apply AuthRequired_next in E as (token & u & t & r & Hh & Hp & _). by apply Hno in Hp.
Qed.

(** A token carries its subject until it expires.  If the JWT library verifies what it signs
    with the same algorithm and key before the expiry in the claims, then a token generated at a
    time [now] with a lifetime of [m] minutes parses, at every time before now + m minutes
    (rounded down to the second), to the user, tenant and role it was made for. *)
Theorem token_roundtrip
    (SignedString : string → string → Claims → result string)
    (ParseWithClaims : time → string → (string → result string) → result (Claims * bool))
    (key userID tenantID role token : string) (m : Z) (now later : time) :
  let s := NewService key m in
  (∀ claims t keyfunc, SignedString HS256 key claims = Ok token → keyfunc HS256 = Ok key →
     (t < ExpiresAt claims)%Z → ParseWithClaims t token keyfunc = Ok (claims, true)) →
  (0 < m * 60000000000 ≤ int64_max)%Z →
  GenerateToken SignedString s now userID tenantID role = Ok token →
  (later < (now + m * 60000000000) / 1000000000 * 1000000000)%Z →
  ParseAuthContext ParseWithClaims s later token = Ok (userID, tenantID, role).
Proof.
  cbv zeta. intros Hlib Hm Hgen Hlater. unfold GenerateToken in Hgen.
  unfold ParseAuthContext, ParseToken. cbn [secret NewService] in *.
  rewrite (Hlib _ later _ Hgen); [done|by rewrite decide_False by naive_solver|].
  cbn [ExpiresAt ttl NewService]. unfold NewNumericDate. rewrite wrap64_id; [done|].
  unfold is_int64, int64_min. lia.
Qed.

Lemma token_roundtrip_witness :
  let lib := λ t (_ : string) (_ : string → result string),
    let cl := mkClaims "u" "t" "admin" 0 (3600 * 1000000000) in
    if (t <? ExpiresAt cl)%Z then Ok (cl, true) else Err "token is expired" in
  ParseAuthContext lib (NewService "k" 60) (3599 * 1000000000) "tok" = Ok ("u", "t", "admin").
Proof.
  set (cl := mkClaims "u" "t" "admin" 0 (3600 * 1000000000)).
  assert (Hdec : ∀ c, (if decide (UserID c = "u" ∧ TenantID c = "t" ∧ Role c = "admin"
            ∧ IssuedAt c = 0%Z ∧ ExpiresAt c = (3600 * 1000000000)%Z) then Ok "tok" else Err "other")
          = Ok "tok" → c = cl).
  { intros [a b r i e]. case_decide as Hc; [|done]. intros _. cbn in Hc. by destruct Hc as (-> & -> & -> & -> & ->). }
  apply (token_roundtrip
    (λ _ _ c, if decide (UserID c = "u" ∧ TenantID c = "t" ∧ Role c = "admin"
            ∧ IssuedAt c = 0%Z ∧ ExpiresAt c = (3600 * 1000000000)%Z) then Ok "tok" else Err "other")
    (λ t (_ : string) (_ : string → result string),
       if (t <? ExpiresAt cl)%Z then Ok (cl, true) else Err "token is expired")
    "k" "u" "t" "admin" "tok" 60 0 (3599 * 1000000000)).
  - intros c t kf ->%Hdec _ Ht. by destruct (Z.ltb_spec t (ExpiresAt cl)); [|lia].
  - unfold int64_max. lia.
  - vm_compute. reflexivity.
  - vm_compute. reflexivity.
Defined.
