(* ===== verification/SessionStore.v ===== *)
(** * The session tables

    The data types of server/session/domain/types.go, the store interface of the session
    services, and its implementation: server/dbman/repository/session_repository.go over the
    tables of migration 010.  A repository method resolves the tenant's pool first
    ([TenantRouter]); the model is given that outcome and works on the database behind it.  A
    statement that violates a key or a foreign key fails; a transaction that fails leaves the
    database as it was.  [NOW()] and [gen_random_uuid()] are arguments. *)

From S2P Require Import Prelude GoStrings GoEncoding Cursor.

(** ** Data *)

(* server/session/domain/types.go: DeviceSession *)
Record DeviceSession := mkDeviceSession {
  SessionID : string;
  ds_TenantID : string;
  ds_UserID : string;
  DeviceID : string;
  DeviceName : string;
  AuthToken : string;
  SessionToken : string;
  AllowedTenants : list string;
  LastSeenAt : time;
  ds_CreatedAt : time;
}.

#[export] Instance DeviceSession_eq_dec : EqDecision DeviceSession.
Proof. solve_decision. Defined.

(* server/session/domain/types.go: UserStatus *)
Record UserStatus := mkUserStatus {
  us_TenantID : string;
  us_UserID : string;
  Status : string;
  StatusNote : string;
  UpdatedAt : time;
}.

(* server/session/domain/types.go: NoteFile *)
Record NoteFile := mkNoteFile {
  FileName : string;
  nf_ObjectKey : string;
  nf_ContentType : string;
  nf_SizeBytes : Z;
}.

(* server/session/domain/types.go: NoteCreateInput *)
Record NoteCreateInput := mkNoteCreateInput {
  ni_Title : string;
  ni_Body : string;
  To : list string;
  CC : list string;
  BCC : list string;
  ni_Files : list NoteFile;
}.

(* server/session/domain/types.go: NoteRecipient *)
Record NoteRecipient := mkNoteRecipient { nr_UserID : string; nr_Type : string }.

(* server/session/domain/types.go: Note *)
Record Note := mkNote {
  NoteID : string;
  n_TenantID : string;
  SenderUserID : string;
  Title : string;
  Body : string;
  Recipients : list NoteRecipient;
  Files : list NoteFile;
  n_CreatedAt : time;
}.

(* server/session/domain/types.go: NoteInboxItem *)
Record NoteInboxItem := mkNoteInboxItem {
  ii_NoteID : string;
  ii_SenderUserID : string;
  RecipientType : string;
  ii_Title : string;
  ii_Body : string;
  FileCount : nat;
  IsRead : bool;
  ii_CreatedAt : time;
}.

(* server/session/domain/types.go: ChatNotifyInput *)
Record ChatNotifyInput := mkChatNotifyInput {
  cn_RoomID : string;
  MessageID : string;
  cn_Title : string;
  cn_Body : string;
  RecipientIDs : list string;
}.

(** ** The interface the session services use

    Each method takes the moment of the call and the identifiers the database may draw. *)
Record Env := mkEnv { NOW : time; new_uuid : string }.

Class SessionStore (S : Type) := {
  UpsertDeviceSession : Env → DeviceSession → M S DeviceSession;
  ValidateAndTouchSession : Env → string → string → string → string → M S bool;
  UpdateSessionUserStatus : Env → UserStatus → M S unit;
  CreateSessionNote : Env → Note → M S Note;
  ListSessionInbox : Env → string → string → Z → M S (list NoteInboxItem);
  MarkSessionNoteRead : Env → string → string → string → M S unit;
  SaveSessionChatNotifications : Env → string → string → ChatNotifyInput → M S unit;
}.

(** ** Tables *)

(** A row of device_sessions, with its is_active column. *)
Record DeviceRow := mkDeviceRow { dr : DeviceSession; is_active : bool }.

Record RecipientRow := mkRecipientRow {
  rr_note : string;
  rr_tenant : string;
  rr_user : string;
  rr_type : string;
  rr_is_read : bool;
}.

Record FileRow := mkFileRow { fr_note : string; fr_tenant : string; fr_file : NoteFile }.

Record NotifyRow := mkNotifyRow {
  cr_tenant : string; cr_room : string; cr_message : string; cr_sender : string;
  cr_recipient : string; cr_title : string; cr_body : string;
}.

(** Notes keep their own columns: the recipients and files of a [Note] are other tables. *)
Record SessionDB := mkSessionDB {
  tenants : gset string;
  device_sessions : gmap (string * string * string) DeviceRow;
  user_presence : gmap (string * string) UserStatus;
  notes : gmap string Note;
  note_recipients : list RecipientRow;
  note_files : list FileRow;
  chat_notifications : list NotifyRow;
}.

Definition set_device_sessions x (d : SessionDB) : SessionDB :=
  mkSessionDB (tenants d) x (user_presence d) (notes d) (note_recipients d) (note_files d) (chat_notifications d).
Definition set_user_presence x (d : SessionDB) : SessionDB :=
  mkSessionDB (tenants d) (device_sessions d) x (notes d) (note_recipients d) (note_files d) (chat_notifications d).
Definition set_notes x (d : SessionDB) : SessionDB :=
  mkSessionDB (tenants d) (device_sessions d) (user_presence d) x (note_recipients d) (note_files d) (chat_notifications d).
Definition set_note_recipients x (d : SessionDB) : SessionDB :=
  mkSessionDB (tenants d) (device_sessions d) (user_presence d) (notes d) x (note_files d) (chat_notifications d).
Definition set_note_files x (d : SessionDB) : SessionDB :=
  mkSessionDB (tenants d) (device_sessions d) (user_presence d) (notes d) (note_recipients d) x (chat_notifications d).
Definition set_chat_notifications x (d : SessionDB) : SessionDB :=
  mkSessionDB (tenants d) (device_sessions d) (user_presence d) (notes d) (note_recipients d) (note_files d) x.

Definition duplicate_key : string := "duplicate key value violates unique constraint".
Definition foreign_key : string := "violates foreign key constraint".
Definition check_constraint : string := "violates check constraint".

(** A transaction: the work happens on a copy that an error throws away. *)
Definition transaction {S A} (m : M S A) : M S A := λ s,
  match m s with
  | (s', Ok a) => (s', Ok a)
  | (_, Err e) => (s, Err e)
  end.

(** ** The repository *)

Section repository.
(** [DBForTenant]: whether the tenant's pool could be had. *)
Variable DBForTenant : string → result unit.

Definition token_taken (key : string * string * string) (token : string) (d : SessionDB) : Prop :=
  map_Exists (λ k row, k ≠ key ∧ SessionToken (dr row) = token) (device_sessions d).
Definition session_id_taken (id : string) (d : SessionDB) : Prop :=
  map_Exists (λ _ row, SessionID (dr row) = id) (device_sessions d).

#[export] Instance token_taken_dec key token d : Decision (token_taken key token d).
Proof. apply _. Defined.
#[export] Instance session_id_taken_dec id d : Decision (session_id_taken id d).
Proof. apply _. Defined.

(* server/dbman/repository/session_repository.go: UpsertDeviceSession *)
Definition repo_UpsertDeviceSession (env : Env) (session : DeviceSession) : M SessionDB DeviceSession := λ d,
  match DBForTenant (ds_TenantID session) with
  | Err e => (d, Err e)
  | Ok _ =>
      let key := (ds_TenantID session, ds_UserID session, DeviceID session) in
      if decide (ds_TenantID session ∉ tenants d) then (d, Err foreign_key)
      else if decide (token_taken key (SessionToken session) d) then (d, Err duplicate_key)
      else
        let fresh id created :=
          mkDeviceSession id (ds_TenantID session) (ds_UserID session) (DeviceID session)
            (DeviceName session) "" (SessionToken session) (AllowedTenants session) (NOW env) created in
        match device_sessions d !! key with
        | Some row =>
            let out := fresh (SessionID (dr row)) (ds_CreatedAt (dr row)) in
            (set_device_sessions (<[key := mkDeviceRow out true]> (device_sessions d)) d, Ok out)
        | None =>
            if decide (session_id_taken (new_uuid env) d) then (d, Err duplicate_key)
            else
              let out := fresh (new_uuid env) (NOW env) in
              (set_device_sessions (<[key := mkDeviceRow out true]> (device_sessions d)) d, Ok out)
        end
  end.

Definition session_matches (tenantID userID sessionID sessionToken : string) (row : DeviceRow) : Prop :=
  ds_TenantID (dr row) = tenantID ∧ ds_UserID (dr row) = userID
  ∧ SessionID (dr row) = sessionID ∧ SessionToken (dr row) = sessionToken ∧ is_active row = true.

#[export] Instance session_matches_dec t u s k row : Decision (session_matches t u s k row).
Proof. unfold session_matches. apply _. Defined.

Definition touch (now : time) (row : DeviceRow) : DeviceRow :=
  let s := dr row in
  mkDeviceRow (mkDeviceSession (SessionID s) (ds_TenantID s) (ds_UserID s) (DeviceID s) (DeviceName s)
    (AuthToken s) (SessionToken s) (AllowedTenants s) now (ds_CreatedAt s)) (is_active row).

(* server/dbman/repository/session_repository.go: ValidateAndTouchSession *)
Definition repo_ValidateAndTouchSession (env : Env) (tenantID userID sessionID sessionToken : string) :
    M SessionDB bool := λ d,
  match DBForTenant tenantID with
  | Err e => (d, Err e)
  | Ok _ =>
      let hit row := session_matches tenantID userID sessionID sessionToken row in
      (set_device_sessions
         ((λ row, if decide (hit row) then touch (NOW env) row else row) <$> device_sessions d) d,
       Ok (bool_decide (map_Exists (λ _ row, hit row) (device_sessions d))))
  end.

(* server/dbman/repository/session_repository.go: UpdateUserStatus *)
Definition repo_UpdateUserStatus (env : Env) (status : UserStatus) : M SessionDB unit := λ d,
  match DBForTenant (us_TenantID status) with
  | Err e => (d, Err e)
  | Ok _ =>
      if decide (us_TenantID status ∉ tenants d) then (d, Err foreign_key)
      else
        let row := mkUserStatus (us_TenantID status) (us_UserID status) (Status status)
                     (StatusNote status) (NOW env) in
        (set_user_presence (<[(us_TenantID status, us_UserID status) := row]> (user_presence d)) d, Ok tt)
  end.

Definition insert_note (env : Env) (note : Note) : M SessionDB Note := λ d,
  if decide (n_TenantID note ∉ tenants d) then (d, Err foreign_key)
  else if decide (is_Some (notes d !! new_uuid env)) then (d, Err duplicate_key)
  else
    let note := mkNote (new_uuid env) (n_TenantID note) (SenderUserID note) (Title note) (Body note)
                  (Recipients note) (Files note) (NOW env) in
    (set_notes (<[new_uuid env := note]> (notes d)) d, Ok note).

Definition insert_recipient (note : Note) (r : NoteRecipient) : M SessionDB unit := λ d,
  if decide (nr_Type r ∉ ["to"; "cc"; "bcc"]) then (d, Err check_constraint)
  else if decide (Exists (λ row, rr_note row = NoteID note ∧ rr_user row = nr_UserID r) (note_recipients d))
  then (d, Err duplicate_key)
  else (set_note_recipients (note_recipients d
          ++ [mkRecipientRow (NoteID note) (n_TenantID note) (nr_UserID r) (nr_Type r) false]) d, Ok tt).

Definition insert_file (note : Note) (f : NoteFile) : M SessionDB unit := λ d,
  (set_note_files (note_files d ++ [mkFileRow (NoteID note) (n_TenantID note) f]) d, Ok tt).

(** A loop that stops at the first error. *)
Fixpoint for_each {S A} (f : A → M S unit) (l : list A) : M S unit := λ s,
  match l with
  | [] => (s, Ok tt)
  | a :: rest => match f a s with (s', Ok _) => for_each f rest s' | (s', Err e) => (s', Err e) end
  end.

(* server/dbman/repository/session_repository.go: CreateNote *)
Definition repo_CreateNote (env : Env) (note : Note) : M SessionDB Note := λ d,
  match DBForTenant (n_TenantID note) with
  | Err e => (d, Err e)
  | Ok _ =>
      if decide (Recipients note = []) then (d, Err "at least one recipient is required")
      else
        transaction (λ d,
          match insert_note env note d with
          | (d, Err e) => (d, Err e)
          | (d, Ok note) =>
              match for_each (insert_recipient note) (Recipients note) d with
              | (d, Err e) => (d, Err e)
              | (d, Ok _) =>
                  match for_each (insert_file note) (Files note) d with
                  | (d, Err e) => (d, Err e)
                  | (d, Ok _) => (d, Ok note)
                  end
              end
          end) d
  end.

Definition newest_first (x y : NoteInboxItem) : Prop := (ii_CreatedAt y ≤ ii_CreatedAt x)%Z.

#[export] Instance newest_first_dec x y : Decision (newest_first x y).
Proof. unfold newest_first. apply _. Defined.

(** The join of [ListInbox], one row of note_recipients at a time. *)
Definition inbox_row (d : SessionDB) (r : RecipientRow) : option NoteInboxItem :=
  match notes d !! rr_note r with
  | Some n =>
      if decide (n_TenantID n = rr_tenant r) then
        Some (mkNoteInboxItem (rr_note r) (SenderUserID n) (rr_type r) (Title n) (Body n)
          (length (filter (λ f, fr_note f = rr_note r ∧ fr_tenant f = rr_tenant r) (note_files d)))
          (rr_is_read r) (n_CreatedAt n))
      else None
  | None => None
  end.

(* server/dbman/repository/session_repository.go: ListInbox *)
Definition repo_ListInbox (tenantID userID : string) (limit : Z) : M SessionDB (list NoteInboxItem) := λ d,
  match DBForTenant tenantID with
  | Err e => (d, Err e)
  | Ok _ =>
      if (limit <? 0)%Z then (d, Err "LIMIT must not be negative")
      else
        let rows := filter (λ r, rr_tenant r = tenantID ∧ rr_user r = userID) (note_recipients d) in
        (d, Ok (take (Z.to_nat limit) (merge_sort newest_first (omap (inbox_row d) rows))))
  end.

(* server/dbman/repository/session_repository.go: MarkNoteRead *)
Definition repo_MarkNoteRead (tenantID userID noteID : string) : M SessionDB unit := λ d,
  match DBForTenant tenantID with
  | Err e => (d, Err e)
  | Ok _ =>
      (set_note_recipients
         ((λ r, if decide (rr_tenant r = tenantID ∧ rr_user r = userID ∧ rr_note r = noteID)
                then mkRecipientRow (rr_note r) (rr_tenant r) (rr_user r) (rr_type r) true else r)
          <$> note_recipients d) d, Ok tt)
  end.

Definition insert_notification (tenantID senderUserID : string) (input : ChatNotifyInput)
    (recipientID : string) : M SessionDB unit := λ d,
  if decide (tenantID ∉ tenants d) then (d, Err foreign_key)
  else (set_chat_notifications (chat_notifications d
          ++ [mkNotifyRow tenantID (cn_RoomID input) (MessageID input) senderUserID recipientID
                (cn_Title input) (cn_Body input)]) d, Ok tt).

(* server/dbman/repository/session_repository.go: SaveChatNotifications *)
Definition repo_SaveChatNotifications (tenantID senderUserID : string) (input : ChatNotifyInput) :
    M SessionDB unit := λ d,
  if decide (RecipientIDs input = []) then (d, Ok tt)
  else
    match DBForTenant tenantID with
    | Err e => (d, Err e)
    | Ok _ => transaction (for_each (insert_notification tenantID senderUserID input) (RecipientIDs input)) d
    end.

(** dbman's service forwards each call to the repository. *)
(* server/dbman/service/session_service.go: SessionService #18-44 *)
#[export] Instance repo_store : SessionStore SessionDB := {
  UpsertDeviceSession := repo_UpsertDeviceSession;
  ValidateAndTouchSession := repo_ValidateAndTouchSession;
  UpdateSessionUserStatus := repo_UpdateUserStatus;
  CreateSessionNote := repo_CreateNote;
  ListSessionInbox _ := repo_ListInbox;
  MarkSessionNoteRead _ := repo_MarkNoteRead;
  SaveSessionChatNotifications _ := repo_SaveChatNotifications;
}.
End repository.

(** ** The invariant of the tables

    What the keys, the unique indexes and the foreign keys of the migration promise. *)
Record db_inv (d : SessionDB) : Prop := mkDbInv {
  di_key : ∀ t u v row, device_sessions d !! (t, u, v) = Some row →
    ds_TenantID (dr row) = t ∧ ds_UserID (dr row) = u ∧ DeviceID (dr row) = v ∧ t ∈ tenants d;
  di_session : ∀ k1 k2 r1 r2, device_sessions d !! k1 = Some r1 → device_sessions d !! k2 = Some r2 →
    SessionID (dr r1) = SessionID (dr r2) → k1 = k2;
  di_token : ∀ k1 k2 r1 r2, device_sessions d !! k1 = Some r1 → device_sessions d !! k2 = Some r2 →
    SessionToken (dr r1) = SessionToken (dr r2) → k1 = k2;
  di_presence : ∀ t u st, user_presence d !! (t, u) = Some st →
    us_TenantID st = t ∧ us_UserID st = u ∧ t ∈ tenants d;
  di_notes : ∀ id n, notes d !! id = Some n → NoteID n = id ∧ n_TenantID n ∈ tenants d;
  di_recipients : NoDup ((λ r, (rr_note r, rr_user r)) <$> note_recipients d);
  di_note_fk : Forall (λ r, is_Some (notes d !! rr_note r)) (note_recipients d);
}.

(** * Lemmas *)

Lemma transaction_spec {S A} (m : M S A) s :
  (∃ s' a, m s = (s', Ok a) ∧ transaction m s = (s', Ok a))
  ∨ (∃ e, transaction m s = (s, Err e)).
Proof. unfold transaction. destruct (m s) as [s' [a|e]]; eauto 10. Qed.

(** An invariant of the body is an invariant of the loop. *)
Lemma for_each_inv {S A} (Q : S → Prop) (f : A → M S unit) l s :
  (∀ a s, a ∈ l → Q s → Q (f a s).1) → Q s → Q (for_each f l s).1.
Proof.
  revert s. induction l as [|a l IH]; intros s Hf Hs; cbn [for_each]; [done|].
  pose proof (Hf a s ltac:(by left) Hs) as Ha. destruct (f a s) as [s' [[]|e]]; [|done].
  apply IH; [|done]. intros b s2 Hb. apply Hf. by right.
Qed.

Section repo_lemmas.
Variable DBForTenant : string → result unit.
Implicit Types d : SessionDB.

Lemma upsert_device_inv env session d :
  db_inv d → db_inv (repo_UpsertDeviceSession DBForTenant env session d).1.
Proof.
  intros Hd. unfold repo_UpsertDeviceSession. destruct (DBForTenant _); [|done].
  case_decide as Ht; [done|]. case_decide as Htok; [done|].
  set (key := (ds_TenantID session, ds_UserID session, DeviceID session)) in *.
  assert (Hgen : ∀ row, ds_TenantID (dr row) = ds_TenantID session → ds_UserID (dr row) = ds_UserID session →
    DeviceID (dr row) = DeviceID session → SessionToken (dr row) = SessionToken session →
    (∀ k r, k ≠ key → device_sessions d !! k = Some r → SessionID (dr r) ≠ SessionID (dr row)) →
    db_inv (set_device_sessions (<[key := row]> (device_sessions d)) d)).
  { intros row H1 H2 H3 H4 Hsid. destruct Hd as [Hk Hs Htk Hp Hn Hr Hf].
    assert (Htok' : ∀ k r, k ≠ key → device_sessions d !! k = Some r → SessionToken (dr r) ≠ SessionToken (dr row)).
    { intros k r Hne Hl Heq. apply Htok. exists k, r. rewrite Heq. done. }
    split; cbn; try done.
    - intros t u v r [[Heq <-]|[_ Hl]]%lookup_insert_Some; [|by apply Hk].
      unfold key in Heq. simplify_eq. done.
    - intros k1 k2 r1 r2 [[<- <-]|[Hn1 H1']]%lookup_insert_Some [[<- <-]|[Hn2 H2']]%lookup_insert_Some Heq;
        [done| | |by eapply Hs]; exfalso; [by eapply (Hsid k2 r2)|by eapply (Hsid k1 r1)].
    - intros k1 k2 r1 r2 [[<- <-]|[Hn1 H1']]%lookup_insert_Some [[<- <-]|[Hn2 H2']]%lookup_insert_Some Heq;
        [done| | |by eapply Htk]; exfalso; [by eapply (Htok' k2 r2)|by eapply (Htok' k1 r1)]. }
  cbv zeta. destruct (device_sessions d !! key) as [row|] eqn:El.
  - apply Hgen; try done. intros k r Hne Hl Heq. apply Hne. by eapply (di_session d Hd).
  - case_decide as Hid; [done|]. apply Hgen; try done.
    intros k r Hne Hl Heq. apply Hid. by exists k, r.
Qed.

Lemma validate_touch_inv env t u s k d :
  db_inv d → db_inv (repo_ValidateAndTouchSession DBForTenant env t u s k d).1.
Proof.
  intros Hd. unfold repo_ValidateAndTouchSession. destruct (DBForTenant _); [|done]. cbn.
  assert (Hl : ∀ key r, ((λ row, if decide (session_matches t u s k row) then touch (NOW env) row else row)
              <$> device_sessions d) !! key = Some r →
    ∃ r0, device_sessions d !! key = Some r0 ∧ ds_TenantID (dr r) = ds_TenantID (dr r0)
      ∧ ds_UserID (dr r) = ds_UserID (dr r0) ∧ DeviceID (dr r) = DeviceID (dr r0)
      ∧ SessionID (dr r) = SessionID (dr r0) ∧ SessionToken (dr r) = SessionToken (dr r0)).
  { intros key r. rewrite lookup_fmap_Some. intros (r0 & <- & Hr0). exists r0. split; [done|]. by case_decide. }
  destruct Hd as [Hk Hs Htk Hp Hn Hr Hf]. split; cbn; try done.
  - intros t' u' v' r (r0 & Hr0 & -> & -> & -> & _)%Hl. by apply Hk.
  - intros k1 k2 r1 r2 (ra & Hra & _ & _ & _ & -> & _)%Hl (rb & Hrb & _ & _ & _ & -> & _)%Hl. by apply Hs.
  - intros k1 k2 r1 r2 (ra & Hra & _ & _ & _ & _ & ->)%Hl (rb & Hrb & _ & _ & _ & _ & ->)%Hl. by apply Htk.
Qed.

Lemma update_status_inv env st d :
  db_inv d → db_inv (repo_UpdateUserStatus DBForTenant env st d).1.
Proof.
  intros Hd. unfold repo_UpdateUserStatus. destruct (DBForTenant _); [|done].
  case_decide as Ht; [done|]. destruct Hd as [Hk Hs Htk Hp Hn Hr Hf].
  split; cbn; try done. intros t u row [[[= <- <-] <-]|[_ Hl]]%lookup_insert_Some; [done|by apply Hp].
Qed.

Lemma insert_recipient_inv note r d :
  is_Some (notes d !! NoteID note) → db_inv d →
  db_inv (insert_recipient note r d).1 ∧ is_Some (notes (insert_recipient note r d).1 !! NoteID note).
Proof.
  intros Hnote Hd. unfold insert_recipient. case_decide; [done|]. case_decide as Hex; [done|].
  split; [|done]. destruct Hd as [Hk Hs Htk Hp Hn Hr Hf]. split; cbn; try done.
  - rewrite fmap_app, NoDup_app. cbn. split; [done|]. split; [|apply NoDup_singleton].
    intros x Hx Hs'. apply list_elem_of_singleton in Hs' as ->.
    apply list_elem_of_fmap in Hx as (row & Heq & Hrow). injection Heq as H1 H2.
    apply Hex. apply Exists_exists. by exists row.
  - apply Forall_app. split; [done|]. by apply Forall_singleton.
Qed.

Lemma create_note_inv env note d : db_inv d → db_inv (repo_CreateNote DBForTenant env note d).1.
Proof.
  intros Hd. unfold repo_CreateNote. destruct (DBForTenant _); [|done]. case_decide; [done|].
  match goal with |- db_inv (transaction ?m d).1 => destruct (transaction_spec m d) as [(d2' & out' & Hm & Heq')|(err' & Heq')]; rewrite Heq'; clear Heq' end;
    [|done]. cbn [fst]. revert Hm. unfold insert_note. case_decide as Ht; [done|].
  case_decide as Hnew; [done|]. apply eq_None_not_Some in Hnew.
  set (n := mkNote _ _ _ _ _ _ _ _). set (d1 := set_notes _ d).
  assert (Hd1 : db_inv d1).
  { destruct Hd as [Hk Hs Htk Hp Hn Hr Hf]. split; cbn; try done.
    - intros id x [[<- <-]|[_ Hl]]%lookup_insert_Some; [done|by apply Hn].
    - eapply Forall_impl; [exact Hf|]. intros r Hr'. cbn. rewrite lookup_insert_is_Some.
      destruct (decide (new_uuid env = rr_note r)); [by left|by right]. }
  pose proof (for_each_inv (λ d, db_inv d ∧ is_Some (notes d !! NoteID n)) (insert_recipient n)
    (Recipients n) d1) as Hloop.
  destruct (for_each (insert_recipient n) (Recipients n) d1) as [d2 [[]|e]]; [|done]. cbn [fst] in Hloop.
  destruct Hloop as [Hd2 _].
  { intros r s _ [H1 H2]. by apply insert_recipient_inv. }
  { split; [done|]. unfold d1. cbn. rewrite lookup_insert_eq. eauto. }
  pose proof (for_each_inv db_inv (insert_file n) (Files n) d2) as Hloop2.
  destruct (for_each (insert_file n) (Files n) d2) as [d3 [[]|e]]; [|done]. cbn [fst] in Hloop2.
  intros [= <- _]. apply Hloop2; [|done]. intros f s _ [Hk Hs Htk Hp Hn Hr Hf]. by split.
Qed.

Lemma mark_read_inv t u id d : db_inv d → db_inv (repo_MarkNoteRead DBForTenant t u id d).1.
Proof.
  intros Hd. unfold repo_MarkNoteRead. destruct (DBForTenant _); [|done].
  destruct Hd as [Hk Hs Htk Hp Hn Hr Hf]. split; cbn; try done.
  - rewrite <-list_fmap_compose. erewrite list_fmap_ext; [exact Hr|].
    intros i r _. cbn. by case_decide.
  - apply Forall_fmap. eapply Forall_impl; [exact Hf|]. intros r Hr'. cbn. by case_decide.
Qed.

Lemma save_notifications_inv t u input d :
  db_inv d → db_inv (repo_SaveChatNotifications DBForTenant t u input d).1.
Proof.
  intros Hd. unfold repo_SaveChatNotifications. case_decide; [done|]. destruct (DBForTenant _); [|done].
  match goal with |- db_inv (transaction ?m d).1 => destruct (transaction_spec m d) as [(d2' & out' & Hm & Heq')|(err' & Heq')]; rewrite Heq'; clear Heq' end;
    [|done]. cbn [fst].
  pose proof (for_each_inv db_inv (insert_notification t u input) (RecipientIDs input) d) as Hloop.
  rewrite Hm in Hloop. apply Hloop; [|done]. intros r s _ Hs. unfold insert_notification.
  case_decide; [done|]. destruct Hs as [Hk Hs Htk Hp Hn Hr Hf]. by split.
Qed.
End repo_lemmas.

(** ** What the statements do *)

(** In a list that is sorted downwards, an element is among the first [n] when no more than [n] are as large. *)
Lemma in_first_page {A} (f : A → Z) (l : list A) x n :
  StronglySorted (λ x y, (f y ≤ f x)%Z) l → x ∈ l → length (filter (λ y, (f x ≤ f y)%Z) l) ≤ n → x ∈ take n l.
Proof.
  intros Hs (l1 & l2 & ->)%list_elem_of_split Hn.
  assert (filter (λ y, (f x ≤ f y)%Z) l1 = l1) as Hall.
  { apply filter_all_elem. intros y Hy. eapply StronglySorted_app_1_elem_of in Hs; [exact Hs|done|by left]. }
  rewrite filter_app, Hall, filter_cons, decide_True, length_app in Hn by lia. cbn in Hn.
  rewrite take_app_ge by lia. apply elem_of_app. right. destruct (n - length l1) eqn:E; [lia|]. by left.
Qed.

(** The join of the rows of a user. *)
Definition inbox_rows (t u : string) (d : SessionDB) : list NoteInboxItem :=
  omap (inbox_row d) (filter (λ r, rr_tenant r = t ∧ rr_user r = u) (note_recipients d)).

Lemma elem_of_inbox_rows t u d item :
  item ∈ inbox_rows t u d ↔ ∃ r, r ∈ note_recipients d ∧ rr_tenant r = t ∧ rr_user r = u ∧ inbox_row d r = Some item.
Proof. unfold inbox_rows. rewrite list_elem_of_omap. setoid_rewrite list_elem_of_filter. naive_solver. Qed.

(** The items of the user's inbox that are not older than an item's time. *)
Definition as_late (now : time) (t u : string) (d : SessionDB) : nat :=
  length (filter (λ item, (now ≤ ii_CreatedAt item)%Z) (inbox_rows t u d)).

Section repo_functional.
Variable DBForTenant : string → result unit.
Implicit Types d : SessionDB.

Definition device_key (s : DeviceSession) : string * string * string :=
  (ds_TenantID s, ds_UserID s, DeviceID s).

Lemma upsert_Ok env session d d' out :
  repo_UpsertDeviceSession DBForTenant env session d = (d', Ok out) →
  device_sessions d' !! device_key session = Some (mkDeviceRow out true)
  ∧ device_key out = device_key session ∧ SessionToken out = SessionToken session
  ∧ AllowedTenants out = AllowedTenants session
  ∧ (∀ row, device_sessions d !! device_key session = Some row → SessionID out = SessionID (dr row))
  ∧ (∀ k, k ≠ device_key session → device_sessions d' !! k = device_sessions d !! k).
Proof.
  unfold repo_UpsertDeviceSession. destruct (DBForTenant _); [|done].
  case_decide; [done|]. case_decide; [done|]. cbv zeta. fold (device_key session) in *.
  destruct (device_sessions d !! device_key session) as [row|] eqn:El.
  - intros [= <- <-]. cbn. rewrite lookup_insert_eq. repeat split; [naive_solver|].
    intros k Hk. by rewrite lookup_insert_ne.
  - case_decide; [done|]. intros [= <- <-]. cbn. rewrite lookup_insert_eq. repeat split; [done|].
    intros k Hk. by rewrite lookup_insert_ne.
Qed.

Definition recipient_rows (n : Note) (rs : list NoteRecipient) : list RecipientRow :=
  (λ r, mkRecipientRow (NoteID n) (n_TenantID n) (nr_UserID r) (nr_Type r) false) <$> rs.

Definition valid_type (r : NoteRecipient) : Prop := nr_Type r ∈ ["to"; "cc"; "bcc"].

Lemma insert_recipients_ok n rs d :
  NoDup (nr_UserID <$> rs) → Forall valid_type rs →
  (∀ row r, row ∈ note_recipients d → r ∈ rs → ¬ (rr_note row = NoteID n ∧ rr_user row = nr_UserID r)) →
  for_each (insert_recipient n) rs d
  = (set_note_recipients (note_recipients d ++ recipient_rows n rs) d, Ok tt).
Proof.
  revert d. induction rs as [|r rs IH]; intros d Hnd Hty Hfree.
  - cbn. rewrite app_nil_r. by destruct d.
  - cbn [for_each]. apply Forall_cons in Hty as [Hr Hty]. apply NoDup_cons in Hnd as [Hr' Hnd].
    unfold insert_recipient at 1. rewrite decide_False by (intros Hn; by apply Hn).
    rewrite decide_False.
    + rewrite IH; [|done|done|].
      * cbn. by rewrite <-app_assoc.
      * intros row r2 [Hrow|Hrow]%elem_of_app Hr2; [apply Hfree; [done|by right]|].
        apply list_elem_of_singleton in Hrow as ->. cbn. intros [_ Heq]. apply Hr'.
        rewrite Heq. by apply list_elem_of_fmap_2.
    + rewrite Exists_exists. intros (row & Hrow & Heq). by apply (Hfree row r Hrow ltac:(by left)).
Qed.

(** Inserting keeps what is there, so a second entry for a user hits the key of the first. *)
Lemma insert_recipient_present n r u d d' :
  insert_recipient n r d = (d', Ok tt) →
  (Exists (λ row, rr_note row = NoteID n ∧ rr_user row = u) (note_recipients d) ∨ nr_UserID r = u →
   Exists (λ row, rr_note row = NoteID n ∧ rr_user row = u) (note_recipients d')).
Proof.
  unfold insert_recipient. case_decide; [done|]. case_decide; [done|]. intros [= <-]. cbn.
  rewrite Exists_app, Exists_cons, Exists_nil. cbn. naive_solver.
Qed.

Lemma insert_recipients_dup n rs1 rs2 r1 r2 d :
  r1 ∈ rs1 → r2 ∈ rs2 → nr_UserID r1 = nr_UserID r2 →
  is_Err (for_each (insert_recipient n) (rs1 ++ rs2) d).2 = true.
Proof.
  intros H1 H2 Heq.
  assert (Hpres : ∀ rs d, r2 ∈ rs →
    Exists (λ row, rr_note row = NoteID n ∧ rr_user row = nr_UserID r2) (note_recipients d) →
    is_Err (for_each (insert_recipient n) rs d).2 = true).
  { intros rs. induction rs as [|r rs IH]; intros d0 Hin Hex; [by apply elem_of_nil in Hin|].
    cbn [for_each]. destruct (insert_recipient n r d0) as [d1 [[]|e]] eqn:E; [|done].
    apply elem_of_cons in Hin as [->|Hin].
    - unfold insert_recipient in E. case_decide; [done|]. by rewrite decide_True in E.
    - apply IH; [done|]. eapply insert_recipient_present; [exact E|by left]. }
  revert d. induction rs1 as [|r rs1 IH]; intros d; [by apply elem_of_nil in H1|].
  cbn [for_each app]. destruct (insert_recipient n r d) as [d1 [[]|e]] eqn:E; [|done].
  apply elem_of_cons in H1 as [<-|Hin]; [|by apply IH].
  apply Hpres; [apply elem_of_app; by right|].
  eapply insert_recipient_present; [exact E|by right].
Qed.

Lemma insert_files n fs d :
  for_each (insert_file n) fs d
  = (set_note_files (note_files d ++ (mkFileRow (NoteID n) (n_TenantID n) <$> fs)) d, Ok tt).
Proof.
  revert d. induction fs as [|f fs IH]; intros d.
  - cbn. rewrite app_nil_r. by destruct d.
  - cbn [for_each]. unfold insert_file at 1. rewrite IH. cbn. by rewrite <-app_assoc.
Qed.

(** The note as stored: with the identifier and the time the database gave it. *)
Definition stored_note (env : Env) (note : Note) : Note :=
  mkNote (new_uuid env) (n_TenantID note) (SenderUserID note) (Title note) (Body note)
    (Recipients note) (Files note) (NOW env).

Lemma create_note_ok env note d :
  db_inv d → DBForTenant (n_TenantID note) = Ok tt → n_TenantID note ∈ tenants d →
  notes d !! new_uuid env = None → Recipients note ≠ [] →
  NoDup (nr_UserID <$> Recipients note) → Forall valid_type (Recipients note) →
  let n := stored_note env note in
  repo_CreateNote DBForTenant env note d =
    (mkSessionDB (tenants d) (device_sessions d) (user_presence d) (<[new_uuid env := n]> (notes d))
       (note_recipients d ++ recipient_rows n (Recipients note))
       (note_files d ++ (mkFileRow (NoteID n) (n_TenantID n) <$> Files note)) (chat_notifications d),
     Ok n).
Proof.
  intros Hd Hdb Ht Hnew Hne Hnd Hty. cbv zeta. unfold repo_CreateNote. rewrite Hdb.
  rewrite decide_False by done. unfold transaction, insert_note.
  rewrite decide_False by naive_solver. rewrite Hnew. rewrite decide_False by (by intros [? ?]).
  fold (stored_note env note). set (n := stored_note env note).
  change (Recipients n) with (Recipients note). rewrite insert_recipients_ok; [|done|done|].
  - change (Files n) with (Files note). by rewrite insert_files.
  - intros row r Hrow _ [Hn _]. pose proof (di_note_fk d Hd) as Hfk. rewrite Forall_forall in Hfk.
    destruct (Hfk row Hrow) as [x Hx]. rewrite Hn in Hx. cbn in Hx. congruence.
Qed.

Lemma create_note_dup env note d rs1 rs2 r1 r2 :
  Recipients note = rs1 ++ rs2 → r1 ∈ rs1 → r2 ∈ rs2 → nr_UserID r1 = nr_UserID r2 →
  ∃ e, repo_CreateNote DBForTenant env note d = (d, Err e).
Proof.
  intros Heq H1 H2 Hu. unfold repo_CreateNote. destruct (DBForTenant _); [|eauto].
  case_decide; [eauto|]. unfold transaction, insert_note. repeat case_decide; eauto.
  cbn [Recipients]. rewrite Heq.
  match goal with |- context [for_each (insert_recipient ?n) _ ?d1] =>
    pose proof (insert_recipients_dup n rs1 rs2 r1 r2 d1 H1 H2 Hu) as Herr;
    destruct (for_each (insert_recipient n) (rs1 ++ rs2) d1) as [d2 [[]|e]] end; [done|eauto].
Qed.

(** An inbox shows what the join gives, and of it what no more than a page is as late as. *)
Lemma list_inbox_spec t u limit d :
  DBForTenant t = Ok tt → (0 ≤ limit)%Z →
  ∃ items, repo_ListInbox DBForTenant t u limit d = (d, Ok items)
    ∧ (∀ item, item ∈ items → item ∈ inbox_rows t u d)
    ∧ (∀ item, item ∈ inbox_rows t u d → (Z.of_nat (as_late (ii_CreatedAt item) t u d) ≤ limit)%Z → item ∈ items).
Proof.
  intros Hdb Hlim. unfold repo_ListInbox. rewrite Hdb. destruct (Z.ltb_spec limit 0); [lia|].
  fold (inbox_rows t u d). set (rows := inbox_rows t u d). eexists. split; [done|]. split.
  - intros item Hin%(subseteq_take (Z.to_nat limit)). by rewrite merge_sort_Permutation in Hin.
  - intros item Hin Hlate. apply (in_first_page (λ i, ii_CreatedAt i)); [|by rewrite merge_sort_Permutation|].
    + apply StronglySorted_merge_sort; [|intros x y; unfold newest_first; lia].
      intros x y z. unfold newest_first. lia.
    + rewrite merge_sort_Permutation. unfold as_late in Hlate. fold rows in Hlate. lia.
Qed.
End repo_functional.
