(* ===== verification/Paging.v ===== *)
(** * Keyset pagination

    The list endpoints page through a query "ORDER BY key DESC LIMIT n" with a cursor that holds
    the key of the last item: the service asks for one item more than the page, and hands out a
    cursor when it got it.  This file has the order of text in the database, the query, the
    client that follows the cursors, and the lemmas the endpoints share. *)

From stdpp Require Import lexico.
From S2P Require Import Prelude GoStrings.

(** The collation of the database: a decidable total order on text. *)
Class TextOrder := {
  text_le : relation string;
  text_le_dec :: RelDecision text_le;
  text_le_po :: PartialOrder text_le;
  text_le_total :: Total text_le;
}.

(** The bytewise order, for concrete runs. *)
Definition byte_lt (s t : string) : Prop := lexico (code <$> chars s) (code <$> chars t).
Definition byte_le (s t : string) : Prop := s = t ∨ byte_lt s t.

(** ** The query *)

Section query.
Context {A K : Type} `{EqDecision K} (le : relation K) `{!RelDecision le}.
Variable key : A → K.

Definition desc (x y : A) : Prop := le (key y) (key x).

#[export] Instance desc_dec : RelDecision desc.
Proof. intros x y. unfold desc. apply _. Defined.

(** ORDER BY key DESC. *)
Definition order_desc (items : list A) : list A := merge_sort desc items.

(** WHERE key < cursor, when there is a cursor. *)
Definition before (cursor : option K) (x : A) : Prop :=
  match cursor with None => True | Some k => le (key x) k ∧ key x ≠ k end.

#[export] Instance before_dec cursor x : Decision (before cursor x).
Proof. unfold before. destruct cursor; apply _. Defined.

Definition query (items : list A) (cursor : option K) (limit : nat) : list A :=
  take limit (order_desc (filter (before cursor) items)).

(** A page of the service: what it fetched, cut to the page, and the last item if there is more. *)
Definition cut_page (limit : nat) (fetched : list A) : list A * option A :=
  if decide (limit < length fetched) then (take limit fetched, last (take limit fetched))
  else (fetched, None).

(** The client that follows the cursors, with a number of requests it may make: the items, once a page
    has no next one, or [None] when the requests do not suffice. *)
Fixpoint walk (fuel : nat) (page : option K → list A * option K) (cursor : option K) : option (list A) :=
  match fuel with
  | O => None
  | S fuel' =>
      let '(items, next) := page cursor in
      match next with None => Some items | Some k => (items ++.) <$> walk fuel' page (Some k) end
  end.

Definition key_page (items : list A) (limit : nat) (cursor : option K) : list A * option K :=
  let '(page, next) := cut_page limit (query items cursor (S limit)) in (page, key <$> next).
End query.

(** *** Cursors as strings

    A list endpoint: the items of a page and the next cursor, empty at the end. *)
Definition endpoint (B : Type) : Type := string → result (list B * string).

(** The client of an endpoint: the items, once it has been given an empty cursor; [None] when a request is answered
    with an error, or the requests do not suffice. *)
Fixpoint crawl {B} (fuel : nat) (svc : endpoint B) (cursor : string) : option (list B) :=
  match fuel with
  | O => None
  | S fuel' =>
      match svc cursor with
      | Err _ => None
      | Ok (items, next) => if decide (next = "") then Some items else (items ++.) <$> crawl fuel' svc next
      end
  end.

(** * Lemmas *)

Program Definition byte_order : TextOrder := {| text_le := byte_le |}.
Next Obligation. intros s t. unfold byte_le, byte_lt. apply _. Defined.
Next Obligation.
  split; [split|].
  - intros s. by left.
  - intros s t u [->|H1] [->|H2]; [by left|by right|by right|right].
    unfold byte_lt in *. by transitivity (code <$> chars t).
  - intros s t [Heq|H1] [Heq'|H2]; try done. exfalso. unfold byte_lt in *.
    destruct (irreflexivity lexico (code <$> chars s)). by transitivity (code <$> chars t).
Qed.
Next Obligation.
  intros s t. destruct (trichotomyT lexico (code <$> chars s) (code <$> chars t)) as [[H|H]|H].
  - left. by right.
  - left. left. apply chars_inj. revert H. generalize (chars s) (chars t). intros l1.
    induction l1 as [|a l1 IH]; intros [|b l2]; cbn; intros Heq; simplify_eq; [done|].
    f_equal; [|by apply IH]. unfold code in *.
    rewrite <-(ascii_N_embedding a), <-(ascii_N_embedding b). f_equal. lia.
  - right. by right.
Qed.

Section query_lemmas.
Context {A K : Type} `{EqDecision K} (le : relation K) `{!RelDecision le, !PartialOrder le, !Total le}.
Variable key : A → K.
Implicit Types items l : list A.

Local Instance desc_trans : Transitive (desc le key).
Proof. intros x y z Hxy Hyz. unfold desc in *. by etrans. Qed.
Local Instance desc_total : Total (desc le key).
Proof. intros x y. unfold desc. destruct (total le (key y) (key x)); auto. Qed.

Lemma order_desc_sorted items : StronglySorted (desc le key) (order_desc le key items).
Proof. apply StronglySorted_merge_sort; apply _. Qed.

Lemma order_desc_perm items : order_desc le key items ≡ₚ items.
Proof. apply merge_sort_Permutation. Qed.

Lemma StronglySorted_filter_keep {R : relation A} (P : A → Prop) `{!∀ x, Decision (P x)} l :
  StronglySorted R l → StronglySorted R (filter P l).
Proof.
  induction 1 as [|x l Hl IH Hx]; [constructor|]. rewrite filter_cons. case_decide; [|done].
  constructor; [done|]. rewrite Forall_forall in *. intros y Hy. apply Hx.
  by apply list_elem_of_filter in Hy as [_ ?].
Qed.

Lemma key_inj_items items x y :
  NoDup (key <$> items) → x ∈ items → y ∈ items → key x = key y → x = y.
Proof.
  intros Hnd [i Hi]%list_elem_of_lookup [j Hj]%list_elem_of_lookup Heq.
  enough (i = j) by congruence.
  eapply (NoDup_lookup (key <$> items)); [done|..]; rewrite list_lookup_fmap; [by rewrite Hi|].
  rewrite Hj. cbn. by rewrite Heq.
Qed.

(** Filtering and ordering commute. *)
Lemma order_desc_filter (P : A → Prop) `{!∀ x, Decision (P x)} items :
  NoDup (key <$> items) → order_desc le key (filter P items) = filter P (order_desc le key items).
Proof.
  intros Hnd. apply (StronglySorted_unique_strong (desc le key)).
  - intros x1 x2 Hx1 Hx2 H12 H21.
    rewrite order_desc_perm in Hx1. apply list_elem_of_filter in Hx1 as [_ Hx1].
    apply list_elem_of_filter in Hx2 as [_ Hx2]. rewrite order_desc_perm in Hx2.
    apply (key_inj_items items); [done..|]. by apply (anti_symm le).
  - apply order_desc_sorted.
  - apply StronglySorted_filter_keep, order_desc_sorted.
  - by rewrite !order_desc_perm.
Qed.

(** In a list ordered by distinct keys, what is before the key of an item is what follows it. *)
Lemma filter_before l1 x l2 :
  StronglySorted (desc le key) (l1 ++ x :: l2) → NoDup (key <$> l1 ++ x :: l2) →
  filter (before le key (Some (key x))) (l1 ++ x :: l2) = l2.
Proof.
  intros Hs Hnd. rewrite filter_app, filter_cons.
  rewrite filter_none_elem.
  - rewrite decide_False by (intros [_ Hne]; by apply Hne). cbn. apply filter_all_elem.
    intros y Hy. split.
    + apply StronglySorted_app_1_r in Hs. inversion Hs as [|? ? ? Hall]; subst.
      rewrite Forall_forall in Hall. by apply Hall.
    + intros Heq. rewrite fmap_app in Hnd. apply NoDup_app in Hnd as (_ & _ & Hnd).
      cbn in Hnd. apply NoDup_cons in Hnd as [Hnd _]. apply Hnd. rewrite <-Heq. by apply list_elem_of_fmap_2.
  - intros y Hy [Hle Hne]. apply Hne. apply (anti_symm le); [done|].
    change (desc le key y x). eapply StronglySorted_app_1_elem_of; [exact Hs|done|by left].
Qed.

Section walk_lemmas.
Variables (items : list A) (limit : nat).
Hypothesis Hnd : NoDup (key <$> items).
Hypothesis Hlimit : 0 < limit.

Let sorted : list A := order_desc le key items.

Lemma sorted_NoDup : NoDup (key <$> sorted).
Proof using Hnd PartialOrder0 Total0. unfold sorted. by rewrite order_desc_perm. Qed.

(** A cursor stands for a suffix of the ordered list. *)
Definition at_suffix (cursor : option K) (l2 : list A) : Prop :=
  match cursor with
  | None => l2 = sorted
  | Some k => ∃ l1 x, sorted = l1 ++ x :: l2 ∧ key x = k
  end.

Lemma query_suffix cursor l2 n : at_suffix cursor l2 → query le key items cursor n = take n l2.
Proof using Hnd PartialOrder0 Total0.
  intros Hsuf. unfold query. rewrite order_desc_filter by done. fold sorted. f_equal.
  destruct cursor as [k|]; cbn in Hsuf.
  - destruct Hsuf as (l1 & x & Heq & <-). rewrite Heq. apply filter_before; rewrite <-Heq;
      [apply order_desc_sorted|apply sorted_NoDup].
  - subst l2. by apply filter_all_elem.
Qed.

Lemma key_page_suffix cursor l2 :
  at_suffix cursor l2 →
  (length l2 ≤ limit ∧ key_page le key items limit cursor = (l2, None))
  ∨ ∃ k, key_page le key items limit cursor = (take limit l2, Some k) ∧ at_suffix (Some k) (drop limit l2)
         ∧ limit < length l2.
Proof using Hnd Hlimit PartialOrder0 Total0.
  intros Hsuf. unfold key_page, cut_page. rewrite (query_suffix _ _ _ Hsuf), length_take.
  destruct (decide (length l2 ≤ limit)) as [Hle|Hgt].
  - left. split; [done|]. rewrite decide_False by lia. by rewrite take_ge by lia.
  - right. rewrite decide_True by lia. rewrite take_take, Nat.min_l by lia.
    destruct (last (take limit l2)) as [x|] eqn:Ex.
    + exists (key x). split; [done|]. split; [|lia].
      apply last_Some in Ex as [l' Hl'].
      assert (Hl2 : l2 = l' ++ x :: drop limit l2).
      { rewrite <-(take_drop limit l2) at 1. rewrite Hl', <-app_assoc. done. }
      destruct cursor as [k|]; cbn in Hsuf.
      * destruct Hsuf as (l1 & y & Heq & <-). exists (l1 ++ y :: l'), x. split; [|done].
        rewrite Heq. rewrite Hl2 at 1. by rewrite <-app_assoc.
      * subst l2. by exists l', x.
    + apply last_None in Ex. apply (f_equal length) in Ex. rewrite length_take in Ex. cbn in Ex. lia.
Qed.

Lemma walk_suffix fuel cursor l2 :
  at_suffix cursor l2 → length l2 < fuel → walk fuel (key_page le key items limit) cursor = Some l2.
Proof using Hnd Hlimit PartialOrder0 Total0.
  revert cursor l2. induction fuel as [|fuel IH]; intros cursor l2 Hsuf Hlen; [lia|].
  cbn [walk]. destruct (key_page_suffix cursor l2 Hsuf) as [[Hle ->]|(k & -> & Hk & Hgt)].
  - done.
  - rewrite (IH (Some k) (drop limit l2)); [cbn; by rewrite take_drop|done|]. rewrite length_drop. lia.
Qed.
End walk_lemmas.

(** Following the cursors yields every item once, in order. *)
Lemma walk_all items limit :
  NoDup (key <$> items) → 0 < limit →
  walk (S (length items)) (key_page le key items limit) None = Some (order_desc le key items).
Proof.
  intros Hnd Hl. apply walk_suffix; [done|done|done|].
  rewrite (Permutation_length (order_desc_perm items)). lia.
Qed.
End query_lemmas.

(** An endpoint whose pages are those of a query, up to the encoding of cursors, is crawled like
    the query is walked. *)
Section crawl_lemmas.
Context {A B K : Type}.
Variables (svc : endpoint B) (page : option K → list A * option K) (f : A → B).
Variables (enc : K → string) (good : K → Prop).

Definition cursor_string (cursor : option K) : string := default "" (enc <$> cursor).

Definition good_cursor (cursor : option K) : Prop :=
  match cursor with None => True | Some k => good k end.

Hypothesis Hpage : ∀ cursor, good_cursor cursor →
  svc (cursor_string cursor) = Ok (f <$> (page cursor).1, cursor_string (page cursor).2)
  ∧ good_cursor (page cursor).2.
Hypothesis Henc : ∀ k, good k → enc k ≠ "".

Lemma crawl_walk fuel cursor :
  good_cursor cursor → crawl fuel svc (cursor_string cursor) = option_map (fmap f) (walk fuel page cursor).
Proof using Hpage Henc.
  revert cursor. induction fuel as [|fuel IH]; intros cursor Hgood; [done|].
  destruct (Hpage cursor Hgood) as [Hsvc Hnext]. cbn [crawl walk]. rewrite Hsvc.
  destruct (page cursor) as [items [k|]]; cbn [fst snd] in *.
  - rewrite decide_False by (by apply Henc). rewrite (IH (Some k)) by done.
    destruct (walk fuel page (Some k)) as [l|]; [|done]. cbn. by rewrite fmap_app.
  - done.
Qed.
End crawl_lemmas.

(** The last item of a page is one of its items. *)
Lemma cut_page_last {A} limit (l : list A) x : (cut_page limit l).2 = Some x → x ∈ l.
Proof.
  unfold cut_page. case_decide; cbn; [|done]. intros [l' Hl']%last_Some.
  assert (Hx : x ∈ take limit l) by (rewrite Hl'; apply elem_of_app; right; by left).
  by apply elem_of_take in Hx as (i & Hi & _); eapply list_elem_of_lookup_2.
Qed.

Lemma cut_page_fmap {A B} (f : A → B) limit (l : list A) :
  cut_page limit (f <$> l) = (f <$> (cut_page limit l).1, f <$> (cut_page limit l).2).
Proof.
  unfold cut_page. rewrite length_fmap. case_decide; cbn; [|done].
  rewrite <-fmap_take. f_equal. generalize (take limit l). clear. intros l.
  induction l as [|x [|y l] IH]; [done|done|exact IH].
Qed.

Lemma elem_of_query {A K} `{EqDecision K} (le : relation K) `{!RelDecision le} (key : A → K) items cursor n x :
  x ∈ query le key items cursor n → x ∈ items.
Proof.
  unfold query, order_desc. intros (i & Hi & _)%elem_of_take. apply list_elem_of_lookup_2 in Hi.
  rewrite merge_sort_Permutation in Hi. by apply list_elem_of_filter in Hi as [_ ?].
Qed.

Lemma NoDup_key_filter {A K} (key : A → K) (P : A → Prop) `{∀ x, Decision (P x)} (l : list A) :
  NoDup (key <$> l) → NoDup (key <$> filter P l).
Proof.
  induction l as [|x l IH]; [done|]. cbn [fmap list_fmap]. rewrite NoDup_cons. intros [Hx Hl].
  rewrite filter_cons. case_decide; [|by apply IH]. cbn [fmap list_fmap]. rewrite NoDup_cons.
  split; [|by apply IH]. intros (y & Hy & Hin)%list_elem_of_fmap. apply Hx. rewrite Hy.
  apply list_elem_of_fmap_2. by apply list_elem_of_filter in Hin as [_ ?].
Qed.
