(* ===== verification/ChatStore.v ===== *)
(** * The chat tables

    The data types of server/chat/domain/models.go and
    server/dbman/repository/chat_repository.go, with the limit clamps of
    server/dbman/service/chat_service.go, over the tables of migrations 001 to 008.  As in
    [SessionStore], [DBForTenant] is the outcome of the tenant's router, statements fail on
    violated keys and foreign keys, and a failed transaction changes nothing.

    The collation, full-text matching, the regular expression for mentions and the JSONB
    operators are PostgreSQL's, and parameters here, as is the text of a JSONB value ([jsonb]). *)

From S2P Require Import Prelude GoStrings GoEncoding Cursor Paging SessionStore.

(** ** Data *)

(* server/chat/domain/models.go: User *)
Record User := mkUser {
  u_TenantID : string;
  u_ID : string;
  OrgID : string;
  Email : string;
  u_Name : string;
  u_Title : string;
  u_Role : string;
  u_Status : string;
  u_StatusNote : string;
  PasswordHash : string;
  u_CreatedAt : time;
  u_UpdatedAt : time;
}.

(* server/chat/domain/models.go: ChatRoom *)
Record ChatRoom := mkChatRoom {
  r_TenantID : string;
  r_ID : string;
  r_Name : string;
  RoomType : string;
  CreatedBy : string;
  r_CreatedAt : time;
}.

(* server/chat/domain/models.go: Message *)
Record Message := mkMessage {
  m_TenantID : string;
  m_ID : string;
  m_RoomID : string;
  SenderID : string;
  m_Body : string;
  MetaJSON : string;
  m_CreatedAt : time;
}.

#[export] Instance Message_eq_dec : EqDecision Message.
Proof. solve_decision. Defined.

(* server/chat/domain/models.go: MessageRead *)
Record MessageRead := mkMessageRead {
  mr_TenantID : string;
  mr_RoomID : string;
  mr_MessageID : string;
  mr_UserID : string;
  ReadAt : time;
}.

(* server/chat/domain/models.go: RoomUnread *)
Record RoomUnread := mkRoomUnread { ru_RoomID : string; UnreadCount : nat }.

(* server/chat/domain/models.go: ChatRoomSummary *)
Record ChatRoomSummary := mkChatRoomSummary {
  crs_RoomID : string;
  crs_Name : string;
  crs_RoomType : string;
  crs_CreatedBy : string;
  crs_CreatedAt : time;
  PeerUserID : option string;
  PeerName : option string;
  PeerStatus : option string;
  PeerStatusNote : option string;
  LatestMessageID : option string;
  LatestMessageBody : option string;
  LatestMessageKind : string;
  LatestMessageSummary : string;
  LatestMessageMentionTokens : list string;
  LatestMessageIsMentioned : bool;
  LatestMessageAt : option time;
  LatestMessageSender : option string;
  crs_UnreadCount : nat;
}.

(** ** Tables *)

Record MemberRow := mkMemberRow { mb_tenant : string; mb_room : string; mb_user : string; joined_at : time }.
Record AliasRow := mkAliasRow { al_tenant : string; al_user : string; al_alias : string; al_created_at : time }.

Record ChatDB := mkChatDB {
  c_tenants : gset string;
  users : gmap string User;
  user_aliases : list AliasRow;
  chat_rooms : gmap string ChatRoom;
  room_members : list MemberRow;
  messages : list Message;
  message_reads : gmap (string * string) MessageRead;
}.

Definition set_chat_rooms x (d : ChatDB) : ChatDB :=
  mkChatDB (c_tenants d) (users d) (user_aliases d) x (room_members d) (messages d) (message_reads d).
Definition set_room_members x (d : ChatDB) : ChatDB :=
  mkChatDB (c_tenants d) (users d) (user_aliases d) (chat_rooms d) x (messages d) (message_reads d).
Definition set_messages x (d : ChatDB) : ChatDB :=
  mkChatDB (c_tenants d) (users d) (user_aliases d) (chat_rooms d) (room_members d) x (message_reads d).
Definition set_message_reads x (d : ChatDB) : ChatDB :=
  mkChatDB (c_tenants d) (users d) (user_aliases d) (chat_rooms d) (room_members d) (messages d) x.

(** What the queries use of PostgreSQL. *)
Class Postgres := {
  pg_text :: TextOrder;
  (** [to_tsvector ... @@ plainto_tsquery ... OR body ILIKE ...], of a body and a query *)
  text_match : string → string → bool;
  (** the first groups of the matches of the mention expression in a body *)
  mention_matches : string → list string;
  pg_lower : string → string;
  (** whether a text is valid JSON, how a JSONB column that was given it reads back, and what the
      queries find in it *)
  json_valid : string → bool;
  jsonb : string → string;
  json_file_id : string → string;
  json_has_file_ids : string → bool;
  json_has_emojis : string → bool;
}.

Section repository.
Context `{Postgres}.
Variable DBForTenant : string → result unit.

(** ** Rooms and members *)

Definition room_member_exists (room user : string) (d : ChatDB) : Prop :=
  Exists (λ m, mb_room m = room ∧ mb_user m = user) (room_members d).

#[export] Instance room_member_exists_dec room user d : Decision (room_member_exists room user d).
Proof. unfold room_member_exists. apply _. Defined.

(** INSERT INTO room_members ... ON CONFLICT DO NOTHING; the key is (room_id, user_id). *)
Definition insert_member (env : Env) (tenantID roomID userID : string) : M ChatDB unit := λ d,
  if decide (room_member_exists roomID userID d) then (d, Ok tt)
  else if decide (tenantID ∉ c_tenants d ∨ chat_rooms d !! roomID = None ∨ users d !! userID = None)
  then (d, Err foreign_key)
  else (set_room_members (room_members d ++ [mkMemberRow tenantID roomID userID (NOW env)]) d, Ok tt).

Definition insert_room (env : Env) (tenantID : string) (room : ChatRoom) : M ChatDB string := λ d,
  if decide (tenantID ∉ c_tenants d ∨ users d !! CreatedBy room = None) then (d, Err foreign_key)
  else if decide (is_Some (chat_rooms d !! new_uuid env)) then (d, Err duplicate_key)
  else
    let row := mkChatRoom tenantID (new_uuid env) (r_Name room) (RoomType room) (CreatedBy room) (NOW env) in
    (set_chat_rooms (<[new_uuid env := row]> (chat_rooms d)) d, Ok (new_uuid env)).

(* server/dbman/repository/chat_repository.go: CreateRoom *)
Definition repo_CreateRoom (env : Env) (tenantID : string) (room : ChatRoom) (memberIDs : list string) :
    M ChatDB string := λ d,
  match DBForTenant tenantID with
  | Err e => (d, Err e)
  | Ok _ =>
      transaction (λ d,
        match insert_room env tenantID room d with
        | (d, Err e) => (d, Err e)
        | (d, Ok roomID) =>
            match for_each (insert_member env tenantID roomID) memberIDs d with
            | (d, Err e) => (d, Err e)
            | (d, Ok _) =>
                match insert_member env tenantID roomID (CreatedBy room) d with
                | (d, Err e) => (d, Err e)
                | (d, Ok _) => (d, Ok roomID)
                end
            end
        end) d
  end.

(* server/dbman/repository/chat_repository.go: AddMember *)
Definition repo_AddMember (env : Env) (tenantID roomID userID : string) : M ChatDB unit := λ d,
  match DBForTenant tenantID with
  | Err e => (d, Err e)
  | Ok _ => insert_member env tenantID roomID userID d
  end.

(* server/dbman/repository/chat_repository.go: IsRoomMember *)
Definition repo_IsRoomMember (tenantID roomID userID : string) : M ChatDB bool := λ d,
  match DBForTenant tenantID with
  | Err e => (d, Err e)
  | Ok _ =>
      (d, Ok (bool_decide (Exists (λ m, mb_tenant m = tenantID ∧ mb_room m = roomID ∧ mb_user m = userID)
                (room_members d))))
  end.

(** ** Messages *)

(** The row of a message: meta_json is a JSONB column, so PostgreSQL keeps the value and not the text. *)
Definition as_stored (m : Message) : Message :=
  mkMessage (m_TenantID m) (m_ID m) (m_RoomID m) (SenderID m) (m_Body m) (jsonb (MetaJSON m)) (m_CreatedAt m).

(** RETURNING has the identifier and the time: the message that comes back has the text it came with. *)
(* server/dbman/repository/chat_repository.go: CreateMessage *)
Definition repo_CreateMessage (env : Env) (message : Message) : M ChatDB Message := λ d,
  match DBForTenant (m_TenantID message) with
  | Err e => (d, Err e)
  | Ok _ =>
      if negb (json_valid (MetaJSON message)) then (d, Err "invalid input syntax for type json")
      else if decide (m_TenantID message ∉ c_tenants d ∨ chat_rooms d !! m_RoomID message = None
                      ∨ users d !! SenderID message = None) then (d, Err foreign_key)
      else if decide (new_uuid env ∈ (m_ID <$> messages d)) then (d, Err duplicate_key)
      else
        let message := mkMessage (m_TenantID message) (new_uuid env) (m_RoomID message)
                         (SenderID message) (m_Body message) (MetaJSON message) (NOW env) in
        (set_messages (messages d ++ [as_stored message]) d, Ok message)
  end.

Definition room_messages (tenantID roomID : string) (d : ChatDB) : list Message :=
  filter (λ m, m_TenantID m = tenantID ∧ m_RoomID m = roomID) (messages d).

(** The SELECT list of the message queries has no tenant_id. *)
Definition without_tenant (m : Message) : Message :=
  mkMessage "" (m_ID m) (m_RoomID m) (SenderID m) (m_Body m) (MetaJSON m) (m_CreatedAt m).

(* server/dbman/repository/chat_repository.go: ListMessages *)
Definition repo_ListMessages (tenantID roomID : string) (limit : Z) (cursorID : option string) :
    M ChatDB (list Message) := λ d,
  match DBForTenant tenantID with
  | Err e => (d, Err e)
  | Ok _ =>
      if (limit <? 0)%Z then (d, Err "LIMIT must not be negative")
      else (d, Ok (without_tenant <$> query text_le m_ID (room_messages tenantID roomID d) cursorID (Z.to_nat limit)))
  end.

(** The rows a search looks through. *)
Definition search_hits (tenantID q : string) (roomID : option string) (d : ChatDB) : list Message :=
  filter (λ m, m_TenantID m = tenantID ∧ text_match (m_Body m) q = true
               ∧ (roomID = None ∨ roomID = Some (m_RoomID m))) (messages d).

(* server/dbman/repository/chat_repository.go: SearchMessages *)
Definition repo_SearchMessages (tenantID q : string) (roomID : option string) (limit : Z)
    (cursorID : option string) : M ChatDB (list Message) := λ d,
  match DBForTenant tenantID with
  | Err e => (d, Err e)
  | Ok _ =>
      if (limit <? 0)%Z then (d, Err "LIMIT must not be negative")
      else (d, Ok (without_tenant <$> query text_le m_ID (search_hits tenantID q roomID d) cursorID (Z.to_nat limit)))
  end.

(** ** Reads *)

(** (m.created_at, m.message_id) <= (t.created_at, t.message_id), row-wise. *)
Definition not_after (m t : Message) : Prop :=
  (m_CreatedAt m < m_CreatedAt t)%Z ∨ (m_CreatedAt m = m_CreatedAt t ∧ text_le (m_ID m) (m_ID t)).

#[export] Instance not_after_dec m t : Decision (not_after m t).
Proof. unfold not_after. apply _. Defined.

(** The messages a read mark covers: none when the message is not in the room. *)
Definition read_targets (tenantID roomID messageID : string) (d : ChatDB) : list Message :=
  let room := room_messages tenantID roomID d in
  match list_find (λ m, m_ID m = messageID) room with
  | None => []
  | Some (_, t) => filter (λ m, not_after m t) room
  end.

(** INSERT ... ON CONFLICT (message_id, user_id) DO UPDATE SET read_at. *)
Definition upsert_read (now : time) (userID : string) (reads : gmap (string * string) MessageRead)
    (m : Message) : gmap (string * string) MessageRead :=
  let row :=
    match reads !! (m_ID m, userID) with
    | Some old => mkMessageRead (mr_TenantID old) (mr_RoomID old) (mr_MessageID old) (mr_UserID old) now
    | None => mkMessageRead (m_TenantID m) (m_RoomID m) (m_ID m) userID now
    end in
  <[(m_ID m, userID) := row]> reads.

(* server/dbman/repository/chat_repository.go: MarkReadUpTo *)
Definition repo_MarkReadUpTo (env : Env) (tenantID roomID userID messageID : string) : M ChatDB unit := λ d,
  match DBForTenant tenantID with
  | Err e => (d, Err e)
  | Ok _ =>
      let targets := read_targets tenantID roomID messageID d in
      if decide (targets = []) then (d, Err "no messages marked as read")
      else if decide (users d !! userID = None) then (d, Err foreign_key)
      else (set_message_reads (foldl (upsert_read (NOW env) userID) (message_reads d) targets) d, Ok tt)
  end.

Definition reads_of (Q : MessageRead → Prop) `{∀ r, Decision (Q r)} (d : ChatDB) : list MessageRead :=
  filter Q (snd <$> map_to_list (message_reads d)).

Definition read_earlier (x y : MessageRead) : Prop := (ReadAt x ≤ ReadAt y)%Z.

#[export] Instance read_earlier_dec x y : Decision (read_earlier x y).
Proof. unfold read_earlier. apply _. Defined.

(** The SELECT list of the readers has no tenant_id. *)
Definition read_without_tenant (r : MessageRead) : MessageRead :=
  mkMessageRead "" (mr_RoomID r) (mr_MessageID r) (mr_UserID r) (ReadAt r).

(* server/dbman/repository/chat_repository.go: GetMessageReaders *)
Definition repo_GetMessageReaders (tenantID roomID messageID : string) : M ChatDB (list MessageRead) := λ d,
  match DBForTenant tenantID with
  | Err e => (d, Err e)
  | Ok _ =>
      (d, Ok (read_without_tenant <$> merge_sort read_earlier
        (reads_of (λ r, mr_TenantID r = tenantID ∧ mr_RoomID r = roomID ∧ mr_MessageID r = messageID) d)))
  end.

Definition my_reads (tenantID roomID userID : string) (d : ChatDB) : list MessageRead :=
  reads_of (λ r, mr_TenantID r = tenantID ∧ mr_RoomID r = roomID ∧ mr_UserID r = userID) d.

(** ORDER BY read_at DESC, message_id DESC. *)
Definition read_later (x y : MessageRead) : Prop :=
  (ReadAt y < ReadAt x)%Z ∨ (ReadAt y = ReadAt x ∧ text_le (mr_MessageID y) (mr_MessageID x)).

#[export] Instance read_later_dec x y : Decision (read_later x y).
Proof. unfold read_later. apply _. Defined.

(* server/dbman/repository/chat_repository.go: GetLastReadMessageID *)
Definition repo_GetLastReadMessageID (tenantID roomID userID : string) : M ChatDB string := λ d,
  match DBForTenant tenantID with
  | Err e => (d, Err e)
  | Ok _ =>
      (d, Ok (match merge_sort read_later (my_reads tenantID roomID userID d) with
              | [] => ""
              | r :: _ => mr_MessageID r
              end))
  end.

(** COALESCE(MAX(read_at), 'epoch'). *)
Definition last_read_at (tenantID roomID userID : string) (d : ChatDB) : time :=
  match ReadAt <$> my_reads tenantID roomID userID d with
  | [] => 0%Z
  | t :: ts => foldl Z.max t ts
  end.

Definition unread_count (tenantID roomID userID : string) (d : ChatDB) : nat :=
  length (filter (λ m, SenderID m ≠ userID ∧ (last_read_at tenantID roomID userID d < m_CreatedAt m)%Z)
            (room_messages tenantID roomID d)).

(* server/dbman/repository/chat_repository.go: GetUnreadCount *)
Definition repo_GetUnreadCount (tenantID roomID userID : string) : M ChatDB nat := λ d,
  match DBForTenant tenantID with
  | Err e => (d, Err e)
  | Ok _ => (d, Ok (unread_count tenantID roomID userID d))
  end.

Definition room_id_le (x y : RoomUnread) : Prop := text_le (ru_RoomID x) (ru_RoomID y).

#[export] Instance room_id_le_dec x y : Decision (room_id_le x y).
Proof. unfold room_id_le. apply _. Defined.

(* server/dbman/repository/chat_repository.go: GetUnreadCounts *)
Definition repo_GetUnreadCounts (tenantID userID : string) : M ChatDB (list RoomUnread) := λ d,
  match DBForTenant tenantID with
  | Err e => (d, Err e)
  | Ok _ =>
      (d, Ok (merge_sort room_id_le
        ((λ m, mkRoomUnread (mb_room m) (unread_count tenantID (mb_room m) userID d))
         <$> filter (λ m, mb_tenant m = tenantID ∧ mb_user m = userID) (room_members d))))
  end.

(** ** The room list *)

(** The lateral join [lm]: the message of the room with the largest identifier. *)
Definition latest_message (tenantID roomID : string) (d : ChatDB) : option Message :=
  head (order_desc text_le m_ID (room_messages tenantID roomID d)).

Definition joined_earlier (x y : MemberRow) : Prop := (joined_at x ≤ joined_at y)%Z.

#[export] Instance joined_earlier_dec x y : Decision (joined_earlier x y).
Proof. unfold joined_earlier. apply _. Defined.

(** The lateral join [pu]: the other member of a direct room. *)
Definition peer_of (tenantID userID : string) (room : ChatRoom) (d : ChatDB) : option User :=
  if decide (RoomType room = "direct") then
    head (omap (λ m, u ← users d !! mb_user m; if decide (u_TenantID u = tenantID) then Some u else None)
            (merge_sort joined_earlier
               (filter (λ m, mb_tenant m = tenantID ∧ mb_room m = r_ID room ∧ mb_user m ≠ userID)
                  (room_members d))))
  else None.

Definition message_kind (m : option Message) : string :=
  match m with
  | None => "text"
  | Some m =>
      if decide (json_file_id (MetaJSON m) ≠ "") then "file"
      else if json_has_file_ids (MetaJSON m) then "file"
      else if json_has_emojis (MetaJSON m) then "emoji"
      else "text"
  end.

Definition message_summary (m : option Message) : string :=
  match m with
  | None => ""
  | Some m =>
      if decide (json_file_id (MetaJSON m) ≠ "") then "[파일]"
      else if json_has_file_ids (MetaJSON m) then "[파일]"
      else if json_has_emojis (MetaJSON m) && bool_decide (m_Body m = "") then "[이모지]"
      else if decide (m_Body m = "") then ""
      else of_runes (take 120 (runes (m_Body m)))
  end.

Definition mention_tokens (m : option Message) : list string :=
  match m with None => [] | Some m => dedupe (mention_matches (m_Body m)) end.

Definition is_mentioned (tenantID userID : string) (me : User) (m : option Message) (d : ChatDB) : bool :=
  match m with
  | None => false
  | Some m =>
      let aliases := (λ a, pg_lower (al_alias a))
        <$> filter (λ a, al_tenant a = tenantID ∧ al_user a = userID) (user_aliases d) in
      existsb (λ tok,
        bool_decide (pg_lower tok = pg_lower (u_Name me))
        || bool_decide (pg_lower tok = pg_lower (SplitN2 "@"%char (Email me)).1)
        || bool_decide (pg_lower tok ∈ aliases)) (mention_matches (m_Body m))
  end.

Definition room_summary (tenantID userID : string) (me : User) (room : ChatRoom) (d : ChatDB) :
    ChatRoomSummary :=
  let lm := latest_message tenantID (r_ID room) d in
  let pu := peer_of tenantID userID room d in
  mkChatRoomSummary (r_ID room) (r_Name room) (RoomType room) (CreatedBy room) (r_CreatedAt room)
    (u_ID <$> pu) (u_Name <$> pu) (u_Status <$> pu) (u_StatusNote <$> pu)
    (m_ID <$> lm) (m_Body <$> lm) (message_kind lm) (message_summary lm) (mention_tokens lm)
    (is_mentioned tenantID userID me lm d) (m_CreatedAt <$> lm) (SenderID <$> lm)
    (unread_count tenantID (r_ID room) userID d).

(** COALESCE(lm.created_at, cr.created_at). *)
Definition activity (s : ChatRoomSummary) : time := default (crs_CreatedAt s) (LatestMessageAt s).

Definition room_key (s : ChatRoomSummary) : time * string := (activity s, crs_RoomID s).

Definition room_key_le (x y : time * string) : Prop :=
  (x.1 < y.1)%Z ∨ (x.1 = y.1 ∧ text_le x.2 y.2).

#[export] Instance room_key_le_dec : RelDecision room_key_le.
Proof. intros x y. unfold room_key_le. apply _. Defined.

Definition my_rooms (tenantID userID : string) (d : ChatDB) : list ChatRoomSummary :=
  match users d !! userID with
  | Some me =>
      if decide (u_TenantID me = tenantID) then
        omap (λ m, room ← chat_rooms d !! mb_room m;
                   if decide (r_TenantID room = tenantID) then Some (room_summary tenantID userID me room d)
                   else None)
          (filter (λ m, mb_tenant m = tenantID ∧ mb_user m = userID) (room_members d))
      else []
  | None => []
  end.

(* server/dbman/repository/chat_repository.go: ListMyRooms *)
Definition repo_ListMyRooms (tenantID userID : string) (limit : Z) (cursorCreatedAt : option time)
    (cursorRoomID : option string) : M ChatDB (list ChatRoomSummary) := λ d,
  match DBForTenant tenantID with
  | Err e => (d, Err e)
  | Ok _ =>
      if (limit <? 0)%Z then (d, Err "LIMIT must not be negative")
      else
        let cursor :=
          match cursorCreatedAt, cursorRoomID with Some t, Some id => Some (t, id) | _, _ => None end in
        (d, Ok (query room_key_le room_key (my_rooms tenantID userID d) cursor (Z.to_nat limit)))
  end.

(** ** The service in front of the repository: the clamps *)

(* server/dbman/service/chat_service.go: ListMessages *)
Definition dbman_ListMessages (tenantID roomID : string) (limit : Z) (cursorID : option string) :
    M ChatDB (list Message) :=
  let limit := if ((limit <=? 0) || (200 <? limit))%Z then 50%Z else limit in
  repo_ListMessages tenantID roomID limit cursorID.

(* server/dbman/service/chat_service.go: SearchMessages *)
Definition dbman_SearchMessages (tenantID q : string) (roomID : option string) (limit : Z)
    (cursorID : option string) : M ChatDB (list Message) :=
  let limit := if ((limit <=? 0) || (200 <? limit))%Z then 30%Z else limit in
  repo_SearchMessages tenantID q roomID limit cursorID.

(* server/dbman/service/chat_service.go: ListMyRooms *)
Definition dbman_ListMyRooms (tenantID userID : string) (limit : Z) (cursorCreatedAt : option time)
    (cursorRoomID : option string) : M ChatDB (list ChatRoomSummary) :=
  let limit := if ((limit <=? 0) || (200 <? limit))%Z then 50%Z else limit in
  repo_ListMyRooms tenantID userID limit cursorCreatedAt cursorRoomID.
End repository.

(** ** Histories of writes *)
Section chat_calls.
Context `{Postgres}.
Variable DBForTenant : string → result unit.

Inductive chat_call :=
| CallCreateRoom (env : Env) (tenantID : string) (room : ChatRoom) (memberIDs : list string)
| CallAddMember (env : Env) (tenantID roomID userID : string)
| CallCreateMessage (env : Env) (message : Message)
| CallMarkReadUpTo (env : Env) (tenantID roomID userID messageID : string).

Definition run_chat_call (c : chat_call) (d : ChatDB) : ChatDB :=
  match c with
  | CallCreateRoom env t room ids => (repo_CreateRoom DBForTenant env t room ids d).1
  | CallAddMember env t r u => (repo_AddMember DBForTenant env t r u d).1
  | CallCreateMessage env m => (repo_CreateMessage DBForTenant env m d).1
  | CallMarkReadUpTo env t r u id => (repo_MarkReadUpTo DBForTenant env t r u id d).1
  end.

Definition run_chat_calls (cs : list chat_call) (d : ChatDB) : ChatDB :=
  foldl (λ d c, run_chat_call c d) d cs.
End chat_calls.

(** ** The invariant of the tables *)

Record chat_inv (d : ChatDB) : Prop := mkChatInv {
  ci_messages : NoDup (m_ID <$> messages d);
  ci_rooms : ∀ id r, chat_rooms d !! id = Some r → r_ID r = id ∧ r_TenantID r ∈ c_tenants d;
  ci_members : NoDup ((λ m, (mb_room m, mb_user m)) <$> room_members d);
  ci_member_fk : Forall (λ m, is_Some (chat_rooms d !! mb_room m) ∧ is_Some (users d !! mb_user m))
                   (room_members d);
  ci_message_fk : Forall (λ m, is_Some (chat_rooms d !! m_RoomID m) ∧ is_Some (users d !! SenderID m))
                    (messages d);
  ci_reads : ∀ mid u r, message_reads d !! (mid, u) = Some r →
    mr_MessageID r = mid ∧ mr_UserID r = u
    ∧ ∃ m, m ∈ messages d ∧ m_ID m = mid ∧ m_TenantID m = mr_TenantID r ∧ m_RoomID m = mr_RoomID r;
}.

(** * Lemmas *)

Section chat_lemmas.
Context `{Postgres}.
Implicit Types d : ChatDB.

Lemma insert_member_inv env t r u d : chat_inv d → chat_inv (insert_member env t r u d).1.
Proof.
  intros [H1 H2 H3 H4 H5 H6]. unfold insert_member. case_decide as Hex; [done|].
  case_decide as Hfk; [done|]. split; cbn; try done.
  - rewrite fmap_app, NoDup_app. cbn. split; [done|]. split; [|apply NoDup_singleton].
    intros x Hx Hs. apply list_elem_of_singleton in Hs as ->.
    apply list_elem_of_fmap in Hx as (m & Heq & Hm). injection Heq as Ha Hb.
    apply Hex. apply Exists_exists. by exists m.
  - apply Forall_app. split; [done|]. apply Forall_singleton. cbn.
    split; apply not_eq_None_Some; tauto.
Qed.

Lemma insert_room_inv env t room d : chat_inv d → chat_inv (insert_room env t room d).1.
Proof.
  intros [H1 H2 H3 H4 H5 H6]. unfold insert_room. case_decide as Hfk; [done|]. case_decide as Hnew; [done|].
  assert (Hkeep : ∀ id, is_Some (chat_rooms d !! id) →
    is_Some (<[new_uuid env := mkChatRoom t (new_uuid env) (r_Name room) (RoomType room) (CreatedBy room) (NOW env)]>
      (chat_rooms d) !! id)).
  { intros id Hid. apply lookup_insert_is_Some'. by right. }
  split; cbn; try done.
  - intros id r [[<- <-]|[_ Hl]]%lookup_insert_Some; [|by apply H2].
    cbn. split; [done|]. apply dec_stable. tauto.
  - eapply Forall_impl; [exact H4|]. intros m [Ha Hb]. split; [by apply Hkeep|done].
  - eapply Forall_impl; [exact H5|]. intros m [Ha Hb]. split; [by apply Hkeep|done].
Qed.

Lemma create_room_inv (DBForTenant : string → result unit) env t room ids d :
  chat_inv d → chat_inv (repo_CreateRoom DBForTenant env t room ids d).1.
Proof.
  intros Hd. unfold repo_CreateRoom. destruct (DBForTenant _); [|done].
  match goal with |- chat_inv (transaction ?m d).1 =>
    destruct (transaction_spec m d) as [(d2' & out' & Hm & Heq')|(err' & Heq')]; rewrite Heq'; clear Heq' end;
    [|done]. cbn [fst]. revert Hm.
  pose proof (insert_room_inv env t room d Hd) as Hd1.
  destruct (insert_room env t room d) as [d1 [roomID|e]]; [|done]. cbn [fst] in Hd1.
  pose proof (for_each_inv chat_inv (insert_member env t roomID) ids d1) as Hd2.
  destruct (for_each (insert_member env t roomID) ids d1) as [d2 [[]|e]]; [|done]. cbn [fst] in Hd2.
  pose proof (insert_member_inv env t roomID (CreatedBy room) d2) as Hd3.
  destruct (insert_member env t roomID (CreatedBy room) d2) as [d3 [[]|e]]; [|done]. cbn [fst] in Hd3.
  intros [= <- _]. apply Hd3, Hd2; [|done]. intros u s _. apply insert_member_inv.
Qed.

Lemma create_message_inv (DBForTenant : string → result unit) env m d : chat_inv d → chat_inv (repo_CreateMessage DBForTenant env m d).1.
Proof.
  intros [H1 H2 H3 H4 H5 H6]. unfold repo_CreateMessage. destruct (DBForTenant _); [|done].
  case_match; [done|]. case_decide as Hfk; [done|]. case_decide as Hnew; [done|]. split; cbn; try done.
  - rewrite fmap_app, NoDup_app. cbn. split; [done|]. split; [|apply NoDup_singleton].
    intros x Hx Hs. apply list_elem_of_singleton in Hs as ->. done.
  - apply Forall_app. split; [done|]. apply Forall_singleton. cbn. split; apply not_eq_None_Some; tauto.
  - intros mid u r Hr. destruct (H6 mid u r Hr) as (Ha & Hb & x & Hx & Hrest).
    split; [done|]. split; [done|]. exists x. split; [|done]. apply elem_of_app. by left.
Qed.

(** *** Read marks *)

Lemma elem_of_room_messages t r d m :
  m ∈ room_messages t r d ↔ m_TenantID m = t ∧ m_RoomID m = r ∧ m ∈ messages d.
Proof. unfold room_messages. rewrite list_elem_of_filter. tauto. Qed.

Lemma message_id_inj d m1 m2 :
  chat_inv d → m1 ∈ messages d → m2 ∈ messages d → m_ID m1 = m_ID m2 → m1 = m2.
Proof. intros Hd. apply (key_inj_items m_ID (messages d)). apply Hd. Qed.

Lemma elem_of_read_targets t r id d m :
  chat_inv d →
  m ∈ read_targets t r id d ↔
  ∃ target, target ∈ room_messages t r d ∧ m_ID target = id ∧ m ∈ room_messages t r d ∧ not_after m target.
Proof.
  intros Hd. unfold read_targets. destruct (list_find _ _) as [[i target]|] eqn:E.
  - apply list_find_Some in E as (Hi & Hid & _). apply list_elem_of_lookup_2 in Hi.
    rewrite list_elem_of_filter. split; [naive_solver|].
    intros (target' & Ht' & Hid' & Hm & Hna). split; [|done].
    enough (target = target') as -> by done.
    apply elem_of_room_messages in Hi as (_ & _ & Hi). apply elem_of_room_messages in Ht' as (_ & _ & Ht').
    apply (message_id_inj d); congruence.
  - apply list_find_None in E. rewrite Forall_forall in E.
    split; [by intros ?%elem_of_nil|]. intros (target & Ht & Hid & _). by apply E in Ht.
Qed.

Lemma foldl_upsert_read now u d ms :
  chat_inv d → (∀ m, m ∈ ms → m ∈ messages d) →
  let reads' := foldl (upsert_read now u) (message_reads d) ms in
  (∀ m, m ∈ ms → reads' !! (m_ID m, u) = Some (mkMessageRead (m_TenantID m) (m_RoomID m) (m_ID m) u now))
  ∧ (∀ k, (k.2 ≠ u ∨ k.1 ∉ (m_ID <$> ms)) → reads' !! k = message_reads d !! k).
Proof.
  intros Hd Hms. cbv zeta.
  enough (Hg : ∀ reads, (∀ m r, m ∈ messages d → reads !! (m_ID m, u) = Some r →
      mr_TenantID r = m_TenantID m ∧ mr_RoomID r = m_RoomID m ∧ mr_MessageID r = m_ID m ∧ mr_UserID r = u) →
    (∀ m, m ∈ ms → foldl (upsert_read now u) reads ms !! (m_ID m, u)
                   = Some (mkMessageRead (m_TenantID m) (m_RoomID m) (m_ID m) u now))
    ∧ (∀ k, (k.2 ≠ u ∨ k.1 ∉ (m_ID <$> ms)) → foldl (upsert_read now u) reads ms !! k = reads !! k)).
  { apply Hg. intros m r Hm Hr. destruct (ci_reads d Hd _ _ _ Hr) as (Ha & Hb & m' & Hm' & Hid & <- & <-).
    assert (m = m') as <- by (apply (message_id_inj d); auto). done. }
  revert Hms. induction ms as [|m ms IH]; intros Hms reads Hok; cbn [foldl].
  { split; [by intros ? ?%elem_of_nil|done]. }
  assert (Hrow : upsert_read now u reads m
    = <[(m_ID m, u) := mkMessageRead (m_TenantID m) (m_RoomID m) (m_ID m) u now]> reads).
  { unfold upsert_read. destruct (reads !! (m_ID m, u)) as [old|] eqn:E; [|done].
    destruct (Hok m old) as (-> & -> & -> & ->); [apply Hms; by left|done|done]. }
  destruct (IH ltac:(intros; apply Hms; by right) (upsert_read now u reads m)) as [IH1 IH2].
  { rewrite Hrow. intros m' r Hm' [[[= Hid] <-]|[_ Hr]]%lookup_insert_Some; [|by apply Hok].
    rewrite (message_id_inj d m' m Hd); [done|done|apply Hms; by left|done]. }
  split.
  - intros m' Hin. destruct (decide (m' ∈ ms)) as [Hin'|Hnin]; [by apply IH1|].
    apply elem_of_cons in Hin as [->|?]; [|done].
    destruct (decide (m_ID m ∈ (m_ID <$> ms))) as [Hid|Hid].
    + apply list_elem_of_fmap in Hid as (m2 & Hid & Hm2).
      rewrite (message_id_inj d m m2 Hd) in Hnin; [done|apply Hms; by left|apply Hms; by right|done].
    + rewrite IH2 by (by right). rewrite Hrow. apply lookup_insert_eq.
  - intros [k1 k2] Hk. cbn in Hk. rewrite IH2 by (cbn; set_solver). rewrite Hrow.
    apply lookup_insert_ne. intros [= <- <-]. destruct Hk as [?|Hk]; [done|]. apply Hk. cbn. by left.
Qed.

Lemma read_targets_in t r id d m : m ∈ read_targets t r id d → m ∈ messages d.
Proof.
  unfold read_targets. destruct (list_find _ _) as [[i x]|]; [|by intros ?%elem_of_nil].
  rewrite list_elem_of_filter, elem_of_room_messages. tauto.
Qed.

Lemma mark_read_up_to_inv (DBForTenant : string → result unit) env t r u id d : chat_inv d → chat_inv (repo_MarkReadUpTo DBForTenant env t r u id d).1.
Proof.
  intros Hd. unfold repo_MarkReadUpTo. destruct (DBForTenant _); [|done]. cbv zeta.
  case_decide; [done|]. case_decide; [done|].
  destruct (foldl_upsert_read (NOW env) u d (read_targets t r id d) Hd (read_targets_in t r id d)) as [Hin Hout].
  destruct Hd as [Ci1 Ci2 Ci3 Ci4 Ci5 Ci6]. split; cbn; try done.
  intros mid u' row Hrow. destruct (decide (u' = u ∧ mid ∈ (m_ID <$> read_targets t r id d))) as [[-> Hmid]|Hno].
  - apply list_elem_of_fmap in Hmid as (m & -> & Hm). rewrite (Hin m Hm) in Hrow. injection Hrow as <-. cbn.
    split; [done|]. split; [done|]. exists m. split; [by eapply read_targets_in|done].
  - apply (Ci6 mid u'). rewrite <-Hrow. symmetry. apply Hout. cbn. destruct (decide (u' = u)); tauto.
Qed.

Lemma elem_of_my_reads t r u d row :
  chat_inv d →
  row ∈ my_reads t r u d ↔
  mr_TenantID row = t ∧ mr_RoomID row = r ∧ mr_UserID row = u
  ∧ message_reads d !! (mr_MessageID row, u) = Some row.
Proof.
  intros Hd. unfold my_reads, reads_of. rewrite list_elem_of_filter, list_elem_of_fmap. split.
  - intros ((Ht & Hr & Hu) & [[mid u'] row'] & -> & Hm%elem_of_map_to_list). cbn in *.
    destruct (ci_reads d Hd _ _ _ Hm) as (<- & <- & _). by rewrite <-Hu.
  - intros (Ht & Hr & Hu & Hl). split; [done|]. exists ((mr_MessageID row, u), row).
    split; [done|]. by apply elem_of_map_to_list.
Qed.

Lemma last_read_at_ge t r u d row : row ∈ my_reads t r u d → (ReadAt row ≤ last_read_at t r u d)%Z.
Proof.
  intros Hrow. unfold last_read_at.
  apply (list_elem_of_fmap_2 ReadAt) in Hrow. destruct (ReadAt <$> my_reads t r u d) as [|t0 ts]; [by apply elem_of_nil in Hrow|].
  assert (Hmax : ∀ ts t0, (t0 ≤ foldl Z.max t0 ts)%Z ∧ ∀ x, x ∈ ts → (x ≤ foldl Z.max t0 ts)%Z).
  { clear. induction ts as [|y ts IH]; intros t0; cbn; [split; [lia|by intros ? ?%elem_of_nil]|].
    destruct (IH (Z.max t0 y)) as [Ha Hb]. split; [lia|].
    intros x [->|Hx]%elem_of_cons; [lia|by apply Hb]. }
  destruct (Hmax ts t0) as [Ha Hb]. apply elem_of_cons in Hrow as [->|Hrow]; [done|by apply Hb].
Qed.
End chat_lemmas.

(** ** Members *)

Section member_lemmas.
Context `{Postgres}.
Implicit Types d : ChatDB.

(** The members a tenant sees in a room. *)
Definition is_member (t r u : string) (d : ChatDB) : Prop :=
  ∃ m, m ∈ room_members d ∧ mb_tenant m = t ∧ mb_room m = r ∧ mb_user m = u.

Lemma IsRoomMember_spec (DBForTenant : string → result unit) t r u d :
  DBForTenant t = Ok tt →
  ∃ b, repo_IsRoomMember DBForTenant t r u d = (d, Ok b) ∧ (b = true ↔ is_member t r u d).
Proof.
  intros Hdb. unfold repo_IsRoomMember. rewrite Hdb. eexists. split; [done|].
  by rewrite bool_decide_eq_true, Exists_exists.
Qed.

(** Rows of one room that all belong to one tenant: what a new room starts from. *)
Definition room_of_tenant (t r : string) d : Prop :=
  ∀ m, m ∈ room_members d → mb_room m = r → mb_tenant m = t.

Lemma insert_member_spec env t r u d d' :
  room_of_tenant t r d → insert_member env t r u d = (d', Ok tt) →
  room_of_tenant t r d' ∧ (∀ v, is_member t r v d' ↔ v = u ∨ is_member t r v d).
Proof.
  intros Hr. unfold insert_member. case_decide as Hex.
  - intros [= <-]. split; [done|]. intros v. split; [by right|]. intros [->|?]; [|done].
    apply Exists_exists in Hex as (m & Hm & Ha & Hb). exists m. repeat split; auto.
  - case_decide; [done|]. intros [= <-]. split.
    + intros m. cbn. intros [Hm|Hm%list_elem_of_singleton]%elem_of_app; [by apply Hr|]. by subst.
    + intros v. unfold is_member. cbn. setoid_rewrite elem_of_app. setoid_rewrite list_elem_of_singleton.
      split.
      * intros (m & [Hm|Hm] & Ha & Hb & Hc); [right; eauto|left; by subst].
      * intros [->|(m & Hm & Hrest)]; [|exists m; by split; [left|]].
        exists (mkMemberRow t r u (NOW env)). by split; [right|].
Qed.

Lemma insert_members_spec env t r us d d' :
  room_of_tenant t r d → for_each (insert_member env t r) us d = (d', Ok tt) →
  room_of_tenant t r d' ∧ (∀ v, is_member t r v d' ↔ v ∈ us ∨ is_member t r v d).
Proof.
  revert d. induction us as [|u us IH]; intros d Hr; cbn [for_each].
  - intros [= <-]. split; [done|]. intros v. rewrite elem_of_nil. tauto.
  - destruct (insert_member env t r u d) as [d1 [[]|e]] eqn:E; [|done]. intros Hrest.
    destruct (insert_member_spec env t r u d d1 Hr E) as [Hr1 H1].
    destruct (IH d1 Hr1 Hrest) as [Hr2 H2]. split; [done|].
    intros v. rewrite H2, H1, elem_of_cons. tauto.
Qed.
End member_lemmas.

(** ** The order of read marks *)

Section read_order.
Context `{Postgres}.

Local Instance read_later_trans : Transitive read_later.
Proof.
  intros x y z [Hxy|[Hxy Hxy']] [Hyz|[Hyz Hyz']]; unfold read_later; try (left; lia).
  right. split; [congruence|]. by etrans.
Qed.

Local Instance read_later_total : Total read_later.
Proof.
  intros x y. unfold read_later. destruct (Z.lt_trichotomy (ReadAt x) (ReadAt y)) as [|[Heq|]]; auto.
  destruct (total text_le (mr_MessageID x) (mr_MessageID y)); auto.
Qed.

Lemma merge_sort_head (l : list MessageRead) r rest :
  merge_sort read_later l = r :: rest → r ∈ l ∧ ∀ y, y ∈ l → y = r ∨ read_later r y.
Proof.
  intros Hs. pose proof (merge_sort_Permutation read_later l) as Hp.
  pose proof (StronglySorted_merge_sort read_later l) as Hss. rewrite Hs in Hp, Hss.
  split; [rewrite <-Hp; by left|]. intros y Hy. rewrite <-Hp in Hy.
  apply elem_of_cons in Hy as [->|Hy]; [by left|right].
  inversion Hss as [|? ? ? Hall]; subst. rewrite Forall_forall in Hall. by apply Hall.
Qed.
End read_order.

(** * Properties *)

(** C25: The chat tables keep their invariant.  Any sequence of room creations, member additions,
    messages and read marks, succeeding or failing, keeps message identifiers unique, rooms under
    their own identifier and in an existing tenant, one row per room and member, every member and
    sender an existing user in an existing room, and every read mark under its message and reader,
    in the tenant and room of that message. *)
Theorem chat_store_invariant `{Postgres} DB (cs : list chat_call) (d : ChatDB) :
  chat_inv d → chat_inv (run_chat_calls DB cs d).
Proof.
  revert d. induction cs as [|c cs IH]; intros d Hd; [done|]. apply (IH (run_chat_call DB c d)).
  destruct c; cbn [run_chat_call].
  - by apply create_room_inv.
  - unfold repo_AddMember. destruct (DB _); [by apply insert_member_inv|done].
  - by apply create_message_inv.
  - by apply mark_read_up_to_inv.
Qed.

(** What a read mark marks.  A read mark succeeds only for a message of the room; it then records,
    for that user and at that moment, exactly the messages of the room that are not after the
    marked one (by creation time, then identifier), and leaves every other mark as it was. *)
Theorem mark_read_covers `{Postgres} DB (env : Env) (t r u id : string) (d d' : ChatDB) :
  chat_inv d → repo_MarkReadUpTo DB env t r u id d = (d', Ok tt) →
  ∃ target, target ∈ room_messages t r d ∧ m_ID target = id
    ∧ messages d' = messages d
    ∧ (∀ m, m ∈ room_messages t r d → not_after m target →
         message_reads d' !! (m_ID m, u) = Some (mkMessageRead t r (m_ID m) u (NOW env)))
    ∧ (∀ mid v, (v ≠ u ∨ ∀ m, m ∈ room_messages t r d → not_after m target → m_ID m ≠ mid) →
         message_reads d' !! (mid, v) = message_reads d !! (mid, v)).
Proof.
  intros Hd. unfold repo_MarkReadUpTo. destruct (DB t); [|done]. cbv zeta.
  case_decide as Hne; [done|]. case_decide; [done|]. intros [= <-].
  destruct (foldl_upsert_read (NOW env) u d (read_targets t r id d) Hd (read_targets_in t r id d)) as [Hin Hout].
  destruct (read_targets t r id d) as [|m0 ms] eqn:E; [done|]. rewrite <-E in *.
  assert (Hm0 : m0 ∈ read_targets t r id d) by (rewrite E; by left).
  apply elem_of_read_targets in Hm0 as (target & Ht & Hid & _); [|done].
  exists target. split; [done|]. split; [done|]. split; [done|]. split.
  - intros m Hm Hna. cbn. rewrite (Hin m).
    + by apply elem_of_room_messages in Hm as (-> & -> & _).
    + apply elem_of_read_targets; [done|]. eauto.
  - intros mid v Hno. cbn. apply Hout. cbn. destruct Hno as [?|Hno]; [by left|right].
    intros (m & -> & (target' & Ht' & Hid' & Hm & Hna)%elem_of_read_targets)%list_elem_of_fmap; [|done].
    apply (Hno m Hm); [|done].
    enough (target = target') as -> by done.
    apply elem_of_room_messages in Ht as (_ & _ & Ht). apply elem_of_room_messages in Ht' as (_ & _ & Ht').
    apply (message_id_inj d); congruence.
Qed.

(** Marking an old message clears the unread count.  After any successful read mark in a room whose
    messages were all created by then, the user's unread count of the room is zero: the count
    compares creation times with the moment of the last mark, so the messages after the marked
    one, which the mark does not cover, are not counted either. *)
Theorem mark_read_clears_unread `{Postgres} DB (env : Env) (t r u id : string) (d d' : ChatDB) :
  chat_inv d → repo_MarkReadUpTo DB env t r u id d = (d', Ok tt) →
  (∀ m, m ∈ room_messages t r d → (m_CreatedAt m ≤ NOW env)%Z) →
  repo_GetUnreadCount DB t r u d' = (d', Ok 0).
Proof.
  intros Hd Hmark Hold.
  pose proof (mark_read_up_to_inv DB env t r u id d Hd) as Hd'. rewrite Hmark in Hd'. cbn [fst] in Hd'.
  assert (Hdb : DB t = Ok tt) by (unfold repo_MarkReadUpTo in Hmark; by destruct (DB t) as [[]|]).
  assert (Hrow : ∃ row, row ∈ my_reads t r u d' ∧ ReadAt row = NOW env ∧ messages d' = messages d).
  { revert Hmark. unfold repo_MarkReadUpTo. rewrite Hdb. cbv zeta. case_decide as Hne; [done|].
    case_decide; [done|]. intros [= <-].
    destruct (foldl_upsert_read (NOW env) u d (read_targets t r id d) Hd (read_targets_in t r id d)) as [Hin _].
    destruct (read_targets t r id d) as [|m ms] eqn:E; [done|]. rewrite <-E in *.
    assert (Hm : m ∈ read_targets t r id d) by (rewrite E; by left).
    exists (mkMessageRead (m_TenantID m) (m_RoomID m) (m_ID m) u (NOW env)).
    split; [|done]. apply elem_of_my_reads; [done|].
    cbn [mr_TenantID mr_RoomID mr_UserID mr_MessageID].
    apply elem_of_read_targets in Hm as (target & _ & _ & Hm & _); [|done].
    apply elem_of_room_messages in Hm as (Hmt & Hmr & _).
    split_and!; [exact Hmt|exact Hmr|reflexivity|]. cbn. apply Hin. rewrite E. by left. }
  destruct Hrow as (row & Hrow & Hat & Hmsgs). apply last_read_at_ge in Hrow.
  unfold repo_GetUnreadCount. rewrite Hdb. do 2 f_equal. unfold unread_count.
  rewrite filter_none_elem; [done|]. intros m Hm [_ Hlt].
  assert (Hm' : m ∈ room_messages t r d) by (unfold room_messages in *; by rewrite <-Hmsgs).
  specialize (Hold m Hm'). lia.
Qed.

(** The last-read message is the largest identifier, not the marked message.  When a read mark is
    later than the user's earlier marks in the room, the last-read message reported afterwards is,
    among the messages the mark covers, the one whose identifier is greatest as text, whatever
    message was marked and whenever the messages were written. *)
Theorem last_read_is_largest_id `{Postgres} DB (env : Env) (t r u id : string) (d d' : ChatDB) :
  chat_inv d → repo_MarkReadUpTo DB env t r u id d = (d', Ok tt) →
  (∀ row, row ∈ my_reads t r u d → (ReadAt row < NOW env)%Z) →
  ∃ x, repo_GetLastReadMessageID DB t r u d' = (d', Ok (m_ID x))
       ∧ x ∈ read_targets t r id d ∧ ∀ m, m ∈ read_targets t r id d → text_le (m_ID m) (m_ID x).
Proof.
  intros Hd Hmark Hold.
  pose proof (mark_read_up_to_inv DB env t r u id d Hd) as Hd'. rewrite Hmark in Hd'. cbn [fst] in Hd'.
  revert Hmark. unfold repo_MarkReadUpTo, repo_GetLastReadMessageID. destruct (DB t) as [[]|]; [|done]. cbv zeta.
  case_decide as Hne; [done|]. case_decide; [done|]. intros [= <-].
  destruct (foldl_upsert_read (NOW env) u d (read_targets t r id d) Hd (read_targets_in t r id d)) as [Hin Hout].
  set (ts := read_targets t r id d) in *. set (d1 := set_message_reads _ d) in *.
  assert (Htr : ∀ m, m ∈ ts → m_TenantID m = t ∧ m_RoomID m = r).
  { intros m (target & _ & _ & Hm & _)%elem_of_read_targets; [|done]. by apply elem_of_room_messages in Hm as (? & ? & _). }
  assert (Hnew : ∀ m, m ∈ ts → mkMessageRead t r (m_ID m) u (NOW env) ∈ my_reads t r u d1).
  { intros m Hm. destruct (Htr m Hm) as [Ha Hb]. apply elem_of_my_reads; [done|]. cbn.
    split_and!; [done..|]. rewrite (Hin m Hm). by rewrite Ha, Hb. }
  assert (Hin1 : ∀ m, m ∈ ts → message_reads d1 !! (m_ID m, u)
            = Some (mkMessageRead (m_TenantID m) (m_RoomID m) (m_ID m) u (NOW env))) by exact Hin.
  assert (Hout1 : ∀ k, (k.2 ≠ u ∨ k.1 ∉ (m_ID <$> ts)) → message_reads d1 !! k = message_reads d !! k)
    by exact Hout.
  assert (∃ m0, m0 ∈ ts) as [m0 Hm0].
  { destruct ts as [|m0 ms] eqn:Ets; [done|]. exists m0. by left. }
  destruct (merge_sort read_later (my_reads t r u d1)) as [|row rest] eqn:Es.
  { pose proof (merge_sort_Permutation read_later (my_reads t r u d1)) as Hp. rewrite Es in Hp.
    specialize (Hnew m0 Hm0). rewrite <-Hp in Hnew. by apply elem_of_nil in Hnew. }
  destruct (merge_sort_head _ _ _ Es) as [Hrow Hhead].
  apply elem_of_my_reads in Hrow as (Hrt & Hrr & Hru & Hrl); [|done].
  assert (Hat : ReadAt row = NOW env ∧ mr_MessageID row ∈ (m_ID <$> ts)).
  { destruct (decide (mr_MessageID row ∈ (m_ID <$> ts))) as [Hid|Hid].
    - split; [|done]. apply list_elem_of_fmap in Hid as (m & Hm & Hmt).
      rewrite Hm, (Hin1 m Hmt) in Hrl. by injection Hrl as <-.
    - exfalso. rewrite Hout1 in Hrl by (by right).
      assert (Hlt : (ReadAt row < NOW env)%Z) by (apply Hold, elem_of_my_reads; done).
      destruct (Hhead _ (Hnew m0 Hm0)) as [<-|[Hlt2|[Heq _]]]; cbn in *; lia. }
  destruct Hat as [Hat Hid]. apply list_elem_of_fmap in Hid as (x & Hx & Hxt).
  exists x. rewrite Hx. split; [done|]. split; [done|]. intros m Hm. rewrite <-Hx.
  destruct (Hhead _ (Hnew m Hm)) as [<-|[Hlt|[_ Hle]]]; cbn in *; [reflexivity|lia|done].
Qed.

(** Creating a room.  When CreateRoom succeeds, the new room's members, as its tenant sees them, are
    exactly the creator and the users named; when it fails, nothing changes. *)
Theorem create_room_members `{Postgres} DB (env : Env) (t : string) (room : ChatRoom)
    (ids : list string) (d : ChatDB) :
  chat_inv d →
  match repo_CreateRoom DB env t room ids d with
  | (d', Err _) => d' = d
  | (d', Ok id) =>
      id = new_uuid env
      ∧ ∀ u, ∃ b, repo_IsRoomMember DB t id u d' = (d', Ok b) ∧ (b = true ↔ u = CreatedBy room ∨ u ∈ ids)
  end.
Proof.
  intros Hd. unfold repo_CreateRoom. destruct (DB t) as [[]|] eqn:Hdb; [|done].
  unfold transaction. unfold insert_room. case_decide; [done|]. case_decide as Hnew; [done|].
  set (d1 := set_chat_rooms _ d).
  assert (Hfree : ∀ m, m ∈ room_members d1 → mb_room m ≠ new_uuid env).
  { intros m Hm Heq. pose proof (ci_member_fk d Hd) as Hfk. rewrite Forall_forall in Hfk.
    destruct (Hfk m Hm) as [Hs _]. rewrite Heq in Hs. done. }
  destruct (for_each (insert_member env t (new_uuid env)) ids d1) as [d2 [[]|e]] eqn:E2; [|done].
  destruct (insert_members_spec env t (new_uuid env) ids d1 d2) as [Hr2 H2]; [|done|].
  { intros m Hm Heq. by apply Hfree in Hm. }
  destruct (insert_member env t (new_uuid env) (CreatedBy room) d2) as [d3 [[]|e]] eqn:E3; [|done].
  destruct (insert_member_spec env t _ _ _ _ Hr2 E3) as [_ H3].
  split; [done|]. intros u. destruct (IsRoomMember_spec DB t (new_uuid env) u d3 Hdb) as (b & Hb & Hiff).
  exists b. split; [done|]. rewrite Hiff, H3, H2.
  assert (¬ is_member t (new_uuid env) u d1) by (intros (m & Hm & _ & Heq & _); by apply Hfree in Hm).
  tauto.
Qed.

(** A membership row of another tenant blocks the room's own.  The key of room_members is (room_id,
    user_id) without the tenant, and AddMember checks neither the tenant of the room nor that of
    the user.  So a request of tenant b for a room of tenant a succeeds, and from then on tenant a's
    own AddMember for that user also reports success, while the user stays outside the room. *)
Theorem foreign_member_blocks_own `{Postgres} DB (e1 e2 : Env) (a b r u : string) (d : ChatDB) :
  DB a = Ok tt → DB b = Ok tt → a ≠ b → b ∈ c_tenants d →
  is_Some (chat_rooms d !! r) → is_Some (users d !! u) → ¬ room_member_exists r u d →
  let d1 := (repo_AddMember DB e1 b r u d).1 in
  (repo_AddMember DB e1 b r u d).2 = Ok tt
  ∧ repo_AddMember DB e2 a r u d1 = (d1, Ok tt)
  ∧ repo_IsRoomMember DB a r u d1 = (d1, Ok false).
Proof.
  intros Ha Hb Hne Ht [room Hr] [user Hu] Hno. cbv zeta. unfold repo_AddMember. rewrite Hb, Ha.
  assert (Hins : insert_member e1 b r u d
    = (set_room_members (room_members d ++ [mkMemberRow b r u (NOW e1)]) d, Ok tt)).
  { unfold insert_member. rewrite decide_False by done. rewrite decide_False; [done|].
    rewrite Hr, Hu. intros [?|[?|?]]; done. }
  rewrite Hins. cbn [fst snd]. set (d1 := set_room_members _ d). split; [done|]. split.
  - unfold insert_member. rewrite decide_True; [done|]. apply Exists_app. right. apply Exists_cons. by left.
  - destruct (IsRoomMember_spec DB a r u d1 Ha) as (x & -> & Hx). do 2 f_equal. destruct x; [|done].
    destruct (proj1 Hx eq_refl) as (m & Hm & Hmt & Hmr & Hmu). exfalso.
    unfold d1 in Hm. cbn in Hm. apply elem_of_app in Hm as [Hm|Hm%list_elem_of_singleton].
    + apply Hno. apply Exists_exists. exists m. done.
    + subst m. done.
Qed.

(** * Concrete runs *)

(** JSON as PostgreSQL writes it: with a space behind a colon and a comma. *)
Fixpoint spaced (s : string) : string :=
  match s with
  | EmptyString => EmptyString
  | String a s' =>
      if decide (a = ":"%char ∨ a = ","%char) then String a (String " "%char (spaced s')) else String a (spaced s')
  end.

(** A PostgreSQL for concrete runs: bytewise collation, substring search, no JSON inspection. *)
Definition demo_pg : Postgres := {|
  pg_text := byte_order;
  text_match body q := Contains body q;
  mention_matches _ := [];
  pg_lower := ToLower;
  json_valid _ := true;
  jsonb := spaced;
  json_file_id _ := "";
  json_has_file_ids _ := false;
  json_has_emojis _ := false;
|}.

#[local] Existing Instance demo_pg.

Definition demo_user (t id : string) : User := mkUser t id "o" id id "" "user" "online" "" "" 0 0.

Definition demo_chat : ChatDB :=
  mkChatDB {["a"; "b"]} (<["u" := demo_user "a" "u"]> {["v" := demo_user "b" "v"]}) []
    {["r" := mkChatRoom "a" "r" "room" "group" "u" 0]} []
    [mkMessage "a" "m2" "r" "v" "first" "{}" 10; mkMessage "a" "m1" "r" "v" "second" "{}" 20] ∅.

Lemma demo_chat_inv : chat_inv demo_chat.
Proof.
  split; cbn.
  - repeat constructor; set_solver.
  - intros id r Hl. apply lookup_singleton_Some in Hl as [<- <-]. cbn. split; [done|set_solver].
  - constructor.
  - constructor.
  - repeat constructor; cbn; eauto.
  - intros *. by rewrite lookup_empty.
Qed.

Lemma chat_store_invariant_witness :
  chat_inv (run_chat_calls (λ _, Ok tt)
    [CallAddMember (mkEnv 30 "") "a" "r" "u"; CallMarkReadUpTo (mkEnv 40 "") "a" "r" "u" "m2";
     CallCreateMessage (mkEnv 50 "m3") (mkMessage "a" "" "r" "u" "hi" "{}" 0)] demo_chat).
Proof.
  apply (chat_store_invariant (λ _, Ok tt)
    [CallAddMember (mkEnv 30 "") "a" "r" "u"; CallMarkReadUpTo (mkEnv 40 "") "a" "r" "u" "m2";
     CallCreateMessage (mkEnv 50 "m3") (mkMessage "a" "" "r" "u" "hi" "{}" 0)] demo_chat).
  apply demo_chat_inv.
Defined.

Lemma mark_read_covers_witness :
  ∃ target, target ∈ room_messages "a" "r" demo_chat ∧ m_ID target = "m2".
Proof.
  destruct (mark_read_covers (λ _, Ok tt) (mkEnv 40 "") "a" "r" "u" "m2" demo_chat
    (repo_MarkReadUpTo (λ _, Ok tt) (mkEnv 40 "") "a" "r" "u" "m2" demo_chat).1 demo_chat_inv)
    as (target & H1 & H2 & _).
  - vm_compute. reflexivity.
  - exists target. split; assumption.
Defined.

(** In the witness, m2 is the older of two messages; m1 stays unread and uncounted. *)
Lemma mark_read_clears_unread_witness :
  let d' := (repo_MarkReadUpTo (λ _, Ok tt) (mkEnv 40 "") "a" "r" "u" "m2" demo_chat).1 in
  repo_GetUnreadCount (λ _, Ok tt) "a" "r" "u" d' = (d', Ok 0) ∧ message_reads d' !! ("m1", "u") = None.
Proof.
  split; [|vm_compute; reflexivity].
  apply (mark_read_clears_unread (λ _, Ok tt) (mkEnv 40 "") "a" "r" "u" "m2" demo_chat
    (repo_MarkReadUpTo (λ _, Ok tt) (mkEnv 40 "") "a" "r" "u" "m2" demo_chat).1 demo_chat_inv).
  - vm_compute. reflexivity.
  - intros m (_ & _ & Hm)%elem_of_room_messages. cbn in Hm.
    apply elem_of_cons in Hm as [->|Hm]; [cbn; lia|].
    apply elem_of_cons in Hm as [->|Hm]; [cbn; lia|by apply elem_of_nil in Hm].
Defined.

(** In the witness, m1 is written and marked last, yet m2 is reported. *)
Lemma last_read_is_largest_id_witness :
  ∃ x, repo_GetLastReadMessageID (λ _, Ok tt) "a" "r" "u"
         (repo_MarkReadUpTo (λ _, Ok tt) (mkEnv 40 "") "a" "r" "u" "m1" demo_chat).1
       = ((repo_MarkReadUpTo (λ _, Ok tt) (mkEnv 40 "") "a" "r" "u" "m1" demo_chat).1, Ok (m_ID x))
       ∧ m_ID x = "m2".
Proof.
  destruct (last_read_is_largest_id (λ _, Ok tt) (mkEnv 40 "") "a" "r" "u" "m1" demo_chat
    (repo_MarkReadUpTo (λ _, Ok tt) (mkEnv 40 "") "a" "r" "u" "m1" demo_chat).1 demo_chat_inv)
    as (x & H1 & _ & _).
  - vm_compute. reflexivity.
  - intros row Hrow. apply elem_of_my_reads in Hrow as (_ & _ & _ & Hl); [|apply demo_chat_inv].
    cbn in Hl. by rewrite lookup_empty in Hl.
  - exists x. split; [exact H1|].
    assert (Hs : (repo_GetLastReadMessageID (λ _, Ok tt) "a" "r" "u"
              (repo_MarkReadUpTo (λ _, Ok tt) (mkEnv 40 "") "a" "r" "u" "m1" demo_chat).1).2 = Ok "m2")
      by (vm_compute; reflexivity).
    rewrite H1 in Hs. cbn [snd] in Hs. injection Hs as Hs. exact Hs.
Defined.

Lemma create_room_members_witness :
  match repo_CreateRoom (λ _, Ok tt) (mkEnv 50 "r2") "a" (mkChatRoom "" "" "n" "group" "u" 0) ["v"] demo_chat with
  | (d', Err _) => d' = demo_chat
  | (d', Ok id) =>
      id = "r2" ∧ ∀ w, ∃ b, repo_IsRoomMember (λ _, Ok tt) "a" id w d' = (d', Ok b) ∧ (b = true ↔ w = "u" ∨ w ∈ ["v"])
  end.
Proof.
  apply (create_room_members (λ _, Ok tt) (mkEnv 50 "r2") "a" (mkChatRoom "" "" "n" "group" "u" 0) ["v"] demo_chat).
  apply demo_chat_inv.
Defined.

Lemma foreign_member_blocks_own_witness :
  let d1 := (repo_AddMember (λ _, Ok tt) (mkEnv 30 "") "b" "r" "v" demo_chat).1 in
  (repo_AddMember (λ _, Ok tt) (mkEnv 30 "") "b" "r" "v" demo_chat).2 = Ok tt
  ∧ repo_AddMember (λ _, Ok tt) (mkEnv 31 "") "a" "r" "v" d1 = (d1, Ok tt)
  ∧ repo_IsRoomMember (λ _, Ok tt) "a" "r" "v" d1 = (d1, Ok false).
Proof.
  apply (foreign_member_blocks_own (λ _, Ok tt) (mkEnv 30 "") (mkEnv 31 "") "a" "b" "r" "v" demo_chat);
    try reflexivity; try discriminate.
  - vm_compute. eauto.
  - vm_compute. eauto.
  - unfold room_member_exists. cbn. intros H. inversion H.
Defined.
