(* ===== verification/GoJson.v ===== *)
(** * JSON encoding

    [json.Marshal] of the Go standard library on the values the services build: null, booleans,
    integers, strings, slices and maps with string keys (written in the order of their keys).
    A number that is not a plain integer is kept as the text it was read from.
    Strings are escaped as the library does: quotes, backslashes, control characters, the HTML
    characters, U+2028 and U+2029, and the replacement character for bytes that are not UTF-8. *)

From S2P Require Import Prelude GoStrings GoEncoding Paging.

Inductive json :=
| JNull
| JBool (b : bool)
| JNum (z : Z)
| JReal (literal : string)
| JStr (s : string)
| JList (l : list json)
| JObj (fields : list (string * json)).

Definition hex1 (n : Z) : ascii := byte_of (if (n <? 10)%Z then 48 + n else 87 + n).

Definition backslash : ascii := byte_of 92.

(** A backslash, u and four hexadecimal digits. *)
Definition escape_u (r : Z) : string :=
  String backslash (String "u"%char (String (hex1 (r / 4096)) (String (hex1 (r / 256 mod 16))
    (String (hex1 (r / 16 mod 16)) (String (hex1 (r mod 16)) EmptyString))))).

Definition escape_c (c : ascii) : string := String backslash (String c EmptyString).

Definition quote : ascii := byte_of 34.

Definition escape_rune (r : Z) : string :=
  if (r =? 34)%Z then escape_c quote
  else if (r =? 92)%Z then escape_c backslash
  else if (r =? 8)%Z then escape_c "b"
  else if (r =? 12)%Z then escape_c "f"
  else if (r =? 10)%Z then escape_c "n"
  else if (r =? 13)%Z then escape_c "r"
  else if (r =? 9)%Z then escape_c "t"
  else if (r <? 32)%Z || (r =? 60)%Z || (r =? 62)%Z || (r =? 38)%Z then escape_u r
  else if (r =? 8232)%Z || (r =? 8233)%Z then escape_u r
  else encode_rune r.

(** Bytes that are not UTF-8 decode to one replacement character each; the library writes that
    as an escape, and a genuine U+FFFD as its three bytes. *)
Fixpoint escape_steps (n : nat) (s : string) : string :=
  match n, s with
  | S n', String a s' =>
      let '(r, rest) := decode_rune a s' in
      let bad := (r =? rune_error)%Z && Nat.eqb (strlen rest) (strlen s') in
      (if bad then escape_u rune_error else escape_rune r) +:+ escape_steps n' rest
  | _, _ => EmptyString
  end.

Definition json_string (s : string) : string :=
  String quote (escape_steps (strlen s) s +:+ String quote EmptyString).

Definition comma_join (l : list string) : string :=
  match l with
  | [] => ""
  | x :: rest => x +:+ foldr (λ y acc, "," +:+ y +:+ acc) "" rest
  end.

Fixpoint marshal_json (v : json) : string :=
  match v with
  | JNull => "null"
  | JBool b => if b then "true" else "false"
  | JNum z => FormatInt z
  | JReal literal => literal
  | JStr s => json_string s
  | JList l => "[" +:+ comma_join (map marshal_json l) +:+ "]"
  | JObj fields =>
      "{" +:+ comma_join (map (λ '(k, w), json_string k +:+ ":" +:+ marshal_json w) fields) +:+ "}"
  end.

Example marshal_json_ex :
  marshal_json (JObj [("a", JList [JStr "<b>"; JNull]); ("n", JNum (-3))])
  = String "{" (json_string "a" +:+ ":[" +:+ String quote (escape_u 60 +:+ "b" +:+ escape_u 62 +:+ String quote ",null],")
      +:+ json_string "n" +:+ ":-3}").
Proof. vm_compute. reflexivity. Qed.

(** ** Decoding

    [json.Unmarshal] on the value a text denotes.  Decoding into [any] keeps the last of the
    members with the same key and forgets their order; writing it back sorts them. *)

#[local] Instance byte_le_dec : RelDecision byte_le.
Proof. intros s t. unfold byte_le, byte_lt. apply _. Defined.

Fixpoint last_members {A} (fields : list (string * A)) : list (string * A) :=
  match fields with
  | [] => []
  | (k, v) :: rest => if decide (k ∈ rest.*1) then last_members rest else (k, v) :: last_members rest
  end.

Definition by_key {A} (x y : string * A) : Prop := byte_le x.1 y.1.

#[export] Instance by_key_dec {A} : RelDecision (by_key (A := A)).
Proof. intros x y. unfold by_key. apply _. Defined.

Fixpoint any_of_json (v : json) : json :=
  match v with
  | JList l => JList (map any_of_json l)
  | JObj fields => JObj (merge_sort by_key (last_members (map (λ '(k, w), (k, any_of_json w)) fields)))
  | _ => v
  end.

(** Field names are matched exactly, or else up to case.  Only the letters, U+017F and U+212A have
    case variants among the letters the tags use. *)
Definition fold_rune (r : Z) : Z :=
  if (97 <=? r)%Z && (r <=? 122)%Z then r - 32
  else if (r =? 383)%Z then 83 else if (r =? 8490)%Z then 75 else r.

Definition fold_name (s : string) : list Z := fold_rune <$> runes s.

Definition field_name (names : list string) (k : string) : option string :=
  if decide (k ∈ names) then Some k
  else head (filter (λ n, fold_name n = fold_name k) names).

(** The members of an object in order, each set on the field it names; [None] is a type error. *)
Definition decode_struct {R} (names : list string) (set : string → json → R → option R) (zero : R)
    (v : json) : option R :=
  match v with
  | JNull => Some zero
  | JObj fields =>
      foldl (λ acc '(k, w),
        match acc, field_name names k with
        | Some r, Some n => set n w r
        | _, _ => acc
        end) (Some zero) fields
  | _ => None
  end.

(** A string field, a pointer to a string, and a slice of strings whose old elements a null keeps. *)
Definition decode_string (old : string) (v : json) : option string :=
  match v with JStr s => Some s | JNull => Some old | _ => None end.

Definition decode_string_ptr (v : json) : option (option string) :=
  match v with JStr s => Some (Some s) | JNull => Some None | _ => None end.

Fixpoint decode_elements (old : list string) (l : list json) : option (list string) :=
  match l with
  | [] => Some []
  | v :: rest =>
      match decode_string (hd "" old) v, decode_elements (tl old) rest with
      | Some s, Some ss => Some (s :: ss)
      | _, _ => None
      end
  end.

Definition decode_strings (old : option (list string)) (v : json) : option (option (list string)) :=
  match v with
  | JNull => Some None
  | JList l => Some <$> decode_elements (default [] old) l
  | _ => None
  end.

Example any_of_json_ex :
  any_of_json (JObj [("b", JNum 1); ("a", JNull); ("b", JStr "x")]) = JObj [("a", JNull); ("b", JStr "x")].
Proof. vm_compute. reflexivity. Qed.

Example field_name_ex : field_name ["user_id"; "type"] "USER_ID" = Some "user_id".
Proof. vm_compute. reflexivity. Qed.
