(* ===== verification/JsonText.v ===== *)
(** * JSON texts

    The reading half of [encoding/json]: the value at the start of a text, as [json.Decoder]
    and [json.Unmarshal] find it, with UTF-8 and the escapes of strings.  The theorem at the
    end is the contract between the services' clients and dbman's handlers: what one side
    marshals, the other reads back. *)

From S2P Require Import Prelude GoStrings GoEncoding Cursor Paging GoJson.
From Stdlib Require Import DecimalString DecimalZ DecimalPos DecimalN DecimalFacts.

(** ** Runes *)

(** The Unicode scalar values: no surrogates. *)
Definition is_rune (r : Z) : bool :=
  ((0 <=? r) && (r <? 55296) || (57344 <=? r) && (r <? 1114112))%Z.

(** The decoder gave up on one byte. *)
Definition bad_rune (r : Z) (rest s : string) : bool :=
  (r =? rune_error)%Z && Nat.eqb (strlen rest) (strlen s).

Fixpoint utf8_steps (n : nat) (s : string) : bool :=
  match n, s with
  | S n', String a s' =>
      let '(r, rest) := decode_rune a s' in negb (bad_rune r rest s') && utf8_steps n' rest
  | _, EmptyString => true
  | O, _ => false
  end.

(** [utf8.ValidString] *)
Definition utf8 (s : string) : bool := utf8_steps (strlen s) s.

(** ** Strings *)

Definition hex_value (a : ascii) : option Z :=
  let c := code a in
  if ((48 <=? c) && (c <=? 57))%Z then Some (c - 48)%Z
  else if ((97 <=? c) && (c <=? 102))%Z then Some (c - 87)%Z
  else if ((65 <=? c) && (c <=? 70))%Z then Some (c - 55)%Z
  else None.

Definition hex4 (s : string) : option (Z * string) :=
  match s with
  | String a (String b (String c (String d rest))) =>
      x ← hex_value a; y ← hex_value b; z ← hex_value c; w ← hex_value d;
      Some (x * 4096 + y * 256 + z * 16 + w, rest)%Z
  | _ => None
  end.

Definition in_range (lo hi r : Z) : bool := ((lo <=? r) && (r <? hi))%Z.

(** A surrogate counts only as the first of a pair; alone it is the replacement character. *)
Definition join_surrogates (r : Z) (s : string) : Z * string :=
  if in_range 55296 56320 r then
    match s with
    | String a (String b s') =>
        if Ascii.eqb a backslash && Ascii.eqb b "u" then
          match hex4 s' with
          | Some (lo, rest) =>
              if in_range 56320 57344 lo
              then ((r - 55296) * 1024 + (lo - 56320) + 65536, rest)%Z else (rune_error, s)
          | None => (rune_error, s)
          end
        else (rune_error, s)
    | _ => (rune_error, s)
    end
  else if in_range 56320 57344 r then (rune_error, s)
  else (r, s).

Definition simple_escape (c : ascii) : option Z :=
  if Ascii.eqb c quote then Some 34%Z
  else if Ascii.eqb c backslash then Some 92%Z
  else if Ascii.eqb c "/" then Some 47%Z
  else if Ascii.eqb c "b" then Some 8%Z
  else if Ascii.eqb c "f" then Some 12%Z
  else if Ascii.eqb c "n" then Some 10%Z
  else if Ascii.eqb c "r" then Some 13%Z
  else if Ascii.eqb c "t" then Some 9%Z
  else None.

(** One character of a string and the text after it; the first byte is no quote. *)
Definition parse_char (a : ascii) (s : string) : option (Z * string) :=
  if Ascii.eqb a backslash then
    match s with
    | String c s' =>
        if Ascii.eqb c "u" then '(r, rest) ← hex4 s'; Some (join_surrogates r rest)
        else r ← simple_escape c; Some (r, s')
    | EmptyString => None
    end
  else if (code a <? 32)%Z then None
  else Some (decode_rune a s).

(** The characters up to the closing quote, and the text after it. *)
Fixpoint parse_chars (n : nat) (s : string) : option (string * string) :=
  match n, s with
  | S n', String a s' =>
      if Ascii.eqb a quote then Some (EmptyString, s')
      else
        '(r, rest) ← parse_char a s'; '(w, rest) ← parse_chars n' rest;
        Some (encode_rune r +:+ w, rest)
  | _, _ => None
  end.

(** ** Numbers *)

Fixpoint digits_run (s : string) : string * string :=
  match s with
  | String a s' =>
      match digit_of a with
      | Some _ => let '(d, rest) := digits_run s' in (String a d, rest)
      | None => (EmptyString, s)
      end
  | EmptyString => (EmptyString, s)
  end.

Fixpoint digits_value (acc : Z) (s : string) : Z :=
  match s with
  | String a s' => digits_value (acc * 10 + default 0%Z (digit_of a)) s'
  | EmptyString => acc
  end.

(** An optional part of a number: its text, or no number at all. *)
Definition fraction (s : string) : option (string * string) :=
  match s with
  | String a s' =>
      if Ascii.eqb a "." then
        match digits_run s' with
        | (EmptyString, _) => None
        | (d, rest) => Some (String a d, rest)
        end
      else Some (EmptyString, s)
  | EmptyString => Some (EmptyString, s)
  end.

Definition exponent (s : string) : option (string * string) :=
  match s with
  | String a s' =>
      if Ascii.eqb a "e" || Ascii.eqb a "E" then
        let '(sign, s'') :=
          match s' with
          | String b s'' => if Ascii.eqb b "+" || Ascii.eqb b "-" then (String b EmptyString, s'') else (EmptyString, s')
          | EmptyString => (EmptyString, s')
          end in
        match digits_run s'' with
        | (EmptyString, _) => None
        | (d, rest) => Some (String a (sign +:+ d), rest)
        end
      else Some (EmptyString, s)
  | EmptyString => Some (EmptyString, s)
  end.

(** The digits of the integer part: a leading zero stands alone. *)
Definition integer_part (s : string) : option (string * string) :=
  match s with
  | String a s' =>
      if Ascii.eqb a "0" then Some ("0", s')
      else match digits_run s with
           | (EmptyString, _) => None
           | r => Some r
           end
  | EmptyString => None
  end.

Definition parse_unsigned (neg : bool) (s : string) : option (json * string) :=
  '(int, s) ← integer_part s; '(frac, s) ← fraction s; '(exp, s) ← exponent s;
  let z := digits_value 0 int in
  Some (if decide (frac = "" ∧ exp = "") then JNum (if neg then - z else z)
        else JReal ((if neg then "-" else "") +:+ int +:+ frac +:+ exp), s).

Definition parse_number (s : string) : option (json * string) :=
  match s with
  | String a s' => if Ascii.eqb a "-" then parse_unsigned true s' else parse_unsigned false s
  | EmptyString => None
  end.

(** ** Values *)

Fixpoint skip_ws (s : string) : string :=
  match s with
  | String a s' => if (code a =? 32) || (code a =? 9) || (code a =? 10) || (code a =? 13) then skip_ws s' else s
  | EmptyString => s
  end%Z.

Definition literals : list (string * json) := [("null", JNull); ("true", JBool true); ("false", JBool false)].

Fixpoint parse_literal (l : list (string * json)) (s : string) : option (json * string) :=
  match l with
  | [] => parse_number s
  | (text, v) :: l' => match strip_prefix text s with Some rest => Some (v, rest) | None => parse_literal l' s end
  end.

(** The value at the start of a text; [parse_elems] and [parse_members] read what follows an
    opening bracket or a comma. *)
Fixpoint parse_value (n : nat) (s : string) {struct n} : option (json * string) :=
  match n with
  | O => None
  | S n' =>
      match skip_ws s with
      | String a s' =>
          if Ascii.eqb a quote then '(w, rest) ← parse_chars (strlen s') s'; Some (JStr w, rest)
          else if Ascii.eqb a "[" then
            match skip_ws s' with
            | String b s'' =>
                if Ascii.eqb b "]" then Some (JList [], s'')
                else '(l, rest) ← parse_elems n' (String b s''); Some (JList l, rest)
            | EmptyString => None
            end
          else if Ascii.eqb a "{" then
            match skip_ws s' with
            | String b s'' =>
                if Ascii.eqb b "}" then Some (JObj [], s'')
                else '(l, rest) ← parse_members n' (String b s''); Some (JObj l, rest)
            | EmptyString => None
            end
          else parse_literal literals (String a s')
      | EmptyString => None
      end
  end
with parse_elems (n : nat) (s : string) {struct n} : option (list json * string) :=
  match n with
  | O => None
  | S n' =>
      '(v, s) ← parse_value n' s;
      match skip_ws s with
      | String a s' =>
          if Ascii.eqb a "]" then Some ([v], s')
          else if Ascii.eqb a "," then '(l, rest) ← parse_elems n' s'; Some (v :: l, rest)
          else None
      | EmptyString => None
      end
  end
with parse_members (n : nat) (s : string) {struct n} : option (list (string * json) * string) :=
  match n with
  | O => None
  | S n' =>
      match skip_ws s with
      | String q s' =>
          if Ascii.eqb q quote then
            '(k, s) ← parse_chars (strlen s') s';
            match skip_ws s with
            | String c s' =>
                if Ascii.eqb c ":" then
                  '(v, s) ← parse_value n' s';
                  match skip_ws s with
                  | String a s' =>
                      if Ascii.eqb a "}" then Some ([(k, v)], s')
                      else if Ascii.eqb a "," then '(l, rest) ← parse_members n' s'; Some ((k, v) :: l, rest)
                      else None
                  | EmptyString => None
                  end
                else None
            | EmptyString => None
            end
          else None
      | EmptyString => None
      end
  end.

(** [json.NewDecoder(body).Decode]: the first value; what follows it is not looked at. *)
Definition parse_json (s : string) : option json := fst <$> parse_value (strlen s) s.

(** The values whose text reads back: no bytes that are not UTF-8, no number kept as text. *)
Fixpoint wf_json (v : json) : bool :=
  match v with
  | JStr s => utf8 s
  | JReal _ => false
  | JList l => forallb wf_json l
  | JObj fields => forallb (λ '(k, w), utf8 k && wf_json w) fields
  | _ => true
  end.

Example parse_json_ex :
  parse_json ("{ " +:+ json_string "a<" +:+ ": [1, -2.5e3,true ], " +:+ json_string "b" +:+ ":null} 7")
  = Some (JObj [("a<", JList [JNum 1; JReal "-2.5e3"; JBool true]); ("b", JNull)]).
Proof. vm_compute. reflexivity. Qed.

Example parse_json_bad : parse_json "[1 2]" = None.
Proof. vm_compute. reflexivity. Qed.

(** * Lemmas *)

(** ** UTF-8 *)

Lemma code_byte_of z : (0 ≤ z < 256)%Z → code (byte_of z) = z.
Proof. intros Hz. unfold code, byte_of. rewrite N_ascii_embedding by lia. lia. Qed.

Lemma code_range a : (0 ≤ code a < 256)%Z.
Proof. unfold code. pose proof (N_ascii_bounded a). lia. Qed.

Lemma byte_of_code a : byte_of (code a) = a.
Proof. unfold code, byte_of. rewrite N2Z.id. apply ascii_N_embedding. Qed.


Lemma cont_true lo hi a : cont lo hi a = true ↔ (lo ≤ code a ≤ hi)%Z.
Proof. unfold cont. rewrite andb_true_iff, !Z.leb_le. done. Qed.

Lemma is_rune_true r : is_rune r = true ↔ (0 ≤ r < 55296 ∨ 57344 ≤ r < 1114112)%Z.
Proof. unfold is_rune. rewrite orb_true_iff, !andb_true_iff, !Z.leb_le, !Z.ltb_lt. lia. Qed.

Ltac split_ltb :=
  repeat match goal with |- context [(?x <? ?y)%Z] => destruct (Z.ltb_spec x y); try lia end.

#[local] Ltac Zify.zify_post_hook ::= Z.to_euclidean_division_equations.

(** The encoding of a rune reads back, whatever follows it. *)
Lemma decode_encode_rune r more :
  is_rune r = true →
  ∃ a s, encode_rune r +:+ more = String a s ∧ decode_rune a s = (r, more) ∧ bad_rune r more s = false.
Proof.
  rewrite is_rune_true. intros Hr. unfold encode_rune.
  destruct (Z.ltb_spec r 128); [|destruct (Z.ltb_spec r 2048); [|destruct (Z.ltb_spec r 65536)]];
    cbn [of_bytes]; rewrite !append_cons, append_nil; eexists _, _; (split; [reflexivity|]);
    unfold decode_rune; rewrite !code_byte_of by lia; split_ltb.
  - split; [done|]. unfold bad_rune, rune_error. by rewrite (proj2 (Z.eqb_neq r 65533)) by lia.
  - rewrite (proj2 (cont_true _ _ _)) by (rewrite code_byte_of; lia).
    split; [f_equal; lia|]. unfold bad_rune, rune_error. by rewrite (proj2 (Z.eqb_neq r 65533)) by lia.
  - rewrite !(proj2 (cont_true _ _ _)) by (rewrite ?code_byte_of; repeat case_match; reflect_bools; lia).
    cbn [andb]. split; [f_equal; lia|]. unfold bad_rune. apply andb_false_iff. right. apply Nat.eqb_neq. cbn. lia.
  - rewrite !(proj2 (cont_true _ _ _)) by (rewrite ?code_byte_of; repeat case_match; reflect_bools; lia).
    cbn [andb]. split; [f_equal; lia|]. unfold bad_rune, rune_error. by rewrite (proj2 (Z.eqb_neq r 65533)) by lia.
Qed.

Lemma byte_of_eq a z : z = code a → byte_of z = a.
Proof. intros ->. apply byte_of_code. Qed.

Lemma bad_rune_error s : bad_rune rune_error s s = true.
Proof. unfold bad_rune. rewrite Z.eqb_refl, Nat.eqb_refl. done. Qed.

(** A rune the decoder found is a scalar value, written as its encoding. *)
Lemma decode_rune_good a s r rest :
  decode_rune a s = (r, rest) → bad_rune r rest s = false →
  String a s = encode_rune r +:+ rest ∧ is_rune r = true.
Proof.
  intros Hd Hb. rewrite is_rune_true. revert Hd. unfold decode_rune. pose proof (code_range a).
  repeat case_match; reflect_bools; intros [= <- <-]; try (by rewrite bad_rune_error in Hb); clear Hb;
    rewrite ?cont_true in *; unfold encode_rune; split_ltb;
    (split; [|lia]); cbn [of_bytes]; rewrite !append_cons, append_nil;
    repeat (apply f_equal2; [symmetry; apply byte_of_eq; lia|]); done.
Qed.

Lemma decode_rune_ascii a s : (code a < 128)%Z → decode_rune a s = (code a, s).
Proof. intros Ha. unfold decode_rune. by destruct (Z.ltb_spec (code a) 128); [|lia]. Qed.

(** ** Strings *)

Lemma hex_value_hex1 n : (0 ≤ n < 16)%Z → hex_value (hex1 n) = Some n.
Proof.
  intros Hn. unfold hex_value, hex1. destruct (Z.ltb_spec n 10); rewrite code_byte_of by lia;
    repeat case_match; reflect_bools; first [f_equal; lia | exfalso; lia | idtac];
    repeat match goal with H : (_ && _) = false |- _ => apply andb_false_iff in H as [?|?] end; reflect_bools; lia.
Qed.

Lemma hex4_escape r more : (0 ≤ r < 65536)%Z →
  hex4 (String (hex1 (r / 4096)) (String (hex1 (r / 256 mod 16)) (String (hex1 (r / 16 mod 16))
    (String (hex1 (r mod 16)) more)))) = Some (r, more).
Proof.
  intros Hr. unfold hex4. rewrite !hex_value_hex1 by lia. cbn [mbind option_bind]. do 2 f_equal. lia.
Qed.

(** What the parser makes of the text of one rune: an escape by number, the rune itself, and
    every case. *)
Lemma parse_escape_u r more n :
  (0 ≤ r < 55296)%Z →
  parse_chars (S n) (escape_u r +:+ more)
  = '(w, rest) ← parse_chars n more; Some (encode_rune r +:+ w, rest).
Proof.
  intros Hr. unfold escape_u. rewrite !append_cons, append_nil. cbn [parse_chars].
  change (Ascii.eqb backslash quote) with false. unfold parse_char.
  change (Ascii.eqb backslash backslash) with true. change (Ascii.eqb "u" "u") with true.
  rewrite hex4_escape by lia. cbn [mbind option_bind]. unfold join_surrogates, in_range.
  destruct (Z.leb_spec 55296 r); [lia|]. destruct (Z.leb_spec 56320 r); [lia|]. done.
Qed.

Lemma parse_plain_rune r more n :
  is_rune r = true → (32 ≤ r)%Z → r ≠ 34%Z → r ≠ 92%Z →
  parse_chars (S n) (encode_rune r +:+ more)
  = '(w, rest) ← parse_chars n more; Some (encode_rune r +:+ w, rest).
Proof.
  intros Hr H32 H34 H92. destruct (decode_encode_rune r more Hr) as (a & s & Heq & Hd & _).
  rewrite Heq. cbn [parse_chars].
  assert (Hne : ∀ b, (code b < 128)%Z → r ≠ code b → Ascii.eqb a b = false).
  { intros b Hb Hrb. apply Ascii.eqb_neq. intros ->. rewrite decode_rune_ascii in Hd by done. congruence. }
  rewrite (Hne quote) by done. unfold parse_char. rewrite (Hne backslash) by done.
  destruct (Z.ltb_spec (code a) 32) as [Hc|Hc].
  { rewrite decode_rune_ascii in Hd by lia. injection Hd as Hd _. lia. }
  by rewrite Hd.
Qed.

Lemma parse_escape_rune r more n :
  is_rune r = true →
  parse_chars (S n) (escape_rune r +:+ more)
  = '(w, rest) ← parse_chars n more; Some (encode_rune r +:+ w, rest).
Proof.
  intros Hr. pose proof Hr as Hr'. rewrite is_rune_true in Hr'. unfold escape_rune.
  repeat match goal with |- context [if (r =? ?k)%Z then escape_c _ else _] =>
    destruct (Z.eqb_spec r k) as [->|?]; [reflexivity|] end.
  destruct ((r <? 32)%Z || (r =? 60)%Z || (r =? 62)%Z || (r =? 38)%Z) eqn:Hu.
  { apply parse_escape_u. rewrite !orb_true_iff, !Z.eqb_eq, Z.ltb_lt in Hu. lia. }
  destruct ((r =? 8232)%Z || (r =? 8233)%Z) eqn:Hv.
  { apply parse_escape_u. rewrite !orb_true_iff, !Z.eqb_eq in Hv. lia. }
  rewrite !orb_false_iff, Z.ltb_ge in Hu. apply parse_plain_rune; (done || tauto).
Qed.

Lemma escape_rune_nonempty r : ∃ a s, escape_rune r = String a s.
Proof.
  unfold escape_rune, escape_c, escape_u, encode_rune. repeat case_match; cbn [of_bytes]; by eexists _, _.
Qed.

Lemma parse_escape_steps k n s rest :
  utf8_steps k s = true → strlen (escape_steps k s) < n →
  parse_chars n (escape_steps k s +:+ String quote rest) = Some (s, rest).
Proof.
  revert n s. induction k as [|k IH]; intros n s Hs Hn.
  { destruct s; [|done]. destruct n; [cbn in Hn; lia|done]. }
  destruct s as [|a s]; [destruct n; [cbn in Hn; lia|done]|].
  cbn [escape_steps utf8_steps] in *. destruct (decode_rune a s) as [r s'] eqn:Hd.
  fold (bad_rune r s' s) in *. destruct (bad_rune r s' s) eqn:Hb; [done|].
  destruct (decode_rune_good a s r s' Hd Hb) as [Heq Hr]. cbn [negb andb] in Hs.
  rewrite length_append in Hn. destruct (escape_rune_nonempty r) as (b & w & Hw).
  assert (0 < strlen (escape_rune r)) by (rewrite Hw; cbn; lia).
  destruct n as [|n]; [lia|]. rewrite app_assoc_s, parse_escape_rune by done.
  rewrite IH by (done || lia). cbn [mbind option_bind]. by rewrite Heq.
Qed.

Lemma parse_json_string s rest :
  utf8 s = true →
  parse_chars (strlen (escape_steps (strlen s) s +:+ String quote rest)) (escape_steps (strlen s) s +:+ String quote rest)
  = Some (s, rest).
Proof. intros Hs. apply parse_escape_steps; [done|]. rewrite length_append. cbn. lia. Qed.

(** ** Numbers *)

(** What may not follow a number: the character would belong to it. *)
Definition after_number (s : string) : bool :=
  match s with
  | String a _ =>
      match digit_of a with
      | Some _ => false
      | None => negb (Ascii.eqb a "." || Ascii.eqb a "e" || Ascii.eqb a "E")
      end
  | EmptyString => true
  end.

Lemma digits_run_uint d rest :
  after_number rest = true →
  digits_run (NilEmpty.string_of_uint d +:+ rest) = (NilEmpty.string_of_uint d, rest).
Proof.
  intros Hr. assert (Hrest : digits_run rest = (EmptyString, rest)).
  { destruct rest as [|a rest]; [done|]. cbn [digits_run after_number] in *. by destruct (digit_of a). }
  induction d as [|d IH|d IH|d IH|d IH|d IH|d IH|d IH|d IH|d IH|d IH];
    cbn [NilEmpty.string_of_uint]; rewrite ?append_nil, ?append_cons; [done|..];
    cbn [digits_run]; rewrite IH; reflexivity.
Qed.

Ltac value_step k IH :=
  match goal with
  | |- digits_value ?z (String ?a ?s) = Zpos (Pos.of_uint_acc _ ?b) =>
      change (digits_value z (String a s)) with (digits_value (z * 10 + k) s);
      replace (z * 10 + k)%Z with (Zpos b) by lia; apply IH
  end.

Lemma digits_value_pos d acc :
  digits_value (Zpos acc) (NilEmpty.string_of_uint d) = Zpos (Pos.of_uint_acc d acc).
Proof.
  revert acc. induction d as [|d IH|d IH|d IH|d IH|d IH|d IH|d IH|d IH|d IH|d IH]; intros acc; [done|..];
    cbn [NilEmpty.string_of_uint Pos.of_uint_acc];
    [value_step 0%Z IH|value_step 1%Z IH|value_step 2%Z IH|value_step 3%Z IH|value_step 4%Z IH|value_step 5%Z IH
    |value_step 6%Z IH|value_step 7%Z IH|value_step 8%Z IH|value_step 9%Z IH].
Qed.

Lemma digits_value_uint d : digits_value 0 (NilEmpty.string_of_uint d) = Z.of_N (Pos.of_uint d).
Proof. induction d; [done|exact IHd|..]; exact (digits_value_pos d _). Qed.

Lemma nzhead_no_zero x d : Decimal.nzhead x = Decimal.D0 d → False.
Proof. induction x; cbn; try done. Qed.

(** The digits of a positive number: some, and no zero in front. *)
Lemma to_uint_head p : match Pos.to_uint p with Decimal.Nil | Decimal.D0 _ => False | _ => True end.
Proof.
  assert (Hn : Pos.to_uint p = Decimal.unorm (Pos.to_uint p)).
  { change (Pos.to_uint p) with (N.to_uint (Npos p)) at 1.
    rewrite <-(DecimalN.Unsigned.of_to (Npos p)) at 1. rewrite DecimalN.Unsigned.to_of. done. }
  pose proof (DecimalPos.Unsigned.to_uint_nonzero p) as Hz. revert Hn Hz.
  destruct (Pos.to_uint p) as [|d|d|d|d|d|d|d|d|d|d]; try done. unfold Decimal.unorm. cbn [Decimal.nzhead].
  intros Hn Hz. destruct (Decimal.nzhead d) eqn:E; try done. by apply nzhead_no_zero in E.
Qed.

Lemma after_number_parts s : after_number s = true → fraction s = Some (EmptyString, s) ∧ exponent s = Some (EmptyString, s).
Proof.
  destruct s as [|a s]; [done|]. cbn. destruct (digit_of a); [done|].
  rewrite negb_true_iff, !orb_false_iff. intros [[-> ->] ->]. done.
Qed.

Lemma integer_part_uint p rest :
  after_number rest = true →
  integer_part (NilZero.string_of_uint (Pos.to_uint p) +:+ rest)
  = Some (NilEmpty.string_of_uint (Pos.to_uint p), rest).
Proof.
  intros Hr. pose proof (to_uint_head p) as Hh. pose proof (digits_run_uint (Pos.to_uint p) rest Hr) as Hd.
  unfold integer_part. destruct (Pos.to_uint p) as [|d|d|d|d|d|d|d|d|d|d]; try done;
    cbn [NilZero.string_of_uint NilEmpty.string_of_uint] in *; rewrite append_cons in *; by rewrite Hd.
Qed.

Lemma parse_unsigned_uint neg p rest :
  after_number rest = true →
  parse_unsigned neg (NilZero.string_of_uint (Pos.to_uint p) +:+ rest)
  = Some (JNum (if neg then Zneg p else Zpos p), rest).
Proof.
  intros Hr. destruct (after_number_parts rest Hr) as [Hf He].
  unfold parse_unsigned. rewrite integer_part_uint by done. cbn [mbind option_bind].
  rewrite Hf. cbn [mbind option_bind]. rewrite He. cbn [mbind option_bind].
  rewrite decide_True by done. rewrite digits_value_uint, DecimalPos.Unsigned.of_to. by destruct neg.
Qed.

Lemma parse_number_Format z rest :
  after_number rest = true → parse_number (FormatInt z +:+ rest) = Some (JNum z, rest).
Proof.
  intros Hr. unfold FormatInt. destruct z as [|p|p]; cbn [Z.to_int NilZero.string_of_int].
  - destruct (after_number_parts rest Hr) as [Hf He].
    change (parse_unsigned false (String "0" rest) = Some (JNum 0, rest)).
    unfold parse_unsigned. cbn [integer_part Ascii.eqb Bool.eqb mbind option_bind].
    rewrite Hf. cbn [mbind option_bind]. rewrite He. done.
  - rewrite <-(parse_unsigned_uint false p rest Hr). pose proof (to_uint_head p).
    by destruct (Pos.to_uint p) as [|d|d|d|d|d|d|d|d|d|d].
  - rewrite append_cons. exact (parse_unsigned_uint true p rest Hr).
Qed.

(** ** Values *)

(** An induction principle that reaches the elements of arrays and the members of objects. *)
Section json_induction.
Variable P : json → Prop.
Hypothesis Hnull : P JNull.
Hypothesis Hbool : ∀ b, P (JBool b).
Hypothesis Hnum : ∀ z, P (JNum z).
Hypothesis Hreal : ∀ s, P (JReal s).
Hypothesis Hstr : ∀ s, P (JStr s).
Hypothesis Hlist : ∀ l, Forall P l → P (JList l).
Hypothesis Hobj : ∀ fields, Forall (λ f, P f.2) fields → P (JObj fields).

Fixpoint json_nested_ind (v : json) : P v :=
  match v with
  | JNull => Hnull
  | JBool b => Hbool b
  | JNum z => Hnum z
  | JReal s => Hreal s
  | JStr s => Hstr s
  | JList l =>
      Hlist l ((fix go l : Forall P l :=
        match l with
        | [] => Forall_nil_2 P
        | x :: l' => Forall_cons_2 P x l' (json_nested_ind x) (go l')
        end) l)
  | JObj fields =>
      Hobj fields ((fix go l : Forall (λ f, P f.2) l :=
        match l with
        | [] => Forall_nil_2 (λ f, P f.2)
        | x :: l' => Forall_cons_2 (λ f, P f.2) x l' (json_nested_ind x.2) (go l')
        end) fields)
  end.
End json_induction.

(** The first byte of a value's text: no space, and no closing bracket. *)
Definition opens (a : ascii) : bool :=
  negb ((code a =? 32) || (code a =? 9) || (code a =? 10) || (code a =? 13) || Ascii.eqb a "]" || Ascii.eqb a "}")%Z.

Lemma skip_ws_opens a s : opens a = true → skip_ws (String a s) = String a s.
Proof. unfold opens. cbn [skip_ws]. rewrite negb_true_iff, !orb_false_iff. by intros [[[[[-> ->] ->] ->] _] _]. Qed.

Lemma opens_brackets a : opens a = true → Ascii.eqb a "]" = false ∧ Ascii.eqb a "}" = false.
Proof. unfold opens. rewrite negb_true_iff, !orb_false_iff. tauto. Qed.

Lemma FormatInt_head z : ∃ a s, FormatInt z = String a s ∧ (a = "-"%char ∨ is_Some (digit_of a)).
Proof.
  unfold FormatInt. destruct (Z.to_int z) as [d|d]; cbn [NilZero.string_of_int].
  - destruct d; cbn; eexists _, _; (split; [reflexivity|]); right; by eexists.
  - eexists _, _. split; [reflexivity|]. by left.
Qed.

Lemma digit_of_range a : is_Some (digit_of a) → (48 ≤ code a ≤ 57)%Z.
Proof. unfold digit_of. intros [x Hx]. case_match; [|done]. reflect_bools. lia. Qed.

Lemma eqb_code a b : code a ≠ code b → Ascii.eqb a b = false.
Proof. intros Hne. apply Ascii.eqb_neq. by intros ->. Qed.

(** A number's first byte opens none of the other values. *)
Lemma number_head a : a = "-"%char ∨ is_Some (digit_of a) →
  opens a = true ∧ ∀ b, b ∈ [quote; "["%char; "{"%char; "n"%char; "t"%char; "f"%char] → Ascii.eqb a b = false.
Proof.
  intros [->|Ha%digit_of_range].
  { split; [done|]. intros b Hb. repeat (apply elem_of_cons in Hb as [->|Hb]; [done|]). by apply elem_of_nil in Hb. }
  split.
  - assert (code "]" = 93%Z ∧ code "}" = 125%Z) as [? ?] by done.
    unfold opens. rewrite (eqb_code a "]"), (eqb_code a "}") by lia.
    rewrite !(proj2 (Z.eqb_neq _ _)) by lia. done.
  - assert (Hf : Forall (λ b, code b < 48 ∨ 57 < code b)%Z
      [quote; "["%char; "{"%char; "n"%char; "t"%char; "f"%char]) by by_computation.
    rewrite Forall_forall in Hf. intros b Hb. apply eqb_code. specialize (Hf b Hb). lia.
Qed.

Lemma marshal_head v : wf_json v = true → ∃ a s, marshal_json v = String a s ∧ opens a = true.
Proof.
  destruct v as [|[]|z|lit|w|l|fs]; intros Hw; try done; try (by eexists _, _).
  destruct (FormatInt_head z) as (a & s & Hz & Ha). exists a, s. split; [done|]. by apply number_head.
Qed.

Lemma parse_number_value n z rest :
  after_number rest = true → parse_value (S n) (FormatInt z +:+ rest) = Some (JNum z, rest).
Proof.
  intros Hr. pose proof (parse_number_Format z rest Hr) as Hp. revert Hp.
  destruct (FormatInt_head z) as (a & s & -> & Ha). apply number_head in Ha as [Ho Hne].
  rewrite append_cons. intros Hp. cbn [parse_value]. rewrite skip_ws_opens by done.
  rewrite (Hne quote), (Hne "["%char), (Hne "{"%char) by set_solver.
  unfold literals. cbn [parse_literal].
  assert (Hs : ∀ b w, Ascii.eqb a b = false → strip_prefix (String b w) (String a (s +:+ rest)) = None).
  { intros b w Hb%Ascii.eqb_neq. cbn [strip_prefix]. by rewrite decide_False by congruence. }
  by rewrite !Hs by (apply Hne; set_solver).
Qed.

Lemma forallb_Forall {A} (f : A → bool) l : forallb f l = true → Forall (λ x, f x = true) l.
Proof. rewrite forallb_forall, Forall_forall. intros Hl x Hx. by apply Hl, list_elem_of_In. Qed.

(** A value's text, whatever may follow it. *)
Definition reads_back (v : json) : Prop :=
  wf_json v = true → ∀ n rest, strlen (marshal_json v) ≤ n → after_number rest = true →
  parse_value n (marshal_json v +:+ rest) = Some (v, rest).

Definition tail_text (l : list string) : string := foldr (λ y acc, "," +:+ y +:+ acc) "" l.

Lemma comma_join_cons x l : comma_join (x :: l) = x +:+ tail_text l.
Proof. done. Qed.

Lemma tail_text_cons x l : tail_text (x :: l) = String "," (x +:+ tail_text l).
Proof. done. Qed.

Lemma close_after_number l (c : ascii) rest :
  digit_of c = None → negb (Ascii.eqb c "." || Ascii.eqb c "e" || Ascii.eqb c "E") = true →
  after_number (tail_text l +:+ String c rest) = true.
Proof. intros Hd Hc. destruct l; [|done]. cbn [tail_text foldr]. rewrite append_nil. cbn [after_number]. by rewrite Hd. Qed.

Lemma parse_elems_text v l n rest :
  Forall reads_back (v :: l) → Forall (λ v, wf_json v = true) (v :: l) →
  strlen (marshal_json v +:+ tail_text (map marshal_json l) +:+ "]") ≤ n →
  parse_elems n (marshal_json v +:+ tail_text (map marshal_json l) +:+ String "]" rest) = Some (v :: l, rest).
Proof.
  revert v n. induction l as [|w l IH]; intros v n [Hv Hl]%Forall_cons [Hwv Hwl]%Forall_cons Hn;
    rewrite !length_append in Hn; cbn [map strlen] in Hn; (destruct n as [|n]; [cbn in Hn; lia|]); cbn [parse_elems].
  - rewrite Hv by (done || cbn in Hn; lia). done.
  - cbn [map] in *. rewrite tail_text_cons in *. cbn [strlen] in Hn. rewrite length_append in Hn. cbn [strlen] in Hn.
    rewrite Hv by first [done | lia]. cbn [mbind option_bind].
    rewrite append_cons. change (skip_ws (String "," ?s)) with (String "," s).
    change (Ascii.eqb "," "]") with false. change (Ascii.eqb "," ",") with true. cbv iota.
    rewrite app_assoc_s. rewrite IH; [done|done|done|]. rewrite !length_append. cbn [strlen]. lia.
Qed.

Definition member_text (f : string * json) : string := json_string f.1 +:+ ":" +:+ marshal_json f.2.

(** A member up to its value. *)
Lemma parse_members_head n k v more :
  utf8 k = true →
  parse_members (S n) (member_text (k, v) +:+ more)
  = '(v, s) ← parse_value n (marshal_json v +:+ more);
    match skip_ws s with
    | String a s' =>
        if Ascii.eqb a "}" then Some ([(k, v)], s')
        else if Ascii.eqb a "," then '(l, rest) ← parse_members n s'; Some ((k, v) :: l, rest)
        else None
    | EmptyString => None
    end.
Proof.
  intros Hk. unfold member_text, json_string. cbn [fst snd].
  rewrite !app_assoc_s, append_cons, !app_assoc_s, !append_cons, append_nil. cbn [parse_members].
  change (skip_ws (String quote ?s)) with (String quote s). change (Ascii.eqb quote quote) with true. cbv iota.
  rewrite parse_json_string by done. cbn [mbind option_bind].
  change (skip_ws (String ":" ?s)) with (String ":" s). change (Ascii.eqb ":" ":") with true. done.
Qed.

Lemma parse_members_text f l n rest :
  Forall (λ f, reads_back f.2) (f :: l) → Forall (λ f, utf8 f.1 = true ∧ wf_json f.2 = true) (f :: l) →
  strlen (member_text f +:+ tail_text (map member_text l) +:+ "}") ≤ n →
  parse_members n (member_text f +:+ tail_text (map member_text l) +:+ String "}" rest) = Some (f :: l, rest).
Proof.
  revert f n. induction l as [|g l IH]; intros [k v] n [Hv Hl]%Forall_cons [[Hk Hwv] Hwl]%Forall_cons Hn;
    cbn [fst snd] in Hv, Hk, Hwv; rewrite !length_append in Hn;
    assert (strlen (marshal_json v) < strlen (member_text (k, v)))
      by (unfold member_text; rewrite !length_append; cbn; lia);
    (destruct n as [|n]; [lia|]); rewrite parse_members_head by done; cbn [map] in *.
  - rewrite Hv by (done || lia). done.
  - rewrite tail_text_cons in *. cbn [strlen] in Hn. rewrite length_append in Hn. cbn [strlen] in Hn.
    rewrite Hv by first [done | lia]. cbn [mbind option_bind].
    rewrite append_cons. change (skip_ws (String "," ?s)) with (String "," s).
    change (Ascii.eqb "," "}") with false. change (Ascii.eqb "," ",") with true. cbv iota.
    rewrite app_assoc_s. rewrite IH; [done|done|done|]. rewrite !length_append. cbn [strlen]. lia.
Qed.

Lemma marshal_list x l :
  marshal_json (JList (x :: l)) = String "[" (marshal_json x +:+ tail_text (map marshal_json l) +:+ "]").
Proof. cbn [marshal_json map]. rewrite comma_join_cons, append_cons, append_nil, app_assoc_s. done. Qed.

Lemma marshal_obj f l :
  marshal_json (JObj (f :: l)) = String "{" (member_text f +:+ tail_text (map member_text l) +:+ "}").
Proof.
  cbn [marshal_json map]. destruct f as [k v].
  rewrite comma_join_cons, append_cons, append_nil, app_assoc_s. unfold member_text at 1. cbn [fst snd].
  by erewrite (map_ext _ member_text) by by intros [].
Qed.

Lemma marshal_nonempty v : wf_json v = true → 0 < strlen (marshal_json v).
Proof. intros Hw. destruct (marshal_head v Hw) as (a & s & -> & _). cbn. lia. Qed.

Lemma parse_marshal_value v : reads_back v.
Proof.
  induction v as [|b|z|s|s|l IH|fs IH] using json_nested_ind; intros Hw n rest Hn Hr;
    pose proof (marshal_nonempty _ Hw); (destruct n; [lia|]).
  - done.
  - by destruct b.
  - by apply parse_number_value.
  - done.
  - cbn [marshal_json]. unfold json_string. rewrite append_cons, app_assoc_s.
    cbn [parse_value]. change (skip_ws (String quote ?s)) with (String quote s).
    change (Ascii.eqb quote quote) with true. cbv iota. rewrite append_cons, append_nil, parse_json_string by done. done.
  - destruct l as [|x l]; [done|].
    apply forallb_Forall in Hw. rewrite marshal_list in *. cbn [strlen] in Hn.
    rewrite append_cons. cbn [parse_value]. change (skip_ws (String "[" ?s)) with (String "[" s).
    change (Ascii.eqb "[" quote) with false. change (Ascii.eqb "[" "[") with true. cbv iota.
    pose proof (parse_elems_text x l n rest IH Hw ltac:(lia)) as Hp.
    destruct (marshal_head x) as (a & s & Hx & Ho); [by apply Forall_cons in Hw as [? _]|].
    rewrite !app_assoc_s. rewrite append_cons, append_nil. rewrite Hx, append_cons in *.
    rewrite skip_ws_opens by done. destruct (opens_brackets a Ho) as [-> _]. by rewrite Hp.
  - destruct fs as [|f fs]; [done|].
    apply forallb_Forall in Hw. rewrite marshal_obj in *. cbn [strlen] in Hn.
    rewrite append_cons. cbn [parse_value]. change (skip_ws (String "{" ?s)) with (String "{" s).
    change (Ascii.eqb "{" quote) with false. change (Ascii.eqb "{" "[") with false.
    change (Ascii.eqb "{" "{") with true. cbv iota.
    pose proof (parse_members_text f fs n rest IH) as Hp. rewrite !app_assoc_s, append_cons, append_nil.
    assert (Hq : ∃ s, member_text f +:+ tail_text (map member_text fs) +:+ String "}" rest = String quote s) by by eexists.
    destruct Hq as [s Hq]. rewrite Hq in *. change (skip_ws (String quote s)) with (String quote s).
    change (Ascii.eqb quote "}") with false. cbv iota. rewrite Hp; [done| |lia].
    eapply Forall_impl; [exact Hw|]. intros [k w]. cbn. by rewrite andb_true_iff.
Qed.

(** What the library writes, it reads: the value of a text is the value it was written from. *)
Lemma parse_marshal v : wf_json v = true → parse_json (marshal_json v) = Some v.
Proof.
  intros Hw. unfold parse_json. pose proof (parse_marshal_value v Hw (strlen (marshal_json v)) "" (le_n _) eq_refl) as Hp.
  rewrite app_nil_r_s in Hp. by rewrite Hp.
Qed.

(** ** Texts of plain characters *)

Lemma utf8_plain s : Forall (λ a, plain a = true) (chars s) → utf8 s = true.
Proof.
  unfold utf8. intros Hs.
  enough (Hg : ∀ n, strlen s ≤ n → utf8_steps n s = true) by (apply Hg; done).
  induction s as [|a s IH]; intros n Hn; [by destruct n|]. cbn [chars strlen] in *.
  apply Forall_cons in Hs as [Ha Hs]. destruct n as [|n]; [lia|]. cbn [utf8_steps].
  unfold plain in Ha. reflect_bools. rewrite decode_rune_ascii by lia. rewrite IH by (done || lia).
  unfold bad_rune, rune_error. by rewrite (proj2 (Z.eqb_neq _ _)) by lia.
Qed.

(** ** The texts the library writes are UTF-8 *)

Lemma utf8_more k n s : utf8_steps k s = true → k ≤ n → utf8_steps n s = true.
Proof.
  revert n s. induction k as [|k IH]; intros n s Hs Hn; [by destruct s, n|].
  destruct n as [|n]; [lia|]. destruct s as [|a s]; [done|]. cbn [utf8_steps] in *.
  destruct (decode_rune a s) as [r rest]. apply andb_true_iff in Hs as [-> Hs]. apply IH; [done|lia].
Qed.

Lemma strlen_encode_rune r : 1 ≤ strlen (encode_rune r).
Proof. unfold encode_rune. repeat case_match; cbn; lia. Qed.

(** As many steps as there are bytes are enough. *)
Lemma utf8_enough n s : utf8_steps n s = true → utf8 s = true.
Proof.
  unfold utf8. remember (strlen s) as k eqn:Hk. assert (strlen s ≤ k) as Hle by lia. clear Hk. revert n s Hle.
  induction k as [|k IH]; intros n s Hle H; [by destruct s; [|cbn in Hle; lia]|].
  destruct s as [|a s]; [done|]. destruct n as [|n]; [done|]. cbn [strlen utf8_steps] in *.
  destruct (decode_rune a s) as [r rest] eqn:Hd. apply andb_true_iff in H as [Hb H]. rewrite Hb. cbn [andb].
  apply negb_true_iff in Hb. destruct (decode_rune_good a s r rest Hd Hb) as [Heq _].
  pose proof (strlen_encode_rune r). apply (f_equal strlen) in Heq. rewrite length_append in Heq. cbn [strlen] in Heq.
  apply (IH n); [lia|done].
Qed.

Lemma utf8_rune_app r s : is_rune r = true → utf8 (encode_rune r +:+ s) = utf8 s.
Proof.
  intros Hr. destruct (decode_encode_rune r s Hr) as (a & w & Heq & Hd & Hb). rewrite Heq.
  pose proof (strlen_encode_rune r) as Hlen. apply (f_equal strlen) in Heq. rewrite length_append in Heq.
  cbn [strlen] in Heq. unfold utf8 at 1. cbn [strlen utf8_steps]. rewrite Hd, Hb. cbn [negb andb].
  apply eq_true_iff_eq. split; [apply utf8_enough|]. intros H. eapply utf8_more; [exact H|lia].
Qed.

(** A UTF-8 text is the encoding of runes. *)
Lemma utf8_ind (P : string → Prop) :
  P "" → (∀ r s, is_rune r = true → utf8 s = true → P s → P (encode_rune r +:+ s)) → ∀ s, utf8 s = true → P s.
Proof.
  intros H0 Hr s. remember (strlen s) as n eqn:Hn. assert (strlen s ≤ n) as Hle by lia. clear Hn. revert s Hle.
  induction n as [|n IH]; intros s Hle Hs; [by destruct s; [|cbn in Hle; lia]|].
  destruct s as [|a s]; [done|]. pose proof Hs as Hs'. unfold utf8 in Hs'. cbn [strlen utf8_steps] in Hs'.
  destruct (decode_rune a s) as [r rest] eqn:Hd. apply andb_true_iff in Hs' as [Hb _]. apply negb_true_iff in Hb.
  destruct (decode_rune_good a s r rest Hd Hb) as [Heq Hrune]. rewrite Heq in *.
  rewrite utf8_rune_app in Hs by done. pose proof (strlen_encode_rune r). rewrite length_append in Hle.
  apply Hr; [done..|]. apply IH; [lia|done].
Qed.

Lemma utf8_app s t : utf8 s = true → utf8 t = true → utf8 (s +:+ t) = true.
Proof.
  intros Hs Ht. revert s Hs. apply utf8_ind; [done|]. intros r s Hr _ IH. by rewrite app_assoc_s, utf8_rune_app.
Qed.

Lemma utf8_cons a s : (code a < 128)%Z → utf8 s = true → utf8 (String a s) = true.
Proof.
  intros Ha Hs. change (String a s) with (String a "" +:+ s). apply utf8_app; [|done].
  unfold utf8. cbn [strlen utf8_steps]. rewrite decode_rune_ascii by done. unfold bad_rune, rune_error.
  by rewrite (proj2 (Z.eqb_neq _ _)) by lia.
Qed.

Lemma utf8_of_ascii s : Forall (λ a, (code a < 128)%Z) (chars s) → utf8 s = true.
Proof. induction s as [|a s IH]; [done|]. cbn [chars]. intros [Ha Hs]%Forall_cons. apply utf8_cons; auto. Qed.

Lemma code_hex1 n : (0 ≤ n < 16)%Z → (code (hex1 n) < 128)%Z.
Proof. intros Hn. unfold hex1. rewrite code_byte_of; destruct (Z.ltb_spec n 10); lia. Qed.

Lemma utf8_escape_rune r : is_rune r = true → utf8 (escape_rune r) = true.
Proof.
  intros Hr. pose proof Hr as Hr'. apply is_rune_true in Hr'. unfold escape_rune.
  assert (∀ c, (code c < 128)%Z → utf8 (escape_c c) = true) as Hc.
  { intros c Hcode. apply utf8_of_ascii. repeat (apply Forall_cons; split; [first [done|exact Hcode]|]). constructor. }
  assert ((0 ≤ r < 65536)%Z → utf8 (escape_u r) = true) as Hu.
  { intros Hrange. apply utf8_of_ascii. unfold escape_u. cbn [chars].
    do 2 (apply Forall_cons; split; [done|]). repeat (apply Forall_cons; split; [apply code_hex1; lia|]). constructor. }
  repeat (case_match; [reflect_bools; by first [apply Hc|apply Hu; lia]|]).
  by rewrite <-(app_nil_r_s (encode_rune r)), utf8_rune_app.
Qed.

Lemma utf8_escape_steps n s : utf8_steps n s = true → utf8 (escape_steps n s) = true.
Proof.
  revert s. induction n as [|n IH]; intros s Hs; [by destruct s|]. destruct s as [|a s]; [done|].
  cbn [escape_steps utf8_steps] in *. destruct (decode_rune a s) as [r rest] eqn:Hd. fold (bad_rune r rest s).
  apply andb_true_iff in Hs as [Hb Hs]. apply negb_true_iff in Hb. rewrite Hb.
  destruct (decode_rune_good a s r rest Hd Hb) as [_ Hr]. apply utf8_app; [by apply utf8_escape_rune|by apply IH].
Qed.

Lemma utf8_json_string s : utf8 s = true → utf8 (json_string s) = true.
Proof.
  intros Hs. unfold json_string. apply utf8_cons; [done|]. apply utf8_app; [by apply utf8_escape_steps|done].
Qed.

Lemma utf8_comma_join l : Forall (λ s, utf8 s = true) l → utf8 (comma_join l) = true.
Proof.
  destruct 1 as [|x l Hx Hl]; [done|]. rewrite comma_join_cons. apply utf8_app; [done|].
  induction Hl as [|y l Hy Hl IH]; [done|]. rewrite tail_text_cons. apply utf8_cons; [done|]. by apply utf8_app.
Qed.

Lemma utf8_FormatInt z : utf8 (FormatInt z) = true.
Proof.
  apply utf8_of_ascii, Forall_forall. intros c Hc. destruct (Z.lt_ge_cases (code c) 128) as [|Hge]; [done|exfalso].
  revert Hc. apply FormatInt_no_char; [|by intros ->].
  destruct (digit_of c) as [d|] eqn:Hd; [|done]. pose proof (digit_of_range c (mk_is_Some _ _ Hd)). lia.
Qed.

Lemma utf8_marshal v : wf_json v = true → utf8 (marshal_json v) = true.
Proof.
  induction v as [|b|z|s|s|l IH|fs IH] using json_nested_ind; intros Hw; try done.
  - by destruct b.
  - apply utf8_FormatInt.
  - by apply utf8_json_string.
  - apply forallb_Forall in Hw. cbn [marshal_json]. apply utf8_app; [done|]. apply utf8_app; [|done].
    apply utf8_comma_join, Forall_fmap. revert IH Hw. clear. induction 1; inversion 1; constructor; cbn; auto.
  - apply forallb_Forall in Hw. cbn [marshal_json]. apply utf8_app; [done|]. apply utf8_app; [|done].
    apply utf8_comma_join, Forall_fmap. revert IH Hw. clear.
    induction 1 as [|[k w] fs Hkw Hfs IH]; intros Hw; constructor; apply Forall_cons in Hw as [Hk Hw]; [|by apply IH].
    apply andb_true_iff in Hk as [Hk Hv]. apply utf8_app; [by apply utf8_json_string|]. apply utf8_app; [done|].
    by apply Hkw.
Qed.

(** ** Whole texts *)

(** [json.Unmarshal]: one value, and nothing but white space after it. *)
Definition parse_whole (text : string) : option json :=
  '(v, rest) ← parse_value (strlen text) text;
  match skip_ws rest with EmptyString => Some v | _ => None end.

Lemma parse_whole_marshal v : wf_json v = true → parse_whole (marshal_json v) = Some v.
Proof.
  intros Hw. unfold parse_whole. pose proof (parse_marshal_value v Hw (strlen (marshal_json v)) "" (le_n _) eq_refl) as Hp.
  rewrite app_nil_r_s in Hp. by rewrite Hp.
Qed.

(** ** Cutting texts *)

Lemma string_app_split a b c d :
  a +:+ b = c +:+ d → (∃ k, a = c +:+ k ∧ d = k +:+ b) ∨ ∃ k, c = a +:+ k ∧ b = k +:+ d.
Proof.
  revert c. induction a as [|x a IH]; intros c.
  { intros E. right. exists c. split; [done|exact E]. }
  destruct c as [|y c]; [intros E; left; exists (String x a); split; [done|exact (eq_sym E)]|].
  rewrite !append_cons. intros [= -> E]. destruct (IH c E) as [(k & -> & ->)|(k & -> & ->)]; [left|right]; by exists k.
Qed.

(** Every byte of an encoded rune but the first continues it; the first does not. *)
Lemma encode_rune_tail r w b w' :
  is_rune r = true → encode_rune r = w +:+ String b w' → cont 128 191 b = bool_decide (w ≠ "").
Proof.
  rewrite is_rune_true. intros Hr. unfold encode_rune.
  destruct (Z.ltb_spec r 128); [|destruct (Z.ltb_spec r 2048); [|destruct (Z.ltb_spec r 65536)]]; cbn [of_bytes];
    (destruct w as [|? [|? [|? [|? w]]]]; rewrite ?append_cons, ?append_nil; intros [=]; try done; try (by destruct w); subst;
     apply eq_true_iff_eq; rewrite bool_decide_eq_true, cont_true, code_byte_of by lia; split; intros ?; first [done|lia|congruence]).
Qed.

Lemma encode_rune_cons r : is_rune r = true → ∃ b w, encode_rune r = String b w ∧ cont 128 191 b = false.
Proof.
  intros Hr. destruct (decode_encode_rune r "" Hr) as (b & w & E & _). rewrite app_nil_r_s in E.
  exists b, w. split; [done|]. apply (encode_rune_tail r "" b w Hr E).
Qed.

Lemma utf8_before s r t : is_rune r = true → utf8 (s +:+ encode_rune r +:+ t) = true → utf8 s = true.
Proof.
  intros Hr Hs. remember (s +:+ encode_rune r +:+ t) as x eqn:Hx. revert s Hx. revert x Hs.
  apply (utf8_ind (λ x, ∀ s, x = s +:+ encode_rune r +:+ t → utf8 s = true)).
  - by intros [|a s] E.
  - intros r' x Hr' _ IH s E. destruct (string_app_split _ _ _ _ E) as [(k & Hk & Hx)|(k & -> & ->)].
    + destruct (decide (s = "")) as [->|Hs]; [done|]. destruct k as [|b k].
      { rewrite app_nil_r_s in Hk. rewrite <-Hk, <-(app_nil_r_s (encode_rune r')). by rewrite utf8_rune_app. }
      destruct (encode_rune_cons r Hr) as (b' & w & Hw & Hb'). rewrite Hw, !append_cons in Hx. injection Hx as -> _.
      apply (encode_rune_tail r' s b k Hr') in Hk. rewrite bool_decide_eq_true_2 in Hk by done. congruence.
    + rewrite utf8_rune_app by done. by apply IH.
Qed.

(** White space is written in whole runes. *)
Definition space_runes : list Z :=
  [9; 10; 11; 12; 13; 32; 133; 160; 5760; 8232; 8233; 8239; 8287; 12288;
   8192; 8193; 8194; 8195; 8196; 8197; 8198; 8199; 8200; 8201; 8202]%Z.

Lemma space_is_rune p : p ∈ space_encodings → ∃ r, is_rune r = true ∧ p = encode_rune r.
Proof.
  assert (space_encodings = encode_rune <$> space_runes) as -> by (vm_compute; reflexivity).
  intros (r & -> & Hr)%list_elem_of_fmap. exists r. split; [|done].
  assert (Forall (λ r, is_rune r = true) space_runes) as Hall by (repeat constructor).
  rewrite Forall_forall in Hall. by apply Hall.
Qed.

Lemma utf8_trim_steps n s : utf8 s = true → utf8 (trim_steps n space_encodings s) = true.
Proof.
  revert s. induction n as [|n IH]; intros s Hs; [done|]. cbn [trim_steps].
  destruct (strip_any space_encodings s) as [s'|] eqn:E; [|done].
  apply strip_any_Some in E as (p & (r & Hr & ->)%space_is_rune & ->). apply IH. by rewrite utf8_rune_app in Hs.
Qed.

Lemma utf8_trim_back_steps n s :
  utf8 (rev_string s) = true → utf8 (rev_string (trim_steps n (map rev_string space_encodings) s)) = true.
Proof.
  revert s. induction n as [|n IH]; intros s Hs; [done|]. cbn [trim_steps].
  destruct (strip_any _ s) as [s'|] eqn:E; [|done].
  apply strip_any_Some in E as (p & (q & -> & (r & Hr & ->)%space_is_rune)%list_elem_of_fmap & ->). apply IH.
  rewrite rev_string_app, rev_string_involutive in Hs. apply (utf8_before _ r "" Hr). by rewrite app_nil_r_s.
Qed.

Lemma utf8_TrimSpace s : utf8 s = true → utf8 (TrimSpace s) = true.
Proof.
  intros Hs. unfold TrimSpace, trim_back. apply utf8_trim_back_steps. rewrite rev_string_involutive.
  by apply utf8_trim_steps.
Qed.
