(* ===== verification/GoFloat.v ===== *)
(** * Numbers of JSON as float64

    What becomes of a number that [json.Unmarshal] reads into an [any]: the nearest float64, and its text
    under the verb [%.0f].  A float64 is kept as a mantissa and an exponent of two, exactly. *)

From S2P Require Import Prelude GoStrings GoEncoding GoJson JsonText.

#[local] Open Scope Z_scope.

(** [n/d] to the nearest integer, to the even one in the middle. *)
Definition half_even (n d : Z) : Z :=
  let q := n / d in
  let r := n mod d in
  if 2 * r <? d then q else if d <? 2 * r then q + 1 else if Z.even q then q else q + 1.

(** [n/d * 2^(-e)] as a quotient *)
Definition scaled (n d e : Z) : Z * Z := if 0 <=? e then (n, d * 2 ^ e) else (n * 2 ^ (- e), d).

(** The float64 nearest to [n/d]: 53 bits of mantissa, and the exponent of the last one. *)
Definition float64 (n d : Z) : option (Z * Z) :=
  if n =? 0 then Some (0, 0)
  else
    let e := Z.log2 n - Z.log2 d - 52 in
    let '(a, b) := scaled n d e in
    let e := Z.max (if a <? 2 ^ 52 * b then e - 1 else e) (-1074) in
    let '(a, b) := scaled n d e in
    let m := half_even a b in
    if 2 ^ 1024 <=? (if 0 <=? e then m * 2 ^ e else m / 2 ^ (- e)) then None else Some (m, e).

(** The digits and the power of ten of a literal without its sign. *)
Definition decimal (s : string) : option (Z * Z) :=
  '(int, s) ← integer_part s; '(frac, s) ← fraction s; '(exp, s) ← exponent s;
  let digits := match frac with String _ d => d | EmptyString => EmptyString end in
  let e := match exp with
           | String _ (String a d as t) =>
               if Ascii.eqb a "-" then - digits_value 0 d else if Ascii.eqb a "+" then digits_value 0 d else digits_value 0 t
           | _ => 0
           end in
  Some (digits_value (digits_value 0 int) digits, e - Z.of_nat (strlen digits)).

(** The sign and the float64 of a JSON number; none when it is out of range. *)
Definition number (v : json) : option (bool * (Z * Z)) :=
  match v with
  | JNum z => pair (z <? 0) <$> float64 (Z.abs z) 1
  | JReal literal =>
      let neg := HasPrefix literal "-" in
      '(m, e) ← decimal (TrimPrefix literal "-");
      pair neg <$> (if 0 <=? e then float64 (m * 10 ^ e) 1 else float64 m (10 ^ (- e)))
  | _ => None
  end.

(** [fmt.Sprintf("%.0f", v)] *)
Definition format_0f (x : bool * (Z * Z)) : string :=
  let '(neg, (m, e)) := x in
  (if neg then "-" else "") +:+ FormatInt (if 0 <=? e then m * 2 ^ e else half_even m (2 ^ (- e))).

(** A value that can be read into an [any]: every number is in range. *)
Fixpoint any_ok (v : json) : bool :=
  match v with
  | JNum _ | JReal _ => bool_decide (is_Some (number v))
  | JList l => forallb any_ok l
  | JObj ms => forallb (λ '(_, w), any_ok w) ms
  | _ => true
  end.

Example format_0f_ex :
  (λ v, format_0f <$> number v)
    <$> [JNum 42; JNum 9007199254740993; JReal "2.5"; JReal "-0.4"; JReal "1.5e3"; JReal "1e400"; JReal "4e-400"]
  = [Some "42"; Some "9007199254740992"; Some "2"; Some "-0"; Some "1500"; None; Some "0"].
Proof. vm_compute. reflexivity. Qed.

(** ** Values an [any] keeps as they are *)

(** Every number is an integer that a float64 holds exactly. *)
Fixpoint exact (v : json) : bool :=
  match v with
  | JNum z => Z.abs z <=? 2 ^ 53
  | JReal _ => false
  | JList l => forallb exact l
  | JObj ms => forallb (λ '(_, w), exact w) ms
  | _ => true
  end.

Lemma half_even_le n d : 0 < d → 0 ≤ n → half_even n d ≤ n / d + 1.
Proof. intros Hd Hn. unfold half_even. repeat case_match; lia. Qed.

Lemma half_even_1 n : half_even n 1 = n.
Proof. unfold half_even. by rewrite Z.mod_1_r, Z.div_1_r. Qed.

Lemma float64_in_range n : 0 ≤ n ≤ 2 ^ 53 → is_Some (float64 n 1).
Proof.
  intros Hn. unfold float64. destruct (Z.eqb_spec n 0); [done|].
  destruct (scaled n 1 _) as [a0 b0]. set (e := Z.max _ _).
  assert (e ≤ 1) as Hle.
  { pose proof (Z.log2_le_mono n (2 ^ 53) ltac:(lia)) as Hlog. rewrite Z.log2_pow2 in Hlog by lia.
    subst e. change (Z.log2 1) with 0. case_match; lia. }
  clearbody e. assert (2 * 2 ^ 53 + 2 < 2 ^ 1024) as Hbig by done. set (big := 2 ^ 1024) in *. clearbody big.
  unfold scaled. destruct (Z.leb_spec 0 e) as [He|He].
  - assert (half_even n (1 * 2 ^ e) * 2 ^ e < big) as Hlt%Z.leb_gt; [|by rewrite Hlt].
    assert (e = 0 ∨ e = 1) as [-> | ->] by lia; change (2 ^ 0) with 1; change (2 ^ 1) with 2; rewrite ?Z.mul_1_l.
    + rewrite half_even_1. lia.
    + pose proof (half_even_le n 2 ltac:(lia) ltac:(lia)). pose proof (Z.mul_div_le n 2 ltac:(lia)). lia.
  - rewrite half_even_1, Z.div_mul by lia. assert (n < big) as Hlt%Z.leb_gt by lia. by rewrite Hlt.
Qed.

Lemma exact_any_ok v : exact v = true → any_ok v = true.
Proof.
  induction v as [|b|z|s|s|l IH|fs IH] using json_nested_ind; intros Hv; try done.
  - cbn in Hv. apply Z.leb_le in Hv. cbn. apply bool_decide_eq_true, fmap_is_Some, float64_in_range. lia.
  - cbn [exact any_ok] in *. apply forallb_forall. intros v Hin. rewrite forallb_forall in Hv.
    rewrite Forall_forall in IH. apply IH; [by apply list_elem_of_In|by apply Hv].
  - cbn [exact any_ok] in *. apply forallb_forall. intros [k v] Hin. rewrite forallb_forall in Hv.
    rewrite Forall_forall in IH. apply (IH (k, v)); [by apply list_elem_of_In|by apply (Hv (k, v))].
Qed.
