(* ===== verification/ChatService.v ===== *)
(** * The chat service

    server/chat/service/chat_service.go and vectorman_client.go, over the store interface
    [ChatBackend] that server/chat/service/dbman_client.go offers.  A service's state is the
    store, the events it published and the messages it indexed.  MQ and the vector service are
    parameters; the errors of both are ignored where the code ignores them. *)

From S2P Require Import Prelude GoStrings GoEncoding Cursor Paging Env SessionStore ChatStore GoJson.

(** ** The interface to dbman *)
Class ChatBackend (S : Type) := {
  st_CreateRoom : Env → string → ChatRoom → list string → M S string;
  st_AddMember : Env → string → string → string → M S unit;
  st_IsRoomMember : string → string → string → M S bool;
  st_CreateMessage : Env → Message → M S Message;
  st_MarkReadUpTo : Env → string → string → string → string → M S unit;
  st_ListMessages : string → string → Z → option string → M S (list Message);
  st_SearchMessages : string → string → option string → Z → option string → M S (list Message);
  st_GetMessageReaders : string → string → string → M S (list MessageRead);
  st_GetLastReadMessageID : string → string → string → M S string;
  st_GetUnreadCount : string → string → string → M S nat;
  st_GetUnreadCounts : string → string → M S (list RoomUnread);
  st_ListMyRooms : string → string → Z → option time → option string → M S (list ChatRoomSummary);
}.

(** dbman as a store that is called directly, the clamps included: a call reaches it once and its answer is not lost.
    What the network between makes of the same calls is in [Remote] and [RemoteChat]. *)
(* server/dbman/service/chat_service.go: ChatService #19-74 *)
Definition dbman_chat_store `{Postgres} (DBForTenant : string → result unit) : ChatBackend ChatDB := {|
  st_CreateRoom := repo_CreateRoom DBForTenant;
  st_AddMember := repo_AddMember DBForTenant;
  st_IsRoomMember := repo_IsRoomMember DBForTenant;
  st_CreateMessage := repo_CreateMessage DBForTenant;
  st_MarkReadUpTo := repo_MarkReadUpTo DBForTenant;
  st_ListMessages := dbman_ListMessages DBForTenant;
  st_SearchMessages := dbman_SearchMessages DBForTenant;
  st_GetMessageReaders := repo_GetMessageReaders DBForTenant;
  st_GetLastReadMessageID := repo_GetLastReadMessageID DBForTenant;
  st_GetUnreadCount := repo_GetUnreadCount DBForTenant;
  st_GetUnreadCounts := repo_GetUnreadCounts DBForTenant;
  st_ListMyRooms := dbman_ListMyRooms DBForTenant;
|}.

(** The same with two answers of the tenant's router: the one a read mark gets may differ from the one of the
    other calls. *)
Definition two_routers `{Postgres} (DB DBmark : string → result unit) : ChatBackend ChatDB := {|
  st_CreateRoom := repo_CreateRoom DB;
  st_AddMember := repo_AddMember DB;
  st_IsRoomMember := repo_IsRoomMember DB;
  st_CreateMessage := repo_CreateMessage DB;
  st_MarkReadUpTo := repo_MarkReadUpTo DBmark;
  st_ListMessages := dbman_ListMessages DB;
  st_SearchMessages := dbman_SearchMessages DB;
  st_GetMessageReaders := repo_GetMessageReaders DB;
  st_GetLastReadMessageID := repo_GetLastReadMessageID DB;
  st_GetUnreadCount := repo_GetUnreadCount DB;
  st_GetUnreadCounts := repo_GetUnreadCounts DB;
  st_ListMyRooms := dbman_ListMyRooms DB;
|}.

(** Any store, which in addition remembers the messages it is asked to create, whatever it answers. *)
Definition unrecorded {S A} (m : M S A) : M (S * list Message) A := λ '(s, l), let '(s', r) := m s in ((s', l), r).

Definition recording {S} (B : ChatBackend S) : ChatBackend (S * list Message) := {|
  st_CreateRoom env t room ids := unrecorded (st_CreateRoom env t room ids);
  st_AddMember env t r u := unrecorded (st_AddMember env t r u);
  st_IsRoomMember t r u := unrecorded (st_IsRoomMember t r u);
  st_CreateMessage env m := λ '(s, l), let '(s', r) := st_CreateMessage env m s in ((s', l ++ [m]), r);
  st_MarkReadUpTo env t r u id := unrecorded (st_MarkReadUpTo env t r u id);
  st_ListMessages t r limit c := unrecorded (st_ListMessages t r limit c);
  st_SearchMessages t q r limit c := unrecorded (st_SearchMessages t q r limit c);
  st_GetMessageReaders t r id := unrecorded (st_GetMessageReaders t r id);
  st_GetLastReadMessageID t r u := unrecorded (st_GetLastReadMessageID t r u);
  st_GetUnreadCount t r u := unrecorded (st_GetUnreadCount t r u);
  st_GetUnreadCounts t u := unrecorded (st_GetUnreadCounts t u);
  st_ListMyRooms t u limit at_ r := unrecorded (st_ListMyRooms t u limit at_ r);
|}.

(** Any store, with another answer to the question who is in a room. *)
Definition asking_members {S} (f : string → string → string → M S bool) (B : ChatBackend S) : ChatBackend S := {|
  st_CreateRoom := st_CreateRoom;
  st_AddMember := st_AddMember;
  st_IsRoomMember := f;
  st_CreateMessage := st_CreateMessage;
  st_MarkReadUpTo := st_MarkReadUpTo;
  st_ListMessages := st_ListMessages;
  st_SearchMessages := st_SearchMessages;
  st_GetMessageReaders := st_GetMessageReaders;
  st_GetLastReadMessageID := st_GetLastReadMessageID;
  st_GetUnreadCount := st_GetUnreadCount;
  st_GetUnreadCounts := st_GetUnreadCounts;
  st_ListMyRooms := st_ListMyRooms;
|}.

(** ** The vector client *)

(* server/chat/service/vectorman_client.go: VectormanClient *)
Record VectormanClient := mkVectormanClient { vm_endpoint : string; enabled : bool }.

(* server/chat/service/vectorman_client.go: NewVectormanClient *)
Definition NewVectormanClient (endpoint : string) (enabled : bool) : VectormanClient :=
  mkVectormanClient (TrimRightSlash (TrimSpace endpoint)) enabled.

(** What comes back from a request: no request or no transport, a status, and for a good status
    a body that is an object or not. *)
Inductive http_outcome :=
| HttpErr (e : string)
| HttpResponse (status : Z) (body : result (list (string * json))).

(** [http] is the vector service: the answer to a URL and a body. *)
(* server/chat/service/vectorman_client.go: VectormanClient.post *)
Definition vm_post (http : string → string → http_outcome) (m : VectormanClient) (path : string)
    (payload : json) : result (list (string * json)) :=
  match http (vm_endpoint m +:+ path) (marshal_json payload) with
  | HttpErr e => Err e
  | HttpResponse status body =>
      if (300 <=? status)%Z then Err ("vectorman status " +:+ FormatInt status) else body
  end.

Definition json_opt_string (s : option string) : json :=
  match s with None => JNull | Some s => JStr s end.

(* server/chat/service/vectorman_client.go: IndexMessage *)
Definition IndexMessage (http : string → string → http_outcome) (m : VectormanClient)
    (messageID roomID text : string) : result unit :=
  if negb (enabled m) then Ok tt
  else
    let payload := JObj [("message_id", JStr messageID); ("room_id", JStr roomID); ("text", JStr text)] in
    match vm_post http m "/api/v1/vectors/messages/index" payload with
    | Err e => Err e
    | Ok _ => Ok tt
    end.

Fixpoint json_field (fields : list (string * json)) (k : string) : option json :=
  match fields with
  | [] => None
  | (k', v) :: rest => if decide (k' = k) then Some v else json_field rest k
  end.

Definition json_strings (l : list json) : list string :=
  omap (λ v, match v with JStr s => Some s | _ => None end) l.

(* server/chat/service/vectorman_client.go: SemanticSearch *)
Definition SemanticSearch (http : string → string → http_outcome) (m : VectormanClient)
    (query : string) (roomID : option string) (limit : Z) : result (list string) :=
  if negb (enabled m) then Ok []
  else
    let payload := JObj [("limit", JNum limit); ("query", JStr query); ("room_id", json_opt_string roomID)] in
    match vm_post http m "/api/v1/vectors/messages/search" payload with
    | Err e => Err e
    | Ok resp =>
        match json_field resp "ids" with
        | None => Ok []
        | Some (JList raw) => Ok (json_strings raw)
        | Some _ => Err "invalid ids payload"
        end
    end.

(** ** Message metadata *)

(** The loop over [fileIDs]; [seen] holds the identifiers so far. *)
Definition normalizedFileIDs (fileID : option string) (fileIDs : list string) : list string :=
  match fileID with
  | Some id =>
      let trimmed := TrimSpace id in
      if decide (trimmed ≠ "") then trimmed :: dedupe_trim_loop [trimmed] fileIDs
      else dedupe_trim_loop [] fileIDs
  | None => dedupe_trim_loop [] fileIDs
  end.

Definition json_opt_list (l : option (list string)) : json :=
  match l with None => JNull | Some l => JList (JStr <$> l) end.

(** [emojis] is nil when the request has none. *)
(* server/chat/service/chat_service.go: BuildMessageMeta *)
Definition BuildMessageMeta (fileID : option string) (fileIDs : list string)
    (emojis : option (list string)) : string :=
  let ids := normalizedFileIDs fileID fileIDs in
  marshal_json (JObj (("emojis", json_opt_list emojis) ::
    match ids with
    | [] => []
    | first :: _ => [("file_id", JStr first); ("file_ids", JList (JStr <$> ids))]
    end)).

(** ** The service *)

Record ChatSvc (S : Type) := mkChatSvc {
  cstore : S;
  (** tenant, routing key and created message of each publication *)
  mq_sent : list (string * string * Message);
  (** identifier, room and body of each message handed to the vector client *)
  indexed : list (string * string * string);
}.
Arguments mkChatSvc {S}.
Arguments cstore {S}.
Arguments mq_sent {S}.
Arguments indexed {S}.

Section service.
Context {S : Type} `{ChatBackend S}.
Variables (useMQ hasMQ : bool).
(** The search of the vector client. *)
Variable vector : string → option string → Z → result (list string).

Definition on_cstore {A} (m : M S A) : M (ChatSvc S) A := λ s,
  let '(st, r) := m (cstore s) in (mkChatSvc st (mq_sent s) (indexed s), r).

(** The methods that only ask dbman. *)
(* server/chat/service/chat_service.go: CreateRoom *)
Definition CreateRoom (env : Env) (tenantID : string) (room : ChatRoom) (memberIDs : list string) : M (ChatSvc S) string :=
  on_cstore (st_CreateRoom env tenantID room memberIDs).

(* server/chat/service/chat_service.go: AddMember *)
Definition AddMember (env : Env) (tenantID roomID userID : string) : M (ChatSvc S) unit :=
  on_cstore (st_AddMember env tenantID roomID userID).

(* server/chat/service/chat_service.go: IsRoomMember *)
Definition IsRoomMember (tenantID roomID userID : string) : M (ChatSvc S) bool :=
  on_cstore (st_IsRoomMember tenantID roomID userID).

(* server/chat/service/chat_service.go: MarkReadUpTo *)
Definition MarkReadUpTo (env : Env) (tenantID roomID userID messageID : string) : M (ChatSvc S) unit :=
  on_cstore (st_MarkReadUpTo env tenantID roomID userID messageID).

(* server/chat/service/chat_service.go: GetMessageReaders *)
Definition GetMessageReaders (tenantID roomID messageID : string) : M (ChatSvc S) (list MessageRead) :=
  on_cstore (st_GetMessageReaders tenantID roomID messageID).

(* server/chat/service/chat_service.go: GetLastReadMessageID *)
Definition GetLastReadMessageID (tenantID roomID userID : string) : M (ChatSvc S) string :=
  on_cstore (st_GetLastReadMessageID tenantID roomID userID).

(* server/chat/service/chat_service.go: GetUnreadCount *)
Definition GetUnreadCount (tenantID roomID userID : string) : M (ChatSvc S) nat :=
  on_cstore (st_GetUnreadCount tenantID roomID userID).

(* server/chat/service/chat_service.go: GetUnreadCounts *)
Definition GetUnreadCounts (tenantID userID : string) : M (ChatSvc S) (list RoomUnread) :=
  on_cstore (st_GetUnreadCounts tenantID userID).

(* server/chat/service/chat_service.go: IsMQEnabled *)
Definition IsMQEnabled : bool := useMQ && hasMQ.

(* server/chat/service/chat_service.go: CreateMessage *)
Definition CreateMessage (env : Env) (msg : Message) : M (ChatSvc S) Message := λ s,
  let msg := mkMessage (m_TenantID msg) (m_ID msg) (m_RoomID msg) (SenderID msg) (m_Body msg)
               (if decide (MetaJSON msg = "") then "{}" else MetaJSON msg) (m_CreatedAt msg) in
  match on_cstore (st_CreateMessage env msg) s with
  | (s, Err e) => (s, Err e)
  | (s, Ok created) =>
      let s :=
        if IsMQEnabled then
          mkChatSvc (cstore s) (mq_sent s ++ [(m_TenantID msg, "message.created", created)]) (indexed s)
        else s in
      let s := mkChatSvc (cstore s) (mq_sent s) (indexed s ++ [(m_ID created, m_RoomID created, m_Body created)]) in
      let '(s, _) :=
        on_cstore (st_MarkReadUpTo env (m_TenantID msg) (m_RoomID created) (SenderID created) (m_ID created)) s in
      (s, Ok created)
  end.

Definition clamp (limit max fallback : Z) : Z :=
  if ((limit <=? 0) || (max <? limit))%Z then fallback else limit.

(** The page of a service: the items and the encoded cursor. *)
Definition cut_items {A} (enc : A → string) (limit : Z) (items : list A) : list A * string :=
  let '(page, last) := cut_page (Z.to_nat limit) items in (page, default "" (enc <$> last)).

Definition message_cursor (cursor : string) : result (option string) :=
  if decide (TrimSpace cursor ≠ "") then
    match decodeMessageCursor cursor with
    | Err _ => Err "cursor is invalid"
    | Ok parsed => Ok (Some parsed)
    end
  else Ok None.

(* server/chat/service/chat_service.go: ListMessages *)
Definition ListMessages (tenantID roomID : string) (limit : Z) (cursor : string) :
    M (ChatSvc S) (list Message * string) := λ s,
  let limit := clamp limit 200 50 in
  match message_cursor cursor with
  | Err e => (s, Err e)
  | Ok cursorID =>
      match on_cstore (st_ListMessages tenantID roomID (limit + 1) cursorID) s with
      | (s, Err e) => (s, Err e)
      | (s, Ok items) => (s, Ok (cut_items (λ m, encodeMessageCursor (m_ID m)) limit items))
      end
  end.

(** [prefer] is a map whose keys are the preferred identifiers: those first, in the page's order. *)
Definition rerank (ids : list string) (items : list Message) : list Message :=
  let scored := filter (λ m, m_ID m ∈ ids) items in
  if decide (scored = []) then items else scored ++ filter (λ m, m_ID m ∉ ids) items.

(* server/chat/service/chat_service.go: SearchMessages *)
Definition SearchMessages (tenantID q : string) (roomID : option string) (limit : Z) (cursor : string) :
    M (ChatSvc S) (list Message * string) := λ s,
  let limit := clamp limit 100 30 in
  match message_cursor cursor with
  | Err e => (s, Err e)
  | Ok cursorID =>
      match on_cstore (st_SearchMessages tenantID q roomID (limit + 1) cursorID) s with
      | (s, Err e) => (s, Err e)
      | (s, Ok fetched) =>
          let '(items, nextCursor) := cut_items (λ m, encodeMessageCursor (m_ID m)) limit fetched in
          match cursorID with
          | Some _ => (s, Ok (items, nextCursor))
          | None =>
              match vector q roomID limit with
              | Err _ => (s, Ok (items, nextCursor))
              | Ok [] => (s, Ok (items, nextCursor))
              | Ok ids => (s, Ok (rerank ids items, nextCursor))
              end
          end
      end
  end.

(* server/chat/service/chat_service.go: roomCursorTime *)
Definition roomCursorTime (item : ChatRoomSummary) : time :=
  match LatestMessageAt item with
  | Some t => t
  | None => crs_CreatedAt item
  end.

Definition room_cursor (cursor : string) : result (option time * option string) :=
  if decide (TrimSpace cursor ≠ "") then
    match decodeRoomCursor cursor with
    | Err _ => Err "cursor is invalid"
    | Ok (createdAt, roomID) => Ok (Some createdAt, Some roomID)
    end
  else Ok (None, None).

(* server/chat/service/chat_service.go: ListMyRooms *)
Definition ListMyRooms (tenantID userID : string) (limit : Z) (cursor : string) :
    M (ChatSvc S) (list ChatRoomSummary * string) := λ s,
  let limit := clamp limit 200 50 in
  match room_cursor cursor with
  | Err e => (s, Err e)
  | Ok (cursorCreatedAt, cursorRoomID) =>
      match on_cstore (st_ListMyRooms tenantID userID (limit + 1) cursorCreatedAt cursorRoomID) s with
      | (s, Err e) => (s, Err e)
      | (s, Ok items) => (s, Ok (cut_items (λ x, encodeRoomCursor (roomCursorTime x) (crs_RoomID x)) limit items))
      end
  end.
End service.

(** * Lemmas *)

Lemma clamp_range limit max fallback :
  (0 < fallback ≤ max)%Z → (0 < clamp limit max fallback ≤ max)%Z.
Proof.
  intros Hf. unfold clamp. destruct (Z.leb_spec limit 0), (Z.ltb_spec max limit); cbn; lia.
Qed.

Lemma cut_items_fmap {A B} (f : A → B) (enc : B → string) limit l :
  cut_items enc limit (f <$> l)
  = (f <$> (cut_page (Z.to_nat limit) l).1, default "" ((enc ∘ f) <$> (cut_page (Z.to_nat limit) l).2)).
Proof. unfold cut_items. rewrite cut_page_fmap. by destruct (cut_page _ l) as [? []]. Qed.

Lemma message_cursor_string k :
  clean_id k → message_cursor (encodeMessageCursor k) = Ok (Some k).
Proof.
  intros Hk. unfold message_cursor. rewrite decide_True.
  - by rewrite message_cursor_clean.
  - apply encodeMessageCursor_not_blank. by destruct Hk.
Qed.

Section pages.
Context `{Postgres}.
Variable DB : string → result unit.
Implicit Types s : ChatSvc ChatDB.

Lemma list_messages_page (t r : string) (limit : Z) s cursor :
  DB t = Ok tt → limit ≠ 200%Z →
  Forall (λ m, clean_id (m_ID m)) (room_messages t r (cstore s)) →
  good_cursor clean_id cursor →
  let L := clamp limit 200 50 in
  let pg := key_page text_le m_ID (room_messages t r (cstore s)) (Z.to_nat L) cursor in
  (ListMessages (H := dbman_chat_store DB) t r limit (cursor_string encodeMessageCursor cursor) s)
  = (s, Ok (without_tenant <$> pg.1, cursor_string encodeMessageCursor pg.2))
  ∧ good_cursor clean_id pg.2.
Proof.
  intros Hdb Hlim Hclean Hgood. cbv zeta. set (L := clamp limit 200 50).
  assert (HL : (0 < L ≤ 199)%Z).
  { pose proof (clamp_range limit 200 50 ltac:(lia)). unfold L in *. unfold clamp in *.
    destruct (Z.leb_spec limit 0), (Z.ltb_spec 200 limit); cbn in *; lia. }
  unfold ListMessages. fold L.
  assert (message_cursor (cursor_string encodeMessageCursor cursor) = Ok cursor) as ->.
  { destruct cursor as [k|]; [by apply message_cursor_string|]. done. }
  unfold on_cstore. cbn [st_ListMessages dbman_chat_store].
  unfold dbman_ListMessages, repo_ListMessages. rewrite Hdb.
  destruct (Z.leb_spec (L + 1) 0); [lia|]. destruct (Z.ltb_spec 200 (L + 1)); [lia|]. cbn [orb].
  destruct (Z.ltb_spec (L + 1) 0); [lia|]. rewrite cut_items_fmap.
  replace (Z.to_nat (L + 1)) with (S (Z.to_nat L)) by lia.
  unfold key_page. destruct (cut_page (Z.to_nat L) _) as [page next] eqn:Ec. cbn [fst snd].
  split; [destruct s; by destruct next|].
  destruct next as [x|]; [|done]. cbn. rewrite Forall_forall in Hclean. apply Hclean.
  eapply elem_of_query, (cut_page_last (Z.to_nat L)). by rewrite Ec.
Qed.
End pages.

Section rooms.
Context `{Postgres}.

#[export] Instance room_key_po : PartialOrder room_key_le.
Proof.
  split; [split|].
  - intros x. right. by split.
  - intros x y z [Hxy|[Hxy Hxy']] [Hyz|[Hyz Hyz']]; unfold room_key_le; try (left; lia).
    right. split; [congruence|]. by etrans.
  - intros [t1 r1] [t2 r2] [Hxy|[Hxy Hxy']] [Hyz|[Hyz Hyz']]; cbn in *; try lia.
    subst. f_equal. by apply (anti_symm text_le).
Qed.

#[export] Instance room_key_total : Total room_key_le.
Proof.
  intros [t1 r1] [t2 r2]. unfold room_key_le. cbn. destruct (Z.lt_trichotomy t1 t2) as [|[->|]]; auto.
  destruct (total text_le r1 r2); auto.
Qed.

Lemma my_rooms_NoDup (d : ChatDB) (t u : string) : chat_inv d → NoDup (room_key <$> my_rooms t u d).
Proof.
  intros Hd. enough (Hid : NoDup (crs_RoomID <$> my_rooms t u d)).
  { apply (NoDup_fmap_1 snd). rewrite <-list_fmap_compose. exact Hid. }
  unfold my_rooms. destruct (users d !! u) as [me|]; [|constructor]. case_decide; [|constructor].
  pose proof (ci_members d Hd) as Hm. pose proof (ci_rooms d Hd) as Hr.
  induction (room_members d) as [|m ms IH]; [constructor|].
  cbn [fmap list_fmap] in Hm. apply NoDup_cons in Hm as [Hnin Hm]. specialize (IH Hm).
  rewrite filter_cons. case_decide as Hmine; [|done]. cbn [omap list_omap].
  destruct (chat_rooms d !! mb_room m ≫= _) as [x|] eqn:E; [|done]. cbn [fmap list_fmap].
  apply NoDup_cons. split; [|done]. intros Hin.
  assert (Hx : ∀ m x, (chat_rooms d !! mb_room m ≫= λ room, if decide (r_TenantID room = t)
            then Some (room_summary t u me room d) else None) = Some x → crs_RoomID x = mb_room m).
  { intros m' x'. destruct (chat_rooms d !! mb_room m') as [room|] eqn:Er; [|done]. cbn.
    case_decide; [|done]. intros [= <-]. cbn. by apply Hr in Er as [-> _]. }
  rewrite (Hx _ _ E) in Hin. apply list_elem_of_fmap in Hin as (y & Hy & Hin).
  apply list_elem_of_omap in Hin as (m' & Hm' & Ey). rewrite (Hx _ _ Ey) in Hy.
  apply list_elem_of_filter in Hm' as [[_ Hu'] Hm']. apply Hnin.
  apply list_elem_of_fmap. exists m'. split; [|done]. f_equal; [done|]. destruct Hmine. congruence.
Qed.

Definition good_room_key (k : time * string) : Prop := is_int64 k.1 ∧ clean_id k.2.

#[local] Instance good_room_key_dec k : Decision (good_room_key k).
Proof. unfold good_room_key, is_int64. apply _. Defined.
Definition enc_room_key (k : time * string) : string := encodeRoomCursor k.1 k.2.

Lemma room_cursor_string k :
  good_room_key k → room_cursor (enc_room_key k) = Ok (Some k.1, Some k.2).
Proof.
  intros [Ht [Hid Hne]]. unfold room_cursor, enc_room_key. rewrite decide_True.
  - rewrite room_cursor_decodes, wrap64_id, trimmed_TrimSpace by done. by rewrite decide_False.
  - unfold encodeRoomCursor. rewrite trimmed_TrimSpace by auto with msg.
    apply b64_encode_nonempty. destruct (FormatInt _); discriminate.
Qed.

Variable DB : string → result unit.
Implicit Types s : ChatSvc ChatDB.

Lemma list_rooms_page (t u : string) (limit : Z) s cursor :
  DB t = Ok tt → limit ≠ 200%Z →
  Forall (λ x, good_room_key (room_key x)) (my_rooms t u (cstore s)) →
  good_cursor good_room_key cursor →
  let L := clamp limit 200 50 in
  let pg := key_page room_key_le room_key (my_rooms t u (cstore s)) (Z.to_nat L) cursor in
  (ListMyRooms (H := dbman_chat_store DB) t u limit (cursor_string enc_room_key cursor) s)
  = (s, Ok (id <$> pg.1, cursor_string enc_room_key pg.2))
  ∧ good_cursor good_room_key pg.2.
Proof.
  intros Hdb Hlim Hclean Hgood. cbv zeta. set (L := clamp limit 200 50).
  assert (HL : (0 < L ≤ 199)%Z).
  { pose proof (clamp_range limit 200 50 ltac:(lia)). unfold L in *. unfold clamp in *.
    destruct (Z.leb_spec limit 0), (Z.ltb_spec 200 limit); cbn in *; lia. }
  unfold ListMyRooms. fold L.
  assert (room_cursor (cursor_string enc_room_key cursor) = Ok (fst <$> cursor, snd <$> cursor)) as ->.
  { destruct cursor as [k|]; [by apply room_cursor_string|]. done. }
  unfold on_cstore. cbn [st_ListMyRooms dbman_chat_store].
  unfold dbman_ListMyRooms, repo_ListMyRooms. rewrite Hdb.
  destruct (Z.leb_spec (L + 1) 0); [lia|]. destruct (Z.ltb_spec 200 (L + 1)); [lia|]. cbn [orb].
  destruct (Z.ltb_spec (L + 1) 0); [lia|].
  assert (match fst <$> cursor, snd <$> cursor with Some t, Some id => Some (t, id) | _, _ => None end = cursor)
    as -> by (by destruct cursor as [[]|]).
  replace (Z.to_nat (L + 1)) with (S (Z.to_nat L)) by lia.
  unfold key_page, cut_items. destruct (cut_page (Z.to_nat L) _) as [page next] eqn:Ec. cbn [fst snd].
  rewrite list_fmap_id. split; [destruct s; by destruct next|].
  destruct next as [x|]; [|done]. cbn. rewrite Forall_forall in Hclean. apply Hclean.
  eapply elem_of_query, (cut_page_last (Z.to_nat L)). by rewrite Ec.
Qed.
End rooms.

(** ** Metadata *)

Lemma elem_of_normalizedFileIDs fileID fileIDs v :
  v ∈ normalizedFileIDs fileID fileIDs ↔
  v ≠ "" ∧ ∃ raw, (fileID = Some raw ∨ raw ∈ fileIDs) ∧ v = TrimSpace raw.
Proof.
  unfold normalizedFileIDs. destruct fileID as [id|]; [|rewrite elem_of_dedupe_trim_loop; set_solver].
  case_decide as Hid.
  - rewrite elem_of_cons, elem_of_dedupe_trim_loop, list_elem_of_singleton.
    destruct (decide (v = TrimSpace id)) as [->|Hne]; [split; [|by left]|]; [|naive_solver].
    intros _. split; [done|]. exists id. auto.
  - rewrite elem_of_dedupe_trim_loop. split; [naive_solver|].
    intros (Hne & raw & [[= <-]|Hin] & Heq); [congruence|]. split; [done|]. split; [apply not_elem_of_nil|eauto].
Qed.

Lemma NoDup_normalizedFileIDs fileID fileIDs : NoDup (normalizedFileIDs fileID fileIDs).
Proof.
  unfold normalizedFileIDs. destruct fileID as [id|]; [case_decide|]; try apply NoDup_dedupe_trim_loop.
  apply NoDup_cons. split; [|apply NoDup_dedupe_trim_loop].
  rewrite elem_of_dedupe_trim_loop, list_elem_of_singleton. tauto.
Qed.

Lemma filter_partition_perm {A} (Q : A → Prop) `{∀ x, Decision (Q x)} (l : list A) :
  filter Q l ++ filter (λ x, ¬ Q x) l ≡ₚ l.
Proof.
  induction l as [|x l IH]; [done|]. rewrite !filter_cons. case_decide as Hx.
  - rewrite decide_False by naive_solver. cbn. by rewrite IH.
  - rewrite decide_True by done. rewrite <-Permutation_middle. by rewrite IH.
Qed.

(** * Properties *)

(** C1: Paging through a room yields every message once, greatest identifier first.  When every message identifier of
    the room is clean (not empty, no white space at its ends), the tenant's database is found, and dbman is called
    directly on well-formed tables (dbman_tables_well_formed) that stand still, then for any requested limit but 200 a client that starts without a cursor
    and follows next_cursor is given an empty cursor after at most one request more than there are messages, no
    request having failed, and has then got exactly the messages of the room, ordered by identifier downwards, none
    missing and none twice; no listing changes the store. *)
Theorem list_messages_enumerates `{Postgres} DB (t r : string) (limit : Z) (s : ChatSvc ChatDB) :
  DB t = Ok tt → limit ≠ 200%Z → chat_inv (cstore s) →
  Forall (λ m, clean_id (m_ID m)) (room_messages t r (cstore s)) →
  let room := room_messages t r (cstore s) in
  let svc cursor := (ListMessages (H := dbman_chat_store DB) t r limit cursor s).2 in
  crawl (S (length room)) svc "" = Some (without_tenant <$> order_desc text_le m_ID room)
  ∧ order_desc text_le m_ID room ≡ₚ room
  ∧ ∀ cursor, (ListMessages (H := dbman_chat_store DB) t r limit cursor s).1 = s.
Proof.
  intros Hdb Hlim Hinv Hclean. cbv zeta. split; [|split; [apply order_desc_perm|]].
  - change "" with (cursor_string encodeMessageCursor None).
    rewrite (crawl_walk _ (key_page text_le m_ID (room_messages t r (cstore s)) (Z.to_nat (clamp limit 200 50)))
      without_tenant encodeMessageCursor clean_id).
    + rewrite (walk_all text_le m_ID); [done| |].
      * apply NoDup_key_filter, Hinv.
      * pose proof (clamp_range limit 200 50 ltac:(lia)). lia.
    + intros cursor Hgood. destruct (list_messages_page DB t r limit s cursor Hdb Hlim Hclean Hgood) as [Hp Hg].
      cbv zeta in Hp. rewrite Hp. done.
    + intros k [_ Hne]. unfold encodeMessageCursor. by apply b64_encode_nonempty.
    + exact I.
  - intros cursor. unfold ListMessages, on_cstore. cbn [st_ListMessages dbman_chat_store].
    unfold dbman_ListMessages, repo_ListMessages. repeat case_match; simplify_eq; by destruct s.
Qed.

(** C40: The largest page size loses messages.  With limit 200 the service asks dbman for 201 messages,
    which dbman clamps to 50: for a room with more than 50 messages the answer is the 50 newest
    identifiers and an empty cursor, so the client stops and the other messages are never listed. *)
Theorem limit_200_truncates `{Postgres} DB (t r : string) (s : ChatSvc ChatDB) :
  DB t = Ok tt → 50 < length (room_messages t r (cstore s)) →
  let room := room_messages t r (cstore s) in
  ∃ page, ListMessages (H := dbman_chat_store DB) t r 200 "" s = (s, Ok (page, ""))
    ∧ length page = 50 ∧ page = without_tenant <$> take 50 (order_desc text_le m_ID room)
    ∧ crawl (S (length room)) (λ cursor, (ListMessages (H := dbman_chat_store DB) t r 200 cursor s).2) "" = Some page.
Proof.
  intros Hdb Hlen. cbv zeta.
  assert (Hp : ListMessages (H := dbman_chat_store DB) t r 200 "" s
    = (s, Ok (without_tenant <$> take 50 (order_desc text_le m_ID (room_messages t r (cstore s))), ""))).
  { unfold ListMessages, message_cursor, on_cstore. cbn [st_ListMessages dbman_chat_store].
    unfold dbman_ListMessages, repo_ListMessages. rewrite Hdb.
    change (clamp 200 200 50) with 200%Z. change ((200 + 1 <=? 0) || (200 <? 200 + 1))%Z with true. cbn iota.
    rewrite decide_False by (intros Hn; apply Hn; reflexivity).
    change (50 <? 0)%Z with false. cbn iota.
    rewrite cut_items_fmap. unfold query. cbn [before].
    rewrite (filter_all_elem (before text_le m_ID None)) by done.
    change (Z.to_nat 50) with 50. change (Z.to_nat 200) with 200.
    unfold cut_page. rewrite decide_False by (rewrite length_take; lia). by destruct s. }
  eexists. split; [exact Hp|]. split; [|split; [done|]].
  - rewrite length_fmap, length_take, (Permutation_length (order_desc_perm _ _ _)). lia.
  - cbn [crawl]. rewrite Hp. cbn [snd]. by rewrite decide_True.
Qed.

(** Paging through a user's rooms yields each room once, most recent activity first.  For any limit
    but 200, following the cursors enumerates exactly the rooms the user is a member of, ordered by
    last activity and room identifier downwards, provided the activity times are in the range of
    UnixNano and room identifiers are clean. *)
Theorem list_my_rooms_enumerates `{Postgres} DB (t u : string) (limit : Z) (s : ChatSvc ChatDB) :
  DB t = Ok tt → limit ≠ 200%Z → chat_inv (cstore s) →
  Forall (λ x, good_room_key (room_key x)) (my_rooms t u (cstore s)) →
  let rooms := my_rooms t u (cstore s) in
  let svc cursor := (ListMyRooms (H := dbman_chat_store DB) t u limit cursor s).2 in
  crawl (S (length rooms)) svc "" = Some (order_desc room_key_le room_key rooms)
  ∧ order_desc room_key_le room_key rooms ≡ₚ rooms.
Proof.
  intros Hdb Hlim Hinv Hclean. cbv zeta. split; [|apply order_desc_perm].
  change "" with (cursor_string enc_room_key None).
  rewrite (crawl_walk _ (key_page room_key_le room_key (my_rooms t u (cstore s)) (Z.to_nat (clamp limit 200 50)))
    id enc_room_key good_room_key).
  - rewrite (walk_all room_key_le room_key); [cbn; by rewrite list_fmap_id|by apply my_rooms_NoDup|].
    pose proof (clamp_range limit 200 50 ltac:(lia)). lia.
  - intros cursor Hgood. destruct (list_rooms_page DB t u limit s cursor Hdb Hlim Hclean Hgood) as [Hp Hg].
    cbv zeta in Hp. rewrite Hp. done.
  - intros k _. unfold enc_room_key, encodeRoomCursor. apply b64_encode_nonempty.
    destruct (FormatInt _); discriminate.
  - exact I.
Qed.

(** Reranking only reorders.  Whatever the vector service answers, a search returns the page and the
    cursor of the keyword search, the page reordered: the hits the vector service prefers first,
    the others after them, each group in its original order; a cursor page, a failing or an
    empty answer leaves the order alone. *)
Theorem search_rerank_reorders {S} `{ChatBackend S} (vector1 vector2 : string → option string → Z → result (list string))
    (t q : string) (roomID : option string) (limit : Z) (cursor : string) (s : ChatSvc S) :
  (∀ q r l, vector1 q r l = Err "off") →
  let plain := SearchMessages vector1 t q roomID limit cursor s in
  let ranked := SearchMessages vector2 t q roomID limit cursor s in
  ranked.1 = plain.1
  ∧ match plain.2 with
    | Err e => ranked.2 = Err e
    | Ok (items, next) =>
        ∃ items', ranked.2 = Ok (items', next) ∧ items' ≡ₚ items
          ∧ (items' = items ∨ ∃ ids, vector2 q roomID (clamp limit 100 30) = Ok ids
               ∧ items' = filter (λ m, m_ID m ∈ ids) items ++ filter (λ m, m_ID m ∉ ids) items)
    end.
Proof.
  intros Hoff. cbv zeta. unfold SearchMessages. destruct (message_cursor cursor) as [cursorID|e]; [|done].
  destruct (on_cstore _ s) as [s1 [fetched|e]]; [|done].
  destruct (cut_items _ _ fetched) as [items next].
  destruct cursorID as [k|]; cbn; [split; [done|]; exists items; auto|].
  rewrite Hoff. destruct (vector2 q roomID (clamp limit 100 30)) as [[|id ids]|e]; cbn;
    (split; [done|]).
  - exists items. auto.
  - eexists. split; [done|]. unfold rerank. case_decide.
    + split; [done|by left].
    + split; [apply filter_partition_perm|]. right. by exists (id :: ids).
  - exists items. auto.
Qed.

(** The files of a message.  The file identifiers of the metadata are the non-blank ones among
    file_id and file_ids, trimmed, each once; file_id, when it is not blank, comes first, and the
    metadata name as file_id the first of them (and no file at all when there is none). *)
Theorem message_meta_files (fileID : option string) (fileIDs : list string) (emojis : option (list string)) :
  let ids := normalizedFileIDs fileID fileIDs in
  NoDup ids
  ∧ (∀ v, v ∈ ids ↔ v ≠ "" ∧ ∃ raw, (fileID = Some raw ∨ raw ∈ fileIDs) ∧ v = TrimSpace raw)
  ∧ (∀ raw, fileID = Some raw → TrimSpace raw ≠ "" → head ids = Some (TrimSpace raw))
  ∧ BuildMessageMeta fileID fileIDs emojis
    = marshal_json (JObj (("emojis", json_opt_list emojis) ::
        match head ids with
        | None => []
        | Some first => [("file_id", JStr first); ("file_ids", JList (JStr <$> ids))]
        end)).
Proof.
  cbv zeta. split; [apply NoDup_normalizedFileIDs|]. split; [apply elem_of_normalizedFileIDs|]. split.
  - intros raw -> Hne. unfold normalizedFileIDs. by rewrite decide_True.
  - unfold BuildMessageMeta. by destruct (normalizedFileIDs fileID fileIDs).
Qed.

(** What CreateMessage leaves of the store, the queue and the vector client, over dbman: nothing new when it fails, and
    the message when it succeeds, with the read mark if that could be set. *)
Definition created_outcome `{Postgres} (DBmark : string → result unit) (useMQ hasMQ : bool) (env : Env) (msg : Message)
    (s : ChatSvc ChatDB) (out : ChatSvc ChatDB * result Message) : Prop :=
  match out with
  | (s', Err _) => s' = s
  | (s', Ok m) =>
      m_ID m = new_uuid env ∧ m_TenantID m = m_TenantID msg ∧ m_RoomID m = m_RoomID msg
      ∧ SenderID m = SenderID msg ∧ m_Body m = m_Body msg ∧ m_CreatedAt m = NOW env
      ∧ messages (cstore s') = messages (cstore s) ++ [as_stored m]
      ∧ mq_sent s' = mq_sent s ++ (if useMQ && hasMQ then [(m_TenantID msg, "message.created", m)] else [])
      ∧ indexed s' = indexed s ++ [(m_ID m, m_RoomID m, m_Body m)]
      ∧ match DBmark (m_TenantID msg) with
        | Ok _ => message_reads (cstore s') !! (m_ID m, SenderID m)
                  = Some (mkMessageRead (m_TenantID m) (m_RoomID m) (m_ID m) (SenderID m) (NOW env))
        | Err _ => message_reads (cstore s') = message_reads (cstore s)
        end
  end.

Lemma create_message_cases `{Postgres} DB DBmark (useMQ hasMQ : bool) (env : Env) (msg : Message)
    (s : ChatSvc ChatDB) :
  chat_inv (cstore s) →
  created_outcome DBmark useMQ hasMQ env msg s (CreateMessage (H := two_routers DB DBmark) useMQ hasMQ env msg s).
Proof.
  intros Hinv. unfold created_outcome, CreateMessage, on_cstore. cbn [st_CreateMessage st_MarkReadUpTo two_routers].
  set (msg1 := mkMessage _ _ _ _ _ _ _).
  pose proof (create_message_inv DB env msg1 (cstore s) Hinv) as Hinv1. revert Hinv1.
  unfold repo_CreateMessage at 1 2. cbn [m_TenantID msg1]. destruct (DB (m_TenantID msg)) as [[]|];
    [|intros _; by destruct s].
  case_match; [intros _; by destruct s|]. case_decide as Hfk; [intros _; by destruct s|].
  case_decide; [intros _; by destruct s|]. cbn [fst].
  set (m := mkMessage _ (new_uuid env) _ _ _ _ _). set (d1 := set_messages _ (cstore s)). intros Hd1.
  set (s1 := mkChatSvc d1 _ _).
  assert (Hs1 : ∀ b : bool, cstore (if b then mkChatSvc (cstore s1)
    (mq_sent s1 ++ [(m_TenantID msg, "message.created", m)]) (indexed s1) else s1) = d1) by (by intros []).
  cbn [cstore]. rewrite Hs1.
  assert (Hroom : as_stored m ∈ room_messages (m_TenantID msg) (m_RoomID m) d1).
  { apply elem_of_room_messages. split; [done|]. split; [done|]. cbn. apply elem_of_app. right. by left. }
  assert (Hmark : ∃ d2 r2, repo_MarkReadUpTo DBmark env (m_TenantID msg) (m_RoomID m) (SenderID m) (m_ID m) d1 = (d2, r2)
    ∧ messages d2 = messages d1
    ∧ match DBmark (m_TenantID msg) with
      | Ok _ => message_reads d2 !! (m_ID m, SenderID m)
                = Some (mkMessageRead (m_TenantID m) (m_RoomID m) (m_ID m) (SenderID m) (NOW env))
      | Err _ => message_reads d2 = message_reads d1
      end).
  { unfold repo_MarkReadUpTo. destruct (DBmark (m_TenantID msg)) as [[]|e]; [|by exists d1, (Err e)]. cbv zeta.
    assert (Hin : as_stored m ∈ read_targets (m_TenantID msg) (m_RoomID m) (m_ID m) d1).
    { apply elem_of_read_targets; [done|]. exists (as_stored m). repeat split; try done. right. by split. }
    rewrite decide_False by (intros E; rewrite E in Hin; by apply elem_of_nil in Hin).
    rewrite decide_False by (cbn; tauto). eexists _, _. split; [done|]. split; [done|].
    destruct (foldl_upsert_read (NOW env) (SenderID m) d1 _ Hd1
      (read_targets_in (m_TenantID msg) (m_RoomID m) (m_ID m) d1)) as [Hrd _].
    exact (Hrd (as_stored m) Hin). }
  destruct Hmark as (d2 & r2 & -> & Hmsg & Hrd). cbn [fst snd cstore mq_sent indexed].
  repeat split; try done; unfold IsMQEnabled; destruct (useMQ && hasMQ); cbn; by rewrite ?app_nil_r.
Qed.

Lemma create_message_svc_inv `{Postgres} DB (useMQ hasMQ : bool) (env : Env) (msg : Message)
    (s : ChatSvc ChatDB) :
  chat_inv (cstore s) → chat_inv (cstore (CreateMessage (H := dbman_chat_store DB) useMQ hasMQ env msg s).1).
Proof.
  intros Hinv. unfold CreateMessage, on_cstore. cbn [st_CreateMessage st_MarkReadUpTo dbman_chat_store].
  set (msg1 := mkMessage _ _ _ _ _ _ _). pose proof (create_message_inv DB env msg1 (cstore s) Hinv) as Hinv1.
  destruct (repo_CreateMessage DB env msg1 (cstore s)) as [d1 [m|e]]; [|done]. cbn [fst] in Hinv1.
  set (s1 := if IsMQEnabled useMQ hasMQ then _ else _).
  assert (Hs1 : cstore s1 = d1) by (unfold s1; by destruct (IsMQEnabled useMQ hasMQ)). cbn [cstore]. rewrite Hs1.
  pose proof (mark_read_up_to_inv DB env (m_TenantID msg1) (m_RoomID m) (SenderID m) (m_ID m) d1 Hinv1) as Hinv2.
  by destruct (repo_MarkReadUpTo DB env (m_TenantID msg1) (m_RoomID m) (SenderID m) (m_ID m) d1).
Qed.


(** * Concrete runs *)

#[local] Existing Instance demo_pg.

Definition demo_svc : ChatSvc ChatDB := mkChatSvc demo_chat [] [].

Lemma list_messages_enumerates_witness :
  let svc cursor := (ListMessages (H := dbman_chat_store (λ _, Ok tt)) "a" "r" 1 cursor demo_svc).2 in
  crawl 3 svc "" = Some (without_tenant <$> order_desc text_le m_ID (room_messages "a" "r" demo_chat)).
Proof.
  apply (proj1 (list_messages_enumerates (λ _, Ok tt) "a" "r" 1 demo_svc eq_refl
    ltac:(discriminate) demo_chat_inv
    ltac:(by_computation))).
Defined.

Definition many_messages : ChatDB :=
  set_messages ((λ i, mkMessage "a" (FormatInt (Z.of_nat i)) "r" "u" "x" "{}" 0) <$> seq 0 60) demo_chat.

Lemma limit_200_truncates_witness :
  ∃ page, ListMessages (H := dbman_chat_store (λ _, Ok tt)) "a" "r" 200 "" (mkChatSvc many_messages [] [])
          = (mkChatSvc many_messages [] [], Ok (page, "")) ∧ length page = 50.
Proof.
  destruct (limit_200_truncates (λ _, Ok tt) "a" "r" (mkChatSvc many_messages [] []) eq_refl)
    as (page & H1 & H2 & _).
  - apply Nat.ltb_lt. vm_compute. reflexivity.
  - exists page. split; assumption.
Defined.

Definition member_chat : ChatDB := (repo_AddMember (λ _, Ok tt) (mkEnv 30 "") "a" "r" "u" demo_chat).1.

Lemma list_my_rooms_enumerates_witness :
  let svc cursor := (ListMyRooms (H := dbman_chat_store (λ _, Ok tt)) "a" "u" 5 cursor (mkChatSvc member_chat [] [])).2 in
  crawl 2 svc "" = Some (order_desc room_key_le room_key (my_rooms "a" "u" member_chat)).
Proof.
  apply (proj1 (list_my_rooms_enumerates (λ _, Ok tt) "a" "u" 5 (mkChatSvc member_chat [] []) eq_refl
    ltac:(discriminate) (insert_member_inv (mkEnv 30 "") "a" "r" "u" demo_chat demo_chat_inv)
    ltac:(by_computation))).
Defined.

Lemma search_rerank_reorders_witness :
  let plain := SearchMessages (H := dbman_chat_store (λ _, Ok tt)) (λ _ _ _, Err "off") "a" "s" None 5 "" demo_svc in
  let ranked := SearchMessages (H := dbman_chat_store (λ _, Ok tt)) (λ _ _ _, Ok ["m1"]) "a" "s" None 5 "" demo_svc in
  ranked.1 = plain.1.
Proof.
  apply (proj1 (search_rerank_reorders (H := dbman_chat_store (λ _, Ok tt)) (λ _ _ _, Err "off")
    (λ _ _ _, Ok ["m1"]) "a" "s" None 5 "" demo_svc ltac:(reflexivity))).
Defined.

