(* ===== verification/RealtimeRooms.v ===== *)
(** * Realtime rooms: sockets, consumers and the Redis channel

    server/chat/service/realtime_service.go, the part that fans the messages of a room out.  The
    first socket of a room starts a goroutine that subscribes to the room's channel; the last
    one to leave cancels its context.  [join] and [leave] run under the service's lock; a consumer
    receives outside of it and delivers under it, so the steps of a consumer interleave with
    those of the others.

    Redis is modelled by what its documentation says of publication: a message reaches the
    subscriptions that exist when it is published, in order.  [prompt] says whether
    [ReceiveMessage] refuses to hand out a queued message once its context is cancelled.  A delivery hands the
    message to the sockets; whether a socket's WriteMessage succeeds, whose error the code ignores, is not modelled. *)

From S2P Require Import Prelude GoStrings.

(** ** State *)

(** [cancel] names the consumer whose context it cancels. *)
(* server/chat/service/realtime_service.go: roomState *)
Record roomState := mkRoomState { conns : gset nat; cancel : nat }.

(** What a consumer does: it has not subscribed yet, it waits with the publications queued for it,
    it holds one that it has received, or it has returned. *)
Inductive phase :=
| Starting
| Waiting (queue : list nat)
| Holding (i : nat) (queue : list nat)
| Returned.

Record consumer := mkConsumer {
  c_roomKey : string;
  c_redis : string;
  c_channel : string;
  c_done : bool;
  c_phase : phase;
}.

(** [published] has the Redis server, the channel and the payload of every publication, [delivered]
    the socket and the number of the publication of every write, [joined] every socket so far;
    [tickets] remembers the tenant and the room each of them asked for. *)
(* server/chat/service/realtime_service.go: RealtimeService *)
Record RealtimeService := mkRealtimeService {
  rooms : gmap string roomState;
  consumers : gmap nat consumer;
  fresh_consumer : nat;
  published : list (string * string * string);
  delivered : list (nat * nat);
  joined : gset nat;
  closed : list nat;
  tickets : gmap nat (string * string);
}.

(* server/chat/service/realtime_service.go: NewRealtimeService *)
Definition NewRealtimeService : RealtimeService := mkRealtimeService ∅ ∅ 0 [] [] ∅ [] ∅.

Definition set_rooms r s := mkRealtimeService r (consumers s) (fresh_consumer s) (published s)
  (delivered s) (joined s) (closed s) (tickets s).
Definition set_consumers c s := mkRealtimeService (rooms s) c (fresh_consumer s) (published s)
  (delivered s) (joined s) (closed s) (tickets s).

Definition set_phase (p : phase) (c : consumer) : consumer :=
  mkConsumer (c_roomKey c) (c_redis c) (c_channel c) (c_done c) p.
Definition cancelled (c : consumer) : consumer :=
  mkConsumer (c_roomKey c) (c_redis c) (c_channel c) true (c_phase c).

Definition room_key (tenantID roomID : string) : string := tenantID +:+ ":" +:+ roomID.
Definition room_channel (tenantID roomID : string) : string :=
  "tenant:" +:+ tenantID +:+ ":room:" +:+ roomID.

(** ** Under the lock *)

(* server/chat/service/realtime_service.go: join *)
Definition join (roomKey channel redis : string) (conn : nat) (s : RealtimeService) : RealtimeService :=
  let '(cs, fresh, state) :=
    match rooms s !! roomKey with
    | Some state => (consumers s, fresh_consumer s, state)
    | None =>
        let id := fresh_consumer s in
        (<[id := mkConsumer roomKey redis channel false Starting]> (consumers s), S id, mkRoomState ∅ id)
    end in
  mkRealtimeService (<[roomKey := mkRoomState ({[conn]} ∪ conns state) (cancel state)]> (rooms s))
    cs fresh (published s) (delivered s) ({[conn]} ∪ joined s) (closed s) (tickets s).

(* server/chat/service/realtime_service.go: leave *)
Definition leave (roomKey : string) (conn : nat) (s : RealtimeService) : RealtimeService :=
  let s :=
    match rooms s !! roomKey with
    | None => s
    | Some state =>
        let rest := conns state ∖ {[conn]} in
        if decide (rest = ∅) then
          set_rooms (delete roomKey (rooms s)) (set_consumers (alter cancelled (cancel state) (consumers s)) s)
        else set_rooms (<[roomKey := mkRoomState rest (cancel state)]> (rooms s)) s
    end in
  mkRealtimeService (rooms s) (consumers s) (fresh_consumer s) (published s) (delivered s) (joined s)
    (conn :: closed s) (tickets s).

(** The beginning of a connection, as [HandleWS] does it for a tenant and a room. *)
Definition ws_join (tenantID roomID redis : string) (conn : nat) (s : RealtimeService) : RealtimeService :=
  let s := join (room_key tenantID roomID) (room_channel tenantID roomID) redis conn s in
  mkRealtimeService (rooms s) (consumers s) (fresh_consumer s) (published s) (delivered s) (joined s)
    (closed s) (<[conn := (tenantID, roomID)]> (tickets s)).

(** ** Publication *)

Definition push (redis channel : string) (i : nat) (c : consumer) : consumer :=
  if decide (c_redis c = redis ∧ c_channel c = channel) then
    match c_phase c with
    | Waiting q => set_phase (Waiting (q ++ [i])) c
    | Holding j q => set_phase (Holding j (q ++ [i])) c
    | _ => c
    end
  else c.

Definition redis_publish (redis channel payload : string) (s : RealtimeService) : RealtimeService :=
  mkRealtimeService (rooms s) (push redis channel (length (published s)) <$> consumers s) (fresh_consumer s)
    (published s ++ [(redis, channel, payload)]) (delivered s) (joined s) (closed s) (tickets s).

(** ** The consumer

    Its subscription, the reception of a message, and the delivery to the sockets the room has at
    that time. *)

Definition subscribe (id : nat) (s : RealtimeService) : RealtimeService :=
  set_consumers (alter (set_phase (Waiting [])) id (consumers s)) s.

Definition receive (id i : nat) (q : list nat) (s : RealtimeService) : RealtimeService :=
  set_consumers (alter (set_phase (Holding i q)) id (consumers s)) s.

Definition return_ (id : nat) (s : RealtimeService) : RealtimeService :=
  set_consumers (alter (set_phase Returned) id (consumers s)) s.

Definition sockets (roomKey : string) (s : RealtimeService) : gset nat :=
  match rooms s !! roomKey with None => ∅ | Some state => conns state end.

(* server/chat/service/realtime_service.go: consumeRedis *)
Definition deliver (id : nat) (roomKey : string) (i : nat) (q : list nat) (s : RealtimeService) : RealtimeService :=
  mkRealtimeService (rooms s) (alter (set_phase (Waiting q)) id (consumers s)) (fresh_consumer s) (published s)
    (delivered s ++ ((λ conn, (conn, i)) <$> elements (sockets roomKey s))) (joined s) (closed s) (tickets s).

(** ** Interleavings

    A socket joins once.  [ReceiveMessage] may fail at any time. *)
Inductive rt_step (prompt : bool) : RealtimeService → RealtimeService → Prop :=
| step_join s tenantID roomID redis conn :
    conn ∉ joined s → rt_step prompt s (ws_join tenantID roomID redis conn s)
| step_leave s roomKey conn : rt_step prompt s (leave roomKey conn s)
| step_publish s redis channel payload : rt_step prompt s (redis_publish redis channel payload s)
| step_subscribe s id c :
    consumers s !! id = Some c → c_phase c = Starting → rt_step prompt s (subscribe id s)
| step_receive s id c i q :
    consumers s !! id = Some c → c_phase c = Waiting (i :: q) →
    (prompt = true → c_done c = false) →
    rt_step prompt s (receive id i q s)
| step_deliver s id c i q :
    consumers s !! id = Some c → c_phase c = Holding i q →
    rt_step prompt s (deliver id (c_roomKey c) i q s)
| step_return s id c q :
    consumers s !! id = Some c → c_phase c = Waiting q ∨ c_phase c = Starting →
    rt_step prompt s (return_ id s).

Definition rt_reachable (prompt : bool) (s : RealtimeService) : Prop :=
  rtc (rt_step prompt) NewRealtimeService s.

(** What a consumer may still deliver; a cancelled one that is prompt only what it holds. *)
Definition queued (c : consumer) : list nat :=
  match c_phase c with Waiting q => q | Holding _ q => q | _ => [] end.
Definition held (c : consumer) : list nat :=
  match c_phase c with Holding i _ => [i] | _ => [] end.
Definition deliverable (c : consumer) : list nat :=
  held c ++ (if c_done c then [] else queued c).

(** The rooms and the running consumers correspond, and a socket is in one room. *)
Record rooms_ok (s : RealtimeService) : Prop := mkRoomsOk {
  ok_room k st : rooms s !! k = Some st →
    conns st ≠ ∅ ∧ ∃ c, consumers s !! cancel st = Some c ∧ c_roomKey c = k ∧ c_done c = false;
  ok_live id c : consumers s !! id = Some c → c_done c = false →
    ∃ st, rooms s !! c_roomKey c = Some st ∧ cancel st = id;
  ok_fresh id c : consumers s !! id = Some c → id < fresh_consumer s;
  ok_joined k x : x ∈ sockets k s → x ∈ joined s;
  ok_one k1 k2 x : x ∈ sockets k1 s → x ∈ sockets k2 s → k1 = k2;
}.

(** Consumers and sockets stem from the same joins, and what reaches a socket was published on the
    channel of a room with its key. *)
Record routed_ok (s : RealtimeService) : Prop := mkRoutedOk {
  routed_consumer id c : consumers s !! id = Some c →
    ∃ y t r, tickets s !! y = Some (t, r) ∧ c_roomKey c = room_key t r ∧ c_channel c = room_channel t r;
  routed_pending id c i : consumers s !! id = Some c → i ∈ held c ++ queued c →
    ∃ p, published s !! i = Some (c_redis c, c_channel c, p);
  routed_socket k x : x ∈ sockets k s → ∃ t r, tickets s !! x = Some (t, r) ∧ k = room_key t r;
  routed_delivered x i : (x, i) ∈ delivered s →
    ∃ t r y t' r' redis p, tickets s !! x = Some (t, r) ∧ tickets s !! y = Some (t', r')
      ∧ room_key t r = room_key t' r' ∧ published s !! i = Some (redis, room_channel t' r', p);
  routed_ticket x : is_Some (tickets s !! x) → x ∈ joined s;
}.

(** No publication can reach a socket twice. *)
Record once_ok (s : RealtimeService) : Prop := mkOnceOk {
  once_nodup : NoDup (delivered s);
  once_delivered x i : (x, i) ∈ delivered s → x ∈ joined s ∧ i < length (published s);
  once_bound id c i : consumers s !! id = Some c → i ∈ deliverable c → i < length (published s);
  once_queue id c : consumers s !! id = Some c → NoDup (deliverable c);
  once_disjoint id1 id2 c1 c2 i : consumers s !! id1 = Some c1 → consumers s !! id2 = Some c2 →
    c_roomKey c1 = c_roomKey c2 → i ∈ deliverable c1 → i ∈ deliverable c2 → id1 = id2;
  once_pending id c i x : consumers s !! id = Some c → i ∈ deliverable c →
    x ∈ sockets (c_roomKey c) s → (x, i) ∉ delivered s;
}.

(** * Lemmas *)

Lemma elem_of_sockets k s x : x ∈ sockets k s ↔ ∃ st, rooms s !! k = Some st ∧ x ∈ conns st.
Proof. unfold sockets. destruct (rooms s !! k); [naive_solver|set_solver]. Qed.

Lemma room_sockets k s st : rooms s !! k = Some st → sockets k s = conns st.
Proof. unfold sockets. by intros ->. Qed.

Lemma sockets_join k channel redis conn s k' :
  sockets k' (join k channel redis conn s)
  = if decide (k' = k) then {[conn]} ∪ sockets k s else sockets k' s.
Proof.
  unfold sockets, join. destruct (rooms s !! k) as [st|] eqn:Hk; cbn;
    (destruct (decide (k' = k)) as [->|]; [by rewrite lookup_insert_eq|by rewrite lookup_insert_ne]).
Qed.

Lemma sockets_leave k conn s k' :
  sockets k' (leave k conn s) = if decide (k' = k) then sockets k s ∖ {[conn]} else sockets k' s.
Proof.
  unfold sockets, leave. destruct (rooms s !! k) as [st|] eqn:Hk; cbn; [|].
  - destruct (decide (conns st ∖ {[conn]} = ∅)) as [He|He]; cbn;
      (destruct (decide (k' = k)) as [->|]; rewrite ?lookup_delete_eq, ?lookup_delete_ne, ?lookup_insert_eq,
        ?lookup_insert_ne by done; done).
  - destruct (decide (k' = k)) as [->|]; rewrite ?Hk; [set_solver|done].
Qed.

(** Changing the phase of a consumer. *)
Lemma lookup_alter_phase (cs : gmap nat consumer) p id id' c' :
  alter (set_phase p) id cs !! id' = Some c' →
  ∃ c, cs !! id' = Some c ∧ c_roomKey c' = c_roomKey c ∧ c_done c' = c_done c
    ∧ c_channel c' = c_channel c ∧ c_redis c' = c_redis c
    ∧ (id' = id ∧ c' = set_phase p c ∨ id' ≠ id ∧ c' = c).
Proof.
  intros H. destruct (decide (id' = id)) as [->|Hne].
  - rewrite lookup_alter_eq in H. apply fmap_Some in H as (c & Hc & ->). exists c. naive_solver.
  - rewrite lookup_alter_ne in H by done. exists c'. naive_solver.
Qed.

Lemma push_fields redis channel i c :
  c_roomKey (push redis channel i c) = c_roomKey c ∧ c_done (push redis channel i c) = c_done c.
Proof. unfold push. case_decide; [destruct (c_phase c)|]; done. Qed.

Lemma push_deliverable redis channel i c :
  deliverable (push redis channel i c) = deliverable c
  ∨ c_done c = false ∧ deliverable (push redis channel i c) = deliverable c ++ [i].
Proof.
  unfold push. case_decide; [|by left].
  destruct c as [k r ch d [|q|j q|]]; cbn; [by left| | |by left]; destruct d; unfold deliverable; cbn; auto.
Qed.

(** ** Rooms and consumers *)

(** Steps that leave the rooms and the contexts alone. *)
Lemma rooms_ok_phases s s' :
  rooms s' = rooms s → joined s' = joined s → fresh_consumer s' = fresh_consumer s →
  (∀ id, (λ c, (c_roomKey c, c_done c)) <$> consumers s' !! id
         = (λ c, (c_roomKey c, c_done c)) <$> consumers s !! id) →
  rooms_ok s → rooms_ok s'.
Proof.
  intros Hr Hj Hf Hc [Hroom Hlive Hfresh Hjoined Hone].
  assert (Hs : ∀ k, sockets k s' = sockets k s) by (intros k; unfold sockets; by rewrite Hr).
  assert (Hback : ∀ id c', consumers s' !! id = Some c' →
    ∃ c, consumers s !! id = Some c ∧ c_roomKey c = c_roomKey c' ∧ c_done c = c_done c').
  { intros id c' Hl. specialize (Hc id). rewrite Hl in Hc. destruct (consumers s !! id); naive_solver. }
  split.
  - rewrite Hr. intros k st Hst. destruct (Hroom k st Hst) as (Hne & c & Hl & Hk & Hd). split; [done|].
    specialize (Hc (cancel st)). rewrite Hl in Hc. destruct (consumers s' !! cancel st) as [c'|]; [|done].
    exists c'. naive_solver.
  - intros id c' Hl Hd. destruct (Hback id c' Hl) as (c & Hl' & Hk & Hd'). rewrite Hr, <-Hk.
    apply (Hlive id c Hl'). by rewrite Hd'.
  - intros id c' Hl. destruct (Hback id c' Hl) as (c & Hl' & _). rewrite Hf. eauto.
  - intros k x. rewrite Hs, Hj. apply Hjoined.
  - intros k1 k2 x. rewrite !Hs. apply Hone.
Qed.

Lemma alter_phase_contexts (cs : gmap nat consumer) p id id' :
  (λ c, (c_roomKey c, c_done c)) <$> alter (set_phase p) id cs !! id'
  = (λ c, (c_roomKey c, c_done c)) <$> cs !! id'.
Proof.
  destruct (decide (id' = id)) as [->|]; [rewrite lookup_alter_eq|by rewrite lookup_alter_ne].
  by destruct (cs !! id).
Qed.

Lemma join_rooms_ok k channel redis conn s :
  conn ∉ joined s → rooms_ok s → rooms_ok (join k channel redis conn s).
Proof.
  intros Hnew [Hroom Hlive Hfresh Hjoined Hone].
  assert (Hsock : ∀ k', conn ∉ sockets k' s) by (intros k' Hx; by apply Hnew, (Hjoined k')).
  split.
  - intros k' st'. unfold join. destruct (rooms s !! k) as [st|] eqn:Hk; cbn.
    + rewrite lookup_insert_Some. intros [[<- <-]|[Hne Hl]]; [|by apply Hroom].
      destruct (Hroom k st Hk) as (_ & Hc). cbn. split; [set_solver|done].
    + rewrite lookup_insert_Some. intros [[<- <-]|[Hne Hl]]; cbn.
      * split; [set_solver|]. rewrite lookup_insert_eq. by eexists.
      * destruct (Hroom k' st' Hl) as (He & c & Hc & Hck & Hd). split; [done|]. exists c.
        rewrite lookup_insert_ne; [done|]. apply Hfresh in Hc. lia.
  - intros id c. unfold join. destruct (rooms s !! k) as [st|] eqn:Hk; cbn.
    + intros Hl Hd. destruct (Hlive id c Hl Hd) as (st' & Hst & Hcan).
      destruct (decide (c_roomKey c = k)) as [Heq|]; [|rewrite lookup_insert_ne by done; eauto].
      rewrite Heq in *. rewrite lookup_insert_eq. eexists. split; [done|]. cbn. naive_solver.
    + rewrite lookup_insert_Some. intros [[<- <-]|[Hne Hl]] Hd; cbn.
      * rewrite lookup_insert_eq. by eexists.
      * destruct (Hlive id c Hl Hd) as (st' & Hst & Hcan). exists st'. split; [|done].
        rewrite lookup_insert_ne; [done|]. congruence.
  - intros id c. unfold join. destruct (rooms s !! k) as [st|] eqn:Hk; cbn; [apply Hfresh|].
    rewrite lookup_insert_Some. intros [[<- _]|[_ Hl]]; [lia|]. apply Hfresh in Hl. lia.
  - intros k' x. rewrite sockets_join. unfold join. destruct (rooms s !! k); cbn;
      (case_decide as Hk; rewrite ?elem_of_union, ?elem_of_singleton;
       [intros [Hx|Hx]; [by left|right; by apply (Hjoined k)]|intros Hx; right; by apply (Hjoined k')]).
  - intros k1 k2 x. rewrite !sockets_join.
    destruct (decide (k1 = k)), (decide (k2 = k)); subst; try done;
      rewrite ?elem_of_union, ?elem_of_singleton; intros H1 H2.
    + destruct H1 as [->|H1]; [by apply Hsock in H2|by apply (Hone _ _ x)].
    + destruct H2 as [->|H2]; [by apply Hsock in H1|by apply (Hone _ _ x)].
    + by apply (Hone _ _ x).
Qed.

Lemma ws_join_rooms_ok t r redis conn s :
  rooms_ok (join (room_key t r) (room_channel t r) redis conn s) → rooms_ok (ws_join t r redis conn s).
Proof. by intros []. Qed.

Lemma leave_consumers k conn s id :
  rooms_ok s → consumers (leave k conn s) !! id
  = (λ c, if decide (c_done c = false ∧ c_roomKey c = k ∧ sockets k s ∖ {[conn]} = ∅) then cancelled c else c)
    <$> consumers s !! id.
Proof.
  intros [Hroom Hlive _ _ _]. unfold leave, sockets.
  assert (Hsame : ∀ P : consumer → Prop, (∀ c, consumers s !! id = Some c → ¬ P c) →
    ∀ (dec : ∀ c, Decision (P c)), consumers s !! id = (λ c, if dec c then cancelled c else c) <$> consumers s !! id).
  { intros P Hno dec. destruct (consumers s !! id) as [c|]; cbn; [|done]. destruct (dec c); naive_solver. }
  destruct (rooms s !! k) as [st|] eqn:Hk; cbn.
  - destruct (Hroom k st Hk) as (_ & c & Hc & Hck & Hd). case_decide as He; cbn.
    + destruct (decide (id = cancel st)) as [->|Hne].
      * rewrite lookup_alter_eq, Hc. cbn. by rewrite decide_True.
      * rewrite lookup_alter_ne by done. apply Hsame. intros c' Hc' (Hd' & Hk' & _).
        destruct (Hlive id c' Hc' Hd') as (st' & Hst' & Hcan). rewrite Hk' in Hst'. congruence.
    + apply Hsame. naive_solver.
  - apply Hsame. intros c' Hc' (Hd' & Hk' & _). destruct (Hlive id c' Hc' Hd') as (st' & Hst' & _).
    rewrite Hk' in Hst'. congruence.
Qed.

Lemma leave_rooms k conn s k' :
  rooms (leave k conn s) !! k'
  = if decide (k' = k) then
      rooms s !! k ≫= λ st, if decide (conns st ∖ {[conn]} = ∅) then None
                           else Some (mkRoomState (conns st ∖ {[conn]}) (cancel st))
    else rooms s !! k'.
Proof.
  unfold leave. destruct (rooms s !! k) as [st|] eqn:Hk; cbn.
  - destruct (decide (conns st ∖ {[conn]} = ∅)); cbn;
      (case_decide; subst; by rewrite ?lookup_delete_eq, ?lookup_delete_ne, ?lookup_insert_eq, ?lookup_insert_ne).
  - case_decide; by subst.
Qed.

Lemma leave_fields k conn s :
  joined (leave k conn s) = joined s ∧ fresh_consumer (leave k conn s) = fresh_consumer s
  ∧ published (leave k conn s) = published s ∧ delivered (leave k conn s) = delivered s.
Proof. unfold leave. destruct (rooms s !! k); [case_decide|]; done. Qed.

Lemma leave_rooms_ok k conn s : rooms_ok s → rooms_ok (leave k conn s).
Proof.
  intros Hok. pose proof Hok as [Hroom Hlive Hfresh Hjoined Hone].
  destruct (leave_fields k conn s) as (Hj & Hf & _).
  split.
  - intros k' st'. rewrite leave_rooms, leave_consumers by done. case_decide as Hk; subst.
    + destruct (rooms s !! k) as [st|] eqn:Hst; cbn; [|done]. case_decide as He; [done|]. intros [= <-]. cbn.
      destruct (Hroom k st Hst) as (_ & c & Hc & Hck & Hd). split; [done|]. exists c. rewrite Hc. cbn.
      rewrite decide_False; [done|]. rewrite (room_sockets k s st Hst). naive_solver.
    + intros Hst. destruct (Hroom k' st' Hst) as (Hne & c & Hc & Hck & Hd). split; [done|]. exists c.
      rewrite Hc. cbn. rewrite decide_False; naive_solver.
  - intros id c'. rewrite leave_consumers by done. intros (c & Hc & ->)%fmap_Some Hd.
    destruct (decide (c_done c = false ∧ _)) as [|Hcase]; [done|]. destruct (Hlive id c Hc Hd) as (st & Hst & Hcan).
    rewrite leave_rooms. destruct (decide (c_roomKey c = k)) as [Hk|]; [|eauto]. subst k. rewrite Hst. cbn.
    rewrite decide_False; [by eexists|]. intros He. apply Hcase. by rewrite (room_sockets _ s st Hst).
  - intros id c'. rewrite leave_consumers, Hf by done. intros (c & Hc & _)%fmap_Some. eauto.
  - intros k' x. rewrite sockets_leave, Hj. case_decide; subst; rewrite ?elem_of_difference; [intros [Hx _]|intros Hx]; eauto.
  - intros k1 k2 x. rewrite !sockets_leave.
    destruct (decide (k1 = k)), (decide (k2 = k)); subst; try done; rewrite ?elem_of_difference;
      naive_solver.
Qed.

Lemma step_rooms_ok prompt s s' : rt_step prompt s s' → rooms_ok s → rooms_ok s'.
Proof.
  intros Hstep. destruct Hstep.
  - intros Hok. apply ws_join_rooms_ok, join_rooms_ok; done.
  - apply leave_rooms_ok.
  - apply rooms_ok_phases; try done. intros id. cbn. rewrite lookup_fmap.
    destruct (consumers s !! id) as [c|]; [|done]. cbn. by destruct (push_fields redis channel (length (published s)) c) as [-> ->].
  - apply rooms_ok_phases; try done. intros id'. apply alter_phase_contexts.
  - apply rooms_ok_phases; try done. intros id'. apply alter_phase_contexts.
  - apply rooms_ok_phases; try done. intros id'. apply alter_phase_contexts.
  - apply rooms_ok_phases; try done. intros id'. apply alter_phase_contexts.
Qed.

Lemma new_rooms_ok : rooms_ok NewRealtimeService.
Proof. split; cbn; try (intros *; by rewrite ?lookup_empty); unfold sockets; cbn; set_solver. Qed.

(** ** At most one delivery *)

Lemma deliverable_cancelled c : deliverable (cancelled c) `sublist_of` deliverable c.
Proof. unfold deliverable, cancelled. cbn. rewrite app_nil_r. by apply sublist_inserts_r. Qed.

(** Steps that deliver nothing and let no consumer deliver more. *)
Lemma once_ok_shrink s s' :
  (∀ id c', consumers s' !! id = Some c' → deliverable c' = [] ∨
    ∃ c, consumers s !! id = Some c ∧ c_roomKey c' = c_roomKey c ∧ deliverable c' `sublist_of` deliverable c) →
  delivered s' = delivered s → published s' = published s → joined s ⊆ joined s' →
  (∀ k x, x ∈ sockets k s' → x ∈ sockets k s ∨ x ∉ joined s) →
  once_ok s → once_ok s'.
Proof.
  intros Hc Hd Hp Hj Hs [Hnd Hdel Hbound Hqueue Hdisj Hpend].
  assert (Hold : ∀ id c' i, consumers s' !! id = Some c' → i ∈ deliverable c' →
    ∃ c, consumers s !! id = Some c ∧ c_roomKey c' = c_roomKey c ∧ i ∈ deliverable c).
  { intros id c' i Hl Hi. destruct (Hc id c' Hl) as [He|(c & Hl' & Hk & Hsub)].
    - rewrite He in Hi. by apply elem_of_nil in Hi.
    - exists c. split; [done|]. split; [done|]. by eapply elem_of_sublist. }
  split; rewrite ?Hd, ?Hp.
  - done.
  - intros x i Hx. destruct (Hdel x i Hx). split; [by apply Hj|done].
  - intros id c' i Hl Hi. destruct (Hold id c' i Hl Hi) as (c & Hl' & _ & Hi'). eauto.
  - intros id c' Hl. destruct (Hc id c' Hl) as [->|(c & Hl' & _ & Hsub)]; [constructor|].
    eapply sublist_NoDup; [|exact Hsub]. eauto.
  - intros id1 id2 c1 c2 i Hl1 Hl2 Hk Hi1 Hi2.
    destruct (Hold _ _ _ Hl1 Hi1) as (d1 & Hd1 & Hk1 & Hj1), (Hold _ _ _ Hl2 Hi2) as (d2 & Hd2 & Hk2 & Hj2).
    apply (Hdisj id1 id2 d1 d2 i); congruence.
  - intros id c' i x Hl Hi Hx Hin. destruct (Hold _ _ _ Hl Hi) as (c & Hl' & Hk & Hi').
    destruct (Hs _ _ Hx) as [Hx'|Hx']; [|by apply Hx', (Hdel x i)].
    rewrite Hk in Hx'. by apply (Hpend id c i x).
Qed.

(** Likewise for a new phase of one consumer. *)
Lemma once_ok_phase id c p s :
  consumers s !! id = Some c → deliverable (set_phase p c) `sublist_of` deliverable c →
  once_ok s → once_ok (set_consumers (alter (set_phase p) id (consumers s)) s).
Proof.
  intros Hl Hsub. apply once_ok_shrink; try done; [|by left].
  intros id' c' (c0 & Hl0 & Hk & _ & _ & _ & [[-> ->]|[_ ->]])%lookup_alter_phase; right; exists c0.
  - by rewrite Hl in Hl0; simplify_eq.
  - by repeat split.
Qed.

Lemma publish_once_ok redis channel payload s :
  rooms_ok s → once_ok s → once_ok (redis_publish redis channel payload s).
Proof.
  intros Hok [Hnd Hdel Hbound Hqueue Hdisj Hpend]. set (n := length (published s)).
  assert (Hc : ∀ id c', consumers (redis_publish redis channel payload s) !! id = Some c' →
    ∃ c, consumers s !! id = Some c ∧ c_roomKey c' = c_roomKey c ∧ c_done c' = c_done c
      ∧ (deliverable c' = deliverable c ∨ c_done c = false ∧ deliverable c' = deliverable c ++ [n])).
  { cbn. intros id c'. rewrite lookup_fmap. intros (c & Hl & ->)%fmap_Some. exists c.
    destruct (push_fields redis channel n c) as [Hk Hd].
    repeat split; try done. apply push_deliverable. }
  assert (Hin : ∀ id c' i, consumers (redis_publish redis channel payload s) !! id = Some c' → i ∈ deliverable c' →
    ∃ c, consumers s !! id = Some c ∧ c_roomKey c' = c_roomKey c
      ∧ (i ∈ deliverable c ∨ c_done c = false ∧ i = n)).
  { intros id c' i Hl Hi. destruct (Hc id c' Hl) as (c & Hl' & Hk & _ & [He|[Hd He]]); rewrite He in Hi;
      exists c; [tauto|]. apply elem_of_app in Hi as [Hi|Hi%list_elem_of_singleton]; tauto. }
  assert (Hlen : length (published (redis_publish redis channel payload s)) = S n) by (cbn; rewrite length_app; cbn; lia).
  split; rewrite ?Hlen.
  - done.
  - intros x i Hx. destruct (Hdel x i Hx). split; [done|]. lia.
  - intros id c' i Hl Hi. destruct (Hin id c' i Hl Hi) as (c & Hl' & _ & [Hi'|[_ ->]]); [|lia].
    pose proof (Hbound id c i Hl' Hi'). lia.
  - intros id c' Hl. destruct (Hc id c' Hl) as (c & Hl' & _ & _ & [->|[_ ->]]); [eauto|].
    apply NoDup_app. split; [eauto|]. split; [|apply NoDup_singleton].
    intros i Hi Hn%list_elem_of_singleton. subst i. pose proof (Hbound id c n Hl' Hi). lia.
  - intros id1 id2 c1 c2 i Hl1 Hl2 Hk Hi1 Hi2.
    destruct (Hin _ _ _ Hl1 Hi1) as (d1 & Hd1 & Hk1 & Hj1), (Hin _ _ _ Hl2 Hi2) as (d2 & Hd2 & Hk2 & Hj2).
    destruct Hj1 as [Hj1|[Hlive1 ->]], Hj2 as [Hj2|[Hlive2 Hn]]; subst.
    + apply (Hdisj id1 id2 d1 d2 i); congruence.
    + pose proof (Hbound _ _ _ Hd1 Hj1). lia.
    + pose proof (Hbound _ _ _ Hd2 Hj2). lia.
    + destruct (ok_live _ Hok _ _ Hd1 Hlive1) as (st1 & Hst1 & <-), (ok_live _ Hok _ _ Hd2 Hlive2) as (st2 & Hst2 & <-).
      congruence.
  - intros id c' i x Hl Hi Hx Hdx. destruct (Hin _ _ _ Hl Hi) as (c & Hl' & Hk & [Hi'|[_ ->]]).
    + apply (Hpend id c i x); try done. by rewrite <-Hk.
    + destruct (Hdel x n Hdx). lia.
Qed.

Lemma deliver_once_ok id c i q s :
  consumers s !! id = Some c → c_phase c = Holding i q →
  rooms_ok s → once_ok s → once_ok (deliver id (c_roomKey c) i q s).
Proof.
  intros Hl Hph Hok Honce. pose proof Honce as [Hnd Hdel Hbound Hqueue Hdisj Hpend].
  assert (Hheld : deliverable c = i :: deliverable (set_phase (Waiting q) c)).
  { unfold deliverable, held, queued. rewrite Hph. by destruct c. }
  assert (Hi : i ∈ deliverable c) by (rewrite Hheld; by left).
  assert (Hsub : deliverable (set_phase (Waiting q) c) `sublist_of` deliverable c) by (rewrite Hheld; by constructor).
  destruct (once_ok_phase id c (Waiting q) s Hl Hsub Honce) as [_ _ Hbound' Hqueue' Hdisj' Hpend'].
  assert (Hnew : ∀ x j, (x, j) ∈ (λ conn, (conn, i)) <$> elements (sockets (c_roomKey c) s) →
    j = i ∧ x ∈ sockets (c_roomKey c) s).
  { intros x j (y & [= -> ->] & Hy)%list_elem_of_fmap. split; [done|]. by apply elem_of_elements in Hy. }
  split; cbn.
  - apply NoDup_app. split; [done|]. split.
    + intros [x j] Hold [-> Hx]%Hnew. by apply (Hpend id c i x).
    + apply NoDup_fmap_2; [by intros ?? [= ->]|apply NoDup_elements].
  - intros x j [Hx|Hx]%elem_of_app; [by apply Hdel|]. apply Hnew in Hx as [-> Hx].
    split; [by apply (ok_joined _ Hok (c_roomKey c))|by apply (Hbound id c)].
  - exact Hbound'.
  - exact Hqueue'.
  - exact Hdisj'.
  - intros id' c' j x Hl' Hj Hx [Hold|Hx']%elem_of_app; [by apply (Hpend' id' c' j x)|].
    apply Hnew in Hx' as [-> Hx']. pose proof (ok_one _ Hok _ _ _ Hx Hx') as Hk.
    apply lookup_alter_phase in Hl' as (d & Hld & Hkd & _ & _ & _ & [[-> ->]|[Hne ->]]).
    + rewrite Hl in Hld. simplify_eq. pose proof (Hqueue id d Hl) as Hq. rewrite Hheld in Hq.
      by apply NoDup_cons in Hq as [Hq _].
    + apply Hne. by apply (Hdisj id' id d c i).
Qed.

Lemma join_consumers k channel redis conn s id c :
  consumers (join k channel redis conn s) !! id = Some c →
  consumers s !! id = Some c ∨ c = mkConsumer k redis channel false Starting.
Proof.
  unfold join. destruct (rooms s !! k); cbn; [by left|]. rewrite lookup_insert_Some. intros [[_ <-]|[_ Hl]]; auto.
Qed.

Lemma join_fields k channel redis conn s :
  joined (join k channel redis conn s) = {[conn]} ∪ joined s
  ∧ published (join k channel redis conn s) = published s ∧ delivered (join k channel redis conn s) = delivered s
  ∧ tickets (join k channel redis conn s) = tickets s.
Proof. unfold join. by destruct (rooms s !! k). Qed.

Lemma ws_join_once_ok t r redis conn s :
  conn ∉ joined s → once_ok s → once_ok (ws_join t r redis conn s).
Proof.
  intros Hnew. destruct (join_fields (room_key t r) (room_channel t r) redis conn s) as (Hj & Hp & Hd & _).
  apply once_ok_shrink; cbn; [|done|done|rewrite Hj; set_solver|].
  - intros id c Hl. apply join_consumers in Hl as [Hl| ->]; [right; by exists c|by left].
  - intros k x Hx. change (x ∈ sockets k (join (room_key t r) (room_channel t r) redis conn s)) in Hx.
    rewrite sockets_join in Hx. case_decide; subst; [|by left].
    apply elem_of_union in Hx as [->%elem_of_singleton|Hx]; [by right|by left].
Qed.

Lemma leave_once_ok k conn s : rooms_ok s → once_ok s → once_ok (leave k conn s).
Proof.
  intros Hok. destruct (leave_fields k conn s) as (Hj & _ & Hp & Hd).
  apply once_ok_shrink; [|done|done|by rewrite Hj|].
  - intros id c'. rewrite leave_consumers by done. intros (c & Hl & ->)%fmap_Some. right. exists c.
    case_decide; [|done]. split; [done|]. split; [done|]. apply deliverable_cancelled.
  - intros k' x. rewrite sockets_leave. case_decide; subst; [|by left]. rewrite elem_of_difference. tauto.
Qed.

(** A prompt consumer that is cancelled receives nothing any more. *)
Lemma step_once_ok s s' : rt_step true s s' → rooms_ok s → once_ok s → once_ok s'.
Proof.
  intros Hstep Hok. destruct Hstep as [| |s|s id c Hl Hph|s id c i q Hl Hph Hd|s id c i q Hl Hph|s id c q Hl Hph].
  - by apply ws_join_once_ok.
  - by apply leave_once_ok.
  - by apply publish_once_ok.
  - apply (once_ok_phase id c); [done|]. unfold deliverable. cbn. destruct (c_done c); apply sublist_nil_l.
  - apply (once_ok_phase id c); [done|]. unfold deliverable, held, queued. rewrite Hph. cbn. by rewrite Hd.
  - by apply deliver_once_ok.
  - apply (once_ok_phase id c); [done|]. unfold deliverable. cbn. destruct (c_done c); apply sublist_nil_l.
Qed.

(** ** Where messages come from *)

(** Steps that change only rooms, contexts and phases. *)
Lemma routed_ok_same s s' :
  tickets s' = tickets s → published s' = published s → delivered s' = delivered s → joined s' = joined s →
  (∀ k x, x ∈ sockets k s' → x ∈ sockets k s) →
  (∀ id c', consumers s' !! id = Some c' → ∃ c, consumers s !! id = Some c ∧ c_roomKey c' = c_roomKey c
     ∧ c_redis c' = c_redis c ∧ c_channel c' = c_channel c ∧ held c' ++ queued c' ⊆ held c ++ queued c) →
  routed_ok s → routed_ok s'.
Proof.
  intros Ht Hp Hd Hj Hs Hc [Rc Rp Rs Rd Rt]. split; rewrite ?Ht, ?Hp, ?Hd, ?Hj; try done.
  - intros id c' Hl. destruct (Hc id c' Hl) as (c & Hl' & -> & _ & -> & _). eauto.
  - intros id c' i Hl Hi. destruct (Hc id c' Hl) as (c & Hl' & _ & -> & -> & Hsub). eauto.
  - intros k x Hx. eauto.
Qed.

Lemma routed_ok_phase id c p s :
  consumers s !! id = Some c → held (set_phase p c) ++ queued (set_phase p c) ⊆ held c ++ queued c →
  routed_ok s → routed_ok (set_consumers (alter (set_phase p) id (consumers s)) s).
Proof.
  intros Hl Hsub. apply routed_ok_same; try done.
  intros id' c' (c0 & Hl0 & Hk & _ & Hch & Hr & [[-> ->]|[_ ->]])%lookup_alter_phase; exists c0; [|done].
  rewrite Hl in Hl0. by simplify_eq.
Qed.

Lemma ws_join_routed_ok t r redis conn s :
  conn ∉ joined s → routed_ok s → routed_ok (ws_join t r redis conn s).
Proof.
  intros Hnew [Rc Rp Rs Rd Rt].
  destruct (join_fields (room_key t r) (room_channel t r) redis conn s) as (Hj & Hp & Hd & Htk).
  assert (Hnone : tickets s !! conn = None).
  { destruct (tickets s !! conn) eqn:Ht; [|done]. destruct Hnew. apply Rt. by eexists. }
  assert (Hkeep : ∀ y v, tickets s !! y = Some v → tickets (ws_join t r redis conn s) !! y = Some v).
  { intros y v Hy. cbn. rewrite Htk, lookup_insert_ne; [done|congruence]. }
  assert (Hme : tickets (ws_join t r redis conn s) !! conn = Some (t, r)) by (cbn; by rewrite lookup_insert_eq).
  split.
  - intros id c [Hl| ->]%join_consumers; [|by eexists conn, t, r].
    destruct (Rc id c Hl) as (y & t' & r' & Hy & Hk). exists y, t', r'. split; [by apply Hkeep|done].
  - cbn. rewrite Hp. intros id c i [Hl| ->]%join_consumers; [eauto|]. intros Hi%elem_of_nil. done.
  - intros k x Hx. change (x ∈ sockets k (join (room_key t r) (room_channel t r) redis conn s)) in Hx.
    rewrite sockets_join in Hx. case_decide as Hk; [apply elem_of_union in Hx as [->%elem_of_singleton|Hx]|].
    + eauto.
    + destruct (Rs _ x Hx) as (t' & r' & Hx' & Hk'). subst k. exists t', r'. auto.
    + destruct (Rs _ x Hx) as (t' & r' & Hx' & Hk'). exists t', r'. auto.
  - intros x i Hx. cbn in Hx. rewrite Hd in Hx. destruct (Rd x i Hx) as (t1 & r1 & y & t2 & r2 & rd & p & Hx1 & Hy & Hk & Hi).
    exists t1, r1, y, t2, r2, rd, p. repeat split; [by apply Hkeep|by apply Hkeep|done|]. cbn. by rewrite Hp.
  - intros x. cbn. rewrite Hj, Htk. destruct (decide (x = conn)) as [->|Hne]; [set_solver|].
    rewrite lookup_insert_ne by done. intros Hx. apply elem_of_union_r. by apply Rt.
Qed.

Lemma publish_routed_ok redis channel payload s :
  routed_ok s → routed_ok (redis_publish redis channel payload s).
Proof.
  intros [Rc Rp Rs Rd Rt].
  assert (Hc : ∀ id c', consumers (redis_publish redis channel payload s) !! id = Some c' →
    ∃ c, consumers s !! id = Some c ∧ c' = push redis channel (length (published s)) c).
  { cbn. intros id c'. rewrite lookup_fmap. intros (c & Hl & ->)%fmap_Some. by exists c. }
  assert (Hkeep : ∀ i v, published s !! i = Some v → published (redis_publish redis channel payload s) !! i = Some v).
  { cbn. intros i v Hi. by apply lookup_app_l_Some. }
  split.
  - intros id c' Hl. destruct (Hc id c' Hl) as (c & Hl' & ->). destruct (Rc id c Hl') as (y & t & r & Hy & Hk & Hch).
    exists y, t, r. unfold push. case_decide; [destruct (c_phase c)|]; done.
  - intros id c' i Hl Hi. destruct (Hc id c' Hl) as (c & Hl' & ->).
    assert (Hch : c_redis (push redis channel (length (published s)) c) = c_redis c
      ∧ c_channel (push redis channel (length (published s)) c) = c_channel c).
    { unfold push. case_decide; [destruct (c_phase c)|]; done. }
    destruct Hch as [-> ->].
    assert (Hi' : i ∈ held c ++ queued c ∨ i = length (published s) ∧ c_redis c = redis ∧ c_channel c = channel).
    { revert Hi. unfold push, held, queued. case_decide as Hcase; [|by left].
      destruct (c_phase c) as [|q|j q|] eqn:Hph; cbn; rewrite ?Hph; try tauto;
        rewrite ?elem_of_cons, ?elem_of_app, ?list_elem_of_singleton; tauto. }
    destruct Hi' as [Hi'|(-> & -> & ->)].
    + destruct (Rp id c i Hl' Hi') as [p Hpub]. exists p. by apply Hkeep.
    + exists payload. cbn. rewrite lookup_app_r by lia. by rewrite Nat.sub_diag.
  - exact Rs.
  - intros x i Hx. destruct (Rd x i Hx) as (t1 & r1 & y & t2 & r2 & rd & p & Hx1 & Hy & Hk & Hi).
    exists t1, r1, y, t2, r2, rd, p. repeat split; try done. by apply Hkeep.
  - exact Rt.
Qed.

Lemma deliver_routed_ok id c i q s :
  consumers s !! id = Some c → c_phase c = Holding i q → routed_ok s → routed_ok (deliver id (c_roomKey c) i q s).
Proof.
  intros Hl Hph Hrt. pose proof Hrt as [Rc Rp Rs Rd Rt].
  destruct (routed_ok_phase id c (Waiting q) s Hl) as [Rc' Rp' _ _ _]; [|done|].
  { unfold held, queued. rewrite Hph. cbn. by apply list_subseteq_cons. }
  split; [exact Rc'|exact Rp'|exact Rs| |exact Rt].
  intros x j [Hx|Hx]%elem_of_app; [by apply Rd|].
  apply list_elem_of_fmap in Hx as (y & [= -> ->] & Hy%elem_of_elements).
  destruct (Rs _ _ Hy) as (t & r & Ht & Hk). destruct (Rc id c Hl) as (z & t' & r' & Hz & Hk' & Hch).
  destruct (Rp id c i Hl) as [p Hpub]; [unfold held; rewrite Hph; by left|]. rewrite Hch in Hpub.
  exists t, r, z, t', r', (c_redis c), p. repeat split; try done. congruence.
Qed.

Lemma step_routed_ok prompt s s' : rt_step prompt s s' → rooms_ok s → routed_ok s → routed_ok s'.
Proof.
  intros Hstep Hok. destruct Hstep as [|s k x|s|s id c Hl Hph|s id c i q Hl Hph Hd|s id c i q Hl Hph|s id c q Hl Hph].
  - by apply ws_join_routed_ok.
  - destruct (leave_fields k x s) as (Hj & _ & Hp & Hd). apply routed_ok_same; try done.
    + unfold leave. destruct (rooms s !! k); [case_decide|]; done.
    + intros k' y. rewrite sockets_leave. case_decide; subst; [rewrite elem_of_difference; tauto|done].
    + intros id c'. rewrite leave_consumers by done. intros (c & Hl & ->)%fmap_Some. exists c.
      case_decide; repeat split; done.
  - by apply publish_routed_ok.
  - apply (routed_ok_phase id c); [done|]. set_solver.
  - apply (routed_ok_phase id c); [done|]. unfold held, queued. by rewrite Hph.
  - by apply deliver_routed_ok.
  - apply (routed_ok_phase id c); [done|]. set_solver.
Qed.

Lemma new_routed_ok : routed_ok NewRealtimeService.
Proof.
  split; cbn; try (intros *; by rewrite ?lookup_empty); unfold sockets; cbn; try set_solver.
Qed.

Lemma new_once_ok : once_ok NewRealtimeService.
Proof.
  split; cbn; [constructor| |intros *; by rewrite lookup_empty..].
  intros x i Hx. by apply elem_of_nil in Hx.
Qed.

Lemma reachable_ok prompt s : rt_reachable prompt s → rooms_ok s ∧ routed_ok s.
Proof.
  apply (rtc_ind_r (λ s, rooms_ok s ∧ routed_ok s)).
  - split; [apply new_rooms_ok|apply new_routed_ok].
  - intros s1 s2 _ Hstep [Hok Hrt]. split; [by eapply step_rooms_ok|by eapply step_routed_ok].
Qed.

Lemma reachable_once s : rt_reachable true s → once_ok s.
Proof.
  intros Hreach. enough (rooms_ok s ∧ once_ok s) by tauto. revert s Hreach.
  apply (rtc_ind_r (λ s, rooms_ok s ∧ once_ok s)).
  - split; [apply new_rooms_ok|apply new_once_ok].
  - intros s1 s2 _ Hstep [Hok Ho]. split; [by eapply step_rooms_ok|by eapply step_once_ok].
Qed.

(** ** A consumer running alone *)

(** The loop of a consumer, until its queue is empty. *)
Fixpoint drain (fuel : nat) (id : nat) (s : RealtimeService) : RealtimeService :=
  match fuel, consumers s !! id with
  | S fuel', Some c =>
      match c_phase c with
      | Waiting (i :: q) => drain fuel' id (receive id i q s)
      | Holding i q => drain fuel' id (deliver id (c_roomKey c) i q s)
      | _ => s
      end
  | _, _ => s
  end.

(** The publications written to a socket, in order. *)
Definition seen (x : nat) (s : RealtimeService) : list nat :=
  snd <$> filter (λ d, d.1 = x) (delivered s).

Lemma seen_deliver id k i q s x :
  seen x (deliver id k i q s) = seen x s ++ (if decide (x ∈ sockets k s) then [i] else []).
Proof.
  unfold seen. cbn. rewrite filter_app, fmap_app. f_equal.
  case_decide as Hx; rewrite <-elem_of_elements in Hx; pose proof (NoDup_elements (sockets k s)) as Hnd;
    revert Hx Hnd; generalize (elements (sockets k s)) as l.
  - induction l as [|y l IH]; [by intros ?%elem_of_nil|]. intros Hx [Hy Hnd]%NoDup_cons. rewrite fmap_cons.
    destruct (decide (y = x)) as [->|Hne].
    + rewrite filter_cons_True, fmap_cons by done. f_equal. rewrite filter_none_elem; [done|].
      intros [z j] (w & [= -> ->] & Hw)%list_elem_of_fmap. cbn. by intros ->.
    + rewrite filter_cons_False by done. apply IH; [|done]. by apply elem_of_cons in Hx as [->|Hx].
  - intros l Hx _. rewrite filter_none_elem; [done|].
    intros [z j] (w & [= -> ->] & Hw)%list_elem_of_fmap. cbn. by intros ->.
Qed.

(** Two steps for each publication in the queue, one for a publication it holds. *)
Definition work (c : consumer) : nat := length (held c) + 2 * length (queued c).

Lemma drain_delivers prompt n id c s :
  consumers s !! id = Some c → c_done c = false → (∃ q, c_phase c = Waiting q) ∨ (∃ i q, c_phase c = Holding i q) →
  work c ≤ n →
  rtc (rt_step prompt) s (drain n id s)
  ∧ (∀ x, seen x (drain n id s)
      = seen x s ++ (if decide (x ∈ sockets (c_roomKey c) s) then held c ++ queued c else []))
  ∧ rooms (drain n id s) = rooms s ∧ consumers (drain n id s) !! id = Some (set_phase (Waiting []) c).
Proof.
  revert c s. induction n as [|n IH]; intros c s Hl Hd Hrun Hw.
  - destruct Hrun as [[[|i q] Hq]|(i & q & Hq)]; unfold work, held, queued in *; rewrite Hq in *; cbn in *; [|lia|lia].
    split; [done|]. split; [|split; [done|by rewrite Hl, <-Hq; destruct c]].
    intros x. case_decide; by rewrite app_nil_r.
  - cbn [drain]. rewrite Hl. destruct Hrun as [[[|i q] Hq]|(i & q & Hq)]; rewrite Hq.
    + split; [done|]. split; [|split; [done|by rewrite Hl, <-Hq; destruct c]].
      intros x. unfold held, queued. rewrite Hq. case_decide; by rewrite app_nil_r.
    + destruct (IH (set_phase (Holding i q) c) (receive id i q s)) as (H1 & H2 & H3 & H4).
      * cbn. by rewrite lookup_alter_eq, Hl.
      * done.
      * right. by exists i, q.
      * unfold work, held, queued in *. rewrite Hq in Hw. cbn in *. lia.
      * split; [eapply rtc_l; [by eapply step_receive|done]|]. split; [|split; [by rewrite H3|by rewrite H4]].
        intros x. rewrite H2. unfold held, queued. by rewrite Hq.
    + destruct (IH (set_phase (Waiting q) c) (deliver id (c_roomKey c) i q s)) as (H1 & H2 & H3 & H4).
      * cbn. by rewrite lookup_alter_eq, Hl.
      * done.
      * left. by exists q.
      * unfold work, held, queued in *. rewrite Hq in Hw. cbn in *. lia.
      * split; [eapply rtc_l; [by eapply step_deliver|done]|]. split; [|split; [by rewrite H3|by rewrite H4]].
        intros x. rewrite H2, seen_deliver. unfold held, queued. rewrite Hq. cbn. unfold sockets. cbn.
        case_decide; by rewrite <-?app_assoc, ?app_nil_r.
Qed.

(** No socket is written the same publication twice. *)
Lemma seen_once s x : rt_reachable true s → NoDup (seen x s).
Proof.
  intros Hreach. pose proof (once_nodup _ (reachable_once _ Hreach)) as Hnd. unfold seen.
  apply NoDup_fmap_2_strong; [|by apply NoDup_filter].
  intros [x1 i1] [x2 i2] [H1 _]%list_elem_of_filter [H2 _]%list_elem_of_filter. cbn in *. congruence.
Qed.

(** * Theorems *)

(** C26: Rooms and consumers stay in step.  In every reachable state, under any interleaving of joins,
    leaves, publications and consumers, a room of the table has at least one socket and one
    consumer with its key whose context is not cancelled; every consumer whose context is not cancelled
    is the one of the room with its key, so each room has exactly one; and a socket is in one room. *)
Theorem rooms_and_consumers prompt (s : RealtimeService) :
  rt_reachable prompt s →
  (∀ k st, rooms s !! k = Some st → conns st ≠ ∅
     ∧ ∃ c, consumers s !! cancel st = Some c ∧ c_roomKey c = k ∧ c_done c = false)
  ∧ (∀ id c, consumers s !! id = Some c → c_done c = false →
       ∃ st, rooms s !! c_roomKey c = Some st ∧ cancel st = id)
  ∧ (∀ k1 k2 x, x ∈ sockets k1 s → x ∈ sockets k2 s → k1 = k2).
Proof. by intros [[Hroom Hlive _ _ Hone] _]%reachable_ok. Qed.

(** C27: A room's messages reach its sockets in order and at most once.  In every reachable state, a
    consumer that has subscribed can run and writes what it holds and what is queued for it, in the order
    of publication, to exactly the sockets of its room; and if [ReceiveMessage] hands out nothing
    after its context is cancelled, no socket ever receives the same publication twice. *)
Theorem messages_in_order_once prompt (s : RealtimeService) (id : nat) (c : consumer) :
  rt_reachable prompt s → consumers s !! id = Some c → c_done c = false →
  c_phase c ≠ Starting → c_phase c ≠ Returned →
  let s' := drain (work c) id s in
  rt_reachable prompt s'
  ∧ (∀ x, seen x s' = seen x s ++ (if decide (x ∈ sockets (c_roomKey c) s) then held c ++ queued c else []))
  ∧ (prompt = true → ∀ x, NoDup (seen x s')).
Proof.
  intros Hreach Hl Hd Hns Hnr. cbv zeta.
  destruct (drain_delivers prompt (work c) id c s Hl Hd) as (Hrun & Hseen & _ & _); [|done|].
  { destruct (c_phase c) as [|q|i q|]; try done; [left|right]; eauto. }
  assert (Hreach' : rt_reachable prompt (drain (work c) id s)) by (unfold rt_reachable in *; by etrans).
  split; [done|]. split; [done|]. intros -> x. by apply seen_once.
Qed.

Definition colon_free (t : string) : Prop := ":"%char ∉ chars t.

Lemma room_key_inj t1 r1 t2 r2 :
  colon_free t1 → colon_free t2 → room_key t1 r1 = room_key t2 r2 → t1 = t2 ∧ r1 = r2.
Proof.
  intros H1 H2 Heq. pose proof (SplitN2_app ":" t1 r1 H1) as E1. pose proof (SplitN2_app ":" t2 r2 H2) as E2.
  change (String ":" r1) with (":" +:+ r1) in E1. change (String ":" r2) with (":" +:+ r2) in E2.
  unfold room_key in Heq. rewrite Heq, E2 in E1. by simplify_eq.
Qed.

(** Rooms are isolated.  As long as the tenant identifiers of the connections have no colon, whatever
    reaches a socket was published on the channel of the tenant and the room it connected to. *)
Theorem room_isolation prompt (s : RealtimeService) (x i : nat) (t r : string) :
  rt_reachable prompt s → (∀ y t' r', tickets s !! y = Some (t', r') → colon_free t') →
  tickets s !! x = Some (t, r) → (x, i) ∈ delivered s →
  ∃ redis p, published s !! i = Some (redis, room_channel t r, p).
Proof.
  intros [_ Hrt]%reachable_ok Hfree Hx Hdel.
  destruct (routed_delivered _ Hrt x i Hdel) as (t1 & r1 & y & t2 & r2 & redis & p & Hx1 & Hy & Hk & Hi).
  assert ((t1, r1) = (t, r)) as [= -> ->] by congruence.
  destruct (room_key_inj _ _ _ _ (Hfree _ _ _ Hx) (Hfree _ _ _ Hy) Hk) as [<- <-]. eauto.
Qed.

(** ** A room whose consumer has returned *)

(** The consumers of a key have all returned, and a socket is in its room. *)
Definition deaf (k : string) (x : nat) (s : RealtimeService) : Prop :=
  x ∈ sockets k s ∧ ∀ id c, consumers s !! id = Some c → c_roomKey c = k → c_phase c = Returned.

Lemma alter_phase_deaf k id c p s :
  consumers s !! id = Some c → c_phase c ≠ Returned →
  (∀ id c, consumers s !! id = Some c → c_roomKey c = k → c_phase c = Returned) →
  ∀ id' c', alter (set_phase p) id (consumers s) !! id' = Some c' → c_roomKey c' = k → c_phase c' = Returned.
Proof.
  intros Hl Hph Hdeaf id' c' (c0 & Hl0 & Hk & _ & _ & _ & Hcase)%lookup_alter_phase Hk'.
  rewrite Hk in Hk'. destruct Hcase as [[-> ->]|[_ ->]]; [|by eapply Hdeaf].
  destruct Hph. rewrite Hl in Hl0. simplify_eq. by eapply Hdeaf.
Qed.

Lemma step_deaf prompt k x s s' :
  rooms_ok s → rt_step prompt s s' → x ∈ sockets k s' → deaf k x s → deaf k x s' ∧ seen x s' = seen x s.
Proof.
  intros Hok Hstep Hx' [Hx Hdeaf].
  assert (Hno : ∀ id c, consumers s !! id = Some c → c_phase c ≠ Returned → c_roomKey c ≠ k) by naive_solver.
  destruct Hstep as [s t r redis conn Hnew|s k' y|s|s id c Hl Hph|s id c i q Hl Hph Hd|s id c i q Hl Hph|s id c q Hl Hph].
  - destruct (join_fields (room_key t r) (room_channel t r) redis conn s) as (_ & _ & Hd & _).
    split; [split; [done|]|unfold seen; cbn; by rewrite Hd].
    apply elem_of_sockets in Hx as (st & Hst & Hx). cbn. unfold join.
    destruct (rooms s !! room_key t r) eqn:Hroom; cbn; [done|]. intros id c.
    rewrite lookup_insert_Some. intros [[_ <-]|[_ Hl]]; [cbn; congruence|eauto].
  - destruct (leave_fields k' y s) as (_ & _ & _ & Hd). split; [split; [done|]|unfold seen; by rewrite Hd].
    intros id c'. rewrite leave_consumers by done. intros (c & Hl & ->)%fmap_Some.
    case_decide; cbn; eauto.
  - split; [split; [done|]|done]. cbn. intros id c'. rewrite lookup_fmap. intros (c & Hl & ->)%fmap_Some Hk.
    destruct (push_fields redis channel (length (published s)) c) as [Hk' _]. rewrite Hk' in Hk.
    unfold push. case_decide; rewrite ?(Hdeaf id c Hl Hk); eauto.
  - split; [split; [done|]|done]. eapply alter_phase_deaf; [done|congruence|done].
  - split; [split; [done|]|done]. eapply alter_phase_deaf; [done|congruence|done].
  - split; [split; [done|]|]; [eapply alter_phase_deaf; [done|congruence|done]|].
    rewrite seen_deliver, decide_False, app_nil_r; [done|]. intros Hin.
    destruct (Hno id c Hl ltac:(congruence)). by apply (ok_one _ Hok _ _ x).
  - split; [split; [done|]|done]. eapply alter_phase_deaf; [done| |done]. by destruct Hph as [-> | ->].
Qed.

(** A Redis error silences a room for good.  If the consumer of a room has returned, as it does on any
    error of [ReceiveMessage], then whatever is published and whoever joins or leaves, no socket of the
    room receives anything as long as it stays. *)
Theorem redis_error_silences_room prompt (k : string) (x : nat) (s s' : RealtimeService) :
  rt_reachable prompt s → x ∈ sockets k s →
  (∀ id c, consumers s !! id = Some c → c_roomKey c = k → c_phase c = Returned) →
  rtc (λ s1 s2, rt_step prompt s1 s2 ∧ x ∈ sockets k s2) s s' →
  seen x s' = seen x s.
Proof.
  intros Hreach Hx Hdeaf Hrun. destruct (reachable_ok _ _ Hreach) as [Hok _]. clear Hreach.
  assert (Hd : deaf k x s) by done. clear Hx Hdeaf.
  induction Hrun as [s|s1 s2 s3 [Hstep Hx] _ IH]; [done|].
  destruct (step_deaf prompt k x s1 s2 Hok Hstep Hx Hd) as [Hd2 <-].
  apply IH; [by eapply step_rooms_ok|done].
Qed.

(** * Concrete runs *)

(** Two sockets in a room, a consumer with one publication in its queue. *)
Definition demo_rooms : RealtimeService :=
  redis_publish "redis" (room_channel "a" "r") "hello"
    (subscribe 0 (ws_join "a" "r" "redis" 2 (ws_join "a" "r" "redis" 1 NewRealtimeService))).

Definition demo_consumer : consumer := mkConsumer "a:r" "redis" "tenant:a:room:r" false (Waiting [0]).

Lemma demo_rooms_reachable prompt : rt_reachable prompt demo_rooms.
Proof.
  eapply rtc_r; [|apply step_publish].
  eapply rtc_r; [|apply (step_subscribe _ _ 0 (set_phase Starting demo_consumer)); vm_compute; reflexivity].
  eapply rtc_r; [|apply step_join; by_computation].
  eapply rtc_r; [|apply step_join; by_computation]. apply rtc_refl.
Qed.

Lemma rooms_and_consumers_witness :
  ∃ c, consumers demo_rooms !! 0 = Some c ∧ c_roomKey c = "a:r" ∧ c_done c = false.
Proof.
  destruct (proj1 (rooms_and_consumers true demo_rooms (demo_rooms_reachable true)) "a:r" (mkRoomState {[1; 2]} 0))
    as (_ & c & Hc); [vm_compute; reflexivity|]. exists c. exact Hc.
Defined.

(** In the witness, the second socket is written the publication once. *)
Lemma messages_in_order_once_witness :
  seen 2 (drain 2 0 demo_rooms) = [0] ∧ NoDup (seen 2 (drain 2 0 demo_rooms)).
Proof.
  destruct (messages_in_order_once true demo_rooms 0 demo_consumer (demo_rooms_reachable true))
    as (_ & Hseen & Hnd); [vm_compute; reflexivity|reflexivity|discriminate|discriminate|].
  split; [exact (Hseen 2)|exact (Hnd eq_refl 2)].
Defined.

Lemma room_isolation_witness :
  ∃ redis p, published (drain 2 0 demo_rooms) !! 0 = Some (redis, room_channel "a" "r", p).
Proof.
  apply (room_isolation true (drain 2 0 demo_rooms) 2 0 "a" "r").
  - eapply rtc_r; [|apply (step_deliver _ _ 0 (set_phase (Holding 0 []) demo_consumer)); vm_compute; reflexivity].
    eapply rtc_r; [apply demo_rooms_reachable|].
    apply (step_receive _ _ 0 demo_consumer); vm_compute; reflexivity.
  - intros y t r. change (tickets (drain 2 0 demo_rooms))
      with (<[2 := ("a", "r")]> (<[1 := ("a", "r")]> (∅ : gmap nat (string * string)))).
    rewrite !lookup_insert_Some, lookup_empty.
    intros [[_ [= <- <-]]|[_ [[_ [= <- <-]]|[_ [=]]]]]; by_computation.
  - vm_compute. reflexivity.
  - by_computation.
Defined.

(** In the witness, the consumer returns before a socket joins and a message is published. *)
Lemma redis_error_silences_room_witness :
  let s := return_ 0 (subscribe 0 (ws_join "a" "r" "redis" 1 NewRealtimeService)) in
  seen 1 (redis_publish "redis" (room_channel "a" "r") "lost" (ws_join "a" "r" "redis" 2 s)) = seen 1 s.
Proof.
  cbv zeta. apply (redis_error_silences_room true "a:r").
  - eapply rtc_r; [|apply (step_return _ _ 0 (set_phase (Waiting []) demo_consumer) []);
      [vm_compute; reflexivity|left; reflexivity]].
    eapply rtc_r; [|apply (step_subscribe _ _ 0 (set_phase Starting demo_consumer)); vm_compute; reflexivity].
    eapply rtc_r; [apply rtc_refl|apply step_join; by_computation].
  - by_computation.
  - intros id c Hl _. replace (consumers _) with ({[0 := set_phase Returned demo_consumer]} : gmap nat consumer)
      in Hl by (vm_compute; reflexivity).
    apply lookup_singleton_Some in Hl as [_ <-]. reflexivity.
  - eapply rtc_l; [split; [apply (step_join true _ "a" "r" "redis" 2); by_computation|by_computation]|].
    eapply rtc_l; [split; [apply (step_publish true _ "redis" (room_channel "a" "r") "lost")|by_computation]|].
    apply rtc_refl.
Defined.

(** Tenant "a" with room "b:c" and tenant "a:b" with room "c" share a room: the second one's socket
    receives what is published on the first one's channel. *)
Example colliding_rooms :
  let s := subscribe 0 (ws_join "a:b" "c" "redis" 2 (ws_join "a" "b:c" "redis" 1 NewRealtimeService)) in
  seen 2 (drain 2 0 (redis_publish "redis" (room_channel "a" "b:c") "secret" s)) = [0].
Proof. vm_compute. reflexivity. Qed.
