(* ===== verification/RealtimeWS.v ===== *)
(** * The WebSocket handler: frames and idempotency keys

    [HandleWS] of server/chat/service/realtime_service.go and its gate [handleWS] of
    server/chat/api/handler.go.  A connection reads frames one after the other; a frame of type
    "message" is deduplicated with a Redis key, persisted by the chat service and published.  The
    handler is cut where it talks to Redis or to the chat service, so that the frames of several
    connections interleave there.

    A frame is the JSON value it denotes, or an error when it denotes none.  Redis is an
    interface with the documented behaviour of SET NX and DEL as laws. *)

From S2P Require Import Prelude GoStrings GoEncoding Cursor Env Auth SessionStore Paging ChatStore.
From S2P Require Import GoJson JsonText GoFloat ChatService RealtimeRooms.

(** ** Redis keys *)

(** Both operations take the time; the state includes whatever decides about failures. *)
Class RedisKV (R : Type) := {
  SetNX : time → string → time → R → R * result bool;
  Del : string → R → R;
}.

(** [expiry] is the time at which a key that is set expires.  A failing SET NX may have been done or
    not, and so may a DEL whose error is dropped. *)
Class RedisKVLaws (R : Type) `{RedisKV R} := {
  expiry : R → string → option time;
  live (now : time) (kv : R) (k : string) : Prop := ∃ e, expiry kv k = Some e ∧ (now < e)%Z;
  setnx_new now k ttl kv kv' : SetNX now k ttl kv = (kv', Ok true) →
    ¬ live now kv k ∧ expiry kv' k = Some (now + ttl)%Z ∧ ∀ k', k' ≠ k → expiry kv' k' = expiry kv k';
  setnx_dup now k ttl kv kv' : SetNX now k ttl kv = (kv', Ok false) →
    live now kv k ∧ ∀ k', expiry kv' k' = expiry kv k';
  setnx_err now k ttl kv kv' e : SetNX now k ttl kv = (kv', Err e) →
    (expiry kv' k = expiry kv k ∨ ¬ live now kv k) ∧ ∀ k', k' ≠ k → expiry kv' k' = expiry kv k';
  del_other k kv k' : k' ≠ k → expiry (Del k kv) k' = expiry kv k';
}.

(** ** Envelopes and payloads *)

(** The payload of an envelope: what the client sent, or the message that was created. *)
Inductive ws_payload := PAny (v : json) | PMessage (m : Message).

(* server/chat/service/realtime_service.go: wsEnvelope *)
Record wsEnvelope := mkWsEnvelope {
  Type_ : string;
  ws_RoomID : string;
  ws_UserID : string;
  TargetID : string;
  ws_Payload : ws_payload;
}.

Definition envelope_fields : list string := ["type"; "room_id"; "user_id"; "target_id"; "payload"].

Definition set_envelope (field : string) (v : json) (e : wsEnvelope) : option wsEnvelope :=
  let '(mkWsEnvelope t r u g p) := e in
  if decide (field = "type") then (λ s, mkWsEnvelope s r u g p) <$> decode_string t v
  else if decide (field = "room_id") then (λ s, mkWsEnvelope t s u g p) <$> decode_string r v
  else if decide (field = "user_id") then (λ s, mkWsEnvelope t r s g p) <$> decode_string u v
  else if decide (field = "target_id") then (λ s, mkWsEnvelope t r u s p) <$> decode_string g v
  else if any_ok v then Some (mkWsEnvelope t r u g (PAny (any_of_json v))) else None.

Definition decode_envelope : json → option wsEnvelope :=
  decode_struct envelope_fields set_envelope (mkWsEnvelope "" "" "" "" (PAny JNull)).

(* server/chat/service/realtime_service.go: wsMessagePayload *)
Record wsMessagePayload := mkWsMessagePayload {
  ClientMsgID : string;
  Body : string;
  FileID : option string;
  FileIDs : option (list string);
  Emojis : option (list string);
}.

Definition payload_fields : list string := ["client_msg_id"; "body"; "file_id"; "file_ids"; "emojis"].

Definition set_payload (field : string) (v : json) (p : wsMessagePayload) : option wsMessagePayload :=
  let '(mkWsMessagePayload c b f fs es) := p in
  if decide (field = "client_msg_id") then (λ s, mkWsMessagePayload s b f fs es) <$> decode_string c v
  else if decide (field = "body") then (λ s, mkWsMessagePayload c s f fs es) <$> decode_string b v
  else if decide (field = "file_id") then (λ s, mkWsMessagePayload c b s fs es) <$> decode_string_ptr v
  else if decide (field = "file_ids") then (λ s, mkWsMessagePayload c b f s es) <$> decode_strings fs v
  else (λ s, mkWsMessagePayload c b f fs s) <$> decode_strings es v.

(** The payload of a frame has been decoded into [any]. *)
(* server/chat/service/realtime_service.go: parseWSMessagePayload *)
Definition parseWSMessagePayload (payload : json) : result wsMessagePayload :=
  match decode_struct payload_fields set_payload (mkWsMessagePayload "" "" None None None) payload with
  | None => Err "invalid message payload"
  | Some out =>
      let out := mkWsMessagePayload (TrimSpace (ClientMsgID out)) (Body out) (FileID out) (FileIDs out) (Emojis out) in
      if decide (TrimSpace (Body out) = "") then Err "body required" else Ok out
  end.

(** 24 hours. *)
(* server/chat/service/realtime_service.go: wsMessageIdempotencyTTL *)
Definition wsMessageIdempotencyTTL : time := (24 * 3600 * 1000000000)%Z.

(* server/chat/service/realtime_service.go: wsMessageIdempotencyKey *)
Definition wsMessageIdempotencyKey (tenantID roomID userID clientMsgID : string) : string :=
  "ws:message:idempotency:" +:+ tenantID +:+ ":" +:+ roomID +:+ ":" +:+ userID +:+ ":" +:+ clientMsgID.

(* server/chat/service/realtime_service.go: parseInt64 *)
Definition parseInt64 (v : string) : string := TrimSpace v.

(** ** Opening a connection *)

Record ws_conn := mkWsConn { cx_id : nat; cx_tenant : string; cx_room : string; cx_user : string }.

Definition cx_channel (cx : ws_conn) : string := room_channel (cx_tenant cx) (cx_room cx).

(** A string under a key of the context, trimmed; the empty string when there is none. *)
Definition trimmed_key (c : Ctx) (k : string) : string := TrimSpace (GetString c k).

(** The beginning of [HandleWS]: an error, or the connection it goes on with. *)
(* server/chat/service/realtime_service.go: HandleWS #52-90 *)
Definition ws_open (ClientForTenant : string → result unit) (upgrade : result unit) (id : nat)
    (query : string → string) (c : Ctx) : response ws_conn :=
  let tenantID := TrimSpace (query "tenant_id") in
  let tenantID := if decide (trimmed_key c "auth_tenant_id" ≠ "") then trimmed_key c "auth_tenant_id" else tenantID in
  let tenantID := if decide (tenantID = "") then "default" else tenantID in
  let authUserID := trimmed_key c "auth_user_id" in
  let roomID := parseInt64 (query "room_id") in
  if decide (TrimSpace roomID = "") then RError 400 "room_id required"
  else
    match ClientForTenant tenantID with
    | Err e => RError 500 e
    | Ok _ =>
        match upgrade with
        | Err e => RError 400 e
        | Ok _ => RJson 101 (mkWsConn id tenantID roomID authUserID)
        end
    end.

(* server/chat/api/handler.go: wsAccessToken *)
Definition wsAccessToken (headers query : string → string) : option string :=
  let header := TrimSpace (headers "Authorization") in
  let bearer := TrimSpace (TrimPrefix header "Bearer ") in
  if decide (HasPrefix header "Bearer " = true ∧ bearer ≠ "") then Some bearer
  else
    let token := TrimSpace (query "access_token") in
    let token := if decide (token = "") then TrimSpace (query "token") else token in
    if decide (token = "") then None else Some token.

(** [IsRoomMember] is the chat service's. *)
(* server/chat/api/handler.go: handleWS *)
Definition handleWS (parse : string → result (string * string * string))
    (IsRoomMember : string → string → string → result bool)
    (ClientForTenant : string → result unit) (upgrade : result unit) (id : nat)
    (query : string → string) (c : Ctx) : response ws_conn :=
  match wsAccessToken (headers c) query with
  | None => RError 401 "bearer token is required"
  | Some token =>
      match parse token with
      | Err _ => RError 401 "invalid token"
      | Ok (userID, tenantID, _) =>
          let roomID := TrimSpace (query "room_id") in
          if decide (roomID = "") then RError 400 "room_id required"
          else
            match IsRoomMember tenantID roomID userID with
            | Err e => RError 500 e
            | Ok false => RError 403 "room access denied"
            | Ok true =>
                ws_open ClientForTenant upgrade id query
                  (ctx_set "auth_tenant_id" tenantID (ctx_set "auth_user_id" userID
                    (ctx_set "auth_access_token" token c)))
            end
      end
  end.

(** ** Frames *)

Section frames.
Context {S R : Type} `{ChatBackend S} `{RedisKV R}.
Variables (useMQ hasMQ : bool).

(** The chat service and Redis, what was published on which channel, the errors written to each
    socket, and a log of the messages the chat service was asked to create, with the idempotency key of each, the
    time it was set, and what the service answered. *)
Record WSWorld := mkWSWorld {
  w_chat : ChatSvc S;
  w_redis : R;
  w_out : list (string * wsEnvelope);
  w_errors : list (nat * string);
  w_tried : list (option (string * time) * result Message);
}.

(** The attempts that were answered with a message. *)
Definition w_created (w : WSWorld) : list (option (string * time) * Message) :=
  omap (λ x, match x.2 with Ok m => Some (x.1, m) | Err _ => None end) (w_tried w).

Definition set_redis (kv : R) (w : WSWorld) : WSWorld :=
  mkWSWorld (w_chat w) kv (w_out w) (w_errors w) (w_tried w).

(* server/chat/service/realtime_service.go: writeWSError *)
Definition writeWSError (cx : ws_conn) (message : string) (w : WSWorld) : WSWorld :=
  mkWSWorld (w_chat w) (w_redis w) (w_out w) (w_errors w ++ [(cx_id cx, message)]) (w_tried w).

(** Where a connection is: between frames; about to set the key of a message; about to persist it, with
    the key and the time it was set, if it has one; about to delete the key after a failure; about
    to publish. *)
Inductive ws_phase :=
| Reading
| Acquiring (e : wsEnvelope) (p : wsMessagePayload) (key : string)
| Persisting (e : wsEnvelope) (p : wsMessagePayload) (key : option (string * time))
| Releasing (key : string) (acquired : time)
| Publishing (e : wsEnvelope).

Definition signal_types : list string := ["webrtc_offer"; "webrtc_answer"; "webrtc_ice"].

(** The envelope that goes out. *)
Definition outgoing (e : wsEnvelope) : wsEnvelope :=
  mkWsEnvelope (if decide (Type_ e ∈ signal_types) then "signal_" +:+ Type_ e else Type_ e)
    (ws_RoomID e) (ws_UserID e) (TargetID e) (ws_Payload e).

(** A frame is read. *)
(* server/chat/service/realtime_service.go: HandleWS #92-117 *)
Definition ws_begin (cx : ws_conn) (raw : result json) (w : WSWorld) : ws_phase * WSWorld :=
  match raw ≫= λ v, match decode_envelope v with None => Err "type" | Some e => Ok e end with
  | Err _ => (Reading, w)
  | Ok e =>
      let e := mkWsEnvelope (Type_ e) (cx_room cx) (if decide (cx_user cx ≠ "") then cx_user cx else ws_UserID e)
                 (TargetID e) (ws_Payload e) in
      if decide (Type_ e = "message") then
        if decide (TrimSpace (ws_UserID e) = "") then (Reading, writeWSError cx "unauthorized" w)
        else
          match parseWSMessagePayload (match ws_Payload e with PAny v => v | PMessage _ => JNull end) with
          | Err err => (Reading, writeWSError cx err w)
          | Ok parsed =>
              if decide (ClientMsgID parsed ≠ "") then
                (Acquiring e parsed
                   (wsMessageIdempotencyKey (cx_tenant cx) (cx_room cx) (ws_UserID e) (ClientMsgID parsed)), w)
              else (Persisting e parsed None, w)
          end
      else (Publishing (outgoing e), w)
  end.

(** The message a frame creates. *)
Definition ws_message (cx : ws_conn) (e : wsEnvelope) (p : wsMessagePayload) : Message :=
  mkMessage (cx_tenant cx) "" (cx_room cx) (ws_UserID e) (Body p)
    (BuildMessageMeta (FileID p) (default [] (FileIDs p)) (Emojis p)) 0.

(** The next call to Redis or to the chat service. *)
(* server/chat/service/realtime_service.go: HandleWS #117-152 *)
Definition ws_advance (cx : ws_conn) (env : SessionStore.Env) (ph : ws_phase) (w : WSWorld) : ws_phase * WSWorld :=
  match ph with
  | Reading => (Reading, w)
  | Acquiring e p key =>
      match SetNX (NOW env) key wsMessageIdempotencyTTL (w_redis w) with
      | (kv, Err _) => (Reading, writeWSError cx "failed to process message" (set_redis kv w))
      | (kv, Ok false) => (Reading, writeWSError cx "duplicate client_msg_id" (set_redis kv w))
      | (kv, Ok true) => (Persisting e p (Some (key, NOW env)), set_redis kv w)
      end
  | Persisting e p key =>
      match CreateMessage useMQ hasMQ env (ws_message cx e p) (w_chat w) with
      | (chat, Err err) =>
          let w := mkWSWorld chat (w_redis w) (w_out w) (w_errors w) (w_tried w ++ [(key, Err err)]) in
          match key with
          | Some (k, t) => (Releasing k t, w)
          | None => (Reading, writeWSError cx "failed to persist message" w)
          end
      | (chat, Ok created) =>
          (Publishing (outgoing (mkWsEnvelope (Type_ e) (ws_RoomID e) (ws_UserID e) (TargetID e) (PMessage created))),
           mkWSWorld chat (w_redis w) (w_out w) (w_errors w) (w_tried w ++ [(key, Ok created)]))
      end
  | Releasing k _ => (Reading, writeWSError cx "failed to persist message" (set_redis (Del k (w_redis w)) w))
  | Publishing e =>
      (Reading, mkWSWorld (w_chat w) (w_redis w) (w_out w ++ [(cx_channel cx, e)]) (w_errors w) (w_tried w))
  end.

(** A frame handled without interference, the clock standing still: at most three calls follow it. *)
Definition handle_frame (cx : ws_conn) (env : SessionStore.Env) (raw : result json) (w : WSWorld) : ws_phase * WSWorld :=
  let '(ph, w) := ws_begin cx raw w in
  Nat.iter 3 (λ '(ph, w), ws_advance cx env ph w) (ph, w).

(** ** Many connections *)

Record WSSys := mkWSSys { s_world : WSWorld; s_clock : time; s_conns : gmap nat (ws_conn * ws_phase) }.

Definition sys_put (s : WSSys) (id : nat) (cx : ws_conn) (r : ws_phase * WSWorld) : WSSys :=
  mkWSSys r.2 (s_clock s) (<[id := (cx, r.1)]> (s_conns s)).

Inductive ws_step : WSSys → WSSys → Prop :=
| ws_step_open s id cx :
    s_conns s !! id = None → ws_step s (mkWSSys (s_world s) (s_clock s) (<[id := (cx, Reading)]> (s_conns s)))
| ws_step_frame s id cx raw :
    s_conns s !! id = Some (cx, Reading) → ws_step s (sys_put s id cx (ws_begin cx raw (s_world s)))
| ws_step_advance s id cx ph uuid :
    s_conns s !! id = Some (cx, ph) → ph ≠ Reading →
    ws_step s (sys_put s id cx (ws_advance cx (SessionStore.mkEnv (s_clock s) uuid) ph (s_world s)))
| ws_step_close s id cx :
    s_conns s !! id = Some (cx, Reading) → ws_step s (mkWSSys (s_world s) (s_clock s) (delete id (s_conns s)))
| ws_step_tick s now :
    (s_clock s ≤ now)%Z → ws_step s (mkWSSys (s_world s) now (s_conns s)).

(** The key a connection holds, with the time it was set. *)
Definition holds (ph : ws_phase) : option (string * time) :=
  match ph with
  | Persisting _ _ key => key
  | Releasing k t => Some (k, t)
  | _ => None
  end.

(** Every connection that holds a key is done with it before the key expires. *)
Definition timely (s : WSSys) : Prop :=
  ∀ id cx ph k t, s_conns s !! id = Some (cx, ph) → holds ph = Some (k, t) →
    (s_clock s < t + wsMessageIdempotencyTTL)%Z.

Definition timely_step (s s' : WSSys) : Prop := ws_step s s' ∧ timely s'.
End frames.
Arguments WSWorld : clear implicits.
Arguments WSSys : clear implicits.

(** * Lemmas *)

Lemma created_app {S R} (w w' : WSWorld S R) key res :
  w_tried w' = w_tried w ++ [(key, res)] →
  w_created w' = w_created w ++ match res with Ok m => [(key, m)] | Err _ => [] end.
Proof. intros E. unfold w_created. rewrite E, omap_app. by destruct res. Qed.

Section at_most_once.
Context {S R : Type} `{ChatBackend S} `{RedisKVLaws R}.
Variables (useMQ hasMQ : bool).
Implicit Types (s : WSSys S R) (w : WSWorld S R).

Notation TTL := wsMessageIdempotencyTTL.

(** [k] was set at [t] and has expired since, or it is still set and no connection holds it. *)
Definition settled s (k : string) (t : time) : Prop :=
  (t + TTL ≤ s_clock s)%Z
  ∨ expiry (w_redis (s_world s)) k = Some (t + TTL)%Z
    ∧ ∀ id cx ph t', s_conns s !! id = Some (cx, ph) → holds ph ≠ Some (k, t').

Record keys_ok s : Prop := mkKeysOk {
  keys_apart i j k ti tj mi rj :
    w_tried (s_world s) !! i = Some (Some (k, ti), Ok mi) → w_tried (s_world s) !! j = Some (Some (k, tj), rj) →
    i < j → (ti + TTL ≤ tj)%Z;
  keys_settled k t m : (Some (k, t), Ok m) ∈ w_tried (s_world s) → settled s k t;
  keys_held id cx ph k t : s_conns s !! id = Some (cx, ph) → holds ph = Some (k, t) →
    expiry (w_redis (s_world s)) k = Some (t + TTL)%Z ∧ (t ≤ s_clock s)%Z;
  keys_one id1 id2 cx1 cx2 ph1 ph2 k t1 t2 :
    s_conns s !! id1 = Some (cx1, ph1) → s_conns s !! id2 = Some (cx2, ph2) →
    holds ph1 = Some (k, t1) → holds ph2 = Some (k, t2) → id1 = id2;
  keys_after id cx ph k t t' m : s_conns s !! id = Some (cx, ph) → holds ph = Some (k, t) →
    (Some (k, t'), Ok m) ∈ w_tried (s_world s) → (t' + TTL ≤ t)%Z;
}.

(** Steps after which every held key was held by the same connection before, and that leave the log
    and, for held and for settled keys, Redis alone. *)
Lemma keys_ok_same s s' :
  w_tried (s_world s') = w_tried (s_world s) → (s_clock s ≤ s_clock s')%Z →
  (∀ id cx ph k t, s_conns s' !! id = Some (cx, ph) → holds ph = Some (k, t) →
     (∃ cx' ph', s_conns s !! id = Some (cx', ph') ∧ holds ph' = Some (k, t))
     ∧ expiry (w_redis (s_world s')) k = expiry (w_redis (s_world s)) k) →
  (∀ k t m, (Some (k, t), Ok m) ∈ w_tried (s_world s) →
     (t + TTL ≤ s_clock s')%Z ∨ expiry (w_redis (s_world s')) k = expiry (w_redis (s_world s)) k) →
  keys_ok s → keys_ok s'.
Proof.
  intros Hlog Hclock Hheld Hset [Hap Hse Hhe Hone Haf]. split; rewrite ?Hlog.
  - exact Hap.
  - intros k t m Hin. destruct (Hset k t m Hin) as [Hexp|Hsame]; [by left|].
    destruct (Hse k t m Hin) as [Hexp|[He Hno]]; [left; lia|right]. rewrite Hsame. split; [done|].
    intros id cx ph t' Hc Hh. destruct (Hheld id cx ph k t' Hc Hh) as [(cx' & ph' & Hc' & Hh') _].
    by apply (Hno id cx' ph' t').
  - intros id cx ph k t Hc Hh. destruct (Hheld id cx ph k t Hc Hh) as [(cx' & ph' & Hc' & Hh') ->].
    destruct (Hhe id cx' ph' k t Hc' Hh'). split; [done|lia].
  - intros id1 id2 cx1 cx2 ph1 ph2 k t1 t2 Hc1 Hc2 Hh1 Hh2.
    destruct (Hheld _ _ _ _ _ Hc1 Hh1) as [(cx1' & ph1' & Hd1 & Hg1) _].
    destruct (Hheld _ _ _ _ _ Hc2 Hh2) as [(cx2' & ph2' & Hd2 & Hg2) _]. eauto.
  - intros id cx ph k t t' m Hc Hh Hin. destruct (Hheld _ _ _ _ _ Hc Hh) as [(cx' & ph' & Hc' & Hh') _]. eauto.
Qed.

(** The same for a step of one connection. *)
Lemma keys_ok_put s id cx ph r :
  s_conns s !! id = Some (cx, ph) →
  w_tried r.2 = w_tried (s_world s) →
  (∀ k t, holds r.1 = Some (k, t) → holds ph = Some (k, t)) →
  (∀ id' cx' ph' k t, id' ≠ id ∨ holds r.1 = Some (k, t) →
     s_conns s !! id' = Some (cx', ph') → holds ph' = Some (k, t) →
     expiry (w_redis r.2) k = expiry (w_redis (s_world s)) k) →
  (∀ k t m, (Some (k, t), Ok m) ∈ w_tried (s_world s) →
     (t + TTL ≤ s_clock s)%Z ∨ expiry (w_redis r.2) k = expiry (w_redis (s_world s)) k) →
  keys_ok s → keys_ok (sys_put s id cx r).
Proof.
  intros Hc Hlog Hh Hheld Hset. apply keys_ok_same; [done|cbn; lia| |done].
  cbn. intros id' cx' ph' k t. rewrite lookup_insert_Some. intros [[<- [= <- <-]]|[Hne Hc']] Hk.
  - pose proof (Hh k t Hk) as Hk'. split; [eauto|]. apply (Hheld id cx ph k t); auto.
  - split; [eauto|]. apply (Hheld id' cx' ph' k t); auto.
Qed.

Lemma ws_begin_quiet cx raw w :
  holds (ws_begin cx raw w).1 = None ∧ w_tried (ws_begin cx raw w).2 = w_tried w
  ∧ w_redis (ws_begin cx raw w).2 = w_redis w ∧ w_chat (ws_begin cx raw w).2 = w_chat w.
Proof.
  unfold ws_begin. destruct (raw ≫= _) as [e|]; [|done]. cbv zeta.
  repeat case_decide; try done; (destruct (parseWSMessagePayload _) as [p|]; [|done]); by case_decide.
Qed.

Lemma begin_keys_ok s id cx raw :
  s_conns s !! id = Some (cx, Reading) → keys_ok s → keys_ok (sys_put s id cx (ws_begin cx raw (s_world s))).
Proof.
  intros Hc. destruct (ws_begin_quiet cx raw (s_world s)) as (Hh & Hlog & Hr & _).
  apply (keys_ok_put s id cx Reading); rewrite ?Hh, ?Hr; auto; done.
Qed.

Lemma acquire_keys_ok s id cx e p key uuid :
  s_conns s !! id = Some (cx, Acquiring e p key) → timely s → keys_ok s →
  keys_ok (sys_put s id cx (ws_advance useMQ hasMQ cx (SessionStore.mkEnv (s_clock s) uuid) (Acquiring e p key) (s_world s))).
Proof.
  intros Hc Htime Hok. pose proof Hok as [Hap Hse Hhe Hone Haf].
  assert (Hlive : ∀ id' cx' ph' t, s_conns s !! id' = Some (cx', ph') → holds ph' = Some (key, t) →
    live (s_clock s) (w_redis (s_world s)) key).
  { intros id' cx' ph' t Hc' Hh. exists (t + TTL)%Z. split; [by apply (Hhe id' cx' ph')|by eapply Htime]. }
  cbn [ws_advance]. destruct (SetNX _ key TTL _) as [kv [[]|err]] eqn:Hnx.
  - apply setnx_new in Hnx as (Hdead & Hexp & Hother). cbn in Hdead, Hexp.
    assert (Hno : ∀ id' cx' ph' t, s_conns s !! id' = Some (cx', ph') → holds ph' ≠ Some (key, t)).
    { intros id' cx' ph' t Hc' Hh. by eapply Hdead, Hlive. }
    assert (Hold : ∀ t m, (Some (key, t), Ok m) ∈ w_tried (s_world s) → (t + TTL ≤ s_clock s)%Z).
    { intros t m Hin. destruct (Hse key t m Hin) as [|[He _]]; [done|].
      destruct (decide (s_clock s < t + TTL)%Z); [|lia]. destruct Hdead. by exists (t + TTL)%Z. }
    split; cbn.
    + exact Hap.
    + intros k t m Hin. destruct (decide (k = key)) as [->|Hne]; [left; by eapply Hold|].
      destruct (Hse k t m Hin) as [|[He Hno']]; [by left|right]. cbn. rewrite Hother by done. split; [done|].
      intros id' cx' ph' t'. rewrite lookup_insert_Some.
      intros [[<- [= <- <-]]|[_ Hc']]; [cbn; congruence|by eapply Hno'].
    + intros id' cx' ph' k t. rewrite lookup_insert_Some. intros [[<- [= <- <-]]|[_ Hc']] Hk.
      * cbn in Hk. simplify_eq. split; [done|lia].
      * destruct (decide (k = key)) as [->|Hne]; [by eapply Hno in Hk|]. rewrite Hother by done. eauto.
    + intros id1 id2 cx1 cx2 ph1 ph2 k t1 t2. rewrite !lookup_insert_Some.
      intros [[<- [= <- <-]]|[_ Hc1]] [[<- [= <- <-]]|[_ Hc2]] Hh1 Hh2; try done; cbn in *; simplify_eq.
      * by eapply Hno in Hh2.
      * by eapply Hno in Hh1.
      * by eapply (Hone id1 id2).
    + intros id' cx' ph' k t t' m. rewrite lookup_insert_Some. intros [[<- [= <- <-]]|[_ Hc']] Hk Hin.
      * cbn in Hk. simplify_eq. by eapply Hold.
      * eauto.
  - apply setnx_dup in Hnx as [_ Hsame]. apply (keys_ok_put s id cx (Acquiring e p key)); try done; cbn; eauto.
  - apply setnx_err in Hnx as [Hkey Hother]. cbn in Hkey.
    apply (keys_ok_put s id cx (Acquiring e p key)); try done; cbn.
    + intros id' cx' ph' k t _ Hc' Hh. destruct (decide (k = key)) as [->|]; [|by apply Hother].
      destruct Hkey as [|Hdead]; [done|]. by destruct Hdead; eapply Hlive.
    + intros k t m Hin. destruct (decide (k = key)) as [->|]; [|right; by apply Hother].
      destruct Hkey as [|Hdead]; [by right|]. left. destruct (Hse key t m Hin) as [|[He _]]; [done|].
      destruct (decide (s_clock s < t + TTL)%Z); [|lia]. destruct Hdead. by exists (t + TTL)%Z.
Qed.

(** An attempt is logged by the connection that holds its key, which holds it no longer if a message was answered. *)
Lemma tried_keys_ok s id cx ph key res w ph' :
  s_conns s !! id = Some (cx, ph) → holds ph = key →
  w_tried w = w_tried (s_world s) ++ [(key, res)] → w_redis w = w_redis (s_world s) →
  holds ph' = (match res with Ok _ => None | Err _ => key end) →
  keys_ok s → keys_ok (sys_put s id cx (ph', w)).
Proof.
  intros Hc Hkey Hlog Hred Hph [Hap Hse Hhe Hone Haf].
  assert (Hin : ∀ i k t r, (w_tried (s_world s) ++ [(key, res)]) !! i = Some (Some (k, t), r) →
    w_tried (s_world s) !! i = Some (Some (k, t), r) ∨ i = length (w_tried (s_world s)) ∧ key = Some (k, t) ∧ r = res).
  { intros i k t r. rewrite lookup_app_Some, list_lookup_singleton_Some.
    intros [|(Hi & ? & [= <- <-])]; [by left|right]. split; [lia|done]. }
  assert (Hin' : ∀ k t m, (Some (k, t), Ok m) ∈ w_tried (s_world s) ++ [(key, res)] →
    (Some (k, t), Ok m) ∈ w_tried (s_world s) ∨ key = Some (k, t) ∧ res = Ok m).
  { intros k t m [|[= <- <-]%list_elem_of_singleton]%elem_of_app; auto. }
  assert (Hheld : ∀ k t, holds ph' = Some (k, t) → key = Some (k, t) ∧ ∀ m, res ≠ Ok m).
  { intros k t. rewrite Hph. destruct res; [done|]. by intros ->. }
  split; cbn; rewrite ?Hlog, ?Hred.
  - intros i j k ti tj mi rj Hi Hj Hlt. destruct (Hin _ _ _ _ Hj) as [Hj'|(-> & -> & ->)].
    + destruct (Hin _ _ _ _ Hi) as [Hi'|(-> & _ & _)]; [by eapply (Hap i j)|]. apply lookup_lt_Some in Hj'. lia.
    + destruct (Hin _ _ _ _ Hi) as [Hi'|(-> & _ & _)]; [|lia]. apply list_elem_of_lookup_2 in Hi'. by eapply (Haf id).
  - intros k t m [Hm|[Hm ->]]%Hin'.
    + destruct (Hse k t m Hm) as [|[He Hno]]; [by left|right]. cbn. rewrite Hred. split; [done|].
      intros id' cx' ph1 t'. rewrite lookup_insert_Some. intros [[<- [= <- <-]]|[_ Hc']]; [|by eapply Hno].
      intros [Hk _]%Hheld. eapply (Hno id cx ph t'); [done|]. by rewrite Hkey.
    + rewrite <-Hkey in Hm. right. cbn. rewrite Hred. split; [by apply (Hhe _ _ _ _ _ Hc)|].
      intros id' cx' ph1 t'. rewrite lookup_insert_Some. intros [[<- [= <- <-]]|[Hne Hc']]; [by rewrite Hph|].
      intros Hh. apply Hne. by eapply Hone.
  - intros id' cx' ph1 k t. rewrite lookup_insert_Some. intros [[<- [= <- <-]]|[_ Hc']]; [|eauto].
    intros [Hk _]%Hheld. rewrite <-Hkey in Hk. eauto.
  - intros id1 id2 cx1 cx2 ph1 ph2 k t1 t2. rewrite !lookup_insert_Some.
    intros [[<- [= <- <-]]|[_ Hc1]] [[<- [= <- <-]]|[_ Hc2]] Hh1 Hh2; try done.
    + apply Hheld in Hh1 as [Hk _]. rewrite <-Hkey in Hk. by eapply Hone.
    + apply Hheld in Hh2 as [Hk _]. rewrite <-Hkey in Hk. by eapply Hone.
    + by eapply (Hone id1 id2).
  - intros id' cx' ph1 k t t' m. rewrite lookup_insert_Some. intros [[<- [= <- <-]]|[Hne Hc']] Hk [Hm|[Hm Hr]]%Hin'.
    + apply Hheld in Hk as [Hk _]. rewrite <-Hkey in Hk. eauto.
    + apply Hheld in Hk as [_ Hk]. by apply Hk in Hr.
    + eauto.
    + rewrite <-Hkey in Hm. destruct Hne. by eapply Hone.
Qed.

Lemma persist_keys_ok s id cx e p key env :
  s_conns s !! id = Some (cx, Persisting e p key) → keys_ok s →
  keys_ok (sys_put s id cx (ws_advance useMQ hasMQ cx env (Persisting e p key) (s_world s))).
Proof.
  intros Hc Hok. cbn [ws_advance]. destruct (CreateMessage _ _ env _ _) as [chat [created|err]].
  - by eapply (tried_keys_ok s id cx _ key (Ok created)).
  - destruct key as [[k t]|]; by eapply (tried_keys_ok s id cx _ _ (Err err)).
Qed.

Lemma advance_keys_ok s id cx ph uuid :
  s_conns s !! id = Some (cx, ph) → ph ≠ Reading → timely s → keys_ok s →
  keys_ok (sys_put s id cx (ws_advance useMQ hasMQ cx (SessionStore.mkEnv (s_clock s) uuid) ph (s_world s))).
Proof.
  intros Hc Hph Htime Hok. pose proof Hok as [Hap Hse Hhe Hone Haf]. destruct ph as [|e p key|e p key|k t|e].
  - done.
  - by apply acquire_keys_ok.
  - by apply persist_keys_ok.
  - apply (keys_ok_put s id cx (Releasing k t)); try done; cbn.
    + intros id' cx' ph' k' t' [Hne|]; [|done]. intros Hc' Hh. apply del_other. intros ->.
      apply Hne. by eapply Hone.
    + intros k' t' m Hin. destruct (decide (k' = k)) as [->|]; [left|right; by apply del_other].
      pose proof (Haf _ _ _ _ _ _ _ Hc eq_refl Hin). destruct (Hhe _ _ _ _ _ Hc eq_refl). lia.
  - apply (keys_ok_put s id cx (Publishing e)); try done; cbn; eauto.
Qed.

Lemma step_keys_ok s s' : ws_step useMQ hasMQ s s' → timely s → keys_ok s → keys_ok s'.
Proof.
  intros Hstep Htime Hok. destruct Hstep as [s id cx Hc|s id cx raw Hc|s id cx ph uuid Hc Hph|s id cx Hc|s now Hle].
  - revert Hok. apply keys_ok_same; [done|cbn; lia| |auto].
    cbn. intros id' cx' ph k t. rewrite lookup_insert_Some. intros [[<- [= <- <-]]|[_ Hc']]; [done|eauto].
  - by apply begin_keys_ok.
  - by apply advance_keys_ok.
  - revert Hok. apply keys_ok_same; [done|cbn; lia| |auto].
    cbn. intros id' cx' ph k t. rewrite lookup_delete_Some. intros [_ Hc']; eauto.
  - revert Hok. apply keys_ok_same; [done|done| |auto]. eauto.
Qed.

Lemma keys_ok_start w now : w_tried w = [] → keys_ok (mkWSSys w now ∅).
Proof.
  intros Hw. split; cbn; rewrite ?Hw; intros *; rewrite ?lookup_nil, ?lookup_empty; try done.
  by intros Hin%elem_of_nil.
Qed.

Lemma run_keys_ok s s' :
  rtc (timely_step useMQ hasMQ) s s' → timely s → keys_ok s → timely s' ∧ keys_ok s'.
Proof.
  induction 1 as [|s1 s2 s3 [Hstep Htime] _ IH]; [done|]. intros Ht1 Hk1.
  apply IH; [done|]. by eapply step_keys_ok.
Qed.
End at_most_once.

(** Over dbman called directly, the messages of the store are the initial ones and those that were answered. *)
Section stored.
Context {R : Type} `{Postgres} `{RedisKVLaws R} (DB : string → result unit).
Variables (useMQ hasMQ : bool).
#[local] Existing Instance dbman_chat_store.
#[local] Instance store_of_DB : ChatBackend ChatDB := dbman_chat_store DB.

Definition stored_ok (before : list Message) (w : WSWorld ChatDB R) : Prop :=
  chat_inv (cstore (w_chat w)) ∧ messages (cstore (w_chat w)) = before ++ (as_stored <$> (w_created w).*2).

Lemma advance_stored before cx env ph w :
  stored_ok before w → stored_ok before (ws_advance useMQ hasMQ cx env ph w).2.
Proof.
  intros [Hinv Hmsg]. destruct ph as [|e p key|e p key|k t|e]; try done; cbn [ws_advance].
  - by destruct (SetNX _ _ _ _) as [kv [[]|err]].
  - pose proof (create_message_cases DB DB useMQ hasMQ env (ws_message cx e p) (w_chat w) Hinv) as Hcases.
    pose proof (create_message_svc_inv DB useMQ hasMQ env (ws_message cx e p) (w_chat w) Hinv) as Hinv'.
    change (two_routers DB DB) with store_of_DB in *. change (dbman_chat_store DB) with store_of_DB in *.
    destruct (CreateMessage useMQ hasMQ env (ws_message cx e p) (w_chat w)) as [chat [m|err]].
    + destruct Hcases as (_ & _ & _ & _ & _ & _ & Hm & _). split; [done|].
      erewrite created_app by done. cbn [snd w_chat] in *. by rewrite Hm, Hmsg, !fmap_app, <-app_assoc.
    + cbn in Hcases. subst chat. destruct key as [[k t]|]; (split; [done|]; erewrite created_app by done; cbn [snd]; by rewrite app_nil_r).
Qed.

Lemma step_stored before s s' :
  ws_step useMQ hasMQ s s' → stored_ok before (s_world s) → stored_ok before (s_world s').
Proof.
  intros Hstep Hok. destruct Hstep; cbn; try done; [|by apply advance_stored].
  destruct (ws_begin_quiet cx raw (s_world s)) as (_ & Hlog & _ & Hchat).
  unfold stored_ok, w_created. by rewrite Hlog, Hchat.
Qed.
End stored.

(** * Theorems *)

(** C35: Only members get a socket.  When the gate lets a request through, the request carried a token
    that parses, the token's user is a member of the requested room in the token's tenant, and the connection
    bears that user, that room and, unless it is blank, that tenant. *)
Theorem socket_needs_membership parse IsRoomMember ClientForTenant upgrade id query (c : Ctx) status (cx : ws_conn) :
  handleWS parse IsRoomMember ClientForTenant upgrade id query c = RJson status cx →
  ∃ token user tenant role,
    wsAccessToken (headers c) query = Some token ∧ parse token = Ok (user, tenant, role)
    ∧ IsRoomMember tenant (cx_room cx) user = Ok true
    ∧ cx_room cx ≠ "" ∧ cx_user cx = TrimSpace user
    ∧ (TrimSpace tenant ≠ "" → cx_tenant cx = TrimSpace tenant).
Proof.
  unfold handleWS, ws_open, parseInt64, trimmed_key.
  destruct (wsAccessToken _ _) as [token|]; [|done]. destruct (parse token) as [[[user tenant] role]|] eqn:Hp; [|done].
  case_decide as Hroom; [done|].
  destruct (IsRoomMember tenant (TrimSpace (query "room_id")) user) as [[]|] eqn:Hm; [|done..].
  assert (Ht : GetString (ctx_set "auth_tenant_id" tenant (ctx_set "auth_user_id" user
    (ctx_set "auth_access_token" token c))) "auth_tenant_id" = tenant).
  { unfold GetString. cbn. by rewrite lookup_insert_eq. }
  assert (Hu : GetString (ctx_set "auth_tenant_id" tenant (ctx_set "auth_user_id" user
    (ctx_set "auth_access_token" token c))) "auth_user_id" = user).
  { unfold GetString. cbn. rewrite lookup_insert_ne, lookup_insert_eq; done. }
  rewrite Ht, Hu. case_decide; [done|]. destruct (ClientForTenant _); [|done]. destruct upgrade; [|done].
  intros [= _ <-]. exists token, user, tenant, role. cbn. repeat split; try done.
  intros Hne. rewrite (decide_True (P := TrimSpace tenant ≠ "")) by done. by rewrite decide_False.
Qed.

(** What a frame on a connection may have done, from a world to a phase and a world. *)
Section outcome.
Context {S R : Type} `{ChatBackend S} `{RedisKV R}.
Variables (useMQ hasMQ : bool) (cx : ws_conn) (env : SessionStore.Env).
(** The user in whose name the frame acts. *)
Variable user : string.
Implicit Types w : WSWorld S R.

(** Nothing published or created, at most one error on the own socket. *)
Definition frame_refused w w' : Prop :=
  w_out w' = w_out w ∧ w_created w' = w_created w
  ∧ (w_errors w' = w_errors w ∨ ∃ e, w_errors w' = w_errors w ++ [(cx_id cx, e)]).

(** One envelope on the own channel, with the own room, from that user. *)
Definition frame_published (e : wsEnvelope) w w' : Prop :=
  w_out w' = w_out w ++ [(cx_channel cx, e)] ∧ w_errors w' = w_errors w
  ∧ ws_RoomID e = cx_room cx ∧ ws_UserID e = user.

(** The envelope passes on what the client sent. *)
Definition frame_relayed (e : wsEnvelope) w w' : Prop :=
  Type_ e ≠ "message" ∧ w_chat w' = w_chat w ∧ w_redis w' = w_redis w ∧ w_created w' = w_created w
  ∧ ∃ v, ws_Payload e = PAny v.

(** The envelope carries a message created for the own tenant and room, from that user, who is not blank. *)
Definition frame_created (e : wsEnvelope) w w' : Prop :=
  ∃ key body meta m, Type_ e = "message" ∧ ws_Payload e = PMessage m ∧ TrimSpace body ≠ "" ∧ TrimSpace user ≠ ""
    ∧ CreateMessage useMQ hasMQ env (mkMessage (cx_tenant cx) "" (cx_room cx) user body meta 0)
        (w_chat w) = (w_chat w', Ok m)
    ∧ w_created w' = w_created w ++ [(key, m)].

Definition frame_outcome w (r : ws_phase * WSWorld S R) : Prop :=
  r.1 = Reading ∧ (frame_refused w r.2 ∨ ∃ e, frame_published e w r.2 ∧ (frame_relayed e w r.2 ∨ frame_created e w r.2)).

Lemma payload_body v p : parseWSMessagePayload v = Ok p → TrimSpace (Body p) ≠ "".
Proof.
  unfold parseWSMessagePayload. destruct (decode_struct _ _ _ v) as [out|]; [|done].
  cbv zeta. case_decide; [done|]. by intros [= <-].
Qed.

Lemma decode_struct_inv {T} (I : T → Prop) names set (zero : T) v r :
  (∀ f v x y, set f v x = Some y → I x → I y) → I zero → decode_struct names set zero v = Some r → I r.
Proof.
  intros Hset Hz. destruct v as [| | | | | |fields]; cbn; try done; [by intros [= <-]|].
  assert (Hacc : ∀ x, Some zero = Some x → I x) by (by intros x [= <-]).
  revert Hacc. generalize (Some zero) as acc.
  induction fields as [|[k v] fields IH]; intros acc Hacc; cbn; [apply Hacc|].
  apply IH. intros x. destruct acc as [y|]; [|done].
  destruct (field_name names k); [|apply Hacc]. intros Hx. eapply Hset; [exact Hx|]. by apply Hacc.
Qed.

Lemma decode_envelope_any v e : decode_envelope v = Some e → ∃ v', ws_Payload e = PAny v'.
Proof.
  apply (decode_struct_inv (λ e, ∃ v', ws_Payload e = PAny v')); [|by eexists].
  intros f w [t r u g p] y. unfold set_envelope.
  repeat case_decide; try (intros (? & _ & ->)%fmap_Some; done). destruct (any_ok w); [|done]. intros [= <-] _. by eexists.
Qed.

(** The two calls that follow once the key is held. *)
Lemma persist_outcome e p key w0 w :
  ws_RoomID e = cx_room cx → ws_UserID e = user → TrimSpace user ≠ "" → Type_ e = "message" → TrimSpace (Body p) ≠ "" →
  w_chat w = w_chat w0 → w_out w = w_out w0 → w_errors w = w_errors w0 → w_tried w = w_tried w0 →
  frame_outcome w0 (let '(ph, w) := ws_advance useMQ hasMQ cx env (Persisting e p key) w in
                    ws_advance useMQ hasMQ cx env ph w).
Proof.
  intros Hr Hu Hne Ht Hb Hc Ho He Hl. cbn [ws_advance]. unfold ws_message. rewrite Hu, Hc.
  destruct (CreateMessage _ _ env _ _) as [chat [m|err]] eqn:Hcr.
  - split; [done|]. right. eexists. split.
    + split; [cbn; rewrite Ho; done|]. split; [done|]. cbn. done.
    + right. exists key, (Body p), (BuildMessageMeta (FileID p) (default [] (FileIDs p)) (Emojis p)), m.
      split_and!; [|done|done|done|exact Hcr|erewrite created_app by done; cbn; unfold w_created; by rewrite Hl].
      cbn [snd outgoing Type_]. unfold outgoing. cbn [Type_]. rewrite Ht. vm_compute. reflexivity.
  - assert (∀ w', w_tried w' = w_tried w ++ [(key, Err err)] → w_created w' = w_created w0) as Hsame.
    { intros w' E. rewrite (created_app w w' _ _ E), app_nil_r. unfold w_created. by rewrite Hl. }
    destruct key as [[k t]|]; (split; [done|left; split; [done|split; [by apply Hsame|right; cbn; rewrite He; by eexists]]]).
Qed.
End outcome.

(** The user in whose name a frame acts: the connection's, or, on a connection that has none, the one the frame names. *)
Definition acting_user (cx : ws_conn) (raw : result json) : string :=
  if decide (cx_user cx ≠ "") then cx_user cx
  else match raw with
       | Ok v => match decode_envelope v with Some e => ws_UserID e | None => "" end
       | Err _ => ""
       end.

(** C3: A frame acts in the name of its connection.  A frame that is handled alone either publishes
    nothing and creates nothing, with at most one error written to its own socket, or publishes one
    envelope, on the channel of the connection's room, with the connection's room and in the name of one user: the
    connection's user whatever the frame said, when the connection has one, and otherwise (the token's user is blank)
    the user the frame names.  The envelope has type "message" exactly if it carries a message that was just created
    for that tenant, room and user, who is then not blank, and for the other types neither the chat service nor Redis
    changes. *)
Theorem frame_speaks_for_connection {S R} `{ChatBackend S} `{RedisKV R} useMQ hasMQ (cx : ws_conn)
    (env : SessionStore.Env) (raw : result json) (w : WSWorld S R) :
  frame_outcome useMQ hasMQ cx env (acting_user cx raw) w (handle_frame useMQ hasMQ cx env raw w)
  ∧ (cx_user cx ≠ "" → acting_user cx raw = cx_user cx)
  ∧ (cx_user cx = "" → ∀ v e, raw = Ok v → decode_envelope v = Some e → acting_user cx raw = ws_UserID e).
Proof.
  split; [|unfold acting_user; split; [by intros ?; rewrite decide_True|intros Hc v e -> He; rewrite decide_False by tauto; by rewrite He]].
  unfold handle_frame, ws_begin.
  assert (Hquiet : frame_outcome useMQ hasMQ cx env (acting_user cx raw) w (Reading, w)) by (split; [done|left; repeat split; by left]).
  assert (Herr : ∀ msg, frame_outcome useMQ hasMQ cx env (acting_user cx raw) w (Reading, writeWSError cx msg w)).
  { intros msg. split; [done|left; split; [done|split; [done|right; by eexists]]]. }
  destruct raw as [v|]; [|done]. cbn [mbind result_bind]. destruct (decode_envelope v) as [e|] eqn:Hv; [|done]. cbv zeta.
  assert ((if decide (cx_user cx ≠ "") then cx_user cx else ws_UserID e) = acting_user cx (Ok v)) as ->.
  { unfold acting_user. by rewrite Hv. }
  set (user := acting_user cx (Ok v)) in *. clearbody user. cbn [ws_UserID Type_ ws_Payload].
  case_decide as Ht.
  - case_decide as Hu; [apply Herr|]. destruct (parseWSMessagePayload _) as [p|err] eqn:Hp; [|apply Herr].
    apply payload_body in Hp. case_decide.
    + cbn [Nat.iter nat_rect ws_advance]. destruct (SetNX _ _ _ _) as [kv [[]|err]]; cbn [ws_advance].
      * by apply (persist_outcome useMQ hasMQ cx env user
          (mkWsEnvelope (Type_ e) (cx_room cx) user (TargetID e) (ws_Payload e)) p (Some (_, NOW env)) w
          (set_redis kv w)).
      * split; [done|left; split; [done|split; [done|right; by eexists]]].
      * split; [done|left; split; [done|split; [done|right; by eexists]]].
    + cbn [Nat.iter nat_rect].
      match goal with |- context [ws_advance useMQ hasMQ cx env (Persisting ?e ?p None) w] =>
        pose proof (persist_outcome useMQ hasMQ cx env user e p None w w eq_refl eq_refl Hu Ht Hp eq_refl eq_refl eq_refl eq_refl) as Hout end.
      revert Hout. destruct (ws_advance useMQ hasMQ cx env (Persisting _ p None) w) as [ph w1].
      destruct (ws_advance useMQ hasMQ cx env ph w1) as [ph2 w2]. intros [Hph Hout]. cbn in Hph. subst ph2. by split.
  - destruct (decode_envelope_any v e Hv) as [pv Hpv].
    split; [done|right]. eexists. split; [done|]. left. cbn.
    split; [|repeat split; by eexists]. unfold outgoing. cbn. by case_decide.
Qed.

(** C2: A client message identifier that has been accepted is not sent on again for a day.  However the
    connections' frames interleave, whatever Redis and the chat service's store answer or fail to, and as long as every
    connection is done with a key before it expires: once the store has answered an attempt at creating a message with
    that message, every later attempt under the same idempotency key, accepted or not, is at least 24 hours later
    (between the times at which the key was set).  Only an attempt that failed may be made again before; if the store
    had done it all the same, as dbman has when its answer is lost, the second attempt stores the message twice (see
    lost_reply_stores_frame_twice).  With dbman called directly, where no answer is lost, well-formed tables
    (dbman_tables_well_formed) hold the initial messages and then exactly those that were accepted. *)
Theorem client_message_once {R} `{RedisKVLaws R} useMQ hasMQ (now : time) :
  (∀ S (B : ChatBackend S) (w : WSWorld S R) (s : WSSys S R),
     w_tried w = [] → rtc (timely_step useMQ hasMQ) (mkWSSys w now ∅) s →
     ∀ i j k ti tj m rj,
       w_tried (s_world s) !! i = Some (Some (k, ti), Ok m) → w_tried (s_world s) !! j = Some (Some (k, tj), rj) →
       i < j → (ti + 24 * 3600 * 1000000000 ≤ tj)%Z)
  ∧ ∀ (PG : Postgres) (DB : string → result unit) (w : WSWorld ChatDB R) (s : WSSys ChatDB R),
      chat_inv (cstore (w_chat w)) → w_tried w = [] →
      rtc (timely_step (H := dbman_chat_store DB) useMQ hasMQ) (mkWSSys w now ∅) s →
      messages (cstore (w_chat (s_world s))) = messages (cstore (w_chat w)) ++ (as_stored <$> (w_created (s_world s)).*2).
Proof.
  split.
  - intros S B w s Hlog Hrun. apply run_keys_ok in Hrun as [_ Hok]; [|by intros ?*|by apply keys_ok_start].
    apply (keys_apart _ Hok).
  - intros PG DB w s Hinv Hlog Hrun.
    enough (stored_ok (messages (cstore (w_chat w))) (s_world s)) as [_ Hmsg] by done.
    assert (Hw : stored_ok (messages (cstore (w_chat w))) (s_world (mkWSSys w now ∅))).
    { split; [done|]. cbn. unfold w_created. rewrite Hlog. cbn. by rewrite app_nil_r. }
    clear Hinv Hlog. revert Hw. induction Hrun as [|s1 s2 s3 [Hstep _] _ IH]; [done|].
    intros Hw. apply IH. by eapply (step_stored DB).
Qed.

(** * Concrete runs *)

#[local] Existing Instance demo_pg.

(** Keys with their expiry; nothing fails. *)
#[local] Instance map_redis : RedisKV (gmap string time) := {|
  SetNX now k ttl kv :=
    match kv !! k with
    | Some e => if (now <? e)%Z then (kv, Ok false) else (<[k := (now + ttl)%Z]> kv, Ok true)
    | None => (<[k := (now + ttl)%Z]> kv, Ok true)
    end;
  Del k kv := delete k kv;
|}.

#[local] Program Instance map_redis_laws : RedisKVLaws (gmap string time) := {| expiry kv k := kv !! k |}.
Next Obligation.
  cbn. intros now k ttl kv kv' Hnx. destruct (kv !! k) as [e|] eqn:Hk.
  - destruct (Z.ltb_spec now e); simplify_eq. split; [intros (e' & Hk' & Hlt); simplify_eq; lia|].
    split; [apply lookup_insert_eq|]. intros k' Hne. by rewrite lookup_insert_ne.
  - simplify_eq. split; [by intros (e' & Hk' & _)|].
    split; [apply lookup_insert_eq|]. intros k' Hne. by rewrite lookup_insert_ne.
Qed.
Next Obligation.
  cbn. intros now k ttl kv kv' Hnx. destruct (kv !! k) as [e|] eqn:Hk; [|done].
  destruct (Z.ltb_spec now e); simplify_eq. split; [by exists e|done].
Qed.
Next Obligation.
  cbn. intros now k ttl kv kv' e Hnx. destruct (kv !! k) as [e'|]; [destruct (now <? e')%Z|]; done.
Qed.
Next Obligation. cbn. intros k kv k' Hne. by rewrite lookup_delete_ne. Qed.

Definition demo_cx : ws_conn := mkWsConn 7 "a" "r" "u".

Definition demo_world : WSWorld ChatDB (gmap string time) := mkWSWorld (mkChatSvc demo_chat [] []) ∅ [] [] [].

Definition demo_frame : json :=
  JObj [("type", JStr "message"); ("USER_ID", JStr "mallory");
        ("payload", JObj [("body", JStr "hi"); ("client_msg_id", JStr " c1 ")])].

Lemma socket_needs_membership_witness :
  ∃ token, wsAccessToken (λ _, "Bearer t") (λ _, "r") = Some token.
Proof.
  destruct (socket_needs_membership (λ _, Ok ("u", "a", "user")) (λ _ _ _, Ok true) (λ _, Ok tt) (Ok tt) 7
    (λ k, if decide (k = "room_id") then "r" else "") (mkCtx (λ _, "Bearer t") ∅) 101 demo_cx)
    as (token & user & tenant & role & Htoken & _); [vm_compute; reflexivity|].
  exists token. exact Htoken.
Defined.

(** In the witness, the frame claims to come from another user, and is published as the connection's. *)
Lemma frame_speaks_for_connection_witness :
  let r := handle_frame (H := dbman_chat_store (λ _, Ok tt)) false false demo_cx (SessionStore.mkEnv 90 "m9") (Ok demo_frame)
             demo_world in
  r.1 = Reading ∧ (λ o, ws_UserID o.2) <$> w_out r.2 = ["u"].
Proof.
  cbv zeta. split; [|vm_compute; reflexivity].
  apply (proj1 (proj1 (frame_speaks_for_connection (H := dbman_chat_store (λ _, Ok tt)) false false demo_cx
    (SessionStore.mkEnv 90 "m9") (Ok demo_frame) demo_world))).
Defined.

(** A connection opens, reads the frame and makes its first two calls. *)
#[local] Instance demo_backend : ChatBackend ChatDB := dbman_chat_store (λ _, Ok tt).

Definition demo_open : WSSys ChatDB (gmap string time) := mkWSSys demo_world 90 (<[7 := (demo_cx, Reading)]> ∅).

Definition demo_read : WSSys ChatDB (gmap string time) :=
  sys_put demo_open 7 demo_cx (ws_begin demo_cx (Ok demo_frame) (s_world demo_open)).

Definition demo_next (uuid : string) (s : WSSys ChatDB (gmap string time)) : WSSys ChatDB (gmap string time) :=
  match s_conns s !! 7 with
  | Some (cx, ph) => sys_put s 7 cx (ws_advance false false cx (SessionStore.mkEnv (s_clock s) uuid) ph (s_world s))
  | None => s
  end.

Definition on_time (now : time) (c : ws_conn * ws_phase) : Prop :=
  match holds c.2 with Some (_, t) => (now < t + wsMessageIdempotencyTTL)%Z | None => True end.

#[local] Instance on_time_dec now c : Decision (on_time now c).
Proof. unfold on_time. destruct (holds c.2) as [[k t]|]; apply _. Defined.

Lemma timely_check (s : WSSys ChatDB (gmap string time)) :
  bool_decide (map_Forall (λ _, on_time (s_clock s)) (s_conns s)) = true → timely s.
Proof.
  intros Hall%bool_decide_eq_true id cx ph k t Hc Hh. specialize (Hall id _ Hc). unfold on_time in Hall. cbn [snd] in Hall.
  by rewrite Hh in Hall.
Qed.

Definition busy (c : option (ws_conn * ws_phase)) : bool :=
  match c with Some (_, Reading) | None => false | _ => true end.

Lemma demo_next_step uuid s : busy (s_conns s !! 7) = true → timely (demo_next uuid s) →
  timely_step false false s (demo_next uuid s).
Proof.
  intros Hbusy Ht. split; [|done]. unfold demo_next. destruct (s_conns s !! 7) as [[cx ph]|] eqn:Hc; [|done].
  apply ws_step_advance; [done|]. by destruct ph.
Qed.

Lemma demo_run : rtc (timely_step false false) (mkWSSys demo_world 90 ∅) (demo_next "m9" (demo_next "" demo_read)).
Proof.
  eapply rtc_l; [split; [by apply (ws_step_open _ _ _ 7 demo_cx)|apply timely_check; by vm_compute]|].
  eapply rtc_l; [split; [by apply (ws_step_frame _ _ demo_open 7 demo_cx (Ok demo_frame))|apply timely_check; by vm_compute]|].
  eapply rtc_l; [apply (demo_next_step ""); [by vm_compute|apply timely_check; by vm_compute]|].
  apply rtc_once, demo_next_step; [by vm_compute|apply timely_check; by vm_compute].
Qed.

Lemma client_message_once_witness :
  let s := demo_next "m9" (demo_next "" demo_read) in
  messages (cstore (w_chat (s_world s))) = messages demo_chat ++ (as_stored <$> (w_created (s_world s)).*2)
  ∧ length (w_created (s_world s)) = 1.
Proof.
  cbv zeta. split; [|vm_compute; reflexivity].
  exact (proj2 (client_message_once false false 90) demo_pg (λ _, Ok tt) demo_world _ demo_chat_inv eq_refl demo_run).
Defined.
