(* ===== verification/Users.v ===== *)
(** * Users, organisation units and aliases

    server/dbman/repository/user_repository.go and server/dbman/service/user_service.go over the
    tables of migrations 001 to 008, and server/orgHub/service/user_service.go over the interface
    that orgHub's dbman client offers.  The users and the aliases are tables of [ChatDB], which the
    chat queries read too; the organisation units and the audit of the aliases are added here.

    bcrypt and PostgreSQL's user search are parameters. *)

From S2P Require Import Prelude GoStrings GoEncoding Cursor Env SessionStore Paging ChatStore ChatService.

(** ** Data *)

(* server/chat/domain/models.go: OrgUnit *)
Record OrgUnit := mkOrgUnit {
  ou_TenantID : string;
  ou_ID : string;
  ParentID : option string;
  ou_Name : string;
  ou_CreatedAt : time;
}.

(* server/chat/domain/models.go: AliasAudit *)
Record AliasAudit := mkAliasAudit {
  aa_TenantID : string;
  aa_ID : string;
  aa_UserID : string;
  aa_Alias : string;
  Action : string;
  ActedBy : string;
  IP : string;
  UserAgent : string;
  aa_CreatedAt : time;
}.

Record OrgDB := mkOrgDB {
  o_chat : ChatDB;
  org_units : list OrgUnit;
  alias_audit : list AliasAudit;
}.

Definition set_o_chat x (d : OrgDB) : OrgDB := mkOrgDB x (org_units d) (alias_audit d).
Definition set_users x (d : OrgDB) : OrgDB :=
  let c := o_chat d in
  set_o_chat (mkChatDB (c_tenants c) x (user_aliases c) (chat_rooms c) (room_members c) (messages c) (message_reads c)) d.
Definition set_user_aliases x (d : OrgDB) : OrgDB :=
  let c := o_chat d in
  set_o_chat (mkChatDB (c_tenants c) (users c) x (chat_rooms c) (room_members c) (messages c) (message_reads c)) d.

(** ** The repository *)
Section repository.
Context `{Postgres}.
(** [user_match] is the condition of the search on name, email and title. *)
Variable user_match : User → string → bool.
Variable DBForTenant : string → result unit.

(** A parent that is given but does not exist. *)
Definition parent_missing (parentID : option string) (d : OrgDB) : Prop :=
  match parentID with Some p => p ∉ (ou_ID <$> org_units d) | None => False end.

#[export] Instance parent_missing_dec p d : Decision (parent_missing p d).
Proof. unfold parent_missing. destruct p; apply _. Defined.

(* server/dbman/repository/user_repository.go: CreateOrgUnit *)
Definition repo_CreateOrgUnit (env : Env) (tenantID : string) (parentID : option string) (name : string) :
    M OrgDB string := λ d,
  match DBForTenant tenantID with
  | Err e => (d, Err e)
  | Ok _ =>
      if decide (tenantID ∉ c_tenants (o_chat d)) then (d, Err foreign_key)
      else if decide (parent_missing parentID d) then (d, Err foreign_key)
      else if decide (new_uuid env ∈ (ou_ID <$> org_units d)) then (d, Err duplicate_key)
      else
        (mkOrgDB (o_chat d) (org_units d ++ [mkOrgUnit tenantID (new_uuid env) parentID name (NOW env)]) (alias_audit d),
         Ok (new_uuid env))
  end.

Definition org_id_le (x y : OrgUnit) : Prop := text_le (ou_ID x) (ou_ID y).

#[export] Instance org_id_le_dec : RelDecision org_id_le.
Proof. intros x y. unfold org_id_le. apply text_le_dec. Defined.

(** The SELECT list has no tenant_id. *)
(* server/dbman/repository/user_repository.go: ListOrgUnits *)
Definition repo_ListOrgUnits (tenantID : string) : M OrgDB (list OrgUnit) := λ d,
  match DBForTenant tenantID with
  | Err e => (d, Err e)
  | Ok _ =>
      (d, Ok ((λ o, mkOrgUnit "" (ou_ID o) (ParentID o) (ou_Name o) (ou_CreatedAt o)) <$>
        merge_sort org_id_le (filter (λ o, ou_TenantID o = tenantID) (org_units d))))
  end.

(** The key of a user besides the identifier: tenant and email. *)
Definition email_taken (tenantID email : string) (d : OrgDB) : Prop :=
  map_Exists (λ _ u, u_TenantID u = tenantID ∧ Email u = email) (users (o_chat d)).

#[export] Instance email_taken_dec t e d : Decision (email_taken t e d).
Proof. unfold email_taken. apply _. Defined.

(* server/dbman/repository/user_repository.go: CreateUser *)
Definition repo_CreateUser (env : Env) (tenantID : string) (user : User) : M OrgDB string := λ d,
  match DBForTenant tenantID with
  | Err e => (d, Err e)
  | Ok _ =>
      if decide (tenantID ∉ c_tenants (o_chat d) ∨ OrgID user ∉ (ou_ID <$> org_units d)) then (d, Err foreign_key)
      else if decide (is_Some (users (o_chat d) !! new_uuid env) ∨ email_taken tenantID (Email user) d)
      then (d, Err duplicate_key)
      else
        let row := mkUser tenantID (new_uuid env) (OrgID user) (Email user) (u_Name user) (u_Title user)
                     (u_Role user) (u_Status user) (u_StatusNote user) (PasswordHash user) (NOW env) (NOW env) in
        (set_users (<[new_uuid env := row]> (users (o_chat d))) d, Ok (new_uuid env))
  end.

(* server/dbman/repository/user_repository.go: UpdateStatus *)
Definition repo_UpdateStatus (env : Env) (tenantID userID status note : string) : M OrgDB unit := λ d,
  match DBForTenant tenantID with
  | Err e => (d, Err e)
  | Ok _ =>
      match users (o_chat d) !! userID with
      | Some u =>
          if decide (u_TenantID u = tenantID) then
            let row := mkUser (u_TenantID u) (u_ID u) (OrgID u) (Email u) (u_Name u) (u_Title u) (u_Role u)
                         status note (PasswordHash u) (u_CreatedAt u) (NOW env) in
            (set_users (<[userID := row]> (users (o_chat d))) d, Ok tt)
          else (d, Err "user not found")
      | None => (d, Err "user not found")
      end
  end.

(** Neither the tenant nor the hash is selected by a search. *)
Definition search_columns (u : User) : User :=
  mkUser "" (u_ID u) (OrgID u) (Email u) (u_Name u) (u_Title u) (u_Role u) (u_Status u) (u_StatusNote u) ""
    (u_CreatedAt u) (u_UpdatedAt u).

Definition updated_later (x y : User) : Prop := (u_UpdatedAt y ≤ u_UpdatedAt x)%Z.

#[export] Instance updated_later_dec : RelDecision updated_later.
Proof. intros x y. unfold updated_later. apply _. Defined.

(* server/dbman/repository/user_repository.go: SearchUsers *)
Definition repo_SearchUsers (tenantID q : string) (limit : Z) : M OrgDB (list User) := λ d,
  match DBForTenant tenantID with
  | Err e => (d, Err e)
  | Ok _ =>
      if (limit <? 0)%Z then (d, Err "LIMIT must not be negative")
      else (d, Ok (search_columns <$> take (Z.to_nat limit) (merge_sort updated_later
             (filter (λ u, u_TenantID u = tenantID ∧ user_match u q = true)
                (snd <$> map_to_list (users (o_chat d)))))))
  end.

(* server/dbman/repository/user_repository.go: GetByEmail *)
Definition repo_GetByEmail (tenantID email : string) : M OrgDB User := λ d,
  match DBForTenant tenantID with
  | Err e => (d, Err e)
  | Ok _ =>
      match list_find (λ u, u_TenantID u = tenantID ∧ Email u = email) (snd <$> map_to_list (users (o_chat d))) with
      | None => (d, Err "no rows in result set")
      | Some (_, u) =>
          (d, Ok (mkUser "" (u_ID u) (OrgID u) (Email u) (u_Name u) (u_Title u) (u_Role u) (u_Status u)
                    (u_StatusNote u) (PasswordHash u) (u_CreatedAt u) (u_UpdatedAt u)))
      end
  end.

(* server/dbman/repository/user_repository.go: ListAliases *)
Definition repo_ListAliases (tenantID userID : string) : M OrgDB (list string) := λ d,
  match DBForTenant tenantID with
  | Err e => (d, Err e)
  | Ok _ =>
      (d, Ok (merge_sort text_le
        (al_alias <$> filter (λ a, al_tenant a = tenantID ∧ al_user a = userID) (user_aliases (o_chat d)))))
  end.

(** The keys of user_aliases: (user_id, alias) and (user_id, lower(alias)), whatever the tenant. *)
Definition alias_taken (userID alias : string) (d : OrgDB) : Prop :=
  Exists (λ a, al_user a = userID ∧ (al_alias a = alias ∨ pg_lower (al_alias a) = pg_lower alias))
    (user_aliases (o_chat d)).

#[export] Instance alias_taken_dec u a d : Decision (alias_taken u a d).
Proof. unfold alias_taken. apply _. Defined.

Definition insert_audit (env : Env) (tenantID userID alias action ip userAgent : string) : M OrgDB unit := λ d,
  if decide (new_uuid env ∈ (aa_ID <$> alias_audit d)) then (d, Err duplicate_key)
  else
    (mkOrgDB (o_chat d) (org_units d)
       (alias_audit d ++ [mkAliasAudit tenantID (new_uuid env) userID alias action userID ip userAgent (NOW env)]),
     Ok tt).

(** One statement: the audit row is inserted for the alias that was. *)
(* server/dbman/repository/user_repository.go: AddAlias *)
Definition repo_AddAlias (env : Env) (tenantID userID alias ip userAgent : string) : M OrgDB unit := λ d,
  match DBForTenant tenantID with
  | Err e => (d, Err e)
  | Ok _ =>
      transaction (λ d,
        if decide (alias_taken userID alias d) then (d, Ok tt)
        else if decide (tenantID ∉ c_tenants (o_chat d) ∨ users (o_chat d) !! userID = None) then (d, Err foreign_key)
        else
          insert_audit env tenantID userID alias "add" ip userAgent
            (set_user_aliases (user_aliases (o_chat d) ++ [mkAliasRow tenantID userID alias (NOW env)]) d)) d
  end.

Definition alias_row (tenantID userID alias : string) (a : AliasRow) : Prop :=
  al_tenant a = tenantID ∧ al_user a = userID ∧ al_alias a = alias.

#[export] Instance alias_row_dec t u a r : Decision (alias_row t u a r).
Proof. unfold alias_row. apply _. Defined.

(** One statement: the key (user_id, alias) makes the deleted row unique. *)
(* server/dbman/repository/user_repository.go: DeleteAlias *)
Definition repo_DeleteAlias (env : Env) (tenantID userID alias ip userAgent : string) : M OrgDB unit := λ d,
  match DBForTenant tenantID with
  | Err e => (d, Err e)
  | Ok _ =>
      transaction (λ d,
        if decide (Exists (alias_row tenantID userID alias) (user_aliases (o_chat d))) then
          insert_audit env tenantID userID alias "delete" ip userAgent
            (set_user_aliases (filter (λ a, ¬ alias_row tenantID userID alias a) (user_aliases (o_chat d))) d)
        else (d, Ok tt)) d
  end.

(** The WHERE clause that is built from the filters given, without the cursor. *)
Definition audit_match (tenantID userID : string) (from to_ : option time) (action : string) (x : AliasAudit) : Prop :=
  aa_TenantID x = tenantID ∧ aa_UserID x = userID
  ∧ match from with Some t => (t ≤ aa_CreatedAt x)%Z | None => True end
  ∧ match to_ with Some t => (aa_CreatedAt x ≤ t)%Z | None => True end
  ∧ (TrimSpace action ≠ "" → Action x = ToLower (TrimSpace action)).

#[export] Instance audit_match_dec t u f g a x : Decision (audit_match t u f g a x).
Proof. unfold audit_match. destruct f, g; apply _. Defined.

Definition audit_key (x : AliasAudit) : time * string := (aa_CreatedAt x, aa_ID x).

Definition audit_columns (x : AliasAudit) : AliasAudit :=
  mkAliasAudit "" (aa_ID x) (aa_UserID x) (aa_Alias x) (Action x) (ActedBy x) (IP x) (UserAgent x) (aa_CreatedAt x).

(** [room_key_le] orders by time, then by identifier. *)
(* server/dbman/repository/user_repository.go: ListAliasAudit *)
Definition repo_ListAliasAudit (tenantID userID : string) (limit : Z) (from to_ : option time) (action : string)
    (cursorCreatedAt : option time) (cursorID : option string) : M OrgDB (list AliasAudit) := λ d,
  match DBForTenant tenantID with
  | Err e => (d, Err e)
  | Ok _ =>
      if (limit <? 0)%Z then (d, Err "LIMIT must not be negative")
      else
        let cursor := match cursorCreatedAt, cursorID with Some t, Some id => Some (t, id) | _, _ => None end in
        (d, Ok (audit_columns <$> query room_key_le audit_key
              (filter (audit_match tenantID userID from to_ action) (alias_audit d)) cursor (Z.to_nat limit)))
  end.

(** ** The dbman service *)

(** [GenerateFromPassword] draws a salt; the hash it made is an argument of the call. *)
Variable GenerateFromPassword : string → result string.
Variable CompareHashAndPassword : string → string → result unit.

(* server/dbman/service/user_service.go: CreateUser *)
Definition dbman_CreateUser (env : Env) (tenantID : string) (user : User) : M OrgDB string := λ d,
  let status := if decide (u_Status user = "") then "offline" else u_Status user in
  let role := if decide (u_Role user = "") then "user" else u_Role user in
  if decide (PasswordHash user = "") then (d, Err "password is required")
  else
    match GenerateFromPassword (PasswordHash user) with
    | Err e => (d, Err e)
    | Ok hashed =>
        repo_CreateUser env tenantID
          (mkUser (u_TenantID user) (u_ID user) (OrgID user) (Email user) (u_Name user) (u_Title user) role status
             (u_StatusNote user) hashed (u_CreatedAt user) (u_UpdatedAt user)) d
    end.

(* server/dbman/service/user_service.go: SearchUsers *)
Definition dbman_SearchUsers (tenantID q : string) (limit : Z) : M OrgDB (list User) :=
  repo_SearchUsers tenantID q (clamp limit 100 20).

(* server/dbman/service/user_service.go: Authenticate *)
Definition dbman_Authenticate (tenantID email password : string) : M OrgDB User := λ d,
  match repo_GetByEmail tenantID email d with
  | (d, Err e) => (d, Err e)
  | (d, Ok user) =>
      match CompareHashAndPassword (PasswordHash user) password with
      | Err _ => (d, Err "invalid credentials")
      | Ok _ =>
          (d, Ok (mkUser (u_TenantID user) (u_ID user) (OrgID user) (Email user) (u_Name user) (u_Title user)
                    (u_Role user) (u_Status user) (u_StatusNote user) "" (u_CreatedAt user) (u_UpdatedAt user)))
      end
  end.

(** Letters, digits, underscore, and U+AC00 to U+D7A3. *)
Definition alias_rune (r : Z) : bool :=
  ((65 <=? r) && (r <=? 90) || (97 <=? r) && (r <=? 122) || (48 <=? r) && (r <=? 57) || (r =? 95)
   || (44032 <=? r) && (r <=? 55203))%Z.

(** One to forty characters of the class; bytes that are not UTF-8 read as U+FFFD, which is not in it. *)
(* server/dbman/service/user_service.go: aliasPattern *)
Definition aliasPattern (s : string) : bool :=
  let rs := runes s in (1 <=? length rs) && (length rs <=? 40) && forallb alias_rune rs.

(* server/dbman/service/user_service.go: AddAlias *)
Definition dbman_AddAlias (env : Env) (tenantID userID alias ip userAgent : string) : M OrgDB unit := λ d,
  let alias := TrimSpace alias in
  if decide (alias = "") then (d, Err "alias is required")
  else if 40 <? strlen alias then (d, Err "alias is too long")
  else if negb (aliasPattern alias) then
    (d, Err "alias may only contain letters, digits, underscore, and Korean characters")
  else repo_AddAlias env tenantID userID (ToLower alias) ip userAgent d.

(* server/dbman/service/user_service.go: DeleteAlias *)
Definition dbman_DeleteAlias (env : Env) (tenantID userID alias ip userAgent : string) : M OrgDB unit := λ d,
  let alias := TrimSpace alias in
  if decide (alias = "") then (d, Err "alias is required")
  else if negb (aliasPattern alias) then (d, Err "alias format is invalid")
  else repo_DeleteAlias env tenantID userID (ToLower alias) ip userAgent d.

Definition after_ (from to_ : option time) : Prop :=
  match from, to_ with Some f, Some t => (t < f)%Z | _, _ => False end.

#[export] Instance after_dec from to_ : Decision (after_ from to_).
Proof. unfold after_. destruct from, to_; apply _. Defined.

(** The checks of the two services that list the audit. *)
Definition audit_request (from to_ : option time) (action : string) : result string :=
  let action := ToLower (TrimSpace action) in
  if decide (action ≠ "" ∧ action ≠ "add" ∧ action ≠ "delete") then Err "action must be add or delete"
  else if decide (after_ from to_) then Err "from must be before to"
  else Ok action.

(* server/dbman/service/user_service.go: ListAliasAudit *)
Definition dbman_ListAliasAudit (tenantID userID : string) (limit : Z) (from to_ : option time) (action : string)
    (cursorCreatedAt : option time) (cursorID : option string) : M OrgDB (list AliasAudit) := λ d,
  let limit := clamp limit 200 50 in
  match audit_request from to_ action with
  | Err e => (d, Err e)
  | Ok action => repo_ListAliasAudit tenantID userID limit from to_ action cursorCreatedAt cursorID d
  end.
End repository.

(** ** orgHub *)

(** The interface of orgHub's dbman client; the methods its service only forwards to. *)
(* server/orgHub/service/user_service.go: DBManClient *)
Class OrgBackend (S : Type) := {
  og_CreateOrgUnit : Env → string → option string → string → M S string;
  og_ListOrgUnits : string → M S (list OrgUnit);
  og_CreateUser : Env → string → User → M S string;
  og_UpdateUserStatus : Env → string → string → string → string → M S unit;
  og_SearchUsers : string → string → Z → M S (list User);
  og_AuthenticateUser : string → string → string → M S User;
  og_ListAliases : string → string → M S (list string);
  og_AddAlias : Env → string → string → string → string → string → M S unit;
  og_DeleteAlias : Env → string → string → string → string → string → M S unit;
  og_ListAliasAudit : string → string → Z → option time → option time → string → option time → option string →
    M S (list AliasAudit);
}.

(** dbman behind that client. *)
(* server/dbman/service/user_service.go: UserService #26-77 *)
Definition dbman_org_store `{Postgres} (user_match : User → string → bool) (DBForTenant : string → result unit)
    (generate : string → result string) (compare : string → string → result unit) : OrgBackend OrgDB := {|
  og_CreateOrgUnit := repo_CreateOrgUnit DBForTenant;
  og_ListOrgUnits := repo_ListOrgUnits DBForTenant;
  og_CreateUser := dbman_CreateUser DBForTenant generate;
  og_UpdateUserStatus := repo_UpdateStatus DBForTenant;
  og_SearchUsers := dbman_SearchUsers user_match DBForTenant;
  og_AuthenticateUser := dbman_Authenticate DBForTenant compare;
  og_ListAliases := repo_ListAliases DBForTenant;
  og_AddAlias := dbman_AddAlias DBForTenant;
  og_DeleteAlias := dbman_DeleteAlias DBForTenant;
  og_ListAliasAudit := dbman_ListAliasAudit DBForTenant;
|}.

Section orghub.
Context {S : Type} `{OrgBackend S}.

(** The methods that only ask dbman. *)
(* server/orgHub/service/user_service.go: CreateOrgUnit *)
Definition orghub_CreateOrgUnit (env : Env) (tenantID : string) (parentID : option string) (name : string) : M S string :=
  og_CreateOrgUnit env tenantID parentID name.

(* server/orgHub/service/user_service.go: ListOrgUnits *)
Definition orghub_ListOrgUnits (tenantID : string) : M S (list OrgUnit) :=
  og_ListOrgUnits tenantID.

(* server/orgHub/service/user_service.go: CreateUser *)
Definition orghub_CreateUser (env : Env) (tenantID : string) (user : User) : M S string :=
  og_CreateUser env tenantID user.

(* server/orgHub/service/user_service.go: UpdateStatus *)
Definition orghub_UpdateStatus (env : Env) (tenantID userID status note : string) : M S unit :=
  og_UpdateUserStatus env tenantID userID status note.

(* server/orgHub/service/user_service.go: Authenticate *)
Definition orghub_Authenticate (tenantID email password : string) : M S User :=
  og_AuthenticateUser tenantID email password.

(* server/orgHub/service/user_service.go: ListAliases *)
Definition orghub_ListAliases (tenantID userID : string) : M S (list string) :=
  og_ListAliases tenantID userID.

(* server/orgHub/service/user_service.go: AddAlias *)
Definition orghub_AddAlias (env : Env) (tenantID userID alias ip userAgent : string) : M S unit :=
  og_AddAlias env tenantID userID alias ip userAgent.

(* server/orgHub/service/user_service.go: DeleteAlias *)
Definition orghub_DeleteAlias (env : Env) (tenantID userID alias ip userAgent : string) : M S unit :=
  og_DeleteAlias env tenantID userID alias ip userAgent.

(* server/orgHub/service/user_service.go: SearchUsers *)
Definition orghub_SearchUsers (tenantID q : string) (limit : Z) : M S (list User) :=
  og_SearchUsers tenantID q (clamp limit 100 20).

Definition audit_cursor (cursor : string) : result (option time * option string) :=
  if decide (TrimSpace cursor ≠ "") then
    match decodeAliasAuditCursor cursor with
    | Err _ => Err "cursor is invalid"
    | Ok (parsedTime, parsedID) => Ok (Some parsedTime, Some parsedID)
    end
  else Ok (None, None).

(* server/orgHub/service/user_service.go: ListAliasAudit *)
Definition orghub_ListAliasAudit (tenantID userID : string) (limit : Z) (from to_ : option time) (action cursor : string) :
    M S (list AliasAudit * string) := λ s,
  let limit := clamp limit 200 50 in
  match audit_request from to_ action with
  | Err e => (s, Err e)
  | Ok action =>
      match audit_cursor cursor with
      | Err e => (s, Err e)
      | Ok (cursorCreatedAt, cursorID) =>
          match og_ListAliasAudit tenantID userID (limit + 1)%Z from to_ action cursorCreatedAt cursorID s with
          | (s, Err e) => (s, Err e)
          | (s, Ok items) => (s, Ok (cut_items (λ x, encodeAliasAuditCursor (aa_CreatedAt x) (aa_ID x)) limit items))
          end
      end
  end.
End orghub.

(** ** Histories of writes *)
Section org_calls.
Context `{Postgres}.
Variable DBForTenant : string → result unit.
Variable GenerateFromPassword : string → result string.

Inductive org_call :=
| CallCreateOrgUnit (env : Env) (tenantID : string) (parentID : option string) (name : string)
| CallCreateUser (env : Env) (tenantID : string) (user : User)
| CallUpdateStatus (env : Env) (tenantID userID status note : string)
| CallAddAlias (env : Env) (tenantID userID alias ip userAgent : string)
| CallDeleteAlias (env : Env) (tenantID userID alias ip userAgent : string).

Definition run_org_call (c : org_call) (d : OrgDB) : OrgDB :=
  match c with
  | CallCreateOrgUnit env t p n => (repo_CreateOrgUnit DBForTenant env t p n d).1
  | CallCreateUser env t u => (dbman_CreateUser DBForTenant GenerateFromPassword env t u d).1
  | CallUpdateStatus env t u s n => (repo_UpdateStatus DBForTenant env t u s n d).1
  | CallAddAlias env t u a ip ua => (dbman_AddAlias DBForTenant env t u a ip ua d).1
  | CallDeleteAlias env t u a ip ua => (dbman_DeleteAlias DBForTenant env t u a ip ua d).1
  end.

Definition run_org_calls (cs : list org_call) (d : OrgDB) : OrgDB := foldl (λ d c, run_org_call c d) d cs.
End org_calls.

(** The audit of one alias of a user, and what its last entry says. *)
Definition alias_history (t u a : string) (d : OrgDB) : list AliasAudit :=
  filter (λ x, aa_TenantID x = t ∧ aa_UserID x = u ∧ aa_Alias x = a) (alias_audit d).

Definition alias_recorded (t u a : string) (d : OrgDB) : Prop :=
  match last (alias_history t u a d) with Some x => Action x = "add" | None => False end.

(** Keys, foreign keys, and the audit: an alias is in the table exactly if the last entry about it
    added it. *)
Record org_inv (d : OrgDB) : Prop := mkOrgInv {
  oi_chat : chat_inv (o_chat d);
  oi_users id u : users (o_chat d) !! id = Some u → u_ID u = id ∧ OrgID u ∈ (ou_ID <$> org_units d);
  oi_emails id1 id2 u1 u2 : users (o_chat d) !! id1 = Some u1 → users (o_chat d) !! id2 = Some u2 →
    u_TenantID u1 = u_TenantID u2 → Email u1 = Email u2 → id1 = id2;
  oi_units : NoDup (ou_ID <$> org_units d);
  oi_audit_ids : NoDup (aa_ID <$> alias_audit d);
  oi_alias_keys : NoDup ((λ a, (al_user a, al_alias a)) <$> user_aliases (o_chat d));
  oi_audit t u a : Exists (alias_row t u a) (user_aliases (o_chat d)) ↔ alias_recorded t u a d;
}.

(** * Lemmas *)

Section org_lemmas.
Context `{Postgres}.
Variable DBForTenant : string → result unit.
Implicit Types d : OrgDB.

Lemma chat_inv_users (c : ChatDB) us als :
  (∀ id, is_Some (users c !! id) → is_Some (us !! id)) → chat_inv c →
  chat_inv (mkChatDB (c_tenants c) us als (chat_rooms c) (room_members c) (messages c) (message_reads c)).
Proof.
  intros Hgrow [H1 H2 H3 H4 H5 H6]. split; try done.
  - eapply Forall_impl; [exact H4|]. intros m [Ha Hb]. split; [done|by apply Hgrow].
  - eapply Forall_impl; [exact H5|]. intros m [Ha Hb]. split; [done|by apply Hgrow].
Qed.

Lemma create_org_unit_inv env t p n d : org_inv d → org_inv (repo_CreateOrgUnit DBForTenant env t p n d).1.
Proof.
  intros Hd. unfold repo_CreateOrgUnit. destruct (DBForTenant _); [|done].
  case_decide as Hfk; [done|]. case_decide as Hpar; [done|]. case_decide as Hnew; [done|].
  destruct Hd as [H1 H2 H3 H4 H5 H6 H7]. split; cbn; try done.
  - intros id u Hl. destruct (H2 id u Hl). split; [done|]. rewrite fmap_app. apply elem_of_app. by left.
  - rewrite fmap_app. apply NoDup_app. split; [done|]. split; [|apply NoDup_singleton].
    intros x Hx Hn%list_elem_of_singleton. by subst x.
Qed.

Lemma create_user_inv env t u d : org_inv d → org_inv (repo_CreateUser DBForTenant env t u d).1.
Proof.
  intros Hd. unfold repo_CreateUser. destruct (DBForTenant _); [|done].
  case_decide as Hfk; [done|]. case_decide as Hdup; [done|].
  destruct Hd as [H1 H2 H3 H4 H5 H6 H7].
  assert (Hemail : ∀ id v, users (o_chat d) !! id = Some v → u_TenantID v = t → Email v = Email u → False).
  { intros id v Hl Ht He. apply Hdup. right. exists id, v. auto. }
  split; cbn; try done.
  - apply chat_inv_users; [|done]. intros id Hid. apply lookup_insert_is_Some'. by right.
  - intros id v [[<- <-]|[_ Hl]]%lookup_insert_Some; [|by apply H2].
    cbn. split; [done|]. destruct (decide (OrgID u ∈ (ou_ID <$> org_units d))); [done|tauto].
  - intros id1 id2 u1 u2 [[<- <-]|[_ Hl1]]%lookup_insert_Some [[<- <-]|[_ Hl2]]%lookup_insert_Some Ht He; cbn in *.
    + done.
    + exfalso. by apply (Hemail id2 u2).
    + exfalso. by apply (Hemail id1 u1).
    + by apply (H3 id1 id2 u1 u2).
Qed.

Lemma update_user_status_inv env t u s n d : org_inv d → org_inv (repo_UpdateStatus DBForTenant env t u s n d).1.
Proof.
  intros Hd. unfold repo_UpdateStatus. destruct (DBForTenant _); [|done].
  destruct (users (o_chat d) !! u) as [v|] eqn:Hv; [|done]. case_decide as Ht; [|done].
  destruct Hd as [H1 H2 H3 H4 H5 H6 H7]. destruct (H2 u v Hv) as [Hid Horg].
  set (row := mkUser _ _ _ _ _ _ _ _ _ _ _ _).
  assert (Hback : ∀ id w, <[u := row]> (users (o_chat d)) !! id = Some w →
    ∃ w', users (o_chat d) !! id = Some w' ∧ u_ID w = u_ID w' ∧ OrgID w = OrgID w' ∧ u_TenantID w = u_TenantID w'
      ∧ Email w = Email w').
  { intros id w [[<- <-]|[_ Hl]]%lookup_insert_Some; [exists v|exists w]; done. }
  split; cbn; try done.
  - apply chat_inv_users; [|done]. intros id Hidd. apply lookup_insert_is_Some'. by right.
  - intros id w Hl. destruct (Hback id w Hl) as (w' & Hl' & -> & -> & _). by apply H2.
  - intros id1 id2 u1 u2 Hl1 Hl2 Htt He. destruct (Hback _ _ Hl1) as (w1 & Hw1 & _ & _ & Ht1 & He1).
    destruct (Hback _ _ Hl2) as (w2 & Hw2 & _ & _ & Ht2 & He2). apply (H3 id1 id2 w1 w2); congruence.
Qed.

(** The audit after one more entry. *)
Lemma recorded_snoc t u a x d audit :
  alias_audit d = audit →
  alias_recorded t u a (mkOrgDB (o_chat d) (org_units d) (audit ++ [x]))
  ↔ if decide (aa_TenantID x = t ∧ aa_UserID x = u ∧ aa_Alias x = a) then Action x = "add" else alias_recorded t u a d.
Proof.
  intros <-. unfold alias_recorded, alias_history. cbn. rewrite filter_app, filter_cons, filter_nil.
  case_decide; [by rewrite last_snoc|by rewrite app_nil_r].
Qed.

Lemma insert_audit_inv env t u a action ip ua d d' als :
  org_inv d → insert_audit env t u a action ip ua (set_user_aliases als d) = (d', Ok tt) →
  NoDup ((λ r, (al_user r, al_alias r)) <$> als) →
  (∀ t' u' a', Exists (alias_row t' u' a') als ↔
     if decide (t = t' ∧ u = u' ∧ a = a') then action = "add" else Exists (alias_row t' u' a') (user_aliases (o_chat d))) →
  org_inv d'.
Proof.
  intros [H1 H2 H3 H4 H5 H6 H7] Hins Hnd Hrows. unfold insert_audit in Hins. case_decide as Hnew; [done|].
  injection Hins as <-. split; cbn; try done.
  - by apply chat_inv_users.
  - rewrite fmap_app. apply NoDup_app. split; [done|]. split; [|apply NoDup_singleton].
    intros y Hy Hn%list_elem_of_singleton. by subst y.
  - intros t' u' a'. rewrite Hrows. symmetry. etrans; [exact (recorded_snoc t' u' a' _ (set_user_aliases als d) _ eq_refl)|].
    cbn. case_decide; [done|]. rewrite H7. done.
Qed.

Lemma transaction_inv {A} (f : M OrgDB A) d :
  org_inv d → (∀ d' x, f d = (d', Ok x) → org_inv d') → org_inv (transaction f d).1.
Proof.
  intros Hd Hf. destruct (transaction_spec f d) as [(d' & x & Hm & ->)|(e & ->)]; [|done]. by eapply Hf.
Qed.

Lemma add_alias_inv env t u a ip ua d : org_inv d → org_inv (repo_AddAlias DBForTenant env t u a ip ua d).1.
Proof.
  intros Hd. unfold repo_AddAlias. destruct (DBForTenant _); [|done]. apply transaction_inv; [done|].
  intros d' []. case_decide as Htaken; [by intros [= <-]|]. case_decide as Hfk; [done|]. intros Hins.
  eapply insert_audit_inv; [exact Hd|exact Hins|..].
  - rewrite fmap_app. apply NoDup_app. split; [apply oi_alias_keys, Hd|]. split; [|apply NoDup_singleton].
    intros k (r & -> & Hr)%list_elem_of_fmap Hk%list_elem_of_singleton. apply Htaken, Exists_exists.
    exists r. injection Hk. auto.
  - intros t' u' a'. rewrite Exists_app, Exists_cons, Exists_nil. case_decide as Heq.
    + destruct Heq as (-> & -> & ->). split; [done|]. intros _. right. by left.
    + split; [|by left]. intros [Hl|Hl]; [done|]. destruct Hl as [Hl|Hl]; [|done].
      destruct Heq. destruct Hl as (E1 & E2 & E3). cbn in *. auto.
Qed.

Lemma delete_alias_inv env t u a ip ua d : org_inv d → org_inv (repo_DeleteAlias DBForTenant env t u a ip ua d).1.
Proof.
  intros Hd. unfold repo_DeleteAlias. destruct (DBForTenant _); [|done]. apply transaction_inv; [done|].
  intros d' []. case_decide as Hex; [|by intros [= <-]]. intros Hins.
  eapply insert_audit_inv; [exact Hd|exact Hins|..].
  - apply NoDup_key_filter, oi_alias_keys, Hd.
  - intros t' u' a'. case_decide as Heq; rewrite ?Exists_exists.
    + destruct Heq as (-> & -> & ->). split; [|done]. intros (r & [Hno _]%list_elem_of_filter & Hr). done.
    + split; intros (r & Hr & Hrow).
      * apply list_elem_of_filter in Hr as [_ Hr]. eauto.
      * exists r. split; [|done]. apply list_elem_of_filter. split; [|done].
        intros (E1 & E2 & E3). destruct Hrow as (F1 & F2 & F3). apply Heq. repeat split; congruence.
Qed.

Lemma run_org_call_inv generate c d : org_inv d → org_inv (run_org_call DBForTenant generate c d).
Proof.
  intros Hd. destruct c; cbn [run_org_call].
  - by apply create_org_unit_inv.
  - unfold dbman_CreateUser. cbv zeta. case_decide as Hp; [done|]. destruct (generate _); [|done]. by apply create_user_inv.
  - by apply update_user_status_inv.
  - unfold dbman_AddAlias. case_decide as He; [done|]. destruct (Nat.ltb _ _); [done|].
    destruct (aliasPattern _); [|done]. by apply add_alias_inv.
  - unfold dbman_DeleteAlias. case_decide as He; [done|]. destruct (aliasPattern _); [|done]. by apply delete_alias_inv.
Qed.

Lemma run_org_calls_inv generate cs d : org_inv d → org_inv (run_org_calls DBForTenant generate cs d).
Proof.
  revert d. induction cs as [|c cs IH]; intros d Hd; [done|]. cbn. by apply IH, run_org_call_inv.
Qed.
End org_lemmas.

(** ** Pages of the audit *)

Definition enc_audit_key (k : time * string) : string := encodeAliasAuditCursor k.1 k.2.

Lemma audit_cursor_string k :
  good_room_key k → audit_cursor (enc_audit_key k) = Ok (Some k.1, Some k.2).
Proof.
  intros [Ht [Hid Hne]]. unfold audit_cursor, enc_audit_key. rewrite decide_True.
  - rewrite alias_cursor_decodes, wrap64_id, trimmed_TrimSpace by done. by rewrite decide_False.
  - unfold encodeAliasAuditCursor. rewrite trimmed_TrimSpace by auto with msg.
    apply b64_encode_nonempty. destruct (FormatInt _); discriminate.
Qed.

Lemma audit_request_action from to_ action a :
  audit_request from to_ action = Ok a →
  a = ToLower (TrimSpace action) ∧ (a = "" ∨ a = "add" ∨ a = "delete") ∧ ¬ after_ from to_.
Proof.
  unfold audit_request. cbv zeta. case_decide as Ha; [done|]. case_decide as Hf; [done|]. intros [= <-].
  split; [done|]. split; [|done].
  destruct (decide (ToLower (TrimSpace action) = "")), (decide (ToLower (TrimSpace action) = "add")),
    (decide (ToLower (TrimSpace action) = "delete")); tauto.
Qed.

(** A checked action is checked again by dbman, to the same end. *)
Lemma audit_request_again from to_ action a :
  audit_request from to_ action = Ok a → audit_request from to_ a = Ok a ∧ ToLower (TrimSpace a) = a.
Proof.
  intros (_ & Ha & Hf)%audit_request_action. unfold audit_request.
  destruct Ha as [-> |[-> | ->]]; (split; [|by vm_compute]); cbv zeta; vm_compute (ToLower (TrimSpace _));
    rewrite decide_False by naive_solver; by rewrite decide_False.
Qed.

Section audit_pages.
Context `{Postgres}.
Variables (user_match : User → string → bool) (DB : string → result unit).
Variables (generate : string → result string) (compare : string → string → result unit).

Lemma list_audit_page (t u : string) (limit : Z) (from to_ : option time) (action a : string) d cursor :
  DB t = Ok tt → limit ≠ 200%Z → audit_request from to_ action = Ok a →
  let rows := filter (audit_match t u from to_ a) (alias_audit d) in
  Forall (λ x, good_room_key (audit_key x)) rows → good_cursor good_room_key cursor →
  let pg := key_page room_key_le audit_key rows (Z.to_nat (clamp limit 200 50)) cursor in
  orghub_ListAliasAudit (H := dbman_org_store user_match DB generate compare) t u limit from to_ action
      (cursor_string enc_audit_key cursor) d
  = (d, Ok (audit_columns <$> pg.1, cursor_string enc_audit_key pg.2))
  ∧ good_cursor good_room_key pg.2.
Proof.
  intros Hdb Hlim Hreq rows Hclean Hgood. cbv zeta. set (L := clamp limit 200 50).
  assert (HL : (0 < L ≤ 199)%Z).
  { pose proof (clamp_range limit 200 50 ltac:(lia)). unfold L in *. unfold clamp in *.
    destruct (Z.leb_spec limit 0), (Z.ltb_spec 200 limit); cbn in *; lia. }
  destruct (audit_request_again from to_ action a Hreq) as [Hreq2 _].
  unfold orghub_ListAliasAudit. fold L. cbv zeta. rewrite Hreq.
  assert (audit_cursor (cursor_string enc_audit_key cursor) = Ok (fst <$> cursor, snd <$> cursor)) as ->.
  { destruct cursor as [k|]; [by apply audit_cursor_string|]. done. }
  cbn [og_ListAliasAudit dbman_org_store]. unfold dbman_ListAliasAudit. cbv zeta. rewrite Hreq2.
  assert (clamp (L + 1) 200 50 = (L + 1)%Z) as ->.
  { unfold clamp. destruct (Z.leb_spec (L + 1) 0); [lia|]. destruct (Z.ltb_spec 200 (L + 1)); [lia|]. done. }
  unfold repo_ListAliasAudit. rewrite Hdb. destruct (Z.ltb_spec (L + 1) 0); [lia|].
  assert (match fst <$> cursor, snd <$> cursor with Some t, Some id => Some (t, id) | _, _ => None end = cursor)
    as -> by (by destruct cursor as [[]|]).
  replace (Z.to_nat (L + 1)) with (S (Z.to_nat L)) by lia. fold rows.
  rewrite cut_items_fmap. unfold key_page. destruct (cut_page (Z.to_nat L) _) as [page next] eqn:Ec. cbn [fst snd].
  split; [by destruct next|]. destruct next as [x|]; [|done]. cbn. rewrite Forall_forall in Hclean. apply Hclean.
  eapply elem_of_query, (cut_page_last (Z.to_nat L)). by rewrite Ec.
Qed.
End audit_pages.

(** * Theorems *)

(** C32: The audit explains the aliases.  Starting from tables that satisfy the keys and whose aliases are
    those the audit records, any sequence of service calls keeps the keys (one user per tenant and
    email, unique identifiers, unique aliases per user) and keeps every alias in the table exactly when
    the last entry of the audit about it added it. *)
Theorem alias_audit_replays `{Postgres} DB generate (cs : list org_call) (d : OrgDB) :
  org_inv d → org_inv (run_org_calls DB generate cs d)
  ∧ ∀ t u a, Exists (alias_row t u a) (user_aliases (o_chat (run_org_calls DB generate cs d)))
      ↔ alias_recorded t u a (run_org_calls DB generate cs d).
Proof.
  intros Hd. pose proof (run_org_calls_inv DB generate cs d Hd) as Hd'. split; [done|apply (oi_audit _ Hd')].
Qed.

(** C34: A user that was created can log in.  If bcrypt accepts the password a hash was made from, a created
    user authenticates with the tenant, email and password of its creation and is returned
    with its new identifier, the default role and status where none were given, and no hash; a password
    that bcrypt rejects is answered with invalid credentials. *)
Theorem create_then_authenticate `{Postgres} DB generate compare (env : Env) (t password wrong : string) (user : User)
    (d d' : OrgDB) (id : string) :
  (∀ p h, generate p = Ok h → compare h p = Ok tt) →
  org_inv d → PasswordHash user = password →
  dbman_CreateUser DB generate env t user d = (d', Ok id) →
  (∃ out, dbman_Authenticate DB compare t (Email user) password d' = (d', Ok out)
     ∧ u_ID out = id ∧ Email out = Email user ∧ PasswordHash out = ""
     ∧ u_Role out = (if decide (u_Role user = "") then "user" else u_Role user)
     ∧ u_Status out = (if decide (u_Status user = "") then "offline" else u_Status user))
  ∧ (∀ h, generate password = Ok h → is_Err (compare h wrong) = true →
     dbman_Authenticate DB compare t (Email user) wrong d' = (d', Err "invalid credentials")).
Proof.
  intros Hbcrypt Hd Hpw Hcreate.
  assert (Hd' : org_inv d').
  { pose proof (run_org_call_inv DB generate (CallCreateUser env t user) d Hd) as Hd'. cbn in Hd'. by rewrite Hcreate in Hd'. }
  revert Hcreate. unfold dbman_CreateUser. cbv zeta. rewrite Hpw. case_decide as Hne; [done|].
  destruct (generate password) as [h|] eqn:Hgen; [|done].
  set (row0 := mkUser _ _ _ _ _ _ _ _ _ _ _ _). unfold repo_CreateUser. destruct (DB t) as [[]|] eqn:Hdb; [|done].
  case_decide; [done|]. case_decide; [done|]. set (row := mkUser t _ _ _ _ _ _ _ _ _ _ _). intros [= <- <-].
  set (d' := set_users _ d) in *.
  assert (Hrow : users (o_chat d') !! new_uuid env = Some row) by (cbn; by rewrite lookup_insert_eq).
  assert (Hget : repo_GetByEmail DB t (Email user) d'
    = (d', Ok (mkUser "" (u_ID row) (OrgID row) (Email row) (u_Name row) (u_Title row) (u_Role row) (u_Status row)
                 (u_StatusNote row) (PasswordHash row) (u_CreatedAt row) (u_UpdatedAt row)))).
  { unfold repo_GetByEmail. rewrite Hdb.
    destruct (list_find _ _) as [[i u]|] eqn:Hfind.
    - apply list_find_Some in Hfind as (Hi & [Ht He] & _).
      apply list_elem_of_lookup_2, list_elem_of_fmap in Hi as ([id v] & -> & Hin%elem_of_map_to_list). cbn in *.
      assert (id = new_uuid env) as -> by (by apply (oi_emails _ Hd' id (new_uuid env) v row)).
      assert (v = row) as -> by congruence. reflexivity.
    - apply list_find_None in Hfind. rewrite Forall_forall in Hfind. destruct (Hfind row); [|done].
      apply list_elem_of_fmap. exists (new_uuid env, row). split; [done|]. by apply elem_of_map_to_list. }
  split.
  - unfold dbman_Authenticate. rewrite Hget. cbn [PasswordHash row row0]. rewrite (Hbcrypt _ _ Hgen). by eexists.
  - intros h' [= <-] Herr. unfold dbman_Authenticate. rewrite Hget. cbn [PasswordHash row row0].
    by destruct (compare h wrong).
Qed.

(** Paging through the alias audit yields every matching entry once, newest first.  For any limit but 200
    and a valid filter, following the cursors of orgHub enumerates exactly the entries of that user the filter
    selects, ordered by time and identifier downwards, provided their times are in the range of
    UnixNano and their identifiers are clean. *)
Theorem alias_audit_enumerates `{Postgres} user_match DB generate compare (t u : string) (limit : Z)
    (from to_ : option time) (action a : string) (d : OrgDB) :
  DB t = Ok tt → limit ≠ 200%Z → audit_request from to_ action = Ok a → org_inv d →
  let rows := filter (audit_match t u from to_ a) (alias_audit d) in
  Forall (λ x, good_room_key (audit_key x)) rows →
  let svc cursor := (orghub_ListAliasAudit (H := dbman_org_store user_match DB generate compare) t u limit from to_
                       action cursor d).2 in
  crawl (S (length rows)) svc "" = Some (audit_columns <$> order_desc room_key_le audit_key rows)
  ∧ order_desc room_key_le audit_key rows ≡ₚ rows.
Proof.
  intros Hdb Hlim Hreq Hinv rows Hclean svc. split; [|apply order_desc_perm].
  change "" with (cursor_string enc_audit_key None).
  rewrite (crawl_walk _ (key_page room_key_le audit_key rows (Z.to_nat (clamp limit 200 50)))
    audit_columns enc_audit_key good_room_key).
  - rewrite (walk_all room_key_le audit_key); [done| |pose proof (clamp_range limit 200 50 ltac:(lia)); lia].
    unfold rows. apply NoDup_key_filter, (NoDup_fmap_1 snd). rewrite <-list_fmap_compose. exact (oi_audit_ids d Hinv).
  - intros cursor Hgood. destruct (list_audit_page user_match DB generate compare t u limit from to_ action a d cursor)
      as [Hp Hg]; try done. cbv zeta in Hp. unfold svc. fold rows in Hp. by rewrite Hp.
  - intros k _. unfold enc_audit_key, encodeAliasAuditCursor. apply b64_encode_nonempty.
    destruct (FormatInt _); discriminate.
  - exact I.
Qed.

(** An alias of n syllables. *)
Definition hangul (n : nat) : string := of_runes (replicate n 44032%Z).

Lemma hangul_checks : forallb (λ n, aliasPattern (hangul n) && (40 <? strlen (hangul n))
  && bool_decide (TrimSpace (hangul n) = hangul n) && negb (bool_decide (hangul n = ""))) (seq 14 27) = true.
Proof. vm_compute. reflexivity. Qed.

(** Long Korean aliases are refused.  An alias of 14 to 40 Hangul syllables, which the pattern and the
    documentation allow, is refused as too long, because its length is counted in bytes. *)
Theorem hangul_alias_refused `{Postgres} DB (env : Env) (t u ip ua : string) (n : nat) (d : OrgDB) :
  14 ≤ n ≤ 40 →
  aliasPattern (hangul n) = true ∧ dbman_AddAlias DB env t u (hangul n) ip ua d = (d, Err "alias is too long").
Proof.
  intros Hn. pose proof hangul_checks as Hall. rewrite forallb_forall in Hall.
  specialize (Hall n ltac:(apply in_seq; lia)). reflect_bools. split; [done|].
  unfold dbman_AddAlias. cbv zeta. rewrite H2, decide_False by done. by rewrite H3.
Qed.

(** * Concrete runs *)

#[local] Existing Instance demo_pg.

Definition demo_org : OrgDB :=
  mkOrgDB (mkChatDB {["a"]} ∅ [] ∅ [] [] ∅) [mkOrgUnit "a" "o1" None "head office" 0] [].

Lemma demo_org_inv : org_inv demo_org.
Proof.
  split; cbn; try (intros *; by rewrite lookup_empty).
  - split; cbn; try (intros *; by rewrite lookup_empty); constructor.
  - apply NoDup_singleton.
  - constructor.
  - constructor.
  - intros t u a. rewrite Exists_nil. done.
Qed.

Definition demo_new_user : User := mkUser "" "" "o1" "u@x" "U" "" "" "" "" "secret" 0 0.

Definition demo_with_user : OrgDB := (dbman_CreateUser (λ _, Ok tt) Ok (mkEnv 10 "u1") "a" demo_new_user demo_org).1.

Definition demo_aliases : list org_call :=
  [CallCreateUser (mkEnv 10 "u1") "a" demo_new_user; CallAddAlias (mkEnv 20 "x1") "a" "u1" " Boss " "ip" "ua";
   CallAddAlias (mkEnv 30 "x2") "a" "u1" "boss" "ip" "ua"; CallDeleteAlias (mkEnv 40 "x3") "a" "u1" "BOSS" "ip" "ua"].

Definition demo_audited : OrgDB := run_org_calls (λ _, Ok tt) Ok demo_aliases demo_org.

Lemma alias_audit_replays_witness :
  org_inv demo_audited ∧ Action <$> alias_audit demo_audited = ["add"; "delete"].
Proof.
  split; [|vm_compute; reflexivity]. apply (proj1 (alias_audit_replays (λ _, Ok tt) Ok demo_aliases demo_org demo_org_inv)).
Defined.

Lemma create_then_authenticate_witness :
  ∃ out, dbman_Authenticate (λ _, Ok tt) (λ h p, if decide (h = p) then Ok tt else Err "mismatch") "a" "u@x" "secret"
           demo_with_user = (demo_with_user, Ok out) ∧ u_ID out = "u1".
Proof.
  destruct (proj1 (create_then_authenticate (λ _, Ok tt) Ok (λ h p, if decide (h = p) then Ok tt else Err "mismatch")
    (mkEnv 10 "u1") "a" "secret" "guess" demo_new_user demo_org demo_with_user "u1"
    ltac:(intros p h [= <-]; by rewrite decide_True) demo_org_inv eq_refl ltac:(vm_compute; reflexivity)))
    as (out & H1 & H2 & _).
  exists out. split; assumption.
Defined.

Lemma alias_audit_enumerates_witness :
  let svc cursor := (orghub_ListAliasAudit (H := dbman_org_store (λ _ _, true) (λ _, Ok tt) Ok (λ _ _, Ok tt)) "a" "u1" 1
                       None None "" cursor demo_audited).2 in
  crawl 3 svc ""
  = Some (audit_columns <$> order_desc room_key_le audit_key (filter (audit_match "a" "u1" None None "") (alias_audit demo_audited))).
Proof.
  apply (proj1 (alias_audit_enumerates (λ _ _, true) (λ _, Ok tt) Ok (λ _ _, Ok tt) "a" "u1" 1 None None "" ""
    demo_audited eq_refl ltac:(discriminate) ltac:(vm_compute; reflexivity)
    (run_org_calls_inv (λ _, Ok tt) Ok demo_aliases demo_org demo_org_inv) ltac:(by_computation))).
Defined.

Lemma hangul_alias_refused_witness :
  dbman_AddAlias (λ _, Ok tt) (mkEnv 20 "x1") "a" "u1" (hangul 14) "ip" "ua" demo_with_user
  = (demo_with_user, Err "alias is too long").
Proof.
  apply (proj2 (hangul_alias_refused (λ _, Ok tt) (mkEnv 20 "x1") "a" "u1" "ip" "ua" 14 demo_with_user ltac:(lia))).
Defined.
