(* ===== verification/Tenants.v ===== *)
(** * Tenants: configuration and its effect on the routers

    server/dbman/repository/tenant_repository.go, server/dbman/service/tenant_service.go and
    server/tenantHub/service/tenant_service.go over the table of migrations 008 and 009.  A
    service writes the row and then invalidates the tenant in the routers it was given; the
    theorems compose it with the PostgreSQL router of [TenantRouter]. *)

From S2P Require Import Prelude GoStrings GoEncoding Cursor TenantRouter SessionStore Paging.

(** ** Data *)

(* server/chat/domain/models.go: Tenant *)
Record Tenant := mkTenant {
  t_TenantID : string;
  t_Name : string;
  t_DeploymentMode : string;
  t_DedicatedDSN : string;
  DedicatedRedisAddr : string;
  DedicatedLavinMQURL : string;
  DedicatedMinIOEndpoint : string;
  DedicatedMinIOAccessKey : string;
  DedicatedMinIOSecretKey : string;
  DedicatedMinIOBucket : string;
  DedicatedMinIOUseSSL : bool;
  UserCountThreshold : Z;
  t_IsActive : bool;
  t_CreatedAt : time;
  t_UpdatedAt : time;
}.

Definition with_mode (mode : string) (t : Tenant) : Tenant :=
  mkTenant (t_TenantID t) (t_Name t) mode (t_DedicatedDSN t) (DedicatedRedisAddr t) (DedicatedLavinMQURL t)
    (DedicatedMinIOEndpoint t) (DedicatedMinIOAccessKey t) (DedicatedMinIOSecretKey t) (DedicatedMinIOBucket t)
    (DedicatedMinIOUseSSL t) (UserCountThreshold t) (t_IsActive t) (t_CreatedAt t) (t_UpdatedAt t).

Definition with_times (created updated : time) (t : Tenant) : Tenant :=
  mkTenant (t_TenantID t) (t_Name t) (t_DeploymentMode t) (t_DedicatedDSN t) (DedicatedRedisAddr t)
    (DedicatedLavinMQURL t) (DedicatedMinIOEndpoint t) (DedicatedMinIOAccessKey t) (DedicatedMinIOSecretKey t)
    (DedicatedMinIOBucket t) (DedicatedMinIOUseSSL t) (UserCountThreshold t) (t_IsActive t) created updated.

Notation TenantDB := (gmap string Tenant).

(** ** The repository

    The checks of the row: deployment_mode is shared or dedicated, and the threshold is a 32-bit integer. *)

Definition row_checks (t : Tenant) : result unit :=
  if decide (UserCountThreshold t < - 2 ^ 31 ∨ 2 ^ 31 - 1 < UserCountThreshold t)%Z then Err "integer out of range"
  else if decide (t_DeploymentMode t = "shared" ∨ t_DeploymentMode t = "dedicated") then Ok tt
  else Err check_constraint.

Section repository.
Context `{TextOrder}.

Definition tenant_id_le (x y : Tenant) : Prop := text_le (t_TenantID x) (t_TenantID y).

#[export] Instance tenant_id_le_dec : RelDecision tenant_id_le.
Proof. intros x y. unfold tenant_id_le. apply text_le_dec. Defined.

(* server/dbman/repository/tenant_repository.go: List *)
Definition repo_ListTenants : M TenantDB (list Tenant) := λ d,
  (d, Ok (merge_sort tenant_id_le (snd <$> map_to_list d))).
End repository.

(* server/dbman/repository/tenant_repository.go: GetByID *)
Definition repo_GetTenant (tenantID : string) : M TenantDB Tenant := λ d,
  match d !! tenantID with
  | Some t => (d, Ok t)
  | None => (d, Err "no rows in result set")
  end.

(* server/dbman/repository/tenant_repository.go: Create *)
Definition repo_CreateTenant (env : Env) (item : Tenant) : M TenantDB Tenant := λ d,
  let item := with_mode (ToLower (TrimSpace (t_DeploymentMode item))) item in
  match row_checks item with
  | Err e => (d, Err e)
  | Ok _ =>
      if decide (is_Some (d !! t_TenantID item)) then (d, Err duplicate_key)
      else
        let row := with_times (NOW env) (NOW env) item in
        (<[t_TenantID item := row]> d, Ok row)
  end.

(* server/dbman/repository/tenant_repository.go: UpdateConfig *)
Definition repo_UpdateTenant (env : Env) (item : Tenant) : M TenantDB Tenant := λ d,
  match d !! t_TenantID item with
  | None => (d, Err "no rows in result set")
  | Some old =>
      match row_checks item with
      | Err e => (d, Err e)
      | Ok _ =>
          let row := with_times (t_CreatedAt old) (NOW env) item in
          (<[t_TenantID item := row]> d, Ok row)
      end
  end.

(** ** The services *)

(* server/dbman/service/tenant_service.go: validateTenant *)
Definition validateTenant (item : Tenant) : result unit :=
  if decide (TrimSpace (t_TenantID item) = "") then Err "tenant_id is required"
  else if decide (TrimSpace (t_Name item) = "") then Err "name is required"
  else if (UserCountThreshold item <=? 0)%Z then Err "user_count_threshold must be greater than 0"
  else
    let mode := ToLower (TrimSpace (t_DeploymentMode item)) in
    if decide (mode ≠ "shared" ∧ mode ≠ "dedicated") then Err "deployment_mode must be shared or dedicated"
    else if decide (mode = "dedicated" ∧ TrimSpace (t_DedicatedDSN item) = "")
    then Err "dedicated_dsn is required for dedicated mode"
    else Ok tt.

Section services.
(** [R] is the state of a router, [invalidate] its InvalidateTenant. *)
Context {R : Type} (invalidate : string → R → R).

(* server/dbman/service/tenant_service.go: TenantService *)
Record TenantService (S : Type) := mkTenantService { t_store : S; routers : list R }.
Arguments mkTenantService {S}.
Arguments t_store {S}.
Arguments routers {S}.

(** A router that is nil is dropped. *)
(* server/dbman/service/tenant_service.go: NewTenantService *)
Definition NewTenantService {S} (repo : S) (invalidators : list (option R)) : TenantService S :=
  mkTenantService repo (omap id invalidators).

(* server/dbman/service/tenant_service.go: invalidateTenant *)
Definition invalidateTenant {S} (tenantID : string) (s : TenantService S) : TenantService S :=
  mkTenantService (t_store s) (invalidate tenantID <$> routers s).

(** A write and the invalidation that follows it. *)
Definition write_then_invalidate {S} (write : M S Tenant) : M (TenantService S) Tenant := λ s,
  match write (t_store s) with
  | (st, Err e) => (mkTenantService st (routers s), Err e)
  | (st, Ok t) => (invalidateTenant (t_TenantID t) (mkTenantService st (routers s)), Ok t)
  end.

(* server/dbman/service/tenant_service.go: Create *)
Definition dbman_CreateTenant (env : Env) (item : Tenant) : M (TenantService TenantDB) Tenant := λ s,
  let item := with_mode (ToLower (TrimSpace (t_DeploymentMode item))) item in
  match validateTenant item with
  | Err e => (s, Err e)
  | Ok _ => write_then_invalidate (repo_CreateTenant env item) s
  end.

(* server/dbman/service/tenant_service.go: UpdateConfig *)
Definition dbman_UpdateTenant (env : Env) (item : Tenant) : M (TenantService TenantDB) Tenant := λ s,
  let item := with_mode (ToLower (TrimSpace (t_DeploymentMode item))) item in
  match validateTenant item with
  | Err e => (s, Err e)
  | Ok _ => write_then_invalidate (repo_UpdateTenant env item) s
  end.

(** tenantHub over its dbman client: the client's operations are arguments. *)
(* server/tenantHub/service/tenant_service.go: Create *)
Definition tenanthub_Create {S} (CreateTenant : Tenant → M S Tenant) (item : Tenant) : M (TenantService S) Tenant :=
  write_then_invalidate (CreateTenant item).

(* server/tenantHub/service/tenant_service.go: UpdateConfig *)
Definition tenanthub_UpdateConfig {S} (UpdateTenantConfig : Tenant → M S Tenant) (item : Tenant) :
    M (TenantService S) Tenant :=
  write_then_invalidate (UpdateTenantConfig item).

(** Histories of writes. *)
Inductive tenant_call :=
| CallCreateTenant (env : Env) (item : Tenant)
| CallUpdateTenant (env : Env) (item : Tenant).

Definition run_tenant_call (c : tenant_call) (s : TenantService TenantDB) : TenantService TenantDB :=
  match c with
  | CallCreateTenant env t => (dbman_CreateTenant env t s).1
  | CallUpdateTenant env t => (dbman_UpdateTenant env t s).1
  end.

Definition run_tenant_calls (cs : list tenant_call) (s : TenantService TenantDB) : TenantService TenantDB :=
  foldl (λ s c, run_tenant_call c s) s cs.
End services.
Arguments TenantService R S : clear implicits.
Arguments mkTenantService {R S}.
Arguments t_store {R S}.
Arguments routers {R S}.

(** What the routers read of a row. *)
Definition db_meta (t : Tenant) : DBRouter.TenantDBMeta :=
  DBRouter.mkDBMeta (t_DeploymentMode t) (t_DedicatedDSN t) (t_IsActive t).

(** The provider that asks the table. *)
Definition table_provider (d : TenantDB) : string → result DBRouter.TenantDBMeta :=
  DBRouter.sharedTenantMetaProvider (λ id, Ok (db_meta <$> d !! id)).

(** Rows are stored under their identifier, are valid, and have a mode in lower case. *)
Definition tenants_ok (d : TenantDB) : Prop :=
  ∀ id t, d !! id = Some t → t_TenantID t = id ∧ validateTenant t = Ok tt
    ∧ (t_DeploymentMode t = "shared" ∨ t_DeploymentMode t = "dedicated").

(** * Lemmas *)

Lemma row_checks_Ok t : row_checks t = Ok tt → t_DeploymentMode t = "shared" ∨ t_DeploymentMode t = "dedicated".
Proof. unfold row_checks. case_decide; [done|]. by case_decide. Qed.

Lemma normal_mode m : m = "shared" ∨ m = "dedicated" → ToLower (TrimSpace m) = m.
Proof. by intros [-> | ->]; vm_compute. Qed.

(** Validation reads the mode up to case and space, and not the times. *)
Lemma validateTenant_mode m c u t :
  ToLower (TrimSpace m) = ToLower (TrimSpace (t_DeploymentMode t)) →
  validateTenant (with_times c u (with_mode m t)) = validateTenant t.
Proof. intros Hm. unfold validateTenant. cbn. by rewrite Hm. Qed.

(** What a successful write leaves in the table: the item with a normalized mode. *)
Definition written (item row : Tenant) (d d' : TenantDB) : Prop :=
  d' = <[t_TenantID item := row]> d
  ∧ row = with_times (t_CreatedAt row) (t_UpdatedAt row) (with_mode (t_DeploymentMode row) item)
  ∧ (t_DeploymentMode row = "shared" ∨ t_DeploymentMode row = "dedicated")
  ∧ (∀ m, m = "shared" ∨ m = "dedicated" → ToLower (TrimSpace (t_DeploymentMode item)) = m → t_DeploymentMode row = m)
  ∧ validateTenant row = Ok tt.

Section tenant_lemmas.
Context {R : Type} (invalidate : string → R → R).
Implicit Types s : TenantService R TenantDB.

Lemma create_written env item s s' row :
  dbman_CreateTenant invalidate env item s = (s', Ok row) →
  written item row (t_store s) (t_store s') ∧ routers s' = invalidate (t_TenantID item) <$> routers s.
Proof.
  unfold dbman_CreateTenant. cbv zeta. set (m := ToLower (TrimSpace (t_DeploymentMode item))).
  destruct (validateTenant (with_mode m item)) as [[]|] eqn:Hv; [|done].
  unfold write_then_invalidate, repo_CreateTenant. cbv zeta. cbn [t_DeploymentMode with_mode].
  set (m2 := ToLower (TrimSpace m)).
  destruct (row_checks _) as [[]|] eqn:Hr; [|done]. case_decide; [done|]. intros [= <- <-].
  apply row_checks_Ok in Hr. cbn in Hr. split; [|done]. split; [done|]. split; [done|]. split; [done|]. split.
  - cbn. intros m' Hm' Heq. unfold m2, m. rewrite Heq. by apply normal_mode.
  - rewrite <-Hv. apply (validateTenant_mode m2 _ _ (with_mode m item)). cbn. by apply normal_mode.
Qed.

Lemma update_written env item s s' row :
  dbman_UpdateTenant invalidate env item s = (s', Ok row) →
  written item row (t_store s) (t_store s') ∧ routers s' = invalidate (t_TenantID item) <$> routers s.
Proof.
  unfold dbman_UpdateTenant. cbv zeta. set (m := ToLower (TrimSpace (t_DeploymentMode item))).
  destruct (validateTenant (with_mode m item)) as [[]|] eqn:Hv; [|done].
  unfold write_then_invalidate, repo_UpdateTenant. cbn [t_TenantID with_mode].
  destruct (t_store s !! t_TenantID item) as [old|]; [|done].
  destruct (row_checks _) as [[]|] eqn:Hr; [|done]. intros [= <- <-].
  apply row_checks_Ok in Hr. cbn in Hr. split; [|done]. split; [done|]. split; [done|]. split; [done|]. split; [done|].
  rewrite <-Hv. by apply (validateTenant_mode m _ _ (with_mode m item)).
Qed.

Lemma write_fails env item s s' e :
  dbman_CreateTenant invalidate env item s = (s', Err e) ∨ dbman_UpdateTenant invalidate env item s = (s', Err e) → s' = s.
Proof.
  destruct s as [d rs]. unfold dbman_CreateTenant, dbman_UpdateTenant, write_then_invalidate, repo_CreateTenant, repo_UpdateTenant.
  cbv zeta. cbn [t_store routers].
  intros [Hw|Hw]; revert Hw; (destruct (validateTenant _); [|by intros [= <- _]]).
  - destruct (row_checks _); [|by intros [= <- _]]. case_decide; [by intros [= <- _]|done].
  - destruct (d !! _); [|by intros [= <- _]]. destruct (row_checks _); [done|by intros [= <- _]].
Qed.

Lemma written_ok item row d d' : written item row d d' → tenants_ok d → tenants_ok d'.
Proof.
  intros (-> & Hrow & Hmode & _ & Hv) Hd id t [[<- <-]|[_ Hl]]%lookup_insert_Some; [|by apply Hd].
  split; [by rewrite Hrow|]. by split.
Qed.

Lemma run_tenant_call_ok c s : tenants_ok (t_store s) → tenants_ok (t_store (run_tenant_call invalidate c s)).
Proof.
  intros Hs. destruct c as [env item|env item]; cbn.
  - destruct (dbman_CreateTenant invalidate env item s) as [s' [row|e]] eqn:Hw; cbn.
    + apply create_written in Hw as [Hw _]. by eapply written_ok.
    + by rewrite (write_fails env item s s' e (or_introl Hw)).
  - destruct (dbman_UpdateTenant invalidate env item s) as [s' [row|e]] eqn:Hw; cbn.
    + apply update_written in Hw as [Hw _]. by eapply written_ok.
    + by rewrite (write_fails env item s s' e (or_intror Hw)).
Qed.
End tenant_lemmas.

(** After an invalidation of a trimmed identifier, a lookup asks the provider and opens anew. *)
Lemma route_after_invalidation fetch pgx now id (m : DBRouter.TenantDBMeta) (r : Router DBRouter.TenantDBMeta) :
  trimmed id → id ≠ "" → fetch id = Ok m →
  (DBRouter.DBForTenant fetch pgx now id (InvalidateTenant true id r)).2
  = if negb (DBRouter.IsActive m) then Err "tenant is inactive"
    else if negb (meta_dedicated m) then Ok Shared
    else match pgx (DBRouter.DedicatedDSN m) with
         | Err e => Err e
         | Ok _ => Ok (Dedicated (mkConn (opened (InvalidateTenant true id r)) (DBRouter.DedicatedDSN m)))
         end.
Proof.
  intros Hid Hne Hm. set (r' := InvalidateTenant true id r).
  assert (Hcache : metaCache r' !! id = None ∧ dedicated r' !! id = None).
  { unfold r', InvalidateTenant. rewrite trimmed_TrimSpace by done. rewrite decide_False by done. cbv zeta.
    destruct (dedicated _ !! id) as [c|] eqn:Hc; cbn; rewrite ?lookup_delete_eq; [done|]. split; [done|]. exact Hc. }
  destruct Hcache as [Hmeta Hded]. unfold DBRouter.DBForTenant, route.
  rewrite decide_False by (rewrite trimmed_TrimSpace by done; done).
  unfold loadMeta, fresh_meta. rewrite Hmeta, Hm. change (meta_active m) with (DBRouter.IsActive m).
  destruct (DBRouter.IsActive m); [|done]. cbn [negb]. destruct (meta_dedicated m); [|done]. cbn [negb].
  unfold install. cbn [store_meta set_metaCache dedicated]. rewrite Hded.
  unfold DBRouter.open_pool. by destruct (pgx (DBRouter.DedicatedDSN m)).
Qed.

(** * Theorems *)

(** The tenant table stays valid.  From a table of valid rows, any sequence of creations and
    configuration changes, with whatever input, leaves a table whose rows are stored under their identifier, pass
    validation (a name, a positive threshold, a DSN for dedicated tenants) and have mode shared or dedicated. *)
Theorem tenant_table_valid {R} (invalidate : string → R → R) (cs : list tenant_call) (s : TenantService R TenantDB) :
  tenants_ok (t_store s) → tenants_ok (t_store (run_tenant_calls invalidate cs s)).
Proof.
  revert s. induction cs as [|c cs IH]; intros s Hs; [done|]. cbn. by apply IH, run_tenant_call_ok.
Qed.

(** C33: A configuration change takes effect at once.  When a tenant with a trimmed identifier is created or
    reconfigured, the next lookup through any router of the service, at any time and whatever it had cached, follows the new
    row: an inactive tenant is refused, a shared one gets the shared pool, and a dedicated one a
    new pool on the new DSN; when the write fails, neither the table nor a router changes. *)
Theorem config_change_takes_effect (env : Env) (item : Tenant)
    (s s' : TenantService (Router DBRouter.TenantDBMeta) TenantDB) (res : result Tenant) :
  dbman_CreateTenant (InvalidateTenant true) env item s = (s', res)
  ∨ dbman_UpdateTenant (InvalidateTenant true) env item s = (s', res) →
  match res with
  | Err _ => s' = s
  | Ok row =>
      t_store s' !! t_TenantID item = Some row ∧ t_DedicatedDSN row = t_DedicatedDSN item ∧ t_IsActive row = t_IsActive item
      ∧ (trimmed (t_TenantID item) → ∀ r pgx now, r ∈ routers s' →
         (DBRouter.DBForTenant (table_provider (t_store s')) pgx now (t_TenantID item) r).2
         = if negb (t_IsActive item) then Err "tenant is inactive"
           else if decide (t_DeploymentMode row = "shared") then Ok Shared
           else match pgx (t_DedicatedDSN item) with
                | Err e => Err e
                | Ok _ => Ok (Dedicated (mkConn (opened r) (t_DedicatedDSN item)))
                end)
  end.
Proof.
  intros Hw. destruct res as [row|e]; [|by eapply write_fails].
  assert (Hrow : written item row (t_store s) (t_store s')
    ∧ routers s' = InvalidateTenant true (t_TenantID item) <$> routers s)
    by (destruct Hw as [Hw|Hw]; [by eapply create_written|by eapply update_written]).
  destruct Hrow as [(Hst & Hrow & Hmode & _ & Hv) Hrs].
  assert (Hl : t_store s' !! t_TenantID item = Some row) by (by rewrite Hst, lookup_insert_eq).
  assert (Hdsn : t_DedicatedDSN row = t_DedicatedDSN item ∧ t_IsActive row = t_IsActive item ∧ t_TenantID row = t_TenantID item)
    by (by rewrite Hrow).
  destruct Hdsn as (Hdsn & Hact & Hid). split; [done|]. split; [done|]. split; [done|].
  intros Htrim r pgx now Hr. rewrite Hrs in Hr. apply list_elem_of_fmap in Hr as (r0 & -> & _).
  assert (Hne : t_TenantID item ≠ "").
  { intros Hempty. revert Hv. unfold validateTenant. rewrite Hid, Hempty, TrimSpace_nil. by rewrite decide_True. }
  assert (Hmode' : ToLower (TrimSpace (t_DeploymentMode row)) = t_DeploymentMode row) by (by apply normal_mode).
  assert (Hfetch : table_provider (t_store s') (t_TenantID item) = Ok (db_meta row)).
  { unfold table_provider, DBRouter.sharedTenantMetaProvider. rewrite Hl. cbn. by rewrite Hmode'. }
  rewrite (route_after_invalidation _ pgx now _ _ r0 Htrim Hne Hfetch). cbn [db_meta DBRouter.IsActive DBRouter.DedicatedDSN].
  rewrite Hact, Hdsn. destruct (t_IsActive item); [|done]. cbn [negb]. cbn [meta_dedicated DBRouter.db_policy db_meta
    DBRouter.DeploymentMode DBRouter.DedicatedDSN].
  destruct Hmode as [Hm|Hm]; rewrite Hm; cbn; [done|].
  assert (Hblank : TrimSpace (t_DedicatedDSN item) ≠ "").
  { intros Hblank. revert Hv. unfold validateTenant. rewrite Hid, Hm, Hdsn, Hblank.
    case_decide; [done|]. case_decide; [done|]. destruct (Z.leb _ _); [done|]. by vm_compute. }
  rewrite Hdsn, (bool_decide_false (TrimSpace _ = "")) by done. done.
Qed.

(** * Concrete runs *)

Definition demo_tenant (mode dsn : string) : Tenant :=
  mkTenant "a" "A" mode dsn "" "" "" "" "" "" false 200 true 0 0.

Definition demo_tenants : TenantService (Router DBRouter.TenantDBMeta) TenantDB :=
  mkTenantService {["a" := demo_tenant "shared" ""]} [empty_router].

Lemma demo_tenants_ok : tenants_ok (t_store demo_tenants).
Proof.
  intros id t Hl. cbn in Hl. apply lookup_singleton_Some in Hl as [<- <-]. split; [done|]. split; [by vm_compute|by left].
Qed.

Lemma tenant_table_valid_witness :
  tenants_ok (t_store (run_tenant_calls (InvalidateTenant true)
    [CallUpdateTenant (mkEnv 50 "") (demo_tenant " Dedicated " "dsn")] demo_tenants)).
Proof. apply (tenant_table_valid (InvalidateTenant true) [_] demo_tenants demo_tenants_ok). Defined.

(** In the witness, a shared tenant becomes dedicated and the router opens its pool. *)
Lemma config_change_takes_effect_witness :
  let w := dbman_UpdateTenant (InvalidateTenant true) (mkEnv 50 "") (demo_tenant "Dedicated" "dsn") demo_tenants in
  ∃ r, r ∈ routers w.1 ∧
    (DBRouter.DBForTenant (table_provider (t_store w.1)) (λ _, Ok tt) 60 "a" r).2 = Ok (Dedicated (mkConn 0 "dsn")).
Proof.
  cbv zeta.
  assert (Hr : routers (dbman_UpdateTenant (InvalidateTenant true) (mkEnv 50 "") (demo_tenant "Dedicated" "dsn") demo_tenants).1
    = [InvalidateTenant true "a" empty_router]) by (vm_compute; reflexivity).
  assert (Hin : InvalidateTenant true "a" empty_router ∈
    routers (dbman_UpdateTenant (InvalidateTenant true) (mkEnv 50 "") (demo_tenant "Dedicated" "dsn") demo_tenants).1).
  { rewrite Hr. apply list_elem_of_singleton. reflexivity. }
  exists (InvalidateTenant true "a" empty_router). split; [exact Hin|].
  destruct (config_change_takes_effect (mkEnv 50 "") (demo_tenant "Dedicated" "dsn") demo_tenants
    (dbman_UpdateTenant (InvalidateTenant true) (mkEnv 50 "") (demo_tenant "Dedicated" "dsn") demo_tenants).1
    (Ok (with_times 0 50 (demo_tenant "dedicated" "dsn"))))
    as (_ & _ & _ & Hroute); [right; vm_compute; reflexivity|].
  pose proof (Hroute ltac:(split; vm_compute; reflexivity) (InvalidateTenant true "a" empty_router) (λ _, Ok tt) 60%Z Hin) as Hnow.
  change (t_TenantID (demo_tenant "Dedicated" "dsn")) with "a" in Hnow. rewrite Hnow. vm_compute. reflexivity.
Defined.
