(* ===== verification/GoTime.v ===== *)
(** * Dates and RFC 3339

    The part of Go's [time] package the services use on text: the civil date of an instant,
    [Format(time.RFC3339Nano)] (what [json.Marshal] writes for a [time.Time]) and
    [Parse(time.RFC3339, s)] (what [json.Unmarshal] and the query parameters go through).  A
    [time] is an instant in nanoseconds; it is written in UTC, the zone of the containers the
    services run in. *)

From S2P Require Import Prelude GoStrings GoEncoding Cursor.

(** ** The calendar: days since 0001-01-01 *)

Definition is_leap (y : Z) : bool :=
  ((y mod 4 =? 0) && negb ((y mod 100 =? 0) && negb (y mod 400 =? 0)))%Z.

(** Cycles of 400, 100, 4 years and single years, as [absDate] cuts them. *)
Definition year_day (days : Z) : Z * Z :=
  let n400 := (days / 146097)%Z in
  let d := (days mod 146097)%Z in
  let n100 := (d / 36524)%Z in
  let n100 := (n100 - n100 / 4)%Z in
  let d := (d - 36524 * n100)%Z in
  let n4 := (d / 1461)%Z in
  let d := (d mod 1461)%Z in
  let n := (d / 365)%Z in
  let n := (n - n / 4)%Z in
  (400 * n400 + 100 * n100 + 4 * n4 + n + 1, d - 365 * n)%Z.

Definition days_before_year (y : Z) : Z :=
  let p := (y - 1)%Z in (365 * p + p / 4 - p / 100 + p / 400)%Z.

Definition month_lengths (y : Z) : list Z :=
  [31; if is_leap y then 29 else 28; 31; 30; 31; 30; 31; 31; 30; 31; 30; 31]%Z.

(** The month and the day of a day of the year. *)
Fixpoint month_day (lengths : list Z) (month yday : Z) : Z * Z :=
  match lengths with
  | [] => (month, yday + 1)%Z
  | len :: rest => if (yday <? len)%Z then (month, yday + 1)%Z else month_day rest (month + 1) (yday - len)
  end.

Fixpoint days_before_month (lengths : list Z) (month : nat) : Z :=
  match month, lengths with
  | S m, len :: rest => (len + days_before_month rest m)%Z
  | _, _ => 0%Z
  end.

Definition days_in (y month : Z) : Z := nth (Z.to_nat (month - 1)) (month_lengths y) 0%Z.

(** ** Instants *)

Definition nanos : Z := 1000000000.
(** 0001-01-01 is that many days before the epoch. *)
Definition epoch_days : Z := 719162.

(** [time.Time{}] *)
Definition zero_time : time := (- epoch_days * 86400 * nanos)%Z.

Record civil := mkCivil {
  c_year : Z; c_month : Z; c_day : Z; c_hour : Z; c_min : Z; c_sec : Z; c_nano : Z;
}.

Definition civil_of (t : time) : civil :=
  let secs := (t / nanos)%Z in
  let day := (secs / 86400 + epoch_days)%Z in
  let sod := (secs mod 86400)%Z in
  let '(y, yday) := year_day day in
  let '(mo, d) := month_day (month_lengths y) 1 yday in
  mkCivil y mo d (sod / 3600) (sod / 60 mod 60) (sod mod 60) (t mod nanos).

(** [time.Date(..., time.UTC)] on a valid date. *)
Definition instant_of (c : civil) : time :=
  let y := c_year c in
  let day := (days_before_year y + days_before_month (month_lengths y) (Z.to_nat (c_month c - 1))
              + (c_day c - 1) - epoch_days)%Z in
  ((day * 86400 + c_hour c * 3600 + c_min c * 60 + c_sec c) * nanos + c_nano c)%Z.

(** ** Writing *)

Definition digit (n : Z) : ascii := byte_of (48 + n).

(** The low [n] decimal digits, the highest first. *)
Fixpoint pad (n : nat) (z : Z) : string :=
  match n with
  | O => EmptyString
  | S m => String (digit (z / 10 ^ Z.of_nat m)) (pad m (z mod 10 ^ Z.of_nat m))
  end.

(** The nanoseconds without their trailing zeros. *)
Fixpoint frac_digits (n : nat) (z : Z) : string :=
  match n with
  | O => EmptyString
  | S m =>
      if (z =? 0)%Z then EmptyString
      else String (digit (z / 10 ^ Z.of_nat m)) (frac_digits m (z mod 10 ^ Z.of_nat m))
  end.

(** Years 0 to 9999, the ones [MarshalJSON] accepts. *)
Definition FormatRFC3339Nano (t : time) : string :=
  let c := civil_of t in
  pad 4 (c_year c) +:+ "-" +:+ pad 2 (c_month c) +:+ "-" +:+ pad 2 (c_day c) +:+ "T"
  +:+ pad 2 (c_hour c) +:+ ":" +:+ pad 2 (c_min c) +:+ ":" +:+ pad 2 (c_sec c)
  +:+ (if (c_nano c =? 0)%Z then "" else "." +:+ frac_digits 9 (c_nano c)) +:+ "Z".

(** ** Reading *)

(** Exactly [n] digits. *)
Fixpoint take_digits (n : nat) (acc : Z) (s : string) : option (Z * string) :=
  match n with
  | O => Some (acc, s)
  | S m =>
      match s with
      | String a s' => match digit_of a with Some d => take_digits m (acc * 10 + d) s' | None => None end
      | EmptyString => None
      end
  end.

(** An hour may have one digit. *)
Definition take_hour (s : string) : option (Z * string) :=
  match take_digits 2 0 s with
  | Some r => Some r
  | None => take_digits 1 0 s
  end.

(** A fraction: the first [n] digits count, the others are skipped. *)
Fixpoint take_frac (n : nat) (s : string) : Z * string :=
  match s with
  | EmptyString => (0%Z, s)
  | String a s' =>
      match digit_of a with
      | None => (0%Z, s)
      | Some d =>
          match n with
          | O => take_frac O s'
          | S m => let '(z, rest) := take_frac m s' in ((d * 10 ^ Z.of_nat m + z)%Z, rest)
          end
      end
  end.

(** A fraction is read after the seconds when a period or a comma and a digit follow. *)
Definition take_nanos (s : string) : Z * string :=
  match s with
  | String a (String b s') =>
      if (bool_decide (a = "."%char) || bool_decide (a = ","%char)) && bool_decide (is_Some (digit_of b))
      then take_frac 9 (String b s') else (0%Z, s)
  | _ => (0%Z, s)
  end.

(** Z or an offset, in minutes; 24 hours and 60 minutes are let through. *)
Definition take_zone (s : string) : option Z :=
  match s with
  | String a s' =>
      if decide (a = "Z"%char) then if decide (s' = "") then Some 0%Z else None
      else if decide (a = "+"%char ∨ a = "-"%char) then
        '(hr, s) ← take_digits 2 0 s'; s ← strip_prefix ":" s; '(mm, s) ← take_digits 2 0 s;
        if decide (s = "" ∧ hr ≤ 24 ∧ mm ≤ 60)%Z then
          Some (if decide (a = "-"%char) then - (hr * 60 + mm) else hr * 60 + mm)%Z
        else None
      else None
  | EmptyString => None
  end.

Definition valid_civil (c : civil) : bool :=
  ((1 <=? c_month c) && (c_month c <=? 12) && (1 <=? c_day c) && (c_day c <=? days_in (c_year c) (c_month c))
   && (c_hour c <? 24) && (c_min c <? 60) && (c_sec c <? 60))%Z.

(** [time.Parse(time.RFC3339, s)] *)
Definition ParseRFC3339 (s : string) : option time :=
  '(y, s) ← take_digits 4 0 s; s ← strip_prefix "-" s;
  '(mo, s) ← take_digits 2 0 s; s ← strip_prefix "-" s;
  '(d, s) ← take_digits 2 0 s; s ← strip_prefix "T" s;
  '(h, s) ← take_hour s; s ← strip_prefix ":" s;
  '(mi, s) ← take_digits 2 0 s; s ← strip_prefix ":" s;
  '(sec, s) ← take_digits 2 0 s;
  let '(nano, s) := take_nanos s in
  zone ← take_zone s;
  let c := mkCivil y mo d h mi sec nano in
  if valid_civil c then Some (instant_of c - zone * 60 * nanos)%Z else None.

Example format_ex : FormatRFC3339Nano 1700000000120000000 = "2023-11-14T22:13:20.12Z".
Proof. vm_compute. reflexivity. Qed.

Example format_zero : FormatRFC3339Nano zero_time = "0001-01-01T00:00:00Z".
Proof. vm_compute. reflexivity. Qed.

Example parse_offset : ParseRFC3339 "2024-02-29T1:00:00,5+09:00" = Some 1709136000500000000%Z.
Proof. vm_compute. reflexivity. Qed.

Example parse_no_leap_day : ParseRFC3339 "2023-02-29T01:00:00Z" = None.
Proof. vm_compute. reflexivity. Qed.

(** * Lemmas *)

(** The instants of the years 0 to 9999. *)
Definition encodable (t : time) : Prop :=
  (- 62167219200 * nanos ≤ t < 253402300800 * nanos)%Z.

#[export] Instance encodable_dec t : Decision (encodable t).
Proof. unfold encodable. apply _. Defined.

(** ** The calendar *)

#[local] Ltac Zify.zify_post_hook ::= Z.to_euclidean_division_equations.

Lemma is_leap_cycle a b c e :
  (0 ≤ b < 4 → 0 ≤ c < 25 → 0 ≤ e < 4 →
   is_leap (400 * a + 100 * b + 4 * c + e + 1) = (e =? 3) && negb ((c =? 24) && negb (b =? 3)))%Z.
Proof.
  intros Hb Hc He. unfold is_leap.
  assert ((400 * a + 100 * b + 4 * c + e + 1) mod 4 = (e + 1) mod 4)%Z as ->.
  { replace (400 * a + 100 * b + 4 * c + e + 1)%Z with ((e + 1) + (100 * a + 25 * b + c) * 4)%Z by lia.
    by rewrite Z.mod_add. }
  assert ((400 * a + 100 * b + 4 * c + e + 1) mod 100 = (4 * c + e + 1) mod 100)%Z as ->.
  { replace (400 * a + 100 * b + 4 * c + e + 1)%Z with ((4 * c + e + 1) + (4 * a + b) * 100)%Z by lia.
    by rewrite Z.mod_add. }
  assert ((400 * a + 100 * b + 4 * c + e + 1) mod 400 = (100 * b + 4 * c + e + 1) mod 400)%Z as ->.
  { replace (400 * a + 100 * b + 4 * c + e + 1)%Z with ((100 * b + 4 * c + e + 1) + a * 400)%Z by lia.
    by rewrite Z.mod_add. }
  destruct (Z.eqb_spec ((e + 1) mod 4) 0), (Z.eqb_spec e 3); cbn [andb negb]; try done; try (exfalso; lia). subst e.
  replace (4 * c + 3 + 1)%Z with (4 * (c + 1))%Z by lia.
  replace (100 * b + 4 * c + 3 + 1)%Z with (4 * (25 * b + c + 1))%Z by lia.
  destruct (Z.eqb_spec (4 * (c + 1) mod 100) 0), (Z.eqb_spec c 24); cbn [andb negb]; try done;
    try (exfalso; lia). subst c. replace (4 * (25 * b + 24 + 1))%Z with (100 * (b + 1))%Z by lia.
  destruct (Z.eqb_spec (100 * (b + 1) mod 400) 0), (Z.eqb_spec b 3); cbn [andb negb]; try done;
    exfalso; lia.
Qed.

Lemma year_day_spec days :
  let '(y, yday) := year_day days in
  days = (days_before_year y + yday)%Z ∧ (0 ≤ yday < 365 + (if is_leap y then 1 else 0))%Z.
Proof.
  unfold year_day. set (a := (days / 146097)%Z). set (r := (days mod 146097)%Z).
  assert (Hr : (days = 146097 * a + r ∧ 0 ≤ r < 146097)%Z) by (subst a r; lia).
  clearbody a r. destruct Hr as [-> Hr].
  set (b := (r / 36524 - r / 36524 / 4)%Z).
  assert (Hb : (0 ≤ b < 4 ∧ 0 ≤ r - 36524 * b ∧ (b < 3 → r - 36524 * b < 36524))%Z) by (subst b; lia).
  clearbody b. set (d := (r - 36524 * b)%Z) in *.
  assert (Hd : (r = 36524 * b + d)%Z) by lia. clearbody d. subst r.
  set (c := (d / 1461)%Z). set (f := (d mod 1461)%Z).
  assert (Hc : (d = 1461 * c + f ∧ 0 ≤ f < 1461 ∧ 0 ≤ c < 25)%Z) by (subst c f; lia).
  clearbody c f. destruct Hc as (-> & Hf & Hc).
  set (e := (f / 365 - f / 365 / 4)%Z).
  assert (He : (0 ≤ e < 4 ∧ 0 ≤ f - 365 * e ∧ (e < 3 → f - 365 * e < 365))%Z) by (subst e; lia).
  clearbody e. set (g := (f - 365 * e)%Z) in *.
  assert (Hg : (f = 365 * e + g)%Z) by lia. clearbody g. subst f.
  rewrite is_leap_cycle by lia. unfold days_before_year.
  replace (400 * a + 100 * b + 4 * c + e + 1 - 1)%Z with (400 * a + 100 * b + 4 * c + e)%Z by lia.
  assert ((400 * a + 100 * b + 4 * c + e) / 4 = 100 * a + 25 * b + c)%Z as -> by lia.
  assert ((400 * a + 100 * b + 4 * c + e) / 100 = 4 * a + b)%Z as -> by lia.
  assert ((400 * a + 100 * b + 4 * c + e) / 400 = a)%Z as -> by lia.
  split; [lia|].
  destruct (Z.eqb_spec e 3), (Z.eqb_spec c 24), (Z.eqb_spec b 3); cbn [andb negb]; lia.
Qed.

Lemma month_day_spec lengths month yday :
  (0 ≤ yday < foldr Z.add 0 lengths)%Z →
  let '(m, d) := month_day lengths month yday in
  (month ≤ m < month + Z.of_nat (length lengths))%Z
  ∧ (1 ≤ d ≤ nth (Z.to_nat (m - month)) lengths 0)%Z
  ∧ (days_before_month lengths (Z.to_nat (m - month)) + (d - 1) = yday)%Z.
Proof.
  revert month yday. induction lengths as [|len rest IH]; intros month yday Hy; cbn in Hy; [lia|].
  cbn [month_day length]. destruct (Z.ltb_spec yday len) as [Hl|Hl].
  - replace (Z.to_nat (month - month)) with 0 by lia. cbn. lia.
  - specialize (IH (month + 1)%Z (yday - len)%Z ltac:(lia)).
    destruct (month_day rest (month + 1) (yday - len)) as [m d]. destruct IH as (Hm & Hd & Hs).
    replace (Z.to_nat (m - month)) with (S (Z.to_nat (m - (month + 1)))) by lia.
    cbn [nth days_before_month]. lia.
Qed.

Lemma month_lengths_sum y : (foldr Z.add 0 (month_lengths y) = 365 + if is_leap y then 1 else 0)%Z.
Proof. unfold month_lengths. by destruct (is_leap y). Qed.

Lemma civil_spec t : instant_of (civil_of t) = t ∧ valid_civil (civil_of t) = true.
Proof.
  unfold civil_of. pose proof (year_day_spec (t / nanos / 86400 + epoch_days)) as Hy.
  destruct (year_day _) as [y yday]. destruct Hy as [Hd Hyd].
  pose proof (month_day_spec (month_lengths y) 1 yday) as Hm.
  rewrite month_lengths_sum in Hm. specialize (Hm Hyd). change (Z.of_nat (length (month_lengths y))) with 12%Z in Hm.
  destruct (month_day _ _ _) as [mo d]. destruct Hm as (Hmo & Hday & Hs).
  unfold instant_of, valid_civil, days_in. cbn [c_year c_month c_day c_hour c_min c_sec c_nano].
  unfold nanos in *. split; [lia|].
  rewrite !andb_true_iff, !Z.leb_le, !Z.ltb_lt. lia.
Qed.

Lemma encodable_year t : encodable t → (0 ≤ c_year (civil_of t) ≤ 9999)%Z.
Proof.
  intros Ht. unfold civil_of. pose proof (year_day_spec (t / nanos / 86400 + epoch_days)) as Hy.
  destruct (year_day _) as [y yday]. destruct Hy as [Hd Hyd].
  destruct (month_day _ _ _) as [mo d]. cbn. unfold encodable, nanos, epoch_days, days_before_year in *.
  assert (y = (-1)%Z → yday < 365)%Z by (intros ->; revert Hyd; vm_compute is_leap; lia).
  assert (0 ≤ yday < 366)%Z by (revert Hyd; clear; destruct (is_leap y); lia).
  assert (- 719528 ≤ t / 1000000000 / 86400 < 2932897)%Z by lia.
  set (n := (t / 1000000000 / 86400)%Z) in *. clearbody n. clear Hyd Ht.
  destruct (Z.lt_ge_cases y 0); [exfalso; lia|].
  destruct (Z.lt_ge_cases 9999 y); [exfalso|lia].
  pose proof (Z.div_le_lower_bound (y - 1) 4 2499 ltac:(lia) ltac:(lia)).
  pose proof (Z.div_le_lower_bound (y - 1) 400 24 ltac:(lia) ltac:(lia)).
  pose proof (Z.div_lt_upper_bound (y - 1) 100 (100 + (y - 10000)) ltac:(lia) ltac:(lia)). lia.
Qed.

(** ** Digits *)

Lemma digit_of_digit n : (0 ≤ n < 10)%Z → digit_of (digit n) = Some n.
Proof.
  intros Hn. assert (n ∈ [0; 1; 2; 3; 4; 5; 6; 7; 8; 9]%Z) as Hin by (rewrite !elem_of_cons; lia).
  revert Hin. rewrite !elem_of_cons, elem_of_nil. intros Hin.
  repeat (destruct Hin as [->|Hin]; [reflexivity|]). done.
Qed.

Lemma digit_plain n : (0 ≤ n < 10)%Z → plain (digit n) = true.
Proof.
  intros Hn. assert (n ∈ [0; 1; 2; 3; 4; 5; 6; 7; 8; 9]%Z) as Hin by (rewrite !elem_of_cons; lia).
  revert Hin. rewrite !elem_of_cons, elem_of_nil. intros Hin.
  repeat (destruct Hin as [->|Hin]; [reflexivity|]). done.
Qed.

Lemma high_digit m z : (0 ≤ z < 10 ^ Z.of_nat (S m) → 0 ≤ z / 10 ^ Z.of_nat m < 10)%Z.
Proof.
  rewrite Nat2Z.inj_succ, Z.pow_succ_r by lia. intros Hz.
  assert (0 < 10 ^ Z.of_nat m)%Z by (apply Z.pow_pos_nonneg; lia).
  split; [apply Z.div_pos; lia|]. apply Z.div_lt_upper_bound; lia.
Qed.

Lemma low_digits m z : (0 ≤ z mod 10 ^ Z.of_nat m < 10 ^ Z.of_nat m)%Z.
Proof. apply Z.mod_pos_bound, Z.pow_pos_nonneg; lia. Qed.

Lemma take_digits_pad n acc z s :
  (0 ≤ z < 10 ^ Z.of_nat n)%Z → take_digits n acc (pad n z +:+ s) = Some (acc * 10 ^ Z.of_nat n + z, s)%Z.
Proof.
  revert acc z. induction n as [|m IH]; intros acc z Hz; cbn [pad take_digits].
  - rewrite append_nil. do 2 f_equal. change (10 ^ Z.of_nat 0)%Z with 1%Z in *. lia.
  - rewrite append_cons, digit_of_digit by by apply high_digit. rewrite IH by apply low_digits.
    do 2 f_equal. rewrite (Z.div_mod z (10 ^ Z.of_nat m)) at 3 by (apply Z.pow_nonzero; lia).
    rewrite Nat2Z.inj_succ, Z.pow_succ_r by lia. lia.
Qed.

Lemma take_frac_digits n z s :
  (0 ≤ z < 10 ^ Z.of_nat n)%Z → take_frac n (frac_digits n z +:+ String "Z" s) = (z, String "Z" s).
Proof.
  revert z. induction n as [|m IH]; intros z Hz; cbn [frac_digits].
  - change (10 ^ Z.of_nat 0)%Z with 1%Z in Hz. assert (z = 0%Z) as -> by lia. done.
  - destruct (Z.eqb_spec z 0) as [->|Hne]; [done|].
    rewrite append_cons. cbn [take_frac]. rewrite digit_of_digit by by apply high_digit.
    rewrite IH by apply low_digits. f_equal.
    rewrite (Z.div_mod z (10 ^ Z.of_nat m)) at 3 by (apply Z.pow_nonzero; lia). lia.
Qed.

Lemma take_nanos_text z s :
  (0 ≤ z < nanos)%Z →
  take_nanos ((if (z =? 0)%Z then "" else "." +:+ frac_digits 9 z) +:+ String "Z" s) = (z, String "Z" s).
Proof.
  intros Hz. destruct (Z.eqb_spec z 0) as [->|Hne]; [by destruct s|].
  rewrite app_assoc_s. rewrite <-(take_frac_digits 9 z s) by (unfold nanos in Hz; lia).
  change (frac_digits 9 z) with (if (z =? 0)%Z then "" else
    String (digit (z / 10 ^ Z.of_nat 8)) (frac_digits 8 (z mod 10 ^ Z.of_nat 8))).
  rewrite (proj2 (Z.eqb_neq z 0)) by done. rewrite !append_cons, append_nil. cbn [take_nanos].
  rewrite digit_of_digit by (apply (high_digit 8); unfold nanos in Hz; change (10 ^ Z.of_nat 9)%Z with 1000000000%Z; lia). done.
Qed.

Lemma take_hour_pad z s : (0 ≤ z < 100)%Z → take_hour (pad 2 z +:+ s) = Some (z, s).
Proof. intros Hz. unfold take_hour. rewrite take_digits_pad by lia. do 2 f_equal; lia. Qed.

Lemma days_in_le y mo : (days_in y mo ≤ 31)%Z.
Proof.
  unfold days_in, month_lengths. destruct (is_leap y);
    (destruct (Z.to_nat (mo - 1)) as [|[|[|[|[|[|[|[|[|[|[|[|n]]]]]]]]]]]]; cbn; try lia); by destruct n.
Qed.

(** Reading back what was written. *)
Lemma ParseRFC3339_Format t : encodable t → ParseRFC3339 (FormatRFC3339Nano t) = Some t.
Proof.
  intros Ht. pose proof (encodable_year t Ht) as Hy. destruct (civil_spec t) as [Hi Hv].
  assert (Hn : (0 ≤ c_nano (civil_of t) < nanos)%Z).
  { unfold civil_of. repeat case_match. apply Z.mod_pos_bound. done. }
  assert (Hnn : (0 ≤ c_hour (civil_of t) ∧ 0 ≤ c_min (civil_of t) ∧ 0 ≤ c_sec (civil_of t))%Z).
  { unfold civil_of. repeat case_match. cbn. lia. }
  unfold FormatRFC3339Nano. destruct (civil_of t) as [y mo d h mi sec nano] eqn:Ec.
  cbn [c_year c_month c_day c_hour c_min c_sec c_nano] in *. pose proof Hv as Hv'.
  unfold valid_civil in Hv'. cbn -[days_in] in Hv'. rewrite !andb_true_iff, !Z.leb_le, !Z.ltb_lt in Hv'.
  pose proof (days_in_le y mo).
  unfold ParseRFC3339.
  repeat (first [rewrite take_digits_pad by lia | rewrite take_hour_pad by lia]; cbn [mbind option_bind];
          rewrite ?strip_prefix_app; cbn [mbind option_bind]).
  rewrite take_nanos_text by done. cbn [take_zone]. rewrite !decide_True by done. cbn [mbind option_bind].
  rewrite !Z.mul_0_l, !Z.add_0_l in *. rewrite Hv, Hi. f_equal. lia.
Qed.

Lemma pad_plain n z : (0 ≤ z < 10 ^ Z.of_nat n)%Z → Forall (λ a, plain a = true) (chars (pad n z)).
Proof.
  revert z. induction n as [|m IH]; intros z Hz; cbn; constructor.
  - by apply digit_plain, high_digit.
  - apply IH, low_digits.
Qed.

Lemma frac_digits_plain n z : (0 ≤ z < 10 ^ Z.of_nat n)%Z → Forall (λ a, plain a = true) (chars (frac_digits n z)).
Proof.
  revert z. induction n as [|m IH]; intros z Hz; cbn [frac_digits]; [constructor|].
  case_match; constructor.
  - by apply digit_plain, high_digit.
  - apply IH, low_digits.
Qed.

Lemma FormatRFC3339Nano_plain t : encodable t → Forall (λ a, plain a = true) (chars (FormatRFC3339Nano t)).
Proof.
  intros Ht. pose proof (encodable_year t Ht) as Hy. destruct (civil_spec t) as [_ Hv].
  assert (Hn : (0 ≤ c_nano (civil_of t) < nanos ∧ 0 ≤ c_hour (civil_of t) ∧ 0 ≤ c_min (civil_of t) ∧ 0 ≤ c_sec (civil_of t))%Z).
  { unfold civil_of, nanos. repeat case_match. cbn. lia. }
  unfold FormatRFC3339Nano. destruct (civil_of t) as [y mo d h mi sec nano].
  cbn [c_year c_month c_day c_hour c_min c_sec c_nano] in *.
  unfold valid_civil in Hv. cbn -[days_in] in Hv. rewrite !andb_true_iff, !Z.leb_le, !Z.ltb_lt in Hv.
  pose proof (days_in_le y mo). rewrite !chars_app, !Forall_app. unfold nanos in *.
  repeat match goal with |- _ ∧ _ => split | |- Forall _ (chars (pad _ _)) => apply pad_plain; lia end;
    try (repeat constructor; fail).
  case_match; [constructor|]. rewrite chars_app, Forall_app. split; [repeat constructor|]. apply frac_digits_plain. lia.
Qed.
