(* ===== verification/FileStore.v ===== *)
(** * The files table

    server/dbman/domain/models.go, server/fileman/domain/models.go and
    server/dbman/repository/file_repository.go: the registered objects, over the tables of the
    chat store, whose rooms and users they refer to. *)

From S2P Require Import Prelude GoStrings GoEncoding Cursor Paging SessionStore ChatStore.

(* server/dbman/domain/models.go: FileObject *)
Record FileObject := mkFileObject {
  fo_TenantID : string;
  fo_ID : string;
  fo_RoomID : string;
  UploaderID : string;
  fo_ObjectKey : string;
  fo_ContentType : string;
  fo_SizeBytes : Z;
  ThumbnailKey : string;
  OriginalName : string;
  fo_CreatedAt : time;
}.

Record FilesDB := mkFilesDB { f_chat : ChatDB; files : list FileObject }.

Section repository.
Context `{Postgres}.
Variable DBForTenant : string → result unit.

(* server/dbman/repository/file_repository.go: FileRepository.Create *)
Definition repo_CreateFile (env : Env) (item : FileObject) : M FilesDB FileObject := λ d,
  match DBForTenant (fo_TenantID item) with
  | Err e => (d, Err e)
  | Ok _ =>
      if decide (fo_TenantID item ∉ c_tenants (f_chat d) ∨ chat_rooms (f_chat d) !! fo_RoomID item = None
                 ∨ users (f_chat d) !! UploaderID item = None) then (d, Err foreign_key)
      else if decide (new_uuid env ∈ (fo_ID <$> files d)) then (d, Err duplicate_key)
      else
        let row := mkFileObject (fo_TenantID item) (new_uuid env) (fo_RoomID item) (UploaderID item)
                     (fo_ObjectKey item) (fo_ContentType item) (fo_SizeBytes item) (ThumbnailKey item)
                     (OriginalName item) (NOW env) in
        (mkFilesDB (f_chat d) (files d ++ [row]), Ok row)
  end.

Definition created_later (x y : FileObject) : Prop := (fo_CreatedAt y ≤ fo_CreatedAt x)%Z.

#[export] Instance created_later_dec x y : Decision (created_later x y).
Proof. unfold created_later. apply _. Defined.

Definition room_files (tenantID roomID : string) (d : FilesDB) : list FileObject :=
  filter (λ f, fo_TenantID f = tenantID ∧ fo_RoomID f = roomID) (files d).

(* server/dbman/repository/file_repository.go: FileRepository.SearchByRoom *)
Definition repo_SearchByRoom (tenantID roomID : string) (limit : Z) : M FilesDB (list FileObject) := λ d,
  match DBForTenant tenantID with
  | Err e => (d, Err e)
  | Ok _ =>
      if (limit <? 0)%Z then (d, Err "LIMIT must not be negative")
      else (d, Ok (take (Z.to_nat limit) (merge_sort created_later (room_files tenantID roomID d))))
  end.

(** The message search of this repository asks what the chat repository's asks. *)
(* server/dbman/repository/file_repository.go: FileRepository.SearchMessages *)
Definition files_SearchMessages (tenantID q : string) (roomID : option string) (limit : Z)
    (cursorID : option string) : M FilesDB (list Message) := λ d,
  match DBForTenant tenantID with
  | Err e => (d, Err e)
  | Ok _ =>
      if (limit <? 0)%Z then (d, Err "LIMIT must not be negative")
      else (d, Ok (without_tenant <$>
              query text_le m_ID (search_hits tenantID q roomID (f_chat d)) cursorID (Z.to_nat limit)))
  end.
End repository.

(** The invariant of the table: its keys. *)
Record files_inv (d : FilesDB) : Prop := mkFilesInv {
  fi_ids : NoDup (fo_ID <$> files d);
  fi_fk : Forall (λ f, is_Some (chat_rooms (f_chat d) !! fo_RoomID f)
                       ∧ is_Some (users (f_chat d) !! UploaderID f)) (files d);
}.

Lemma create_file_inv DBForTenant env item d :
  files_inv d → files_inv (repo_CreateFile DBForTenant env item d).1.
Proof.
  intros [Hids Hfk]. unfold repo_CreateFile. destruct (DBForTenant _); [|done].
  case_decide as Hk; [done|]. case_decide as Hnew; [done|]. split; cbn.
  - rewrite fmap_app, NoDup_app. cbn. split; [done|]. split; [|apply NoDup_singleton].
    intros x Hx Hs. by apply list_elem_of_singleton in Hs as ->.
  - apply Forall_app. split; [done|]. apply Forall_singleton. cbn. split; apply not_eq_None_Some; tauto.
Qed.
