(* ===== verification/Wire.v ===== *)
(** * The JSON of the domain types

    What the struct tags of server/chat/domain/models.go, server/session/domain/types.go and
    server/dbman/domain/models.go make of the types on the wire.  A [codec] is how a type is
    marshalled and unmarshalled; a struct's codec is its list of fields, one line per tag.  A
    field that is left out of the text keeps the value it had, as [json.Unmarshal] does.

    A nil slice and an empty one are the same value of the model; both read back as the empty
    list. *)

From S2P Require Import Prelude GoStrings GoEncoding Cursor Env SessionStore Paging ChatStore GoJson GoTime JsonText.
From S2P Require Import Users Tenants FileStore.

(** ** Codecs *)

Record codec (A : Type) := mkCodec {
  zero : A;
  enc : A → json;
  (** [json.Unmarshal] of a value into a variable that holds the first argument *)
  dec : A → json → option A;
  (** the values whose text is their own: UTF-8 strings, 64-bit integers, years 0 to 9999 *)
  enc_ok : A → bool;
}.
Arguments mkCodec {A}.
Arguments zero {A}.
Arguments enc {A}.
Arguments dec {A}.
Arguments enc_ok {A}.

Class GoodCodec {A} (c : codec A) := {
  dec_enc a : enc_ok c a = true → dec c (zero c) (enc c a) = Some a;
  enc_wf a : enc_ok c a = true → wf_json (enc c a) = true;
}.

Definition is_int64b (z : Z) : bool := bool_decide (is_int64 z).

Definition c_string : codec string := mkCodec "" JStr decode_string utf8.

Definition c_int : codec Z :=
  mkCodec 0%Z JNum
    (λ old v, match v with
              | JNum z => if is_int64b z then Some z else None
              | JNull => Some old
              | _ => None
              end) is_int64b.

(** A count: an int64 that is not negative. *)
Definition c_count : codec nat :=
  mkCodec 0 (λ n, JNum (Z.of_nat n))
    (λ old v, match v with
              | JNum z => if is_int64b z && (0 <=? z)%Z then Some (Z.to_nat z) else None
              | JNull => Some old
              | _ => None
              end) (λ n, is_int64b (Z.of_nat n)).

Definition c_bool : codec bool :=
  mkCodec false JBool (λ old v, match v with JBool b => Some b | JNull => Some old | _ => None end) (λ _, true).

Definition c_time : codec time :=
  mkCodec zero_time (λ t, JStr (FormatRFC3339Nano t))
    (λ old v, match v with JStr s => ParseRFC3339 s | JNull => Some old | _ => None end)
    (λ t, bool_decide (encodable t)).

Definition is_null (v : json) : bool := match v with JNull => true | _ => false end.

(** A pointer: null is nil. *)
Definition c_ptr {A} (c : codec A) : codec (option A) :=
  mkCodec None (λ o, match o with Some a => enc c a | None => JNull end)
    (λ old v, if is_null v then Some None else Some <$> dec c (default (zero c) old) v)
    (λ o, match o with Some a => enc_ok c a && negb (is_null (enc c a)) | None => true end).

(** A slice: element [i] is read into the element [i] that was there, if any. *)
Fixpoint dec_elements {A} (c : codec A) (old : list A) (l : list json) : option (list A) :=
  match l with
  | [] => Some []
  | v :: rest =>
      match dec c (hd (zero c) old) v, dec_elements c (tl old) rest with
      | Some a, Some l' => Some (a :: l')
      | _, _ => None
      end
  end.

Definition c_list {A} (c : codec A) : codec (list A) :=
  mkCodec [] (λ l, JList (enc c <$> l))
    (λ old v, match v with JNull => Some [] | JList l => dec_elements c old l | _ => None end)
    (forallb (enc_ok c)).

(** ** Structs *)

(** The values an object's text gives to the field [k] of a struct with the given names, in order. *)
Definition members_of (names : list string) (ms : list (string * json)) (k : string) : list json :=
  omap (λ '(k', w), if decide (field_name names k' = Some k) then Some w else None) ms.

Definition dec_object {R} (names : list string) (k : (string → list json) → option R) (v : json) : option R :=
  match v with
  | JNull => k (λ _, [])
  | JObj ms => k (members_of names ms)
  | _ => None
  end.

Definition dec_field {A} (c : codec A) (old : A) (ws : list json) : option A :=
  foldl (λ acc w, a ← acc; dec c a w) (Some old) ws.

(** The fields of a struct [R] that are still to be given to its constructor [C].  [omit] is
    omitempty's test; a hidden field has the tag - and never travels. *)
Inductive fields (R : Type) : Type → Type :=
| FNil : fields R R
| FCons {A C} (name : string) (omit : A → bool) (c : codec A) (get : R → A) (rest : fields R C) : fields R (A → C)
| FHidden {C} (get : R → string) (rest : fields R C) : fields R (string → C).
Arguments FNil {R}.
Arguments FCons {R A C}.
Arguments FHidden {R C}.

Definition never {A} (_ : A) : bool := false.
Definition is_none {A} (o : option A) : bool := match o with None => true | Some _ => false end.
Definition is_nil {A} (l : list A) : bool := match l with [] => true | _ => false end.
Definition is_empty (s : string) : bool := bool_decide (s = "").

Section structs.
Context {R : Type}.

Fixpoint f_names {C} (fs : fields R C) : list string :=
  match fs with
  | FNil => []
  | FCons name _ _ _ rest => name :: f_names rest
  | FHidden _ rest => f_names rest
  end.

Fixpoint f_members {C} (fs : fields R C) (r : R) : list (string * json) :=
  match fs with
  | FNil => []
  | FCons name omit c get rest =>
      (if omit (get r) then [] else [(name, enc c (get r))]) ++ f_members rest r
  | FHidden _ rest => f_members rest r
  end.

Fixpoint f_decode {C} (fs : fields R C) (old : R) (o : string → list json) : C → option R :=
  match fs in fields _ C return C → option R with
  | FNil => λ r, Some r
  | FCons name _ c get rest => λ k, a ← dec_field c (get old) (o name); f_decode rest old o (k a)
  | FHidden get rest => λ k, f_decode rest old o (k (get old))
  end.

Fixpoint f_zero {C} (fs : fields R C) : C → R :=
  match fs in fields _ C return C → R with
  | FNil => λ r, r
  | FCons _ _ c _ rest => λ k, f_zero rest (k (zero c))
  | FHidden _ rest => λ k, f_zero rest (k "")
  end.

(** The struct built from its own fields. *)
Fixpoint f_build {C} (fs : fields R C) (r : R) : C → R :=
  match fs in fields _ C return C → R with
  | FNil => λ r, r
  | FCons _ _ _ get rest => λ k, f_build rest r (k (get r))
  | FHidden get rest => λ k, f_build rest r (k (get r))
  end.

(** A hidden field must be empty to arrive; an omitted one is its zero. *)
Fixpoint f_ok {C} (fs : fields R C) (r : R) : bool :=
  match fs with
  | FNil => true
  | FCons _ omit c get rest => (omit (get r) || enc_ok c (get r)) && f_ok rest r
  | FHidden get rest => is_empty (get r) && f_ok rest r
  end.

Definition c_struct {C} (mk : C) (fs : fields R C) : codec R :=
  mkCodec (f_zero fs mk) (λ r, JObj (f_members fs r))
    (λ old, dec_object (f_names fs) (λ o, f_decode fs old o mk)) (f_ok fs).
End structs.

(** * Lemmas *)

Section ptr_list.
Context {A : Type} (c : codec A) `{!GoodCodec c}.

#[export] Instance c_ptr_good : GoodCodec (c_ptr c).
Proof.
  split; intros [a|]; cbn; try done; rewrite andb_true_iff; intros [Ha Hn].
  - apply negb_true_iff in Hn. rewrite Hn. by rewrite dec_enc.
  - by apply enc_wf.
Qed.

Lemma dec_elements_enc l : forallb (enc_ok c) l = true → dec_elements c [] (enc c <$> l) = Some l.
Proof.
  induction l as [|a l IH]; [done|]. cbn [forallb]. rewrite andb_true_iff. intros [Ha Hl].
  rewrite fmap_cons. cbn [dec_elements hd tl]. by rewrite dec_enc, IH.
Qed.

#[export] Instance c_list_good : GoodCodec (c_list c).
Proof.
  split; intros l Hl; [by apply dec_elements_enc|]. cbn in *. induction l as [|a l IH]; [done|].
  cbn [forallb] in Hl. apply andb_true_iff in Hl as [Ha Hl]. rewrite fmap_cons. cbn [forallb].
  rewrite enc_wf, IH by done. done.
Qed.
End ptr_list.

#[export] Instance c_string_good : GoodCodec c_string.
Proof. by split. Qed.

#[export] Instance c_int_good : GoodCodec c_int.
Proof. split; intros z Hz; [|done]. cbn in *. by rewrite Hz. Qed.

#[export] Instance c_count_good : GoodCodec c_count.
Proof.
  split; intros n Hn; [|done]. cbn in *. rewrite Hn. rewrite (proj2 (Z.leb_le 0 (Z.of_nat n))) by lia.
  cbn. by rewrite Nat2Z.id.
Qed.

#[export] Instance c_bool_good : GoodCodec c_bool.
Proof. by split. Qed.

#[export] Instance c_time_good : GoodCodec c_time.
Proof.
  split; intros t Ht; cbn -[FormatRFC3339Nano] in *; apply bool_decide_eq_true in Ht.
  - by apply ParseRFC3339_Format.
  - by apply utf8_plain, FormatRFC3339Nano_plain.
Qed.

Lemma field_name_in names k : k ∈ names → field_name names k = Some k.
Proof. intros Hk. unfold field_name. by rewrite decide_True. Qed.

Section struct_laws.
Context {R : Type}.

(** The codecs of the fields are good, an omitted value is its zero, and [z] is the zero struct. *)
Fixpoint f_good {C} (fs : fields R C) (z : R) : Prop :=
  match fs with
  | FNil => True
  | FCons name omit c get rest =>
      GoodCodec c ∧ (∀ a, omit a = true → a = zero c) ∧ get z = zero c ∧ utf8 name = true ∧ f_good rest z
  | FHidden get rest => get z = "" ∧ f_good rest z
  end.

(** [o] gives each field what the text of [r] holds. *)
Fixpoint f_answers {C} (fs : fields R C) (r : R) (o : string → list json) : Prop :=
  match fs with
  | FNil => True
  | FCons name omit c get rest =>
      o name = (if omit (get r) then [] else [enc c (get r)]) ∧ f_answers rest r o
  | FHidden _ rest => f_answers rest r o
  end.

Lemma decode_answers {C} (fs : fields R C) z r o (k : C) :
  f_good fs z → f_ok fs r = true → f_answers fs r o → f_decode fs z o k = Some (f_build fs r k).
Proof.
  induction fs as [|A C name omit c get rest IH|C get rest IH]; cbn; [done|..].
  - intros (Hc & Homit & Hz & _ & Hg) [Ha Hok]%andb_true_iff [Ho Han]. rewrite Ho.
    assert (dec_field c (get z) (if omit (get r) then [] else [enc c (get r)]) = Some (get r)) as ->.
    { destruct (omit (get r)) eqn:E; cbn.
      - rewrite Hz. by rewrite (Homit _ E).
      - rewrite Hz, dec_enc; done. }
    cbn [mbind option_bind]. by apply IH.
  - intros [Hz Hg] [Hh%bool_decide_eq_true Hok]%andb_true_iff Han. rewrite Hz, <-Hh. by apply IH.
Qed.

Lemma f_members_names {C} (fs : fields R C) r k w : (k, w) ∈ f_members fs r → k ∈ f_names fs.
Proof.
  induction fs as [|A C name omit c get rest IH|C get rest IH]; cbn; [by intros ?%elem_of_nil| |done].
  rewrite elem_of_app, elem_of_cons. intros [Hin|Hin]; [|by right; apply IH].
  destruct (omit _); [by apply elem_of_nil in Hin|]. apply list_elem_of_singleton in Hin. left. congruence.
Qed.

Lemma members_of_app names ms1 ms2 k : members_of names (ms1 ++ ms2) k = members_of names ms1 k ++ members_of names ms2 k.
Proof. unfold members_of. apply omap_app. Qed.

Lemma members_of_other names ms k :
  (∀ f, f ∈ ms → f.1 ∈ names ∧ f.1 ≠ k) → members_of names ms k = [].
Proof.
  intros Hms. unfold members_of. induction ms as [|[k' w] ms IH]; [done|]. cbn [omap list_omap].
  destruct (Hms (k', w)) as [Hin Hne]; [by left|]. rewrite field_name_in by done.
  rewrite decide_False by (cbn in Hne; congruence). apply IH. intros f Hf. apply Hms. by right.
Qed.

Lemma answers_of_members {C} (fs : fields R C) names pre r :
  (∀ k, k ∈ f_names fs → k ∈ names) → (∀ f, f ∈ pre → f.1 ∈ names ∧ f.1 ∉ f_names fs) → NoDup (f_names fs) →
  f_answers fs r (members_of names (pre ++ f_members fs r)).
Proof.
  revert pre. induction fs as [|A C name omit c get rest IH|C get rest IH]; cbn; intros pre Hn Hp Hd; [done| |by apply IH].
  apply NoDup_cons in Hd as [Hnew Hd]. split.
  - rewrite !members_of_app, (members_of_other names pre), (members_of_other names (f_members rest r)), app_nil_r.
    + destruct (omit (get r)); [done|]. cbn. rewrite field_name_in by (apply Hn; by left). by rewrite decide_True.
    + intros [k w] Hf. apply f_members_names in Hf. cbn. split; [apply Hn; by right|]. by intros ->.
    + intros f Hf. apply Hp in Hf as [Hin Hne]. split; [done|]. intros Heq. apply Hne. rewrite Heq. by left.
  - rewrite app_assoc. apply IH; [intros; apply Hn; by right| |done].
    intros f [Hf|Hf]%elem_of_app.
    + apply Hp in Hf as [Hin Hne]. split; [done|]. intros ?. apply Hne. by right.
    + destruct (omit _); [by apply elem_of_nil in Hf|]. apply list_elem_of_singleton in Hf as ->. cbn.
      split; [apply Hn; by left|done].
Qed.

Lemma f_members_wf {C} (fs : fields R C) z r :
  f_good fs z → f_ok fs r = true → forallb (λ '(k, w), utf8 k && wf_json w) (f_members fs r) = true.
Proof.
  induction fs as [|A C name omit c get rest IH|C get rest IH]; cbn; [done|..].
  - intros (Hc & _ & _ & Hu & Hg) [Ha Hok]%andb_true_iff. rewrite forallb_app, IH by done.
    rewrite andb_true_r. destruct (omit _); [done|]. cbn in Ha |- *. rewrite Hu, enc_wf; done.
  - intros [_ Hg] [_ Hok]%andb_true_iff. by apply IH.
Qed.

Lemma c_struct_good {C} (mk : C) (fs : fields R C) :
  f_good fs (f_zero fs mk) → NoDup (f_names fs) → (∀ r, f_build fs r mk = r) → GoodCodec (c_struct mk fs).
Proof.
  intros Hg Hd Hb. split; intros r Hr; cbn in *.
  - rewrite (decode_answers fs (f_zero fs mk) r); [by rewrite Hb|done|done|].
    apply (answers_of_members fs (f_names fs) []); [done| |done]. by intros f ?%elem_of_nil.
  - by eapply f_members_wf.
Qed.
End struct_laws.

(** The proof of a struct's law: the tags are distinct, and the constructor's arguments are its fields. *)
Ltac good_struct :=
  apply c_struct_good;
    [ cbn; repeat (split; [first [apply _ | reflexivity | by intros [] | by intros ? ?%bool_decide_eq_true]|]); done
    | by_computation
    | by intros [] ].

(** * The domain types *)

(* server/chat/domain/models.go: Tenant *)
Definition c_Tenant : codec Tenant := c_struct mkTenant
  (FCons "tenant_id" never c_string t_TenantID $
   FCons "name" never c_string t_Name $
   FCons "deployment_mode" never c_string t_DeploymentMode $
   FCons "dedicated_dsn" never c_string t_DedicatedDSN $
   FCons "dedicated_redis_addr" never c_string DedicatedRedisAddr $
   FCons "dedicated_lavinmq_url" never c_string DedicatedLavinMQURL $
   FCons "dedicated_minio_endpoint" never c_string DedicatedMinIOEndpoint $
   FCons "dedicated_minio_access_key" never c_string DedicatedMinIOAccessKey $
   FCons "dedicated_minio_secret_key" never c_string DedicatedMinIOSecretKey $
   FCons "dedicated_minio_bucket" never c_string DedicatedMinIOBucket $
   FCons "dedicated_minio_use_ssl" never c_bool DedicatedMinIOUseSSL $
   FCons "user_count_threshold" never c_int UserCountThreshold $
   FCons "is_active" never c_bool t_IsActive $
   FCons "created_at" never c_time t_CreatedAt $
   FCons "updated_at" never c_time t_UpdatedAt $ FNil).

#[export] Instance c_Tenant_good : GoodCodec c_Tenant.
Proof. good_struct. Qed.

(* server/chat/domain/models.go: OrgUnit *)
Definition c_OrgUnit : codec OrgUnit := c_struct mkOrgUnit
  (FCons "tenant_id" never c_string ou_TenantID $
   FCons "id" never c_string ou_ID $
   FCons "parent_id" is_none (c_ptr c_string) ParentID $
   FCons "name" never c_string ou_Name $
   FCons "created_at" never c_time ou_CreatedAt $ FNil).

#[export] Instance c_OrgUnit_good : GoodCodec c_OrgUnit.
Proof. good_struct. Qed.

(* server/chat/domain/models.go: User *)
Definition c_User : codec User := c_struct mkUser
  (FCons "tenant_id" never c_string u_TenantID $
   FCons "id" never c_string u_ID $
   FCons "org_id" never c_string OrgID $
   FCons "email" never c_string Email $
   FCons "name" never c_string u_Name $
   FCons "title" never c_string u_Title $
   FCons "role" never c_string u_Role $
   FCons "status" never c_string u_Status $
   FCons "status_note" never c_string u_StatusNote $
   FHidden PasswordHash $
   FCons "created_at" never c_time u_CreatedAt $
   FCons "updated_at" never c_time u_UpdatedAt $ FNil).

#[export] Instance c_User_good : GoodCodec c_User.
Proof. good_struct. Qed.

(* server/chat/domain/models.go: ChatRoom *)
Definition c_ChatRoom : codec ChatRoom := c_struct mkChatRoom
  (FCons "tenant_id" never c_string r_TenantID $
   FCons "id" never c_string r_ID $
   FCons "name" never c_string r_Name $
   FCons "room_type" never c_string RoomType $
   FCons "created_by" never c_string CreatedBy $
   FCons "created_at" never c_time r_CreatedAt $ FNil).

#[export] Instance c_ChatRoom_good : GoodCodec c_ChatRoom.
Proof. good_struct. Qed.

(* server/chat/domain/models.go: Message *)
Definition c_Message : codec Message := c_struct mkMessage
  (FCons "tenant_id" never c_string m_TenantID $
   FCons "id" never c_string m_ID $
   FCons "room_id" never c_string m_RoomID $
   FCons "sender_id" never c_string SenderID $
   FCons "body" never c_string m_Body $
   FCons "meta_json" never c_string MetaJSON $
   FCons "created_at" never c_time m_CreatedAt $ FNil).

#[export] Instance c_Message_good : GoodCodec c_Message.
Proof. good_struct. Qed.

(* server/chat/domain/models.go: MessageRead *)
Definition c_MessageRead : codec MessageRead := c_struct mkMessageRead
  (FCons "tenant_id" never c_string mr_TenantID $
   FCons "room_id" never c_string mr_RoomID $
   FCons "message_id" never c_string mr_MessageID $
   FCons "user_id" never c_string mr_UserID $
   FCons "read_at" never c_time ReadAt $ FNil).

#[export] Instance c_MessageRead_good : GoodCodec c_MessageRead.
Proof. good_struct. Qed.

(* server/chat/domain/models.go: RoomUnread *)
Definition c_RoomUnread : codec RoomUnread := c_struct mkRoomUnread
  (FCons "room_id" never c_string ru_RoomID $
   FCons "unread_count" never c_count UnreadCount $ FNil).

#[export] Instance c_RoomUnread_good : GoodCodec c_RoomUnread.
Proof. good_struct. Qed.

(* server/chat/domain/models.go: AliasAudit *)
Definition c_AliasAudit : codec AliasAudit := c_struct mkAliasAudit
  (FCons "tenant_id" never c_string aa_TenantID $
   FCons "id" never c_string aa_ID $
   FCons "user_id" never c_string aa_UserID $
   FCons "alias" never c_string aa_Alias $
   FCons "action" never c_string Action $
   FCons "acted_by" never c_string ActedBy $
   FCons "ip" never c_string IP $
   FCons "user_agent" never c_string UserAgent $
   FCons "created_at" never c_time aa_CreatedAt $ FNil).

#[export] Instance c_AliasAudit_good : GoodCodec c_AliasAudit.
Proof. good_struct. Qed.

(* server/chat/domain/models.go: ChatRoomSummary *)
Definition c_ChatRoomSummary : codec ChatRoomSummary := c_struct mkChatRoomSummary
  (FCons "room_id" never c_string crs_RoomID $
   FCons "name" never c_string crs_Name $
   FCons "room_type" never c_string crs_RoomType $
   FCons "created_by" never c_string crs_CreatedBy $
   FCons "created_at" never c_time crs_CreatedAt $
   FCons "peer_user_id" is_none (c_ptr c_string) PeerUserID $
   FCons "peer_name" is_none (c_ptr c_string) PeerName $
   FCons "peer_status" is_none (c_ptr c_string) PeerStatus $
   FCons "peer_status_note" is_none (c_ptr c_string) PeerStatusNote $
   FCons "latest_message_id" is_none (c_ptr c_string) LatestMessageID $
   FCons "latest_message_body" is_none (c_ptr c_string) LatestMessageBody $
   FCons "latest_message_kind" never c_string LatestMessageKind $
   FCons "latest_message_summary" never c_string LatestMessageSummary $
   FCons "latest_message_mention_tokens" is_nil (c_list c_string) LatestMessageMentionTokens $
   FCons "latest_message_is_mentioned" never c_bool LatestMessageIsMentioned $
   FCons "latest_message_at" is_none (c_ptr c_time) LatestMessageAt $
   FCons "latest_message_sender" is_none (c_ptr c_string) LatestMessageSender $
   FCons "unread_count" never c_count crs_UnreadCount $ FNil).

#[export] Instance c_ChatRoomSummary_good : GoodCodec c_ChatRoomSummary.
Proof. good_struct. Qed.

(* server/session/domain/types.go: DeviceSession *)
Definition c_DeviceSession : codec DeviceSession := c_struct mkDeviceSession
  (FCons "session_id" never c_string SessionID $
   FCons "tenant_id" never c_string ds_TenantID $
   FCons "user_id" never c_string ds_UserID $
   FCons "device_id" never c_string DeviceID $
   FCons "device_name" never c_string DeviceName $
   FCons "auth_token" is_empty c_string AuthToken $
   FCons "session_token" never c_string SessionToken $
   FCons "allowed_tenants" never (c_list c_string) AllowedTenants $
   FCons "last_seen_at" never c_time LastSeenAt $
   FCons "created_at" never c_time ds_CreatedAt $ FNil).

#[export] Instance c_DeviceSession_good : GoodCodec c_DeviceSession.
Proof. good_struct. Qed.

(* server/session/domain/types.go: UserStatus *)
Definition c_UserStatus : codec UserStatus := c_struct mkUserStatus
  (FCons "tenant_id" never c_string us_TenantID $
   FCons "user_id" never c_string us_UserID $
   FCons "status" never c_string Status $
   FCons "status_note" never c_string StatusNote $
   FCons "updated_at" never c_time UpdatedAt $ FNil).

#[export] Instance c_UserStatus_good : GoodCodec c_UserStatus.
Proof. good_struct. Qed.

(* server/session/domain/types.go: NoteFile *)
Definition c_NoteFile : codec NoteFile := c_struct mkNoteFile
  (FCons "file_name" never c_string FileName $
   FCons "object_key" never c_string nf_ObjectKey $
   FCons "content_type" never c_string nf_ContentType $
   FCons "size_bytes" never c_int nf_SizeBytes $ FNil).

#[export] Instance c_NoteFile_good : GoodCodec c_NoteFile.
Proof. good_struct. Qed.

(* server/session/domain/types.go: NoteCreateInput *)
Definition c_NoteCreateInput : codec NoteCreateInput := c_struct mkNoteCreateInput
  (FCons "title" never c_string ni_Title $
   FCons "body" never c_string ni_Body $
   FCons "to" never (c_list c_string) To $
   FCons "cc" never (c_list c_string) CC $
   FCons "bcc" never (c_list c_string) BCC $
   FCons "files" never (c_list c_NoteFile) ni_Files $ FNil).

#[export] Instance c_NoteCreateInput_good : GoodCodec c_NoteCreateInput.
Proof. good_struct. Qed.

(* server/session/domain/types.go: NoteRecipient *)
Definition c_NoteRecipient : codec NoteRecipient := c_struct mkNoteRecipient
  (FCons "user_id" never c_string nr_UserID $
   FCons "type" never c_string nr_Type $ FNil).

#[export] Instance c_NoteRecipient_good : GoodCodec c_NoteRecipient.
Proof. good_struct. Qed.

(* server/session/domain/types.go: Note *)
Definition c_Note : codec Note := c_struct mkNote
  (FCons "note_id" never c_string NoteID $
   FCons "tenant_id" never c_string n_TenantID $
   FCons "sender_user_id" never c_string SenderUserID $
   FCons "title" never c_string Title $
   FCons "body" never c_string Body $
   FCons "recipients" never (c_list c_NoteRecipient) Recipients $
   FCons "files" never (c_list c_NoteFile) Files $
   FCons "created_at" never c_time n_CreatedAt $ FNil).

#[export] Instance c_Note_good : GoodCodec c_Note.
Proof. good_struct. Qed.

(* server/session/domain/types.go: NoteInboxItem *)
Definition c_NoteInboxItem : codec NoteInboxItem := c_struct mkNoteInboxItem
  (FCons "note_id" never c_string ii_NoteID $
   FCons "sender_user_id" never c_string ii_SenderUserID $
   FCons "recipient_type" never c_string RecipientType $
   FCons "title" never c_string ii_Title $
   FCons "body" never c_string ii_Body $
   FCons "file_count" never c_count FileCount $
   FCons "is_read" never c_bool IsRead $
   FCons "created_at" never c_time ii_CreatedAt $ FNil).

#[export] Instance c_NoteInboxItem_good : GoodCodec c_NoteInboxItem.
Proof. good_struct. Qed.

(* server/session/domain/types.go: ChatNotifyInput *)
Definition c_ChatNotifyInput : codec ChatNotifyInput := c_struct mkChatNotifyInput
  (FCons "room_id" never c_string cn_RoomID $
   FCons "message_id" never c_string MessageID $
   FCons "title" never c_string cn_Title $
   FCons "body" never c_string cn_Body $
   FCons "recipient_ids" never (c_list c_string) RecipientIDs $ FNil).

#[export] Instance c_ChatNotifyInput_good : GoodCodec c_ChatNotifyInput.
Proof. good_struct. Qed.

(* server/dbman/domain/models.go: FileObject *)
Definition c_FileObject : codec FileObject := c_struct mkFileObject
  (FCons "tenant_id" never c_string fo_TenantID $
   FCons "id" never c_string fo_ID $
   FCons "room_id" never c_string fo_RoomID $
   FCons "uploader_id" never c_string UploaderID $
   FCons "object_key" never c_string fo_ObjectKey $
   FCons "content_type" never c_string fo_ContentType $
   FCons "size_bytes" never c_int fo_SizeBytes $
   FCons "thumbnail_key" never c_string ThumbnailKey $
   FCons "original_name" never c_string OriginalName $
   FCons "created_at" never c_time fo_CreatedAt $ FNil).

#[export] Instance c_FileObject_good : GoodCodec c_FileObject.
Proof. good_struct. Qed.

(** * Property *)

(** A value marshalled by one service and unmarshalled by another. *)
Definition over_the_wire {A} (c : codec A) (a : A) : option A := v ← parse_json (marshal_json (enc c a)); dec c (zero c) v.

Lemma good_over_the_wire {A} (c : codec A) `{!GoodCodec c} a : enc_ok c a = true → over_the_wire c a = Some a.
Proof. intros Ha. unfold over_the_wire. rewrite parse_marshal by by apply enc_wf. cbn. by apply dec_enc. Qed.

(** The user that arrives when a user is sent. *)
Definition without_password (u : User) : User :=
  mkUser (u_TenantID u) (u_ID u) (OrgID u) (Email u) (u_Name u) (u_Title u) (u_Role u) (u_Status u) (u_StatusNote u) ""
    (u_CreatedAt u) (u_UpdatedAt u).

(** C39: What one service writes, the other reads.  A value of any of the types that travel between the
    services, marshalled to JSON text and unmarshalled, is the value it was (a nil slice and an empty one are the
    same): whenever its strings are UTF-8, its integers fit 64 bits and its times are in UTC with a year from 0
    to 9999.  A user, whatever the password hash, arrives as the same user with an empty one, under these conditions on
    the other fields. *)
Theorem structs_over_the_wire :
  (∀ x, enc_ok c_Tenant x = true → over_the_wire c_Tenant x = Some x)
  ∧ (∀ x, enc_ok c_OrgUnit x = true → over_the_wire c_OrgUnit x = Some x)
  ∧ (∀ x, enc_ok c_ChatRoom x = true → over_the_wire c_ChatRoom x = Some x)
  ∧ (∀ x, enc_ok c_Message x = true → over_the_wire c_Message x = Some x)
  ∧ (∀ x, enc_ok c_MessageRead x = true → over_the_wire c_MessageRead x = Some x)
  ∧ (∀ x, enc_ok c_RoomUnread x = true → over_the_wire c_RoomUnread x = Some x)
  ∧ (∀ x, enc_ok c_AliasAudit x = true → over_the_wire c_AliasAudit x = Some x)
  ∧ (∀ x, enc_ok c_ChatRoomSummary x = true → over_the_wire c_ChatRoomSummary x = Some x)
  ∧ (∀ x, enc_ok c_DeviceSession x = true → over_the_wire c_DeviceSession x = Some x)
  ∧ (∀ x, enc_ok c_UserStatus x = true → over_the_wire c_UserStatus x = Some x)
  ∧ (∀ x, enc_ok c_NoteFile x = true → over_the_wire c_NoteFile x = Some x)
  ∧ (∀ x, enc_ok c_NoteCreateInput x = true → over_the_wire c_NoteCreateInput x = Some x)
  ∧ (∀ x, enc_ok c_NoteRecipient x = true → over_the_wire c_NoteRecipient x = Some x)
  ∧ (∀ x, enc_ok c_Note x = true → over_the_wire c_Note x = Some x)
  ∧ (∀ x, enc_ok c_NoteInboxItem x = true → over_the_wire c_NoteInboxItem x = Some x)
  ∧ (∀ x, enc_ok c_ChatNotifyInput x = true → over_the_wire c_ChatNotifyInput x = Some x)
  ∧ (∀ x, enc_ok c_FileObject x = true → over_the_wire c_FileObject x = Some x)
  ∧ (∀ x, enc_ok c_User (without_password x) = true → over_the_wire c_User x = Some (without_password x)).
Proof.
  split_and!; intros x Hx; [apply good_over_the_wire; [apply _|exact Hx]..|].
  change (over_the_wire c_User x) with (over_the_wire c_User (without_password x)). by apply good_over_the_wire; [apply _|].
Qed.

(** In the witness a user with a password hash is sent. *)
Lemma structs_over_the_wire_witness :
  over_the_wire c_User (mkUser "a" "u1" "o" "u@x" "1 < 2" "" "user" "" "" "$2a$10$x" 1500000000 1500000000)
  = Some (mkUser "a" "u1" "o" "u@x" "1 < 2" "" "user" "" "" "" 1500000000 1500000000).
Proof. apply structs_over_the_wire. vm_compute. reflexivity. Defined.
