(* ===== verification/Gin.v ===== *)
(** * Requests and responses of the HTTP handlers

    What the gin handlers of the services share: binding a JSON body to a request struct,
    answering with a value or with an error, the values of the context, the query and the path.
    A handler is a step of the service's state that yields a response.

    [ShouldBindJSON] decodes the first JSON value of the body and then checks the binding tags:
    a required field must not be the zero of its type.  The text of its errors is gin's and a
    parameter, and so is whether required applies to a struct (the validator's
    WithRequiredStructEnabled). *)

From S2P Require Import Prelude GoStrings GoEncoding Cursor Env Auth SessionStore Paging ChatStore GoJson GoTime.
From S2P Require Import JsonText Users Tenants FileStore Wire.

Class Gin := {
  bind_error : string → string;
  required_struct : bool;
}.

Definition handler (S : Type) : Type := S → S * response json.

(** ** Bodies of responses *)

(* server/common/transport/httpresp/response.go: NewErrorResponse *)
Definition NewErrorResponse (message : string) : json := JObj [("error", JStr message)].
(* server/common/transport/httpresp/response.go: NewOKResponse *)
Definition NewOKResponse : json := JObj [("ok", JBool true)].
(* server/common/transport/httpresp/response.go: NewIDResponse *)
Definition NewIDResponse (id : string) : json := JObj [("id", JStr id)].
(* server/common/transport/httpresp/response.go: NewURLResponse *)
Definition NewURLResponse (url : string) : json := JObj [("url", JStr url)].
(* server/common/transport/httpresp/response.go: NewTokenResponse *)
Definition NewTokenResponse (accessToken userID tenantID role : string) : json :=
  JObj [("access_token", JStr accessToken); ("user_id", JStr userID); ("tenant_id", JStr tenantID); ("role", JStr role)].

(** The text on the wire. *)
Definition body_of (r : response json) : string :=
  marshal_json (match r with RError _ message => NewErrorResponse message | RJson _ v => v end).

(** ** Binding *)

Section binding.
Context `{Gin}.

Definition ShouldBindJSON {R} (bind : json → option R) (body : string) : result R :=
  match parse_json body with
  | None => Err (bind_error body)
  | Some v => match bind v with None => Err (bind_error body) | Some r => Ok r end
  end.

(** A field without a tag, a required one, and a required struct. *)
Definition optional {A} (c : codec A) (ws : list json) : option A := dec_field c (zero c) ws.

Definition required {A} `{EqDecision A} (c : codec A) (ws : list json) : option A :=
  a ← dec_field c (zero c) ws; if decide (a = zero c) then None else Some a.

Definition required_value {A} `{EqDecision A} (c : codec A) (ws : list json) : option A :=
  a ← dec_field c (zero c) ws; if required_struct && bool_decide (a = zero c) then None else Some a.

(** The prelude of most handlers: a body that does not bind is answered with 400. *)
Definition with_body {S R} (bind : json → option R) (body : string) (k : R → handler S) : handler S := λ s,
  match ShouldBindJSON bind body with
  | Err e => (s, RError 400 e)
  | Ok r => k r s
  end.

(** The end of most handlers: the value with [ok], or the error with [failed]. *)
Definition answer {S A} (ok failed : Z) (enc : A → json) (m : M S A) : handler S := λ s,
  match m s with
  | (s', Ok a) => (s', RJson ok (enc a))
  | (s', Err e) => (s', RError failed e)
  end.
End binding.

Definition refuse {S} (status : Z) (message : string) : handler S := λ s, (s, RError status message).

#[export] Instance ChatRoom_eq_dec : EqDecision ChatRoom.
Proof. solve_decision. Defined.
#[export] Instance User_eq_dec : EqDecision User.
Proof. solve_decision. Defined.
#[export] Instance ChatNotifyInput_eq_dec : EqDecision ChatNotifyInput.
Proof. solve_decision. Defined.

(** ** Requests *)

(** The body, the path parameters, the query (nil when the key is missing), the client's address
    and agent, and the context the middlewares filled. *)
Record Request := mkRequest {
  rq_body : string;
  rq_param : string → string;
  rq_query : string → option string;
  rq_ip : string;
  rq_agent : string;
  rq_ctx : Ctx;
}.

(** [c.Query], [c.DefaultQuery] and [c.Param] *)
Definition Query (rq : Request) (k : string) : string := default "" (rq_query rq k).
Definition DefaultQuery (rq : Request) (k fallback : string) : string := default fallback (rq_query rq k).
Definition Param (rq : Request) (k : string) : string := rq_param rq k.

(** [limit, _ := strconv.Atoi(c.DefaultQuery("limit", fallback))] *)
Definition query_limit (rq : Request) (fallback : string) : Z := (Atoi (DefaultQuery rq "limit" fallback)).1.

(** A value of the context that must be there and be a string. *)
Definition ctx_string (c : Ctx) (k : string) : option string :=
  match keys c !! k with Some (AnyString s) => Some s | _ => None end.

Definition with_ctx (c : Ctx) (rq : Request) : Request :=
  mkRequest (rq_body rq) (rq_param rq) (rq_query rq) (rq_ip rq) (rq_agent rq) c.

(** A handler behind middlewares. *)
Fixpoint guarded {S} (mws : list (Ctx → outcome_mw)) (h : Request → handler S) (rq : Request) : handler S :=
  match mws with
  | [] => h rq
  | mw :: rest =>
      match mw (rq_ctx rq) with
      | AbortWith status message => refuse status message
      | Next c => guarded rest h (with_ctx c rq)
      end
  end.

(** The handler of the health route of a service, in no group and behind no middleware. *)
Definition health {S} (_ : Request) : handler S := λ s, (s, RJson 200 (JObj [("status", JStr "ok")])).

Fixpoint find_route {A} (path : string) (routes : list (string * A)) : option A :=
  match routes with
  | [] => None
  | (p, h) :: rest => if decide (p = path) then Some h else find_route path rest
  end.

(** * Lemmas *)

Lemma find_route_in {A} path (routes : list (string * A)) h : find_route path routes = Some h → h ∈ routes.*2.
Proof.
  induction routes as [|[p h'] rest IH]; cbn; [done|]. case_decide; [intros [= <-]; by left|].
  intros Hf. right. by apply IH.
Qed.

(** The context behind AuthRequired. *)
Lemma auth_next_context parse c c' :
  AuthRequired parse c = Next c' →
  ∃ token u t role, headers c "Authorization" = "Bearer " +:+ token ∧ parse token = Ok (u, t, role)
    ∧ ctx_string c' "auth_tenant_id" = Some t ∧ ctx_string c' "auth_user_id" = Some u ∧ ctx_string c' "auth_role" = Some role.
Proof.
  unfold AuthRequired. destruct (HasPrefix _ _) eqn:Hp; [|done]. cbn [negb].
  apply HasPrefix_true in Hp as [token Htok]. rewrite Htok, TrimPrefix_app.
  destruct (parse token) as [[[u t] role]|e] eqn:E; [|done]. intros [= <-].
  exists token, u, t, role. unfold ctx_string. cbn. by simplify_map_eq.
Qed.

Lemma find_route_none {A} path (l : list (string * A)) : find_route path l = None → path ∉ l.*1.
Proof.
  induction l as [|[p h] l IH]; cbn; [intros _ Hp; by apply elem_of_nil in Hp|]. case_decide as Hp; [done|].
  intros Hn. rewrite elem_of_cons. intros [->|Hin]; [done|]. by apply IH in Hin.
Qed.

Lemma find_route_app_l {A} path (l1 l2 : list (string * A)) h :
  find_route path l1 = Some h → find_route path (l1 ++ l2) = Some h.
Proof. induction l1 as [|[p h'] l1 IH]; cbn; [done|]. case_decide; [done|apply IH]. Qed.

Lemma find_route_app_r {A} path (l1 l2 : list (string * A)) :
  find_route path l1 = None → find_route path (l1 ++ l2) = find_route path l2.
Proof. induction l1 as [|[p h'] l1 IH]; cbn; [done|]. case_decide; [done|apply IH]. Qed.

Lemma Atoi_int64 s : is_int64 (Atoi s).1.
Proof. apply ParseInt_range. Qed.

Section answer_lemmas.
Context `{Gin} {S : Type}.

Lemma answer_status {A} ok failed (enc : A → json) (m : M S A) s :
  status_of (answer ok failed enc m s).2 = ok ∨ status_of (answer ok failed enc m s).2 = failed.
Proof. unfold answer. destruct (m s) as [s' [a|e]]; auto. Qed.

Lemma with_body_Ok {R} (bind : json → option R) body (k : R → handler S) r s :
  ShouldBindJSON bind body = Ok r → with_body bind body k s = k r s.
Proof. unfold with_body. by intros ->. Qed.
End answer_lemmas.
