(* ===== verification/Binding.v ===== *)
(** * Binding what was sent

    When the JSON text of an object is bound to a request struct: each field gets the one value its
    key has, and required fields that are there pass. *)

From S2P Require Import Prelude GoStrings GoEncoding Cursor Env Auth SessionStore Paging ChatStore GoJson GoTime.
From S2P Require Import JsonText Users Tenants FileStore Wire Gin.

Fixpoint assoc (k : string) (ms : list (string * json)) : list json :=
  match ms with
  | [] => []
  | (k', w) :: rest => if String.eqb k' k then [w] else assoc k rest
  end.

Definition keys_ok (names : list string) (ks : list string) : bool :=
  bool_decide (NoDup ks) && forallb (λ k, bool_decide (k ∈ names)) ks.

Lemma assoc_not_in k ms : k ∉ ms.*1 → assoc k ms = [].
Proof.
  induction ms as [|[k' w] ms IH]; [done|]. cbn [fmap list_fmap fst assoc]. rewrite not_elem_of_cons. intros [Hne Hin].
  destruct (String.eqb_spec k' k) as [->|]; [done|]. by apply IH.
Qed.

Lemma members_of_assoc names ms k : keys_ok names ms.*1 = true → members_of names ms k = assoc k ms.
Proof.
  unfold keys_ok. rewrite andb_true_iff. intros [Hd%bool_decide_eq_true Hn].
  induction ms as [|[k' w] ms IH]; [done|]. cbn [fmap list_fmap fst forallb] in *.
  apply andb_true_iff in Hn as [Hk Hn]. apply bool_decide_eq_true in Hk. apply NoDup_cons in Hd as [Hnew Hd].
  unfold members_of in *. cbn [omap list_omap assoc]. rewrite field_name_in by done.
  destruct (String.eqb_spec k' k) as [->|Hne].
  - rewrite decide_True by done. rewrite IH by done. by rewrite assoc_not_in.
  - rewrite decide_False by congruence. by apply IH.
Qed.

Section bind_lemmas.
Context {A : Type} (c : codec A) `{!GoodCodec c}.

Lemma optional_enc a : enc_ok c a = true → optional c [enc c a] = Some a.
Proof. apply dec_enc. Qed.

Lemma required_enc `{EqDecision A} a : enc_ok c a = true → a ≠ zero c → required c [enc c a] = Some a.
Proof. intros Ha Hz. unfold required, dec_field. cbn. rewrite dec_enc by done. cbn. by rewrite decide_False. Qed.

Lemma required_value_enc `{Gin} `{EqDecision A} a :
  enc_ok c a = true → a ≠ zero c → required_value c [enc c a] = Some a.
Proof.
  intros Ha Hz. unfold required_value, dec_field. cbn. rewrite dec_enc by done. cbn.
  by rewrite bool_decide_eq_false_2, andb_false_r.
Qed.
End bind_lemmas.

Lemma wf_obj ms : Forall (λ f, utf8 f.1 = true ∧ wf_json f.2 = true) ms → wf_json (JObj ms) = true.
Proof.
  intros Hms. cbn [wf_json]. apply forallb_forall. intros [k w] Hin. rewrite andb_true_iff.
  rewrite Forall_forall in Hms. apply (Hms (k, w)). by apply list_elem_of_In.
Qed.

Lemma bind_marshal `{Gin} {T} (bind : json → option T) v r :
  wf_json v = true → bind v = Some r → ShouldBindJSON bind (marshal_json v) = Ok r.
Proof. intros Hw Hb. unfold ShouldBindJSON. by rewrite parse_marshal, Hb. Qed.

(** A text that is there. *)
Definition given (s : string) : bool := negb (is_empty s) && utf8 s.

Lemma given_spec s : given s = true → s ≠ "" ∧ utf8 s = true.
Proof. unfold given, is_empty. rewrite andb_true_iff, negb_true_iff. intros [Hs%bool_decide_eq_false Hu]. done. Qed.

Lemma required_given s : given s = true → required c_string [JStr s] = Some s.
Proof. intros [Hs Hu]%given_spec. by apply (required_enc c_string). Qed.

Lemma given_ne s : given s = true → s ≠ "".
Proof. by intros [Hs _]%given_spec. Qed.

