(* ===== verification/SessionHub.v ===== *)
(** * The session hub: WebSocket fan-out

    server/session/service/hub.go.  A hub maps "tenant:user" to that user's sessions on this
    node, and hands events to the other nodes through a Redis channel, or delivers locally when
    Redis is missing or fails.  The inner maps are Go maps shared by reference, so the model
    keeps them in a store and [clients] holds references: a notification reads its reference
    under the lock and iterates over the map after releasing it.

    Payloads are the JSON values they are written as, and events travel as the text of a [hubEvent]; publishing on
    Redis is a parameter.  [sent] is the trace of frames handed to the connections; a write
    that fails, whose error the code ignores, is in [SocketWriters]. *)

From S2P Require Import Prelude GoStrings GoEncoding Cursor Env SessionStore Paging ChatStore GoJson GoTime JsonText.
From S2P Require Import Users Tenants FileStore Wire GoFloat.

(** ** State *)

(** [Conn] is the identity of the socket. *)
(* server/session/service/hub.go: WSClient *)
Record WSClient := mkWSClient {
  ws_TenantID : string;
  ws_UserID : string;
  ws_SessionID : string;
  ws_Conn : nat;
}.

#[export] Instance WSClient_eq_dec : EqDecision WSClient.
Proof. solve_decision. Defined.

(* server/session/service/hub.go: hubEvent *)
Record hubEvent := mkHubEvent {
  Kind : string;
  TenantID : string;
  UserID : string;
  UserIDs : list string;
  Payload : string;
  PayloadBy : gmap string string;
}.

(* server/session/service/hub.go: Hub *)
Record Hub := mkHub {
  clients : gmap string nat;
  maps : gmap nat (gmap string WSClient);
  fresh_map : nat;
  closed_conns : list nat;
  sent : list (nat * json);
}.

(* server/session/service/hub.go: NewHub *)
Definition NewHub : Hub := mkHub ∅ ∅ 0 [] [].

(* server/session/service/hub.go: userKey *)
Definition userKey (tenantID userID : string) : string := tenantID +:+ ":" +:+ userID.

Definition client_key (c : WSClient) : string := userKey (ws_TenantID c) (ws_UserID c).

(** The sessions under a key; a missing key reads as an empty (nil) map. *)
Definition sessions_of (h : Hub) (key : string) : gmap string WSClient :=
  default ∅ (clients h !! key ≫= λ ref, maps h !! ref).

(** ** Registration, under the lock *)

(* server/session/service/hub.go: Register *)
Definition Register (client : WSClient) (h : Hub) : Hub :=
  let key := client_key client in
  let '(h, ref) :=
    match clients h !! key with
    | Some ref => (h, ref)
    | None =>
        let ref := fresh_map h in
        (mkHub (<[key := ref]> (clients h)) (<[ref := ∅]> (maps h)) (S ref)
           (closed_conns h) (sent h), ref)
    end in
  mkHub (clients h)
    (alter (λ m, <[ws_SessionID client := client]> m) ref (maps h))
    (fresh_map h) (closed_conns h) (sent h).

(* server/session/service/hub.go: Unregister *)
Definition Unregister (client : WSClient) (h : Hub) : Hub :=
  let key := client_key client in
  let h :=
    match clients h !! key with
    | None => h
    | Some ref =>
        let ms := alter (delete (ws_SessionID client)) ref (maps h) in
        let cl := if decide (default ∅ (ms !! ref) = ∅) then delete key (clients h) else clients h in
        mkHub cl ms (fresh_map h) (closed_conns h) (sent h)
    end in
  mkHub (clients h) (maps h) (fresh_map h) (ws_Conn client :: closed_conns h) (sent h).

(** ** Local delivery *)

(* server/session/service/hub.go: WriteJSON *)
Definition WriteJSON (payload : json) (client : WSClient) (h : Hub) : Hub :=
  mkHub (clients h) (maps h) (fresh_map h) (closed_conns h) (sent h ++ [(ws_Conn client, payload)]).

Definition write_all (payload : json) (cs : list WSClient) (h : Hub) : Hub :=
  foldl (λ h c, WriteJSON payload c h) h cs.

(** The map is iterated in some order; the model takes that of [map_to_list]. *)
Definition members (m : gmap string WSClient) : list WSClient := snd <$> map_to_list m.

(* server/session/service/hub.go: notifyUserLocal *)
Definition notifyUserLocal (tenantID userID : string) (payload : json) (h : Hub) : Hub * nat :=
  let sessions := sessions_of h (userKey tenantID userID) in
  (write_all payload (members sessions) h, length (members sessions)).

(** The sessions of the keys that start with the tenant's prefix. *)
Definition tenant_clients (tenantID : string) (h : Hub) : list WSClient :=
  let prefix := tenantID +:+ ":" in
  map_to_list (clients h) ≫= λ '(key, _),
    if HasPrefix key prefix then members (sessions_of h key) else [].

(* server/session/service/hub.go: broadcastTenantLocal *)
Definition broadcastTenantLocal (tenantID : string) (payload : json) (h : Hub) : Hub * nat :=
  (write_all payload (tenant_clients tenantID h) h, length (tenant_clients tenantID h)).

(* server/session/service/hub.go: tenantSessionCount *)
Definition tenantSessionCount (tenantID : string) (h : Hub) : nat :=
  length (tenant_clients tenantID h).

(** ** The text of an event *)

(** What is written to a socket and what the channel carries are texts of the same JSON. *)
Definition marshal (payload : json) : result string := Ok (marshal_json payload).

(** Into an [any]: the members of objects are sorted and the last of each name is kept. *)
Definition unmarshal (raw : string) : result json :=
  match parse_whole raw with
  | Some v => if any_ok v then Ok (any_of_json v) else Err "json: cannot unmarshal number"
  | None => Err "json: invalid text"
  end.

(** A [json.RawMessage]: a text that is kept as it is. *)
Definition c_RawMessage : codec string :=
  mkCodec "" (λ raw, default JNull (parse_whole raw)) (λ _ v, Some (marshal_json v))
    (λ raw, match parse_whole raw with Some v => wf_json v && bool_decide (marshal_json v = raw) | None => false end).

(** A map[string]string: the members sorted by key; a text adds its members to the map that was there. *)
Definition c_string_map : codec (gmap string string) :=
  mkCodec ∅ (λ m, JObj ((λ '(k, v), (k, JStr v)) <$> merge_sort by_key (map_to_list m)))
    (λ old v, match v with
              | JNull => Some ∅
              | JObj ms => foldl (λ acc '(k, w), m ← acc; s ← decode_string "" w; Some (<[k := s]> m)) (Some old) ms
              | _ => None
              end)
    (λ m, forallb (λ '(k, v), utf8 k && utf8 v) (map_to_list m)).

Definition no_entries (m : gmap string string) : bool := bool_decide (m = ∅).

(* server/session/service/hub.go: hubEvent *)
Definition c_hubEvent : codec hubEvent := c_struct mkHubEvent
  (FCons "kind" never c_string Kind $
   FCons "tenant_id" never c_string TenantID $
   FCons "user_id" is_empty c_string UserID $
   FCons "user_ids" is_nil (c_list c_string) UserIDs $
   FCons "payload" is_empty c_RawMessage Payload $
   FCons "payload_by" no_entries c_string_map PayloadBy $ FNil).

Definition marshal_event (ev : hubEvent) : result string :=
  if decide (Payload ev ≠ "" ∧ parse_whole (Payload ev) = None)
  then Err "json: error calling MarshalJSON for type json.RawMessage"
  else Ok (marshal_json (enc c_hubEvent ev)).

Definition unmarshal_event (text : string) : result hubEvent :=
  match parse_whole text ≫= dec c_hubEvent (zero c_hubEvent) with
  | Some ev => Ok ev
  | None => Err "json: cannot unmarshal"
  end.

(** ** Publication

    [redis]: no client, or what publishing an encoded event on the channel answers. *)
Section publication.
Variable redis : option (string → result unit).

(** [None]: not published; [Some b]: [b] went out on the channel. *)
Definition publish_event (ev : hubEvent) : option string :=
  match redis with
  | None => None
  | Some publish =>
      match marshal_event ev with
      | Err _ => None
      | Ok b => match publish b with Err _ => None | Ok _ => Some b end
      end
  end.

(* server/session/service/hub.go: publishNotifyUser *)
Definition publishNotifyUser (tenantID userID : string) (payload : json) : option string :=
  match redis with
  | None => None
  | Some _ =>
      match marshal payload with
      | Err _ => None
      | Ok raw => publish_event (mkHubEvent "notify_user" tenantID userID [] raw ∅)
      end
  end.

(** The loop of [publishNotifyUsers]: the distinct users and their payloads. *)
Fixpoint payloads_by (builder : string → json) (seen userIDs : list string)
    (payloadBy : gmap string string) : option (list string * gmap string string) :=
  match userIDs with
  | [] => Some ([], payloadBy)
  | userID :: rest =>
      if decide (userID ∈ seen) then payloads_by builder seen rest payloadBy
      else
        match marshal (builder userID) with
        | Err _ => None
        | Ok raw =>
            match payloads_by builder (userID :: seen) rest (<[userID := raw]> payloadBy) with
            | None => None
            | Some (unique, by_) => Some (userID :: unique, by_)
            end
        end
  end.

(* server/session/service/hub.go: publishNotifyUsers *)
Definition publishNotifyUsers (tenantID : string) (userIDs : list string) (builder : string → json) :
    option string :=
  match redis with
  | None => None
  | Some _ =>
      match payloads_by builder [] userIDs ∅ with
      | None => None
      | Some (unique, by_) => publish_event (mkHubEvent "notify_users" tenantID "" unique "" by_)
      end
  end.

(* server/session/service/hub.go: publishBroadcastTenant *)
Definition publishBroadcastTenant (tenantID : string) (payload : json) : option string :=
  match redis with
  | None => None
  | Some _ =>
      match marshal payload with
      | Err _ => None
      | Ok raw => publish_event (mkHubEvent "broadcast_tenant" tenantID "" [] raw ∅)
      end
  end.

(** ** The three entry points

    Each returns the hub and the message it put on the channel, if any. *)

(* server/session/service/hub.go: NotifyUser *)
Definition NotifyUser (tenantID userID : string) (payload : json) (h : Hub) : Hub * option string :=
  match publishNotifyUser tenantID userID payload with
  | Some b => (h, Some b)
  | None => ((notifyUserLocal tenantID userID payload h).1, None)
  end.

(* server/session/service/hub.go: NotifyUsers *)
Definition NotifyUsers (tenantID : string) (userIDs : list string) (builder : string → json) (h : Hub) :
    Hub * option string :=
  match publishNotifyUsers tenantID userIDs builder with
  | Some b => (h, Some b)
  | None =>
      (foldl (λ h userID, (notifyUserLocal tenantID userID (builder userID) h).1) h userIDs, None)
  end.

(* server/session/service/hub.go: BroadcastTenant *)
Definition BroadcastTenant (tenantID : string) (payload : json) (h : Hub) : Hub * option string :=
  match publishBroadcastTenant tenantID payload with
  | Some b => (h, Some b)
  | None => ((broadcastTenantLocal tenantID payload h).1, None)
  end.

(** ** The subscriber *)

(** One message of the channel. *)
(* server/session/service/hub.go: consumeEvents *)
Definition consume (msg : string) (h : Hub) : Hub :=
  match unmarshal_event msg with
  | Err _ => h
  | Ok event =>
      if decide (Kind event = "notify_user") then
        if decide (Payload event = "") then h
        else match unmarshal (Payload event) with
             | Err _ => h
             | Ok payload => (notifyUserLocal (TenantID event) (UserID event) payload h).1
             end
      else if decide (Kind event = "notify_users") then
        foldl (λ h userID,
          match PayloadBy event !! userID with
          | None => h
          | Some raw =>
              match unmarshal raw with
              | Err _ => h
              | Ok payload => (notifyUserLocal (TenantID event) userID payload h).1
              end
          end) h (UserIDs event)
      else if decide (Kind event = "broadcast_tenant") then
        if decide (Payload event = "") then h
        else match unmarshal (Payload event) with
             | Err _ => h
             | Ok payload => (broadcastTenantLocal (TenantID event) payload h).1
             end
      else h
  end.

(** ** Interleavings

    A notification in flight holds a reference to an inner map, or nothing (nil). *)
Record HubSys := mkHubSys { hub_state : Hub; iterating : gmap nat (option nat) }.

(** The inner map a registration or an unregistration writes to. *)
Definition writes_to (c : WSClient) (h : Hub) : option nat := clients h !! client_key c.

Inductive hub_step : HubSys → HubSys → Prop :=
| hub_register h it c : hub_step (mkHubSys h it) (mkHubSys (Register c h) it)
| hub_unregister h it c : hub_step (mkHubSys h it) (mkHubSys (Unregister c h) it)
| hub_lookup h it i tenantID userID :
    it !! i = None →
    hub_step (mkHubSys h it) (mkHubSys h (<[i := clients h !! userKey tenantID userID]> it))
| hub_iterated h it i : hub_step (mkHubSys h it) (mkHubSys h (delete i it)).

(** A Go map that one goroutine iterates over while another may write to it. *)
Definition map_race (s : HubSys) (c : WSClient) : Prop :=
  ∃ i ref, iterating s !! i = Some (Some ref) ∧ writes_to c (hub_state s) = Some ref.

(** ** Histories *)
Inductive hub_op := DoRegister (c : WSClient) | DoUnregister (c : WSClient).

Definition run_hub_op (h : Hub) (o : hub_op) : Hub :=
  match o with DoRegister c => Register c h | DoUnregister c => Unregister c h end.

Definition run_hub (ops : list hub_op) : Hub := foldl run_hub_op NewHub ops.

(** The abstract contract: a table from (key, session id) to the connection registered last. *)
Definition table_op (t : gmap (string * string) WSClient) (o : hub_op) :
    gmap (string * string) WSClient :=
  match o with
  | DoRegister c => <[(client_key c, ws_SessionID c) := c]> t
  | DoUnregister c => delete (client_key c, ws_SessionID c) t
  end.

Definition table (ops : list hub_op) : gmap (string * string) WSClient := foldl table_op ∅ ops.

(** Keys and session ids agree with the clients stored under them, no key has an empty map, and
    no two keys share a map. *)
Record hub_inv (h : Hub) : Prop := mkHubInv {
  hi_ref : ∀ key ref, clients h !! key = Some ref →
             ref < fresh_map h ∧ ∃ m, maps h !! ref = Some m ∧ m ≠ ∅;
  hi_inj : ∀ k1 k2 ref, clients h !! k1 = Some ref → clients h !! k2 = Some ref → k1 = k2;
  hi_key : ∀ key sid c, sessions_of h key !! sid = Some c → key = client_key c ∧ sid = ws_SessionID c;
}.
End publication.

(** * Lemmas *)

Section hub_lemmas.
Implicit Types (h : Hub) (c : WSClient).

Lemma userKey_client c : client_key c = ws_TenantID c +:+ ":" +:+ ws_UserID c.
Proof. reflexivity. Qed.

Lemma sessions_of_lookup h key ref m :
  clients h !! key = Some ref → maps h !! ref = Some m → sessions_of h key = m.
Proof. unfold sessions_of. intros -> Hm. cbn. by rewrite Hm. Qed.

Lemma sessions_of_None h key : clients h !! key = None → sessions_of h key = ∅.
Proof. unfold sessions_of. by intros ->. Qed.

Lemma NewHub_inv : hub_inv (NewHub ).
Proof.
  split; cbn; intros *; rewrite ?lookup_empty; try done.
Qed.

(** The two shapes of a registration. *)
Lemma Register_maps c h :
  hub_inv h →
  ∃ ref, clients (Register c h) = <[client_key c := ref]> (clients h)
    ∧ maps (Register c h)
      = <[ref := <[ws_SessionID c := c]> (sessions_of h (client_key c))]> (maps h)
    ∧ fresh_map h ≤ fresh_map (Register c h) ∧ ref < fresh_map (Register c h)
    ∧ (clients h !! client_key c = Some ref ∨ ref = fresh_map h).
Proof.
  intros Hinv. unfold Register. destruct (clients h !! client_key c) as [ref|] eqn:E.
  - destruct (hi_ref h Hinv _ _ E) as (Hlt & m & Hm & _). exists ref.
    rewrite (sessions_of_lookup _ _ _ _ E Hm). cbn.
    split; [by rewrite insert_id|]. split; [|split; [done|split; [done|by left]]].
    apply map_eq. intros j. destruct (decide (j = ref)) as [->|Hne].
    + by rewrite lookup_alter_eq, Hm, lookup_insert_eq.
    + by rewrite lookup_alter_ne, lookup_insert_ne.
  - exists (fresh_map h). rewrite (sessions_of_None _ _ E). cbn.
    split; [done|]. split; [|split; [lia|split; [lia|by right]]].
    apply map_eq. intros j. destruct (decide (j = fresh_map h)) as [->|Hne].
    + by rewrite lookup_alter_eq, !lookup_insert_eq.
    + by rewrite lookup_alter_ne, !lookup_insert_ne.
Qed.

Lemma ref_not_reused h c ref key ref' :
  hub_inv h → clients h !! client_key c = Some ref ∨ ref = fresh_map h →
  key ≠ client_key c → clients h !! key = Some ref' → ref' ≠ ref.
Proof.
  intros Hinv Href Hne Hk ->. destruct Href as [Href| ->].
  - by apply Hne, (hi_inj h Hinv _ _ ref).
  - apply (hi_ref h Hinv) in Hk as [Hlt _]. lia.
Qed.

Lemma sessions_of_Register c h key :
  hub_inv h →
  sessions_of (Register c h) key =
    if decide (key = client_key c) then <[ws_SessionID c := c]> (sessions_of h key)
    else sessions_of h key.
Proof.
  intros Hinv. destruct (Register_maps c h Hinv) as (ref & Hcl & Hms & _ & _ & Href).
  unfold sessions_of at 1. rewrite Hcl, Hms. case_decide as Hk.
  - subst. rewrite lookup_insert_eq. cbn. by rewrite lookup_insert_eq.
  - rewrite lookup_insert_ne by done. unfold sessions_of.
    destruct (clients h !! key) as [ref'|] eqn:E; [|done]. cbn.
    rewrite lookup_insert_ne; [done|]. symmetry. by eapply ref_not_reused.
Qed.

Lemma Register_inv c h : hub_inv h → hub_inv (Register c h).
Proof.
  intros Hinv. destruct (Register_maps c h Hinv) as (ref & Hcl & Hms & Hf & Hr & Href).
  split.
  - intros key r. rewrite Hcl, Hms. intros [[<- <-]|[Hne Hk]]%lookup_insert_Some.
    + split; [done|]. rewrite lookup_insert_eq. eexists; split; [done|]. apply insert_non_empty.
    + destruct (hi_ref h Hinv _ _ Hk) as (Hlt & m & Hm & Hne'). split; [lia|].
      rewrite lookup_insert_ne; [eauto|]. symmetry. by eapply ref_not_reused.
  - intros k1 k2 r. rewrite Hcl.
    intros [[<- <-]|[Hn1 H1]]%lookup_insert_Some [[<- H2]|[Hn2 H2]]%lookup_insert_Some; try done.
    + exfalso. by eapply ref_not_reused.
    + subst. exfalso. by eapply ref_not_reused.
    + by eapply hi_inj.
  - intros key sid c'. rewrite sessions_of_Register by done. case_decide as Hk.
    + intros [[<- <-]|[_ Hl]]%lookup_insert_Some; [done|]. by eapply hi_key.
    + by eapply hi_key.
Qed.

Lemma Unregister_None c h :
  clients h !! client_key c = None →
  clients (Unregister c h) = clients h ∧ maps (Unregister c h) = maps h
  ∧ fresh_map (Unregister c h) = fresh_map h.
Proof. unfold Unregister. by intros ->. Qed.

Lemma Unregister_Some c h ref :
  hub_inv h → clients h !! client_key c = Some ref →
  let m := delete (ws_SessionID c) (sessions_of h (client_key c)) in
  clients (Unregister c h) = (if decide (m = ∅) then delete (client_key c) (clients h) else clients h)
  ∧ maps (Unregister c h) = <[ref := m]> (maps h)
  ∧ fresh_map (Unregister c h) = fresh_map h.
Proof.
  intros Hinv E. destruct (hi_ref h Hinv _ _ E) as (Hlt & m & Hm & _).
  rewrite (sessions_of_lookup _ _ _ _ E Hm). unfold Unregister. rewrite E. cbn.
  rewrite lookup_alter_eq, Hm. cbn. split; [done|]. split; [|done].
  apply map_eq. intros j. destruct (decide (j = ref)) as [->|Hne].
  - by rewrite lookup_alter_eq, Hm, lookup_insert_eq.
  - by rewrite lookup_alter_ne, lookup_insert_ne.
Qed.

Lemma sessions_of_Unregister c h key :
  hub_inv h →
  sessions_of (Unregister c h) key =
    if decide (key = client_key c) then delete (ws_SessionID c) (sessions_of h key)
    else sessions_of h key.
Proof.
  intros Hinv. destruct (clients h !! client_key c) as [ref|] eqn:E.
  - destruct (Unregister_Some c h ref Hinv E) as (Hcl & Hms & _).
    unfold sessions_of at 1. rewrite Hcl, Hms.
    destruct (decide (key = client_key c)) as [->|Hk].
    + destruct (decide (delete (ws_SessionID c) (sessions_of h (client_key c)) = ∅)) as [Hm|Hm].
      * by rewrite lookup_delete_eq, Hm.
      * rewrite E. cbn. by rewrite lookup_insert_eq.
    + assert ((if decide (delete (ws_SessionID c) (sessions_of h (client_key c)) = ∅)
               then delete (client_key c) (clients h) else clients h) !! key = clients h !! key) as ->.
      { case_decide; [by rewrite lookup_delete_ne|done]. }
      unfold sessions_of. destruct (clients h !! key) as [ref'|] eqn:E'; [|done]. cbn.
      rewrite lookup_insert_ne; [done|]. intros ->. apply Hk. by eapply hi_inj.
  - destruct (Unregister_None c h E) as (Hcl & Hms & _).
    unfold sessions_of. rewrite Hcl, Hms. case_decide as Hk; [|done].
    subst. rewrite E. cbn. by rewrite delete_empty.
Qed.

Lemma Unregister_inv c h : hub_inv h → hub_inv (Unregister c h).
Proof.
  intros Hinv. destruct (clients h !! client_key c) as [ref|] eqn:E.
  - destruct (Unregister_Some c h ref Hinv E) as (Hcl & Hms & Hf).
    set (m := delete _ _) in *.
    assert (Hsub : ∀ k r, clients (Unregister c h) !! k = Some r → clients h !! k = Some r).
    { intros k r. rewrite Hcl. case_decide; [|done]. intros [_ ?]%lookup_delete_Some. done. }
    split.
    + intros key r Hk. pose proof (Hsub _ _ Hk) as Hk'.
      destruct (hi_ref h Hinv _ _ Hk') as (Hlt & m' & Hm' & Hne). rewrite Hf. split; [done|].
      rewrite Hms. destruct (decide (r = ref)) as [->|Hr].
      * rewrite lookup_insert_eq. exists m. split; [done|]. intros Hm.
        rewrite Hcl, decide_True in Hk by done. apply lookup_delete_Some in Hk as [Hne' _].
        apply Hne'. by apply (hi_inj h Hinv _ _ ref).
      * rewrite lookup_insert_ne by done. eauto.
    + intros k1 k2 r H1%Hsub H2%Hsub. by apply (hi_inj h Hinv _ _ r).
    + intros key sid c'. rewrite sessions_of_Unregister by done.
      destruct (decide (key = client_key c)).
      * intros [_ Hl]%lookup_delete_Some. by eapply hi_key.
      * by eapply hi_key.
  - destruct (Unregister_None c h E) as (Hcl & Hms & Hf).
    split; rewrite ?Hcl, ?Hms, ?Hf.
    + apply Hinv.
    + apply Hinv.
    + intros key sid c'. rewrite sessions_of_Unregister by done.
      destruct (decide (key = client_key c)).
      * intros [_ Hl]%lookup_delete_Some. by eapply hi_key.
      * by eapply hi_key.
Qed.

Lemma run_hub_op_inv o h : hub_inv h → hub_inv (run_hub_op h o).
Proof. destruct o; cbn; auto using Register_inv, Unregister_inv. Qed.

Lemma run_hub_inv ops : hub_inv (run_hub  ops).
Proof.
  unfold run_hub. generalize (NewHub_inv). generalize (NewHub ).
  induction ops as [|o ops IH]; intros h Hinv; cbn; [done|]. by apply IH, run_hub_op_inv.
Qed.

(** ** What delivery writes *)

Lemma write_all_sent p cs h :
  sent (write_all p cs h) = sent h ++ ((λ c, (ws_Conn c, p)) <$> cs).
Proof.
  revert h. induction cs as [|c cs IH]; intros h; cbn; [by rewrite app_nil_r|].
  fold (write_all p cs (WriteJSON p c h)). rewrite IH. cbn. by rewrite <-app_assoc.
Qed.

Lemma write_all_clients p cs h :
  clients (write_all p cs h) = clients h ∧ maps (write_all p cs h) = maps h.
Proof.
  revert h. induction cs as [|c cs IH]; intros h; cbn; [done|].
  fold (write_all p cs (WriteJSON p c h)). by destruct (IH (WriteJSON p c h)) as [-> ->].
Qed.

Lemma notifyUserLocal_sent t u p h :
  sent (notifyUserLocal t u p h).1
  = sent h ++ ((λ c, (ws_Conn c, p)) <$> members (sessions_of h (userKey t u))).
Proof. apply write_all_sent. Qed.

Lemma elem_of_members m c : c ∈ members m ↔ ∃ sid, m !! sid = Some c.
Proof.
  unfold members. rewrite list_elem_of_fmap. split.
  - intros ([sid c'] & -> & Hin%elem_of_map_to_list). eauto.
  - intros [sid Hc]. exists (sid, c). split; [done|]. by apply elem_of_map_to_list.
Qed.

(** Every client the hub knows. *)
Definition all_clients h : list WSClient :=
  map_to_list (clients h) ≫= λ '(key, _), members (sessions_of h key).

(** A prefix "tenant:" of a key is the tenant itself when tenants hold no colon. *)
Lemma prefix_colon_free t t' u :
  ":"%char ∉ chars t → ":"%char ∉ chars t' →
  HasPrefix (userKey t' u) (t +:+ ":") = true ↔ t' = t.
Proof.
  intros Ht Ht'. rewrite HasPrefix_true. unfold userKey. split; [|intros ->; exists u; by rewrite app_assoc_s].
  intros [r Hr]. rewrite app_assoc_s in Hr.
  change (":" +:+ u) with (String ":" u) in Hr. change (":" +:+ r) with (String ":" r) in Hr.
  pose proof (SplitN2_app ":" t' u Ht') as H1. pose proof (SplitN2_app ":" t r Ht) as H2.
  rewrite Hr in H1. rewrite H1 in H2. by simplify_eq.
Qed.

Lemma tenant_clients_filter t h :
  hub_inv h → ":"%char ∉ chars t →
  (∀ c, c ∈ all_clients h → ":"%char ∉ chars (ws_TenantID c)) →
  tenant_clients t h = filter (λ c, ws_TenantID c = t) (all_clients h).
Proof.
  intros Hinv Ht. unfold tenant_clients, all_clients.
  assert (Hall : ∀ kr, kr ∈ map_to_list (clients h) →
            ∃ c, c ∈ members (sessions_of h kr.1)).
  { intros [key ref] Hin%elem_of_map_to_list. cbn.
    destruct (hi_ref h Hinv _ _ Hin) as (_ & m & Hm & Hne).
    rewrite (sessions_of_lookup _ _ _ _ Hin Hm).
    apply map_choose in Hne as (sid & c & Hc). exists c. apply elem_of_members. eauto. }
  revert Hall. generalize (map_to_list (clients h)) as l.
  induction l as [|[key ref] l IH]; intros Hall Htc; [done|]. rewrite !bind_cons in *.
  rewrite filter_app. f_equal.
  - destruct (Hall (key, ref)) as [c Hc]; [by left|]. cbn in Hc.
    assert (Hkey : ∀ c', c' ∈ members (sessions_of h key) → key = client_key c').
    { intros c' [sid Hs]%elem_of_members. by destruct (hi_key h Hinv _ _ _ Hs). }
    assert (Hten : ∀ c', c' ∈ members (sessions_of h key) →
              HasPrefix key (t +:+ ":") = true ↔ ws_TenantID c' = t).
    { intros c' Hc'. rewrite (Hkey c' Hc') at 1. apply prefix_colon_free; [done|].
      apply Htc, elem_of_app. by left. }
    destruct (HasPrefix key (t +:+ ":")) eqn:Hp.
    + symmetry. apply filter_all_elem. intros c' Hc'. by apply Hten.
    + symmetry. apply filter_none_elem. intros c' Hc' Heq.
      enough (false = true) by done. by apply (Hten c').
  - apply IH.
    + intros kr Hin. apply Hall. by right.
    + intros c Hc. apply Htc, elem_of_app. by right.
Qed.
End hub_lemmas.

Section table_lemmas.
Implicit Types (h : Hub) (c : WSClient).

Lemma run_hub_op_table (o : hub_op) h (t : gmap (string * string) WSClient) :
  hub_inv h → (∀ key sid, sessions_of h key !! sid = t !! (key, sid)) →
  ∀ key sid, sessions_of (run_hub_op h o) key !! sid = table_op t o !! (key, sid).
Proof.
  intros Hinv Ht key sid. destruct o as [c|c]; cbn.
  - rewrite sessions_of_Register by done. destruct (decide (key = client_key c)) as [->|Hk].
    + destruct (decide (sid = ws_SessionID c)) as [->|Hs].
      * by rewrite !lookup_insert_eq.
      * by rewrite !lookup_insert_ne by congruence.
    + by rewrite lookup_insert_ne by congruence.
  - rewrite sessions_of_Unregister by done. destruct (decide (key = client_key c)) as [->|Hk].
    + destruct (decide (sid = ws_SessionID c)) as [->|Hs].
      * by rewrite !lookup_delete_eq.
      * by rewrite !lookup_delete_ne by congruence.
    + by rewrite lookup_delete_ne by congruence.
Qed.

Lemma run_hub_table ops key sid :
  sessions_of (run_hub  ops) key !! sid = table ops !! (key, sid).
Proof.
  unfold run_hub, table. revert key sid.
  assert (H0 : ∀ key sid, sessions_of (NewHub ) key !! sid
                = (∅ : gmap (string * string) WSClient) !! (key, sid)).
  { intros. unfold sessions_of. cbn. by rewrite !lookup_empty. }
  revert H0. generalize (NewHub_inv ). generalize (NewHub ).
  generalize (∅ : gmap (string * string) WSClient).
  induction ops as [|o ops IH]; intros t h Hinv Ht; cbn; [done|].
  apply IH; [by apply run_hub_op_inv|by apply run_hub_op_table].
Qed.

Lemma table_registered ops k c : table ops !! k = Some c → DoRegister c ∈ ops.
Proof.
  unfold table.
  enough (∀ t, foldl table_op t ops !! k = Some c → t !! k = Some c ∨ DoRegister c ∈ ops) as Hg.
  { intros Hl. destruct (Hg ∅ Hl) as [He|He]; [by rewrite lookup_empty in He|done]. }
  induction ops as [|o ops IH]; intros t Hl; cbn in Hl; [by left|].
  destruct (IH _ Hl) as [Ht|Ht]; [|right; by right].
  destruct o as [c'|c']; cbn in Ht.
  - apply lookup_insert_Some in Ht as [[_ <-]|[_ Ht]]; [right; by left|by left].
  - apply lookup_delete_Some in Ht as [_ Ht]. by left.
Qed.

Lemma elem_of_all_clients h c :
  hub_inv h → c ∈ all_clients h ↔ ∃ sid, sessions_of h (client_key c) !! sid = Some c.
Proof.
  intros Hinv. unfold all_clients. rewrite list_elem_of_bind. split.
  - intros ([key ref] & Hc & Hin). apply elem_of_members in Hc as [sid Hc].
    destruct (hi_key h Hinv _ _ _ Hc) as [<- _]. eauto.
  - intros [sid Hc]. destruct (clients h !! client_key c) as [ref|] eqn:E.
    + exists (client_key c, ref). split; [apply elem_of_members; eauto|]. by apply elem_of_map_to_list.
    + rewrite (sessions_of_None _ _ E) in Hc. by rewrite lookup_empty in Hc.
Qed.

Lemma NoDup_all_clients h : hub_inv h → NoDup (all_clients h).
Proof.
  intros Hinv. unfold all_clients. apply NoDup_bind.
  - intros [k1 r1] [k2 r2] c H1%elem_of_map_to_list H2%elem_of_map_to_list
      [s1 Hc1]%elem_of_members [s2 Hc2]%elem_of_members.
    destruct (hi_key h Hinv _ _ _ Hc1) as [-> _]. destruct (hi_key h Hinv _ _ _ Hc2) as [-> _].
    congruence.
  - intros [key ref] _. unfold members. apply NoDup_fmap_2_strong; [|apply NoDup_map_to_list].
    intros [s1 c1] [s2 c2] H1%elem_of_map_to_list H2%elem_of_map_to_list Heq. cbn in Heq. subst.
    destruct (hi_key h Hinv _ _ _ H1) as [_ ->]. by destruct (hi_key h Hinv _ _ _ H2) as [_ ->].
  - apply NoDup_map_to_list.
Qed.
End table_lemmas.

(** ** The text of an event reads back *)

#[export] Instance c_RawMessage_good : GoodCodec c_RawMessage.
Proof.
  split; intros raw; cbn; destruct (parse_whole raw) as [v|]; try done;
    intros [Hv Heq%bool_decide_eq_true]%andb_true_iff; [by rewrite <-Heq|done].
Qed.

Lemma string_map_decode ms (m0 : gmap string string) :
  NoDup ms.*1 → (∀ k, k ∈ ms.*1 → m0 !! k = None) →
  foldl (λ acc '(k, w), m ← acc; s ← decode_string "" w; Some (<[k := s]> m)) (Some m0)
    ((λ '(k, v), (k, JStr v)) <$> ms) = Some (list_to_map ms ∪ m0).
Proof.
  revert m0. induction ms as [|[k v] ms IH]; intros m0 Hnd Hm; cbn [foldl fmap list_fmap list_to_map foldr].
  { by rewrite map_empty_union. }
  apply NoDup_cons in Hnd as [Hk Hnd]. cbn [decode_string mbind option_bind]. cbn [fst fmap list_fmap] in Hk.
  rewrite IH; [|done|].
  - f_equal. cbn. rewrite <-insert_union_l, insert_union_r; [done|].
    apply not_elem_of_list_to_map. exact Hk.
  - intros k' Hk'. rewrite lookup_insert_ne; [|by intros ->]. apply Hm. by right.
Qed.

#[export] Instance c_string_map_good : GoodCodec c_string_map.
Proof.
  split; intros m Hm.
  - cbn. pose proof (merge_sort_Permutation by_key (map_to_list m)) as Hp.
    assert (NoDup (merge_sort by_key (map_to_list m)).*1) as Hnd by (rewrite Hp; apply NoDup_fst_map_to_list).
    rewrite string_map_decode by (done || intros; apply lookup_empty).
    rewrite map_union_empty, (list_to_map_proper _ _ Hnd Hp), list_to_map_to_list. done.
  - cbn in *. rewrite forallb_forall in *. intros [k v] Hin%list_elem_of_In.
    apply list_elem_of_fmap in Hin as ([k' v'] & [= -> ->] & Hin). cbn. rewrite (merge_sort_Permutation by_key) in Hin.
    apply (Hm (k', v')). by apply list_elem_of_In.
Qed.

#[export] Instance c_hubEvent_good : GoodCodec c_hubEvent.
Proof. good_struct. Qed.

Lemma event_reads_back ev b : enc_ok c_hubEvent ev = true → marshal_event ev = Ok b → unmarshal_event b = Ok ev.
Proof.
  intros Hok. unfold marshal_event, unmarshal_event. case_decide; [done|]. intros Hb.
  assert (b = marshal_json (enc c_hubEvent ev)) as -> by congruence.
  rewrite parse_whole_marshal by by apply enc_wf. cbn [mbind option_bind]. by rewrite dec_enc.
Qed.

(** ** The two delivery paths *)

(** A payload that another node reads as it was: its strings are UTF-8 and a float64 holds its numbers. *)
Definition plain_payload (v : json) : bool := wf_json v && exact v.

Lemma unmarshal_marshal v : plain_payload v = true → unmarshal (marshal_json v) = Ok (any_of_json v).
Proof.
  unfold plain_payload, unmarshal. intros [Hw He]%andb_true_iff. by rewrite parse_whole_marshal, exact_any_ok.
Qed.

Lemma plain_raw v : plain_payload v = true → enc_ok c_RawMessage (marshal_json v) = true ∧ marshal_json v ≠ "".
Proof.
  intros [Hw _]%andb_true_iff. split.
  - cbn. rewrite parse_whole_marshal, Hw by done. by rewrite bool_decide_true.
  - pose proof (marshal_nonempty v Hw) as Hlen. by intros Heq; rewrite Heq in Hlen; cbn in Hlen; lia.
Qed.

Lemma publish_event_Some redis ev b :
  enc_ok c_hubEvent ev = true → publish_event redis ev = Some b → unmarshal_event b = Ok ev.
Proof. unfold publish_event. intros Hok Hp. repeat case_match; simplify_eq. by apply event_reads_back. Qed.

Lemma payloads_by_Some builder seen userIDs acc :
  ∃ by_, payloads_by builder seen userIDs acc = Some (dedupe_acc seen userIDs, by_)
    ∧ ∀ u, by_ !! u = if decide (u ∈ dedupe_acc seen userIDs) then Some (marshal_json (builder u)) else acc !! u.
Proof.
  revert seen acc. induction userIDs as [|u us IH]; intros seen acc; cbn [payloads_by dedupe_acc].
  { exists acc. split; [done|]. intros u. by rewrite decide_False by apply not_elem_of_nil. }
  case_decide as Hu; [by apply IH|]. cbn [marshal].
  destruct (IH (u :: seen) (<[u := marshal_json (builder u)]> acc)) as (by_ & -> & Hby). exists by_. split; [done|].
  intros v. rewrite Hby. destruct (decide (v ∈ dedupe_acc (u :: seen) us)) as [Hv|Hv].
  - by rewrite decide_True by (by right).
  - destruct (decide (v = u)) as [->|Hne].
    + by rewrite lookup_insert_eq, decide_True by left.
    + rewrite lookup_insert_ne, decide_False; [done| |done]. by intros [?|?]%elem_of_cons.
Qed.

Lemma consume_notify_users t unique by_ builder b h :
  unmarshal_event b = Ok (mkHubEvent "notify_users" t "" unique "" by_) →
  (∀ u, u ∈ unique → plain_payload (builder u) = true ∧ by_ !! u = Some (marshal_json (builder u))) →
  consume b h = foldl (λ h u, (notifyUserLocal t u (any_of_json (builder u)) h).1) h unique.
Proof.
  intros Hb Hall. unfold consume. rewrite Hb. cbn [Kind UserIDs PayloadBy TenantID].
  rewrite decide_False, decide_True by done. clear Hb. revert h Hall.
  induction unique as [|u us IH]; intros h Hall; cbn [foldl]; [done|].
  destruct (Hall u) as [Hp Hby]; [by left|].
  rewrite Hby, unmarshal_marshal by done. apply IH. intros v Hv. apply Hall. by right.
Qed.

(** * Properties *)

(** C23: The hub implements its table.  After any sequence of registrations and unregistrations, the
    session found under a "tenant:user" key and a session id is the connection registered there
    last and not unregistered since, and the representation is sound: every map reference is
    allocated, no two keys share an inner map, no key keeps an empty one, and clients sit under
    their own key and session id. *)
Theorem hub_refines_table (ops : list hub_op) :
  hub_inv (run_hub  ops)
  ∧ ∀ key sid, sessions_of (run_hub  ops) key !! sid = table ops !! (key, sid).
Proof. split; [apply run_hub_inv|intros; apply run_hub_table]. Qed.

(** A broadcast reaches a tenant's sessions, each once, and no other tenant's.  When neither the
    tenant nor any registered client's tenant contains a colon, a local broadcast writes exactly
    one frame to each current session of the tenant, counts them, and writes to nobody else. *)
Theorem broadcast_reaches_tenant (ops : list hub_op) (t : string) (p : json) :
  ":"%char ∉ chars t →
  (∀ c, DoRegister c ∈ ops → ":"%char ∉ chars (ws_TenantID c)) →
  let h := run_hub ops in
  ∃ cs, sent (broadcastTenantLocal t p h).1 = sent h ++ ((λ c, (ws_Conn c, p)) <$> cs)
        ∧ (broadcastTenantLocal t p h).2 = length cs
        ∧ NoDup cs
        ∧ ∀ c, c ∈ cs ↔ ws_TenantID c = t ∧ ∃ k, table ops !! k = Some c.
Proof.
  intros Ht Hops. cbv zeta. pose proof (run_hub_inv  ops) as Hinv.
  assert (Hmem : ∀ c, c ∈ all_clients (run_hub  ops) ↔ ∃ k, table ops !! k = Some c).
  { intros c. rewrite elem_of_all_clients by done. setoid_rewrite run_hub_table. split; [naive_solver|].
    intros [[key sid] Hk]. pose proof Hk as Hs. rewrite <-(run_hub_table ) in Hs.
    destruct (hi_key _ Hinv _ _ _ Hs) as [-> ->]. eauto. }
  exists (tenant_clients t (run_hub  ops)). unfold broadcastTenantLocal. cbn [fst snd].
  split; [apply write_all_sent|]. split; [done|].
  rewrite tenant_clients_filter; [|done|done|].
  - split; [by apply NoDup_filter, NoDup_all_clients|].
    intros c. by rewrite list_elem_of_filter, Hmem.
  - intros c [k Hk]%Hmem. by apply Hops, (table_registered ops k).
Qed.

Lemma broadcast_reaches_tenant_witness :
  let a := mkWSClient "acme" "u" "s1" 1 in
  let b := mkWSClient "beta" "u" "s1" 2 in
  let h := run_hub [DoRegister a; DoRegister b] in
  ∃ cs, sent (broadcastTenantLocal "acme" JNull h).1 = sent h ++ ((λ c, (ws_Conn c, JNull)) <$> cs)
        ∧ (broadcastTenantLocal "acme" JNull h).2 = length cs
        ∧ NoDup cs
        ∧ ∀ c, c ∈ cs ↔ ws_TenantID c = "acme" ∧ ∃ k, table [DoRegister a; DoRegister b] !! k = Some c.
Proof.
  apply (broadcast_reaches_tenant
    [DoRegister (mkWSClient "acme" "u" "s1" 1); DoRegister (mkWSClient "beta" "u" "s1" 2)] "acme" JNull).
  - vm_compute. apply not_elem_of_nil || (intros H; repeat (apply elem_of_cons in H as [H|H]; [discriminate|]); by apply elem_of_nil in H).
  - intros c Hc. apply elem_of_cons in Hc as [[= ->]|Hc]; [|apply list_elem_of_singleton in Hc as [= ->]];
      vm_compute; intros H; repeat (apply elem_of_cons in H as [H|H]; [discriminate|]);
      by apply elem_of_nil in H.
Defined.

(** The Redis path delivers what the local path delivers.  Whenever a notification is handed to Redis, the publishing hub
    writes nothing itself, and each node that consumes the message writes exactly the frames the local path would write
    on that node, as a map of any: for one user, for each distinct user of a list (once, in order), and for a tenant;
    provided the identifiers are UTF-8 and the payloads are UTF-8 with numbers a float64 holds. *)
Theorem redis_path_delivers_as_local redis (h node : Hub) (t u : string) (us : list string) (p : json)
    (builder : string → json) :
  utf8 t = true →
  (∀ h' b, utf8 u = true → plain_payload p = true → NotifyUser redis t u p h = (h', Some b) →
     h' = h ∧ consume b node = (notifyUserLocal t u (any_of_json p) node).1)
  ∧ (∀ h' b, (∀ u, u ∈ us → utf8 u = true ∧ plain_payload (builder u) = true) →
     NotifyUsers redis t us builder h = (h', Some b) →
     h' = h ∧ consume b node
       = foldl (λ h u, (notifyUserLocal t u (any_of_json (builder u)) h).1) node (dedupe us))
  ∧ (∀ h' b, plain_payload p = true → BroadcastTenant redis t p h = (h', Some b) →
     h' = h ∧ consume b node = (broadcastTenantLocal t (any_of_json p) node).1).
Proof.
  intros Ht. split; [|split].
  - intros h' b Hu Hp. destruct (plain_raw p Hp) as [Hraw Hne]. unfold NotifyUser, publishNotifyUser. cbn [marshal].
    destruct redis as [pub|]; [|done]. destruct (publish_event _ _) as [b'|] eqn:Eb; [|done]. intros [= <- <-].
    split; [done|]. unfold consume. erewrite publish_event_Some; [|..|exact Eb].
    + cbn [Kind Payload UserIDs TenantID UserID]. by rewrite decide_True, decide_False, unmarshal_marshal.
    + cbn [enc_ok c_hubEvent c_struct f_ok]. cbn -[utf8 c_RawMessage]. by rewrite Ht, Hu, Hraw, !orb_true_r.
  - intros h' b Hus. unfold NotifyUsers, publishNotifyUsers. destruct redis as [pub|]; [|done].
    destruct (payloads_by_Some builder [] us ∅) as (by_ & -> & Hby). fold (dedupe us) in *.
    assert (∀ u, u ∈ dedupe us → utf8 u = true ∧ plain_payload (builder u) = true) as Hin.
    { intros v Hv. apply Hus. unfold dedupe in Hv. by apply elem_of_dedupe_acc in Hv as [? _]. }
    destruct (publish_event _ _) as [b'|] eqn:Eb; [|done]. intros [= <- <-]. split; [done|].
    apply (consume_notify_users t (dedupe us) by_).
    + eapply publish_event_Some; [|exact Eb].
      cbn [enc_ok c_hubEvent c_struct f_ok]. cbn -[utf8 forallb map_to_list]. rewrite Ht. cbn [andb].
      rewrite (proj2 (forallb_forall utf8 (dedupe us))); [|by intros v Hv%list_elem_of_In; apply Hin].
      rewrite (proj2 (forallb_forall _ (map_to_list by_))); [by rewrite !orb_true_r|].
      intros [v raw] Hv%list_elem_of_In%elem_of_map_to_list. rewrite Hby in Hv. case_decide as Hd; [|done].
      injection Hv as <-. destruct (Hin v Hd) as [Hu [Hw _]%andb_true_iff]. by rewrite Hu, utf8_marshal.
    + intros v Hv. destruct (Hin v Hv). by rewrite Hby, decide_True.
  - intros h' b Hp. destruct (plain_raw p Hp) as [Hraw Hne]. unfold BroadcastTenant, publishBroadcastTenant. cbn [marshal].
    destruct redis as [pub|]; [|done]. destruct (publish_event _ _) as [b'|] eqn:Eb; [|done]. intros [= <- <-].
    split; [done|]. unfold consume. erewrite publish_event_Some; [|..|exact Eb].
    + cbn [Kind Payload UserIDs TenantID UserID]. by rewrite !decide_False, decide_True, decide_False, unmarshal_marshal by done.
    + cbn [enc_ok c_hubEvent c_struct f_ok]. cbn -[utf8 c_RawMessage]. by rewrite Ht, Hraw, !orb_true_r.
Qed.

Lemma redis_path_delivers_as_local_witness :
  let node := run_hub [DoRegister (mkWSClient "t" "u" "s" 7)] in
  let p := JObj [("type", JStr "x"); ("files", JList [JObj [("size_bytes", JNum 5); ("file_name", JStr "f")]])] in
  ∃ b, (NotifyUser (Some (λ _, Ok tt)) "t" "u" p NewHub).2 = Some b
    ∧ consume b node = (notifyUserLocal "t" "u" (any_of_json p) node).1.
Proof.
  cbv zeta. eexists. split; [vm_compute; reflexivity|].
  pose proof (redis_path_delivers_as_local (Some (λ _, Ok tt)) NewHub (run_hub [DoRegister (mkWSClient "t" "u" "s" 7)])
    "t" "u" [] (JObj [("type", JStr "x"); ("files", JList [JObj [("size_bytes", JNum 5); ("file_name", JStr "f")]])])
    (λ _, JNull) eq_refl) as [Hone _].
  refine (proj2 (Hone NewHub _ _ _ _)); vm_compute; reflexivity.
Defined.

(** A reconnect loses the new session.  When a user's new connection registers under the session
    id of the old one before the old one's handler has run its deferred Unregister, that
    Unregister removes the new connection: it stays open, but neither a notification to the user
    nor a broadcast to the tenant reaches it any more. *)
Theorem reconnect_loses_session (t u sid : string) (old new : nat) (p : json) :
  old ≠ new →
  let a := mkWSClient t u sid old in
  let b := mkWSClient t u sid new in
  let h := run_hub [DoRegister a; DoRegister b; DoUnregister a] in
  closed_conns h = [old]
  ∧ sent (notifyUserLocal t u p h).1 = [] ∧ sent (broadcastTenantLocal t p h).1 = [].
Proof.
  intros Hne. cbv zeta. set (ops := [_; _; _]).
  assert (Hempty : clients (run_hub  ops) = ∅).
  { unfold ops, run_hub. cbn [foldl run_hub_op].
    pose proof (Register_inv  (mkWSClient t u sid old) NewHub NewHub_inv) as H1.
    pose proof (Register_inv  (mkWSClient t u sid new) _ H1) as H2.
    set (a := mkWSClient t u sid old) in *. set (b := mkWSClient t u sid new) in *.
    destruct (Register_maps a (NewHub ) NewHub_inv) as (r1 & Hc1 & _).
    destruct (Register_maps b (Register a NewHub) H1) as (r2 & Hc2 & _).
    assert (Hs : sessions_of (Register b (Register a (NewHub ))) (client_key a) = {[sid := b]}).
    { rewrite !sessions_of_Register by (done || apply NewHub_inv).
      rewrite !decide_True by done. rewrite sessions_of_None by done. cbn. by rewrite insert_insert_eq. }
    destruct (Unregister_Some a _ r2 H2) as (Hcl & _); [rewrite Hc2; apply lookup_insert_eq|].
    rewrite Hcl, Hs, decide_True; [|apply delete_singleton_eq].
    rewrite Hc2, Hc1. cbn. rewrite delete_insert_eq, delete_insert_eq. by rewrite delete_empty. }
  assert (Hkeep : ∀ h : Hub, closed_conns (Register (mkWSClient t u sid new) h) = closed_conns h
            ∧ sent (Register (mkWSClient t u sid new) h) = sent h
            ∧ closed_conns (Register (mkWSClient t u sid old) h) = closed_conns h
            ∧ sent (Register (mkWSClient t u sid old) h) = sent h
            ∧ closed_conns (Unregister (mkWSClient t u sid old) h) = old :: closed_conns h
            ∧ sent (Unregister (mkWSClient t u sid old) h) = sent h).
  { intros h. unfold Register, Unregister. repeat split; by destruct (clients h !! _). }
  assert (Hsent : sent (run_hub  ops) = [] ∧ closed_conns (run_hub  ops) = [old]).
  { unfold ops, run_hub. cbn [foldl run_hub_op].
    destruct (Hkeep NewHub) as (_ & _ & Ha & Hb & _).
    destruct (Hkeep (Register (mkWSClient t u sid old) NewHub)) as (Hc & Hd & _).
    destruct (Hkeep (Register (mkWSClient t u sid new) (Register (mkWSClient t u sid old) NewHub)))
      as (_ & _ & _ & _ & He & Hf).
    by rewrite He, Hf, Hc, Hd, Ha, Hb. }
  destruct Hsent as [Hs Hc]. split; [done|]. split.
  - rewrite notifyUserLocal_sent, Hs, sessions_of_None; [done|]. by rewrite Hempty, lookup_empty.
  - unfold broadcastTenantLocal. cbn [fst]. rewrite write_all_sent, Hs. unfold tenant_clients.
    by rewrite Hempty, map_to_list_empty.
Qed.

Lemma reconnect_loses_session_witness :
  let a := mkWSClient "t" "u" "dev-1" 1 in
  let b := mkWSClient "t" "u" "dev-1" 2 in
  let h := run_hub [DoRegister a; DoRegister b; DoUnregister a] in
  closed_conns h = [1]
  ∧ sent (notifyUserLocal "t" "u" JNull h).1 = [] ∧ sent (broadcastTenantLocal "t" JNull h).1 = [].
Proof. apply (reconnect_loses_session "t" "u" "dev-1" 1 2 JNull). discriminate. Defined.

(** Keys with colons cross tenants.  A user "b:u" of tenant "a" and a user "u" of tenant "a:b" share
    a key, for any a, b and u: a notification meant for one is written to the other's session, and
    a broadcast to tenant "a" is written to the sessions of tenant "a:b". *)
Theorem colon_keys_cross_tenants (a b u sid : string) (conn : nat) (p : json) :
  let other := mkWSClient (a +:+ ":" +:+ b) u sid conn in
  let h := run_hub [DoRegister other] in
  sent (notifyUserLocal a (b +:+ ":" +:+ u) p h).1 = [(conn, p)]
  ∧ sent (broadcastTenantLocal a p h).1 = [(conn, p)].
Proof.
  cbv zeta. set (other := mkWSClient _ u sid conn).
  assert (Hk : userKey a (b +:+ ":" +:+ u) = client_key other).
  { unfold client_key, userKey. cbn [ws_TenantID ws_UserID other]. by rewrite !app_assoc_s. }
  assert (Hs : sessions_of (run_hub  [DoRegister other]) (client_key other) = {[sid := other]}).
  { cbn [run_hub foldl run_hub_op]. unfold run_hub. cbn [foldl run_hub_op].
    rewrite sessions_of_Register by apply NewHub_inv. rewrite decide_True by done. by rewrite sessions_of_None. }
  assert (Hc : clients (run_hub  [DoRegister other]) = {[client_key other := 0]}).
  { unfold run_hub. cbn [foldl run_hub_op].
    destruct (Register_maps other (NewHub ) NewHub_inv) as (r & Hcl & _ & _ & _ & [Hr| ->]).
    - unfold NewHub in Hr. cbn [clients] in Hr. by rewrite lookup_empty in Hr.
    - by rewrite Hcl. }
  assert (H0 : sent (run_hub  [DoRegister other]) = []) by reflexivity.
  split.
  - rewrite notifyUserLocal_sent, Hk, Hs, H0. unfold members. by rewrite map_to_list_singleton.
  - unfold broadcastTenantLocal. cbn [fst]. rewrite write_all_sent, H0. unfold tenant_clients.
    rewrite Hc, map_to_list_singleton. cbn [mbind list_bind]. rewrite Hs.
    assert (HasPrefix (client_key other) (a +:+ ":") = true) as ->.
    { apply HasPrefix_true. exists (b +:+ ":" +:+ u). rewrite <-Hk. unfold userKey. by rewrite app_assoc_s. }
    unfold members. by rewrite map_to_list_singleton.
Qed.

(** Notifications race with registrations.  Because a notification iterates over the inner map after
    it has released the lock, there is an interleaving of a registration, a notification to the
    same user and a second registration in which the second registration writes to the map the
    notification is iterating over, which the Go runtime answers by ending the process. *)
Theorem notify_races_with_register (t u : string) (c1 c2 : WSClient) :
  client_key c1 = userKey t u → client_key c2 = userKey t u →
  ∃ s, rtc hub_step (mkHubSys (NewHub ) ∅) s ∧ map_race s c2
       ∧ ∃ s', hub_step s s' ∧ iterating s' = iterating s
               ∧ sessions_of (hub_state s') (userKey t u) !! ws_SessionID c2 = Some c2.
Proof.
  intros H1 H2. set (h := Register c1 (NewHub )).
  destruct (Register_maps c1 (NewHub ) NewHub_inv) as (r & Hcl & _).
  assert (Hl : clients h !! userKey t u = Some r) by (unfold h; by rewrite Hcl, H1, lookup_insert_eq).
  exists (mkHubSys h {[0 := Some r]}). split; [|split].
  - eapply rtc_l; [apply (hub_register _ _ c1)|]. fold h.
    eapply rtc_l; [by apply (hub_lookup h ∅ 0 t u)|]. rewrite Hl. apply rtc_refl.
  - exists 0, r. cbn. split; [done|]. unfold writes_to. by rewrite H2.
  - exists (mkHubSys (Register c2 h) {[0 := Some r]}). split; [apply hub_register|]. split; [done|].
    cbn. rewrite sessions_of_Register by apply Register_inv, NewHub_inv.
    rewrite decide_True by done. apply lookup_insert_eq.
Qed.

Lemma notify_races_with_register_witness :
  let c2 := mkWSClient "t" "u" "s2" 2 in
  ∃ s, rtc hub_step (mkHubSys NewHub ∅) s ∧ map_race s c2
       ∧ ∃ s', hub_step s s' ∧ iterating s' = iterating s
               ∧ sessions_of (hub_state s') (userKey "t" "u") !! "s2" = Some c2.
Proof.
  apply (notify_races_with_register "t" "u" (mkWSClient "t" "u" "s1" 1) (mkWSClient "t" "u" "s2" 2));
    reflexivity.
Defined.
