(* ===== verification/SessionServices.v ===== *)
(** * The session services: devices, presence, notes and chat notifications

    server/session/service: session_service.go, note_service.go, chat_service.go and
    helpers.go.  The services are written against the store interface [SessionStore] and the hub;
    a service's state is the store, the hub of its node and the messages it published. *)

From S2P Require Import Prelude GoStrings GoEncoding Cursor Env SessionStore Paging ChatStore GoJson GoTime JsonText.
From S2P Require Import Users Tenants FileStore Wire GoFloat SessionHub.

(** The frames the services send to sessions. *)
Inductive frame :=
| StatusChanged (tenantID userID status statusNote : string) (updatedAt : time)
| NoteReceived (noteID tenantID senderUserID recipientType title body : string)
    (files : list NoteFile) (createdAt : time)
| ChatNotification (tenantID roomID messageID authToken senderUserID recipientUserID title body : string)
    (createdAt : time)
| SessionConnected (tenantID userID sessionID : string) (connectedAt : time).

(** The maps they are, as they are written: with the keys in order. *)
Definition frame_json (f : frame) : json :=
  match f with
  | StatusChanged t u status note at_ =>
      JObj [("status", JStr status); ("status_note", JStr note); ("tenant_id", JStr t); ("type", JStr "status.changed");
            ("updated_at", enc c_time at_); ("user_id", JStr u)]
  | NoteReceived id t sender ty title body files at_ =>
      JObj [("body", JStr body); ("created_at", enc c_time at_); ("files", enc (c_list c_NoteFile) files);
            ("note_id", JStr id); ("recipient_type", JStr ty); ("sender_user_id", JStr sender); ("tenant_id", JStr t);
            ("title", JStr title); ("type", JStr "note.received")]
  | ChatNotification t room id token sender u title body at_ =>
      JObj [("auth_token", JStr token); ("body", JStr body); ("created_at", enc c_time at_); ("message_id", JStr id);
            ("recipient_user_id", JStr u); ("room_id", JStr room); ("sender_user_id", JStr sender);
            ("tenant_id", JStr t); ("title", JStr title); ("type", JStr "chat.notification")]
  | SessionConnected t u id at_ =>
      JObj [("connected_at", enc c_time at_); ("session_id", JStr id); ("tenant_id", JStr t);
            ("type", JStr "session.connected"); ("user_id", JStr u)]
  end.

Record Svc (S : Type) := mkSvc { store : S; hub : Hub; published : list string }.
Arguments mkSvc {S}.
Arguments store {S}.
Arguments hub {S}.
Arguments published {S}.

(** ** Tokens *)

Definition hex_digit (n : Z) : ascii := byte_of (if (n <? 10)%Z then 48 + n else 87 + n).

Fixpoint hex_encode (bytes : list Z) : string :=
  match bytes with
  | [] => ""
  | b :: rest => String (hex_digit (b / 16)) (String (hex_digit (b mod 16)) (hex_encode rest))
  end.

(** [read] is the outcome of [rand.Read] on a buffer of the length. *)
(* server/session/service/helpers.go: randomToken *)
Definition randomToken (read : nat → result (list Z)) (byteLen : nat) : result string :=
  match read byteLen with
  | Err e => Err e
  | Ok buf => Ok (hex_encode buf)
  end.

Section services.
Context {S : Type} `{SessionStore S}.
Variable redis : option (string → result unit).

(** A store call from a service. *)
Definition on_store {A} (m : M S A) : M (Svc S) A := λ s,
  let '(st, r) := m (store s) in (mkSvc st (hub s) (published s), r).

Definition on_hub (f : Hub → Hub * option string) (s : Svc S) : Svc S :=
  let '(h, msg) := f (hub s) in mkSvc (store s) h (published s ++ option_list msg).

(** ** Devices *)

(* server/session/service/session_service.go: LoginDevice *)
Definition LoginDevice (env : Env) (read : nat → result (list Z))
    (tenantID userID deviceID deviceName authToken : string) (allowedTenants : list string) :
    M (Svc S) DeviceSession := λ s,
  let tenantID := TrimSpace tenantID in
  let userID := TrimSpace userID in
  let deviceID := TrimSpace deviceID in
  let authToken := TrimSpace authToken in
  if decide (tenantID = "" ∨ userID = "" ∨ deviceID = "") then
    (s, Err "tenant_id, user_id, device_id are required")
  else
    let allowedTenants := if decide (allowedTenants = []) then [tenantID] else allowedTenants in
    let allowedTenants :=
      if containsString allowedTenants tenantID then allowedTenants else allowedTenants ++ [tenantID] in
    match randomToken read 32 with
    | Err e => (s, Err e)
    | Ok token =>
        let session :=
          mkDeviceSession "" tenantID userID deviceID (TrimSpace deviceName) "" token
            (dedupeAndTrim allowedTenants) zero_time zero_time in
        match on_store (UpsertDeviceSession env session) s with
        | (s, Err e) => (s, Err e)
        | (s, Ok out) =>
            (s, Ok (mkDeviceSession (SessionID out) (ds_TenantID out) (ds_UserID out) (DeviceID out)
                      (DeviceName out) authToken (SessionToken out) (AllowedTenants out)
                      (LastSeenAt out) (ds_CreatedAt out)))
        end
    end.

(* server/session/service/session_service.go: ValidateSession *)
Definition ValidateSession (env : Env) (tenantID userID sessionID sessionToken : string) :
    M (Svc S) bool := λ s,
  if decide (TrimSpace tenantID = "" ∨ TrimSpace userID = "" ∨ TrimSpace sessionID = ""
             ∨ TrimSpace sessionToken = "") then (s, Ok false)
  else on_store (ValidateAndTouchSession env tenantID userID sessionID sessionToken) s.

(** ** Presence *)

Definition statuses : list string := ["online"; "offline"; "busy"; "away"; "meeting"].

(* server/session/service/session_service.go: UpdateStatus *)
Definition UpdateStatus (env : Env) (tenantID userID status statusNote : string) : M (Svc S) unit := λ s,
  let status := ToLower (TrimSpace status) in
  if decide (status = "") then (s, Err "status is required")
  else if negb (containsString statuses status) then
    (s, Err "status must be one of online|offline|busy|away|meeting")
  else
    let item := mkUserStatus tenantID userID status (TrimSpace statusNote) (NOW env) in
    match on_store (UpdateSessionUserStatus env item) s with
    | (s, Err e) => (s, Err e)
    | (s, Ok _) =>
        (on_hub (BroadcastTenant redis tenantID
                   (frame_json (StatusChanged tenantID userID (Status item) (StatusNote item) (UpdatedAt item)))) s,
         Ok tt)
    end.

(** ** Notes *)

(** [recipientTypeByUser]: the type of a user's first recipient entry. *)
Definition recipientTypes (rs : list NoteRecipient) : gmap string string :=
  foldl (λ m r, match m !! nr_UserID r with
                | Some _ => m
                | None => <[nr_UserID r := nr_Type r]> m
                end) ∅ rs.

Definition recipients_of (input : NoteCreateInput) : list NoteRecipient :=
  ((λ u, mkNoteRecipient u "to") <$> dedupeAndTrim (To input))
  ++ ((λ u, mkNoteRecipient u "cc") <$> dedupeAndTrim (CC input))
  ++ ((λ u, mkNoteRecipient u "bcc") <$> dedupeAndTrim (BCC input)).

Definition note_frame (tenantID senderUserID : string) (note : Note) (types : gmap string string)
    (userID : string) : json :=
  frame_json (NoteReceived (NoteID note) tenantID senderUserID (default "" (types !! userID)) (Title note) (Body note)
    (Files note) (n_CreatedAt note)).

(* server/session/service/note_service.go: SendNote *)
Definition SendNote (env : Env) (tenantID senderUserID : string) (input : NoteCreateInput) :
    M (Svc S) Note := λ s,
  if decide (TrimSpace (ni_Title input) = "") then (s, Err "title is required")
  else if decide (length (To input) + length (CC input) + length (BCC input) = 0) then
    (s, Err "at least one recipient is required")
  else
    let note := mkNote "" tenantID senderUserID (TrimSpace (ni_Title input)) (ni_Body input)
                  (recipients_of input) (ni_Files input) zero_time in
    match on_store (CreateSessionNote env note) s with
    | (s, Err e) => (s, Err e)
    | (s, Ok note) =>
        let types := recipientTypes (Recipients note) in
        let userIDs := fst <$> map_to_list types in
        (on_hub (NotifyUsers redis tenantID userIDs
                   (note_frame tenantID senderUserID note types)) s, Ok note)
    end.

(* server/session/service/note_service.go: ListInbox *)
Definition ListInbox (env : Env) (tenantID userID : string) (limit : Z) :
    M (Svc S) (list NoteInboxItem) :=
  let limit := if ((limit <=? 0) || (200 <? limit))%Z then 50%Z else limit in
  on_store (ListSessionInbox env tenantID userID limit).

(* server/session/service/note_service.go: MarkNoteRead *)
Definition MarkNoteRead (env : Env) (tenantID userID noteID : string) : M (Svc S) unit := λ s,
  if decide (TrimSpace noteID = "") then (s, Err "note_id is required")
  else on_store (MarkSessionNoteRead env tenantID userID noteID) s.

(** ** Chat notifications *)

(* server/session/service/chat_service.go: NotifyChat *)
Definition NotifyChat (env : Env) (tenantID senderUserID authToken : string) (input : ChatNotifyInput) :
    M (Svc S) unit := λ s,
  if decide (TrimSpace (cn_RoomID input) = "") then (s, Err "room_id is required")
  else
    let authToken := TrimSpace authToken in
    let recipients := dedupeAndTrim (RecipientIDs input) in
    if decide (length recipients = 0) then (s, Err "recipient_ids is required")
    else
      match on_store (SaveSessionChatNotifications env tenantID senderUserID input) s with
      | (s, Err e) => (s, Err e)
      | (s, Ok _) =>
          (on_hub (NotifyUsers redis tenantID recipients
             (λ userID, frame_json (ChatNotification tenantID (cn_RoomID input) (MessageID input) authToken
                          senderUserID userID (cn_Title input) (cn_Body input) (NOW env)))) s, Ok tt)
      end.
End services.

(** ** Calls, for histories *)
Section calls.
Variables (redis : option (string → result unit)) (DBForTenant : string → result unit).

Inductive svc_call :=
| CallLogin (env : Env) (read : nat → result (list Z)) (t u v name token : string) (allowed : list string)
| CallValidate (env : Env) (t u s k : string)
| CallStatus (env : Env) (t u status note : string)
| CallSendNote (env : Env) (t u : string) (input : NoteCreateInput)
| CallInbox (env : Env) (t u : string) (limit : Z)
| CallMarkRead (env : Env) (t u id : string)
| CallNotify (env : Env) (t u token : string) (input : ChatNotifyInput).

Definition run_call (c : svc_call) (s : Svc SessionDB) : Svc SessionDB :=
  let st := repo_store DBForTenant in
  match c with
  | CallLogin env read t u v name token allowed => (LoginDevice env read t u v name token allowed s).1
  | CallValidate env t u sid k => (ValidateSession env t u sid k s).1
  | CallStatus env t u status note => (UpdateStatus redis env t u status note s).1
  | CallSendNote env t u input => (SendNote redis env t u input s).1
  | CallInbox env t u limit => (ListInbox env t u limit s).1
  | CallMarkRead env t u id => (MarkNoteRead env t u id s).1
  | CallNotify env t u token input => (NotifyChat redis env t u token input s).1
  end.

Definition run_calls (cs : list svc_call) (s : Svc SessionDB) : Svc SessionDB :=
  foldl (λ s c, run_call c s) s cs.
End calls.

(** * Lemmas *)

Lemma on_hub_store {S} f (s : Svc S) : store (on_hub f s) = store s.
Proof. unfold on_hub. by destruct (f (hub s)). Qed.

Lemma on_store_store {S A} (m : M S A) (s : Svc S) : store (on_store m s).1 = (m (store s)).1.
Proof. unfold on_store. by destruct (m (store s)). Qed.

Lemma on_store_hub {S A} (m : M S A) (s : Svc S) :
  hub (on_store m s).1 = hub s ∧ published (on_store m s).1 = published s
  ∧ (on_store m s).2 = (m (store s)).2.
Proof. unfold on_store. by destruct (m (store s)). Qed.

Lemma on_store_Ok {S A} (m : M S A) (s : Svc S) st' a :
  m (store s) = (st', Ok a) → on_store m s = (mkSvc st' (hub s) (published s), Ok a).
Proof. unfold on_store. by intros ->. Qed.

Lemma run_call_store redis DB c s :
  db_inv (store s) → db_inv (store (run_call redis DB c s)).
Proof.
  intros Hs.
  assert (Hst : ∀ A (m : M SessionDB A), db_inv (m (store s)).1 → db_inv (store (on_store m s).1)).
  { intros A m. by rewrite on_store_store. }
  destruct c; cbn [run_call].
  - unfold LoginDevice. cbv zeta. case_decide; [done|]. destruct (randomToken _ _); [|done].
    match goal with |- context [on_store ?m s] =>
      pose proof (Hst _ m) as H1; destruct (on_store m s) as [s' [x|e]] end;
      apply H1; by apply upsert_device_inv.
  - unfold ValidateSession. case_decide; [done|]. apply Hst. by apply validate_touch_inv.
  - unfold UpdateStatus. cbv zeta. case_decide; [done|]. case_match; [done|].
    match goal with |- context [on_store ?m s] =>
      pose proof (Hst _ m) as H1; destruct (on_store m s) as [s' [x|e]] end;
      cbn [fst]; rewrite ?on_hub_store; apply H1; by apply update_status_inv.
  - unfold SendNote. case_decide; [done|]. case_decide; [done|].
    match goal with |- context [on_store ?m s] =>
      pose proof (Hst _ m) as H1; destruct (on_store m s) as [s' [x|e]] end;
      cbn [fst]; rewrite ?on_hub_store; apply H1; by apply create_note_inv.
  - unfold ListInbox. cbv zeta. apply Hst. cbn. unfold repo_ListInbox.
    destruct (DB t); [|done]. by case_match.
  - unfold MarkNoteRead. case_decide; [done|]. apply Hst. by apply mark_read_inv.
  - unfold NotifyChat. cbv zeta. case_decide; [done|]. case_decide; [done|].
    match goal with |- context [on_store ?m s] =>
      pose proof (Hst _ m) as H1; destruct (on_store m s) as [s' [x|e]] end;
      cbn [fst]; rewrite ?on_hub_store; apply H1; by apply save_notifications_inv.
Qed.

(** ** Tokens *)

Lemma hex_digit_plain n : (0 ≤ n < 16)%Z → plain (hex_digit n) = true.
Proof.
  intros Hn. assert (Hall : forallb (λ k, plain (hex_digit (Z.of_nat k))) (seq 0 16) = true) by (vm_compute; done).
  rewrite forallb_forall in Hall. specialize (Hall (Z.to_nat n)).
  rewrite Z2Nat.id in Hall by lia. apply Hall. apply in_seq. lia.
Qed.

Lemma hex_encode_token buf :
  buf ≠ [] → Forall (λ b, 0 ≤ b < 256)%Z buf → TrimSpace (hex_encode buf) ≠ "".
Proof.
  intros Hne Hall. rewrite trimmed_TrimSpace; [by destruct buf|]. apply plain_trimmed.
  clear Hne. induction Hall as [|b buf Hb _ IH]; cbn; [constructor|].
  constructor; [apply hex_digit_plain; split; [apply Z.div_pos; lia|apply Z.div_lt_upper_bound; lia]|].
  constructor; [apply hex_digit_plain, Z.mod_pos_bound; lia|done].
Qed.

(** ** Notes *)

Lemma recipientTypes_spec rs :
  (∀ u, is_Some (recipientTypes rs !! u) ↔ ∃ r, r ∈ rs ∧ nr_UserID r = u)
  ∧ ∀ u ty, recipientTypes rs !! u = Some ty →
      ∃ r, r ∈ rs ∧ nr_UserID r = u ∧ nr_Type r = ty.
Proof.
  unfold recipientTypes. enough (Hg : ∀ m : gmap string string,
    let m' := foldl (λ m r, match m !! nr_UserID r with Some _ => m | None => <[nr_UserID r := nr_Type r]> m end) m rs in
    (∀ u, is_Some (m' !! u) ↔ is_Some (m !! u) ∨ ∃ r, r ∈ rs ∧ nr_UserID r = u)
    ∧ ∀ u ty, m' !! u = Some ty → m !! u = Some ty ∨ ∃ r, r ∈ rs ∧ nr_UserID r = u ∧ nr_Type r = ty).
  { destruct (Hg ∅) as [H1 H2]. split.
    - intros u. rewrite H1, lookup_empty, is_Some_alt. naive_solver.
    - intros u ty [He|?]%H2; [by rewrite lookup_empty in He|done]. }
  induction rs as [|r rs IH]; intros m; cbn [foldl].
  { split; [|by left]. intros u. split; [by left|]. intros [?|(? & ?%elem_of_nil & _)]; done. }
  set (m1 := match m !! nr_UserID r with Some _ => m | None => _ end). destruct (IH m1) as [H1 H2].
  assert (Hm1 : ∀ u, is_Some (m1 !! u) ↔ is_Some (m !! u) ∨ nr_UserID r = u).
  { intros u. unfold m1. destruct (m !! nr_UserID r) eqn:E.
    - split; [by left|]. intros [?|<-]; [done|by rewrite E].
    - rewrite lookup_insert_is_Some'. naive_solver. }
  split.
  - intros u. rewrite H1, Hm1. setoid_rewrite elem_of_cons. naive_solver.
  - intros u ty [Hl|(r' & Hr' & Heq)]%H2; [|right; exists r'; split; [by right|done]].
    unfold m1 in Hl. destruct (m !! nr_UserID r) eqn:E; [by left|].
    apply lookup_insert_Some in Hl as [[<- <-]|[_ Hl]]; [|by left].
    right. exists r. split; [by left|done].
Qed.

Lemma recipients_of_types input : Forall valid_type (recipients_of input).
Proof.
  unfold recipients_of, valid_type. rewrite !Forall_app, !Forall_fmap.
  split_and!; apply Forall_true; intros u; cbn; set_solver.
Qed.

Lemma recipients_of_users input :
  nr_UserID <$> recipients_of input
  = dedupeAndTrim (To input) ++ dedupeAndTrim (CC input) ++ dedupeAndTrim (BCC input).
Proof.
  unfold recipients_of. rewrite !fmap_app, <-!list_fmap_compose.
  assert (Hid : ∀ ty (l : list string), (nr_UserID ∘ (λ u, mkNoteRecipient u ty)) <$> l = l).
  { intros ty l. induction l as [|x l IH]; cbn; [done|]. by f_equal. }
  by rewrite !Hid.
Qed.

(** ** Statuses *)

Lemma status_accepted status :
  is_ascii (TrimSpace status) = true →
  containsString statuses (ToLower (TrimSpace status)) = bool_decide (ToLower (TrimSpace status) ∈ statuses).
Proof.
  intros Ha. assert (Ht : trimmed (ToLower (TrimSpace status))) by (apply trimmed_ToLower; auto with msg).
  apply eq_true_iff_eq. rewrite containsString_true, bool_decide_eq_true, trimmed_TrimSpace by done.
  assert (Hst : Forall (λ st, TrimSpace st = st) statuses) by (repeat constructor; vm_compute; done).
  rewrite Forall_forall in Hst. split.
  - intros (item & Hin & Heq). rewrite Hst in Heq by done. by subst.
  - intros Hin. eauto.
Qed.

(** ** Logins *)

Lemma LoginDevice_Ok DB env read t u v name token allowed (s s' : Svc SessionDB) out :
  @LoginDevice _ (repo_store DB) env read t u v name token allowed s = (s', Ok out) →
  ∃ buf out0 allowed', read 32 = Ok buf ∧ TrimSpace t ≠ "" ∧ TrimSpace u ≠ "" ∧ TrimSpace v ≠ ""
    ∧ repo_UpsertDeviceSession DB env
        (mkDeviceSession "" (TrimSpace t) (TrimSpace u) (TrimSpace v) (TrimSpace name) "" (hex_encode buf)
           (dedupeAndTrim allowed') zero_time zero_time) (store s) = (store s', Ok out0)
    ∧ containsString allowed' (TrimSpace t) = true
    ∧ SessionID out = SessionID out0 ∧ device_key out = device_key out0
    ∧ SessionToken out = SessionToken out0 ∧ AllowedTenants out = AllowedTenants out0.
Proof.
  unfold LoginDevice. cbv zeta. case_decide as Hids; [done|].
  set (allowed1 := if decide (allowed = []) then [TrimSpace t] else allowed).
  set (allowed2 := if containsString allowed1 (TrimSpace t) then allowed1 else allowed1 ++ [TrimSpace t]).
  unfold randomToken. destruct (read 32) as [buf|] eqn:Er; [|done].
  destruct (on_store _ s) as [s1 [out0|e]] eqn:Eo; [|done]. intros [= <- <-].
  exists buf, out0, allowed2. split; [done|].
  assert (TrimSpace t ≠ "" ∧ TrimSpace u ≠ "" ∧ TrimSpace v ≠ "") as (? & ? & ?) by tauto.
  do 3 (split; [done|]). split; [|split; [|done]].
  - unfold on_store in Eo. cbn [UpsertDeviceSession repo_store] in Eo.
    destruct (repo_UpsertDeviceSession _ _ _ (store s)) as [d' r]. by simplify_eq.
  - unfold allowed2. destruct (containsString allowed1 (TrimSpace t)) eqn:Ec; [done|].
    apply containsString_true. exists (TrimSpace t). split; [|done]. apply elem_of_app. right. by left.
Qed.

Lemma validate_spec DB env t u sid k (s : Svc SessionDB) :
  TrimSpace t ≠ "" → TrimSpace u ≠ "" → TrimSpace sid ≠ "" → TrimSpace k ≠ "" → DB t = Ok tt →
  (@ValidateSession _ (repo_store DB) env t u sid k s).2
  = Ok (bool_decide (map_Exists (λ _ row, session_matches t u sid k row) (device_sessions (store s)))).
Proof.
  intros Ht Hu Hs Hk Hdb. unfold ValidateSession. rewrite decide_False by tauto.
  unfold on_store. cbn. unfold repo_ValidateAndTouchSession. by rewrite Hdb.
Qed.

(** * Properties *)

(** The session tables keep their invariant.  Whatever calls the session service makes (logins,
    validations, status changes, notes, inbox reads, read marks, chat notifications), whatever
    they answer, a store whose rows sit under their own keys, with unique session ids and
    tokens, one recipient row per note and user, and no dangling note or tenant, stays so. *)
Theorem session_store_invariant redis DB (cs : list svc_call) (s : Svc SessionDB) :
  db_inv (store s) → db_inv (store (run_calls redis DB cs s)).
Proof.
  revert s. induction cs as [|c cs IH]; intros s Hs; cbn; [done|]. apply IH. by apply run_call_store.
Qed.

Definition empty_db (ts : gset string) : SessionDB := mkSessionDB ts ∅ ∅ ∅ [] [] [].

Lemma empty_db_inv ts : db_inv (empty_db ts).
Proof.
  split; cbn; intros *; rewrite ?lookup_empty; try done. constructor.
Qed.

Lemma session_store_invariant_witness :
  let s := mkSvc (empty_db {["t"]}) NewHub [] in
  db_inv (store (run_calls None (λ _, Ok tt)
    [CallLogin (mkEnv 5 "id1") (λ _, Ok [1; 2]%Z) "t" "u" "dev" "" "tok" [];
     CallStatus (mkEnv 6 "") "t" "u" " Busy " ""] s)).
Proof.
  apply (session_store_invariant None (λ _, Ok tt)
    [CallLogin (mkEnv 5 "id1") (λ _, Ok [1; 2]%Z) "t" "u" "dev" "" "tok" [];
     CallStatus (mkEnv 6 "") "t" "u" " Busy " ""] (mkSvc (empty_db {["t"]}) NewHub [])).
  apply empty_db_inv.
Defined.

(** A login is good for one session per device.  After a successful login the returned session id
    and token validate, the session's allowed tenants contain its own tenant, and logging in again
    from the same device keeps the session id; if the new token differs, the old token is refused
    from then on and the new one is accepted. *)
Theorem login_then_validate DB (env1 env2 env3 : Env) (read1 read2 : nat → result (list Z))
    (t u v name1 name2 token1 token2 : string) (allowed1 allowed2 : list string)
    (s s1 s2 : Svc SessionDB) (out1 out2 : DeviceSession) (buf1 buf2 : list Z) :
  db_inv (store s) →
  read1 32 = Ok buf1 → read2 32 = Ok buf2 →
  Forall (λ b, 0 ≤ b < 256)%Z buf1 → Forall (λ b, 0 ≤ b < 256)%Z buf2 → buf1 ≠ [] → buf2 ≠ [] →
  LoginDevice (H := repo_store DB) env1 read1 t u v name1 token1 allowed1 s = (s1, Ok out1) →
  LoginDevice (H := repo_store DB) env2 read2 t u v name2 token2 allowed2 s1 = (s2, Ok out2) →
  TrimSpace (SessionID out1) ≠ "" →
  let valid out st := (ValidateSession (H := repo_store DB) env3 (ds_TenantID out) (ds_UserID out)
                         (SessionID out) (SessionToken out) st).2 in
  valid out1 s1 = Ok true ∧ ds_TenantID out1 ∈ AllowedTenants out1
  ∧ SessionID out2 = SessionID out1 ∧ valid out2 s2 = Ok true
  ∧ (hex_encode buf1 ≠ hex_encode buf2 → valid out1 s2 = Ok false).
Proof.
  intros Hinv Hr1 Hr2 Hb1 Hb2 Hn1 Hn2 Hl1 Hl2 Hsid. cbv zeta.
  destruct (LoginDevice_Ok _ _ _ _ _ _ _ _ _ _ _ _ Hl1) as (b1 & o1 & a1 & Hb1' & Ht & Hu & Hv & Hup1 & Hc1 & Hi1 & Hk1 & Htok1 & Hal1).
  destruct (LoginDevice_Ok _ _ _ _ _ _ _ _ _ _ _ _ Hl2) as (b2 & o2 & a2 & Hb2' & _ & _ & _ & Hup2 & _ & Hi2 & Hk2 & Htok2 & _).
  rewrite Hr1 in Hb1'. rewrite Hr2 in Hb2'. injection Hb1' as <-. injection Hb2' as <-.
  pose proof (upsert_device_inv DB env1 (mkDeviceSession "" (TrimSpace t) (TrimSpace u) (TrimSpace v)
    (TrimSpace name1) "" (hex_encode buf1) (dedupeAndTrim a1) zero_time zero_time) _ Hinv) as Hinv1.
  rewrite Hup1 in Hinv1. cbn [fst] in Hinv1.
  pose proof (upsert_device_inv DB env2 (mkDeviceSession "" (TrimSpace t) (TrimSpace u) (TrimSpace v)
    (TrimSpace name2) "" (hex_encode buf2) (dedupeAndTrim a2) zero_time zero_time) _ Hinv1) as Hinv2.
  rewrite Hup2 in Hinv2. cbn [fst] in Hinv2.
  assert (Hdb : DB (TrimSpace t) = Ok tt).
  { unfold repo_UpsertDeviceSession in Hup1. cbn in Hup1. destruct (DB (TrimSpace t)) as [[]|]; done. }
  destruct (upsert_Ok _ _ _ _ _ _ Hup1) as (Hrow1 & Hkey1 & Hst1 & Hall1 & _ & _).
  destruct (upsert_Ok _ _ _ _ _ _ Hup2) as (Hrow2 & Hkey2 & Hst2 & _ & Hsame & _).
  unfold device_key in *. cbn [ds_TenantID ds_UserID DeviceID SessionToken AllowedTenants] in *.
  specialize (Hsame _ Hrow1). cbn [dr] in Hsame.
  rewrite Hkey1 in Hk1. rewrite Hkey2 in Hk2.
  injection Hkey1 as Ha1 Hb1' Hd1. injection Hkey2 as Ha2 Hb2' Hd2.
  injection Hk1 as Hkt1 Hku1 Hkv1. injection Hk2 as Hkt2 Hku2 Hkv2.
  rewrite Hkt1, Hku1, Htok1, Hst1, Hkt2, Hku2, Htok2, Hst2.
  assert (Htrim : ∀ x, TrimSpace (TrimSpace x) = TrimSpace x) by apply TrimSpace_idem.
  assert (Hs2 : SessionID out2 = SessionID out1) by congruence.
  rewrite !validate_spec; try (rewrite ?Htrim; done); try (by rewrite ?Hs2); try (by apply hex_encode_token).
  split; [|split; [|split; [done|split]]].
  - f_equal. apply bool_decide_eq_true. eexists _, _. split; [exact Hrow1|].
    repeat split; cbn; congruence.
  - rewrite Hal1, Hall1. apply elem_of_dedupeAndTrim. split; [done|].
    apply containsString_true in Hc1 as (item & Hin & Heq). exists item. split; [done|].
    by rewrite Heq, Htrim.
  - f_equal. apply bool_decide_eq_true. eexists _, _. split; [exact Hrow2|].
    repeat split; cbn; congruence.
  - intros Hne. f_equal. apply bool_decide_eq_false. intros (k & row & Hrow & Hm).
    destruct Hm as (_ & _ & Hid & Htk & _).
    assert (k = (TrimSpace t, TrimSpace u, TrimSpace v)) as ->.
    { apply (di_session _ Hinv2 _ _ row _ Hrow Hrow2). cbn. congruence. }
    rewrite Hrow2 in Hrow. injection Hrow as <-. cbn in Htk. congruence.
Qed.

Lemma login_then_validate_witness :
  let st := repo_store (λ _, Ok tt) in
  let s := mkSvc (empty_db {["t"]}) NewHub [] in
  let out1 := mkDeviceSession "id1" "t" "u" "d" "" "tok" "0102" ["x"; "t"] 5 5 in
  (ValidateSession (mkEnv 9 "") "t" "u" "id1" "0102"
     (LoginDevice (mkEnv 5 "id1") (λ _, Ok [1; 2]%Z) "t" " u" "d" "" "tok" [" x"] s).1).2 = Ok true.
Proof.
  set (s := mkSvc (empty_db {["t"]}) NewHub []).
  set (r1 := LoginDevice (H := repo_store (λ _, Ok tt)) (mkEnv 5 "id1") (λ _, Ok [1; 2]%Z) "t" " u" "d" "" "tok" [" x"] s).
  set (r2 := LoginDevice (H := repo_store (λ _, Ok tt)) (mkEnv 6 "id2") (λ _, Ok [3; 4]%Z) "t" " u" "d" "" "tok" [] r1.1).
  set (out1 := mkDeviceSession "id1" "t" "u" "d" "" "tok" "0102" ["x"; "t"] 5 5).
  set (out2 := mkDeviceSession "id1" "t" "u" "d" "" "tok" "0304" ["t"] 6 5).
  apply (proj1 (login_then_validate (λ _, Ok tt) (mkEnv 5 "id1") (mkEnv 6 "id2") (mkEnv 9 "")
    (λ _, Ok [1; 2]%Z) (λ _, Ok [3; 4]%Z) "t" " u" "d" "" "" "tok" "tok" [" x"] [] s r1.1 r2.1 out1 out2
    [1; 2]%Z [3; 4]%Z (empty_db_inv {["t"]}) eq_refl eq_refl
    ltac:(repeat constructor; lia) ltac:(repeat constructor; lia) ltac:(discriminate) ltac:(discriminate)
    ltac:(vm_compute; reflexivity) ltac:(vm_compute; reflexivity) ltac:(vm_compute; discriminate))).
Defined.

(** Status changes.  For a status in ASCII, UpdateStatus accepts exactly the five statuses, in any
    case and with white space around: it records the status in lower case and the trimmed note for
    that user alone and broadcasts them to the tenant.  Any other status is refused and
    changes nothing. *)
Theorem update_status_accepts redis DB (env : Env) (t u status note : string)
    (s : Svc SessionDB) :
  is_ascii (TrimSpace status) = true → DB t = Ok tt → t ∈ tenants (store s) →
  let st := ToLower (TrimSpace status) in
  let row := mkUserStatus t u st (TrimSpace note) (NOW env) in
  if decide (st ∈ statuses) then
    ∃ s', UpdateStatus (H := repo_store DB) redis env t u status note s = (s', Ok tt)
      ∧ store s' = set_user_presence (<[(t, u) := row]> (user_presence (store s))) (store s)
      ∧ hub s' = (BroadcastTenant redis t
                    (frame_json (StatusChanged t u st (TrimSpace note) (NOW env))) (hub s)).1
  else ∃ e, UpdateStatus (H := repo_store DB) redis env t u status note s = (s, Err e).
Proof.
  intros Ha Hdb Ht. cbv zeta. unfold UpdateStatus. cbv zeta. rewrite status_accepted by done.
  destruct (decide (ToLower (TrimSpace status) ∈ statuses)) as [Hin|Hin].
  - rewrite decide_False by (intros Hb; rewrite Hb in Hin; vm_compute in Hin; set_solver).
    rewrite bool_decide_true by done. cbn [negb]. unfold on_store. cbn [UpdateSessionUserStatus repo_store].
    unfold repo_UpdateUserStatus. cbn [us_TenantID]. rewrite Hdb, decide_False by (intros Hn; done).
    eexists. split; [reflexivity|]. rewrite on_hub_store. cbn. split; [done|].
    unfold on_hub. cbn. by destruct (BroadcastTenant _ _ _ _).
  - case_decide; [eauto|]. rewrite bool_decide_false by done. eauto.
Qed.

Lemma update_status_accepts_witness :
  let s := mkSvc (empty_db {["t"]}) NewHub [] in
  let row := mkUserStatus "t" "u" "busy" "in a call" 7 in
  ∃ s', UpdateStatus (H := repo_store (λ _, Ok tt)) None (mkEnv 7 "")
          "t" "u" " BuSy " " in a call" s = (s', Ok tt)
    ∧ store s' = set_user_presence (<[("t", "u") := row]> ∅) (store s)
    ∧ hub s' = (BroadcastTenant None "t"
                  (frame_json (StatusChanged "t" "u" "busy" "in a call" 7)) (hub s)).1.
Proof.
  apply (update_status_accepts None (λ _, Ok tt) (mkEnv 7 "")
    "t" "u" " BuSy " " in a call" (mkSvc (empty_db {["t"]}) NewHub []));
    [vm_compute; reflexivity|reflexivity|]. cbn. set_solver.
Defined.

(** ** Delivery of notes *)

(** The frames of a local notification of several users. *)
Lemma notify_users_sent t us builder (h : Hub) :
  clients (foldl (λ h u, (notifyUserLocal t u (builder u) h).1) h us) = clients h
  ∧ sent (foldl (λ h u, (notifyUserLocal t u (builder u) h).1) h us)
    = sent h ++ (us ≫= λ u, (λ c, (ws_Conn c, builder u)) <$> members (sessions_of h (userKey t u))).
Proof.
  revert h. induction us as [|u us IH]; intros h; cbn [foldl].
  { by rewrite app_nil_r. }
  destruct (IH (notifyUserLocal t u (builder u) h).1) as [H1 H2]. rewrite H1, H2.
  destruct (write_all_clients (builder u) (members (sessions_of h (userKey t u))) h) as [Hc Hm].
  split; [exact Hc|]. rewrite notifyUserLocal_sent, bind_cons, <-app_assoc. do 2 f_equal.
  apply list_bind_ext; [|done]. intros u'. unfold sessions_of. cbn. by rewrite Hc, Hm.
Qed.

Lemma inbox_row_recipient d n row (r : NoteRecipient) :
  notes d !! NoteID n = Some n → rr_note row = NoteID n → rr_tenant row = n_TenantID n →
  ∃ item, inbox_row d row = Some item ∧ ii_NoteID item = NoteID n ∧ RecipientType item = rr_type row
          ∧ IsRead item = rr_is_read row ∧ ii_Title item = Title n ∧ ii_SenderUserID item = SenderUserID n.
Proof.
  intros Hn Hr Ht. unfold inbox_row. rewrite Hr, Hn, decide_True by done. eexists; split; [done|]. done.
Qed.

(** A recipient that is named once has the type it is named with. *)
Lemma recipientTypes_unique rs u ty :
  NoDup (nr_UserID <$> rs) → mkNoteRecipient u ty ∈ rs → recipientTypes rs !! u = Some ty.
Proof.
  intros Hnd Hin. destruct (recipientTypes_spec rs) as [Hdom Hval].
  destruct (proj2 (Hdom u)) as [ty' Hty']; [by eexists|].
  destruct (Hval _ _ Hty') as (r & Hr & Hu & <-). rewrite Hty'. f_equal.
  enough (r = mkNoteRecipient u ty) as -> by done.
  apply list_elem_of_lookup in Hr as [i Hi]. apply list_elem_of_lookup in Hin as [j Hj].
  enough (i = j) as -> by congruence. eapply (NoDup_lookup (nr_UserID <$> rs)); [done|..];
    rewrite list_lookup_fmap; [by rewrite Hi|rewrite Hj; cbn; by rewrite Hu].
Qed.

Lemma recipientTypes_users rs :
  NoDup (nr_UserID <$> rs) → (map_to_list (recipientTypes rs)).*1 ≡ₚ nr_UserID <$> rs.
Proof.
  intros Hnd. destruct (recipientTypes_spec rs) as [Hdom Hval].
  apply NoDup_Permutation; [apply NoDup_fst_map_to_list|done|]. intros u.
  rewrite !list_elem_of_fmap. split.
  - intros ([u' ty] & -> & Hm%elem_of_map_to_list). cbn.
    destruct (Hval _ _ Hm) as (r & Hr & <- & _). by exists r.
  - intros (r & -> & Hr). destruct (proj2 (Hdom (nr_UserID r))) as [ty Hty]; [by exists r|].
    exists (nr_UserID r, ty). split; [done|]. by apply elem_of_map_to_list.
Qed.

(** What a user's inbox shows of a note: it is there, unread, as the user is named, or it is not there. *)
Definition inbox_shows (DB : string → result unit) (limit : Z) (n : Note) (u : string) (d : SessionDB) : Prop :=
  ∃ items, (repo_ListInbox DB (n_TenantID n) u limit d).2 = Ok items
    ∧ (∀ ty, mkNoteRecipient u ty ∈ Recipients n →
         ∃ item, item ∈ items ∧ ii_NoteID item = NoteID n ∧ RecipientType item = ty
           ∧ IsRead item = false ∧ ii_Title item = Title n ∧ ii_SenderUserID item = SenderUserID n)
    ∧ ((∀ ty, mkNoteRecipient u ty ∉ Recipients n) → ∀ item, item ∈ items → ii_NoteID item ≠ NoteID n).

(** The notes in the user's inbox that are dated as late as this one, itself included. *)
Definition dated_as_late (n : Note) (u : string) (d : SessionDB) : nat := as_late (n_CreatedAt n) (n_TenantID n) u d.

(** The inbox of a user once a note's rows are in: the note is in it as the user is named, or not at all. *)
Lemma inbox_with_note DB u limit (n : Note) old (d : SessionDB) :
  DB (n_TenantID n) = Ok tt → notes d !! NoteID n = Some n →
  note_recipients d = old ++ recipient_rows n (Recipients n) → Forall (λ row, rr_note row ≠ NoteID n) old →
  (Z.of_nat (dated_as_late n u d) ≤ limit)%Z → inbox_shows DB limit n u d.
Proof.
  intros Hdb Hn Hrows Hold Hlim.
  destruct (list_inbox_spec DB (n_TenantID n) u limit d Hdb ltac:(lia)) as (items & Hl & Hsound & Hcomplete).
  exists items. rewrite Hl. split; [done|]. split.
  - intros ty Hr.
    destruct (inbox_row_recipient d n (mkRecipientRow (NoteID n) (n_TenantID n) u ty false) (mkNoteRecipient u ty))
      as (item & Hitem & Hprops); [done|done|done|].
    assert (ii_CreatedAt item = n_CreatedAt n) as Hat.
    { unfold inbox_row in Hitem. cbn [rr_note rr_tenant] in Hitem. rewrite Hn, decide_True in Hitem by done.
      by injection Hitem as <-. }
    exists item. split; [|exact Hprops]. apply Hcomplete; [|by rewrite Hat].
    rewrite elem_of_inbox_rows. eexists. split_and!; [| | |exact Hitem]; [|done|done].
    rewrite Hrows. apply elem_of_app. right. apply list_elem_of_fmap. by exists (mkNoteRecipient u ty).
  - intros Hnot item Hitem Heq. apply Hsound, elem_of_inbox_rows in Hitem as (row & Hrow & Hrt & Hru & Hitem).
    assert (rr_note row = NoteID n) by (unfold inbox_row in Hitem; repeat case_match; by simplify_eq).
    rewrite Hrows in Hrow. apply elem_of_app in Hrow as [Hrow|Hrow].
    + rewrite Forall_forall in Hold. by apply (Hold row).
    + apply list_elem_of_fmap in Hrow as ([u' ty] & -> & Hr). cbn in Hru. subst u'. by apply (Hnot ty).
Qed.

(** The note a sender asks for, and the conditions under which it is stored with all its recipients. *)
Definition asked_note (t sender : string) (input : NoteCreateInput) : Note :=
  mkNote "" t sender (TrimSpace (ni_Title input)) (ni_Body input) (recipients_of input) (ni_Files input) zero_time.

Record storable (DB : string → result unit) (env : Env) (t : string) (input : NoteCreateInput) (d : SessionDB) : Prop := mkStorable {
  st_inv : db_inv d;
  st_reached : DB t = Ok tt;
  st_tenant : t ∈ tenants d;
  st_fresh : notes d !! new_uuid env = None;
  st_titled : TrimSpace (ni_Title input) ≠ "";
  st_addressed : recipients_of input ≠ [];
  st_distinct : NoDup (dedupeAndTrim (To input) ++ dedupeAndTrim (CC input) ++ dedupeAndTrim (BCC input));
}.

Lemma note_stored DB env t sender input d :
  storable DB env t input d →
  let n := stored_note env (asked_note t sender input) in
  ∃ d', repo_CreateNote DB env (asked_note t sender input) d = (d', Ok n)
    ∧ ∀ u limit, (Z.of_nat (dated_as_late n u d') ≤ limit)%Z → inbox_shows DB limit n u d'.
Proof.
  intros [Hinv Hdb Ht Hnew _ Hne Hnd]. cbv zeta. rewrite <-recipients_of_users in Hnd.
  eexists. split.
  { apply (create_note_ok DB env (asked_note t sender input) d); try done. apply recipients_of_types. }
  intros u limit. apply (inbox_with_note DB u limit (stored_note env (asked_note t sender input)) (note_recipients d));
    [done|apply lookup_insert_eq|done|].
  apply Forall_forall. intros row Hrow Heq. pose proof (di_note_fk _ Hinv) as Hfk. rewrite Forall_forall in Hfk.
  destruct (Hfk row Hrow) as [x Hx]. cbn in Heq. congruence.
Qed.

(** The users a note is announced to, in the order the map of their types is iterated in. *)
Definition addressees (n : Note) : list string := (map_to_list (recipientTypes (Recipients n))).*1.

Lemma addressees_recipients env t sender input :
  NoDup (dedupeAndTrim (To input) ++ dedupeAndTrim (CC input) ++ dedupeAndTrim (BCC input)) →
  let n := stored_note env (asked_note t sender input) in
  addressees n ≡ₚ nr_UserID <$> recipients_of input
  ∧ ∀ u ty, mkNoteRecipient u ty ∈ recipients_of input → recipientTypes (Recipients n) !! u = Some ty.
Proof.
  rewrite <-recipients_of_users. intros Hnd. split; [by apply recipientTypes_users|].
  intros u ty. by apply recipientTypes_unique.
Qed.

(** What the service does with a note its store takes, whatever the store. *)
Lemma SendNote_announces {S} `{SessionStore S} redis env t sender input (s : Svc S) st n :
  TrimSpace (ni_Title input) ≠ "" → recipients_of input ≠ [] →
  CreateSessionNote env (asked_note t sender input) (store s) = (st, Ok n) →
  SendNote redis env t sender input s
  = (on_hub (NotifyUsers redis t (addressees n) (note_frame t sender n (recipientTypes (Recipients n))))
       (mkSvc st (hub s) (published s)), Ok n).
Proof.
  intros Htitle Hne Hst. unfold SendNote. rewrite decide_False by done.
  rewrite decide_False; [by erewrite on_store_Ok by exact Hst|].
  intros H0. apply Hne. unfold recipients_of.
  assert (To input = [] ∧ CC input = [] ∧ BCC input = []) as (-> & -> & ->); [|done].
  destruct (To input), (CC input), (BCC input); cbn in H0; try lia. done.
Qed.

(** A note reaches its recipients.  When the tenant exists, the title is not blank and no user is
    named twice across to, cc and bcc (each list being trimmed and deduplicated), SendNote stores
    the note; every named user finds it unread in the inbox with the title, the sender and the
    type of the list that names the user, unless more notes than the inbox is asked for are dated as late; nobody else does; and, without Redis, every live session
    of a named user gets exactly one frame, with that type. *)
Theorem note_reaches_recipients DB (env : Env) (t sender : string)
    (input : NoteCreateInput) (s : Svc SessionDB) :
  storable DB env t input (store s) →
  let n := stored_note env (asked_note t sender input) in
  ∃ s', SendNote (H := repo_store DB) None env t sender input s = (s', Ok n)
    ∧ (∀ u limit, (Z.of_nat (dated_as_late n u (store s')) ≤ limit)%Z → inbox_shows DB limit n u (store s'))
    ∧ addressees n ≡ₚ nr_UserID <$> recipients_of input
    ∧ (∀ u ty, mkNoteRecipient u ty ∈ recipients_of input → recipientTypes (Recipients n) !! u = Some ty)
    ∧ sent (hub s') = sent (hub s) ++ (addressees n ≫= λ u,
        (λ c, (ws_Conn c, note_frame t sender n (recipientTypes (Recipients n)) u))
          <$> members (sessions_of (hub s) (userKey t u))).
Proof.
  intros Hst n. destruct (note_stored DB env t sender input (store s) Hst) as (d & Hd & Hinbox).
  destruct Hst as [_ _ _ _ Htitle Hne Hnd]. eexists. split; [by apply (SendNote_announces (H := repo_store DB))|].
  rewrite on_hub_store. split; [done|].
  destruct (addressees_recipients env t sender input Hnd) as [Hus Hty]. split_and!; [done..|].
  unfold on_hub. cbn. apply notify_users_sent.
Qed.

Definition demo_note : NoteCreateInput := mkNoteCreateInput " hi " "body" ["a"; " a "] ["b"] [] [].

Lemma note_reaches_recipients_witness :
  let s := mkSvc (empty_db {["t"]}) (run_hub [DoRegister (mkWSClient "t" "b" "s1" 4)]) [] in
  ∃ s', SendNote (H := repo_store (λ _, Ok tt)) None (mkEnv 3 "n1") "t" "me" demo_note s
        = (s', Ok (stored_note (mkEnv 3 "n1") (asked_note "t" "me" demo_note))).
Proof.
  destruct (note_reaches_recipients (λ _, Ok tt) (mkEnv 3 "n1") "t" "me" demo_note
    (mkSvc (empty_db {["t"]}) (run_hub [DoRegister (mkWSClient "t" "b" "s1" 4)]) []))
    as (s' & H1 & _).
  - split.
    + apply empty_db_inv.
    + reflexivity.
    + cbn. set_solver.
    + reflexivity.
    + vm_compute. discriminate.
    + vm_compute. discriminate.
    + vm_compute. apply NoDup_cons. split; [|apply NoDup_singleton].
      intros Hin. apply list_elem_of_singleton in Hin. discriminate.
  - exists s'. exact H1.
Defined.

(** A user named twice makes the whole note fail.  If a user appears (after trimming) in two of to,
    cc and bcc, SendNote ends in an error, for any title and whatever the database holds: nothing
    is stored and nobody is notified, the other recipients included. *)
Theorem note_with_repeated_recipient_fails redis DB (env : Env) (t sender u : string)
    (input : NoteCreateInput) (s : Svc SessionDB) :
  (u ∈ dedupeAndTrim (To input) ∧ u ∈ dedupeAndTrim (CC input))
  ∨ (u ∈ dedupeAndTrim (To input) ∧ u ∈ dedupeAndTrim (BCC input))
  ∨ (u ∈ dedupeAndTrim (CC input) ∧ u ∈ dedupeAndTrim (BCC input)) →
  ∃ e, SendNote (H := repo_store DB) redis env t sender input s = (s, Err e).
Proof.
  intros Hdup. unfold SendNote. case_decide; [eauto|]. case_decide; [eauto|].
  set (rto := (λ u, mkNoteRecipient u "to") <$> dedupeAndTrim (To input)).
  set (rcc := (λ u, mkNoteRecipient u "cc") <$> dedupeAndTrim (CC input)).
  set (rbcc := (λ u, mkNoteRecipient u "bcc") <$> dedupeAndTrim (BCC input)).
  assert (∃ rs1 rs2 r1 r2, recipients_of input = rs1 ++ rs2 ∧ r1 ∈ rs1 ∧ r2 ∈ rs2 ∧ nr_UserID r1 = nr_UserID r2)
    as (rs1 & rs2 & r1 & r2 & Hsplit & H1 & H2 & Heq).
  { assert (Hto : u ∈ dedupeAndTrim (To input) → mkNoteRecipient u "to" ∈ rto) by (intros; apply list_elem_of_fmap; eauto).
    assert (Hcc : u ∈ dedupeAndTrim (CC input) → mkNoteRecipient u "cc" ∈ rcc) by (intros; apply list_elem_of_fmap; eauto).
    assert (Hb : u ∈ dedupeAndTrim (BCC input) → mkNoteRecipient u "bcc" ∈ rbcc) by (intros; apply list_elem_of_fmap; eauto).
    destruct Hdup as [[Ha1 Ha2]|[[Ha1 Ha2]|[Ha1 Ha2]]].
    - exists rto, (rcc ++ rbcc), (mkNoteRecipient u "to"), (mkNoteRecipient u "cc").
      split_and!; [done|by apply Hto|apply elem_of_app; left; by apply Hcc|done].
    - exists rto, (rcc ++ rbcc), (mkNoteRecipient u "to"), (mkNoteRecipient u "bcc").
      split_and!; [done|by apply Hto|apply elem_of_app; right; by apply Hb|done].
    - exists (rto ++ rcc), rbcc, (mkNoteRecipient u "cc"), (mkNoteRecipient u "bcc").
      split_and!; [by rewrite <-app_assoc|apply elem_of_app; right; by apply Hcc|by apply Hb|done]. }
  unfold on_store. cbn [CreateSessionNote repo_store].
  edestruct (create_note_dup DB env
    (mkNote "" t sender (TrimSpace (ni_Title input)) (ni_Body input) (recipients_of input) (ni_Files input) zero_time)
    (store s) rs1 rs2 r1 r2) as [e He]; [done..|]. rewrite He. exists e. by destruct s.
Qed.

Lemma note_with_repeated_recipient_fails_witness :
  let s := mkSvc (empty_db {["t"]}) NewHub [] in
  ∃ e, SendNote (H := repo_store (λ _, Ok tt)) None (mkEnv 3 "n1") "t" "me"
         (mkNoteCreateInput "hi" "body" ["ann"; "bob"] [] [" ann"] []) s = (s, Err e).
Proof.
  apply (note_with_repeated_recipient_fails None (λ _, Ok tt) (mkEnv 3 "n1") "t" "me" "ann"
    (mkNoteCreateInput "hi" "body" ["ann"; "bob"] [] [" ann"] [])
    (mkSvc (empty_db {["t"]}) NewHub [])).
  right. left. split; apply elem_of_dedupeAndTrim; (split; [discriminate|]); cbn.
  - exists "ann". split; [by left|reflexivity].
  - exists " ann". split; [by left|reflexivity].
Defined.
