(* ===== verification/ChatApi.v ===== *)
(** * The chat service's HTTP interface

    server/chat/api/handler.go and response.go: the REST handlers over [ChatService], behind
    AuthRequired.  The gate of the WebSocket endpoint is in [RealtimeWS].  A handler's state is the
    chat service and what was published on the rooms' channels. *)

From S2P Require Import Prelude GoStrings GoEncoding Cursor Paging Env Auth SessionStore ChatStore GoJson GoTime.
From S2P Require Import JsonText ChatService RealtimeRooms RealtimeWS Users Tenants FileStore Wire Gin.

(** ** Bodies of responses *)

(* server/chat/api/response.go: NewPaginatedResponse #46-51 *)
Definition NewPaginatedResponse {A} (c : codec A) (r : list A * string) : json :=
  JObj (("items", enc (c_list c) r.1) :: (if is_empty r.2 then [] else [("next_cursor", JStr r.2)])).
(* server/chat/api/response.go: NewHealthResponse *)
Definition NewHealthResponse (status : string) : json := JObj [("status", JStr status)].
(* server/chat/api/response.go: NewAliasesResponse *)
Definition NewAliasesResponse (aliases : list string) : json := JObj [("aliases", enc (c_list c_string) aliases)].
(* server/chat/api/response.go: NewRoomUnreadCountResponse *)
Definition NewRoomUnreadCountResponse (roomID userID : string) (unreadCount : nat) : json :=
  JObj [("room_id", JStr roomID); ("user_id", JStr userID); ("unread_count", enc c_count unreadCount)].
(* server/chat/api/response.go: NewReadStateResponse *)
Definition NewReadStateResponse (roomID userID lastReadMessageID : string) : json :=
  JObj [("room_id", JStr roomID); ("user_id", JStr userID); ("last_read_message_id", JStr lastReadMessageID)].

(** ** Who is asking *)

(* server/chat/api/handler.go: tenantFromContext *)
Definition tenantFromContext (c : Ctx) : result string :=
  match ctx_string c "auth_tenant_id" with Some t => Ok t | None => Err "unauthorized" end.

(* server/chat/api/handler.go: actorFromContext *)
Definition actorFromContext (c : Ctx) : result (string * string) :=
  match ctx_string c "auth_user_id", ctx_string c "auth_role" with
  | Some u, Some role => Ok (u, role)
  | _, _ => Err "unauthorized"
  end.

Section api.
Context `{Gin} {S : Type} `{ChatBackend S}.
Variables (useMQ hasMQ : bool).
Variable vector : string → option string → Z → result (list string).
(** The Redis router, and what Redis says to a publication. *)
Variable ClientForTenant : string → result unit.
Variable redis : string → wsEnvelope → result unit.

(** The chat service, and the envelopes published, with their channels. *)
Record ChatApp := mkChatApp { ca_chat : ChatSvc S; ca_out : list (string * wsEnvelope) }.

Definition on_svc {A} (m : M (ChatSvc S) A) : M ChatApp A := λ w,
  let '(s, r) := m (ca_chat w) in (mkChatApp s (ca_out w), r).

Definition on_st {A} (m : M S A) : M ChatApp A := on_svc (on_cstore m).

(* server/chat/service/realtime_service.go: PublishMessage *)
Definition PublishMessage (tenantID roomID userID : string) (message : Message) : M ChatApp unit := λ w,
  match ClientForTenant tenantID with
  | Err e => (w, Err e)
  | Ok _ =>
      let env := mkWsEnvelope "message" roomID userID "" (PMessage message) in
      match redis (room_channel tenantID roomID) env with
      | Err e => (w, Err e)
      | Ok _ => (mkChatApp (ca_chat w) (ca_out w ++ [(room_channel tenantID roomID, env)]), Ok tt)
      end
  end.

(** The tenant, and the actor, or 401. *)
Definition with_tenant (rq : Request) (k : string → handler ChatApp) : handler ChatApp :=
  match tenantFromContext (rq_ctx rq) with Err e => refuse 401 e | Ok t => k t end.

Definition with_actor (rq : Request) (k : string → handler ChatApp) : handler ChatApp :=
  match actorFromContext (rq_ctx rq) with Err e => refuse 401 e | Ok (u, _) => k u end.

(** ** The handlers *)

(* server/chat/api/handler.go: createRoom *)
Definition api_createRoom (env : Env) (rq : Request) : handler ChatApp :=
  with_tenant rq (λ t, with_actor rq (λ u,
    with_body (dec_object ["name"; "room_type"; "member_ids"] (λ o,
      name ← required c_string (o "name"); ty ← optional c_string (o "room_type");
      ids ← optional (c_list c_string) (o "member_ids");
      Some (name, ty, ids))) (rq_body rq) (λ '(name, ty, ids),
        let ty := if decide (ty = "") then "group" else ty in
        answer 201 500 NewIDResponse (on_svc (CreateRoom env t (mkChatRoom "" "" name ty u zero_time) ids))))).

(* server/chat/api/handler.go: listMyRooms *)
Definition api_listMyRooms (rq : Request) : handler ChatApp :=
  with_tenant rq (λ t, with_actor rq (λ u,
    answer 200 400 (NewPaginatedResponse c_ChatRoomSummary)
      (on_svc (ListMyRooms t u (query_limit rq "50") (Query rq "cursor"))))).

(* server/chat/api/handler.go: addMember *)
Definition api_addMember (env : Env) (rq : Request) : handler ChatApp :=
  with_tenant rq (λ t,
    with_body (dec_object ["user_id"] (λ o, u ← required c_string (o "user_id"); Some u)) (rq_body rq) (λ u,
      answer 200 500 (λ _, NewOKResponse) (on_svc (AddMember env t (Param rq "id") u)))).

(** The message, persisted and published; an error of the publication is an error of the request. *)
Definition create_and_publish (env : Env) (t r u : string) (msg : Message) : handler ChatApp := λ w,
  match on_svc (CreateMessage useMQ hasMQ env msg) w with
  | (w, Err e) => (w, RError 500 e)
  | (w, Ok created) =>
      if IsMQEnabled useMQ hasMQ then (w, RJson 201 (enc c_Message created))
      else
        match PublishMessage t r u created w with
        | (w, Err e) => (w, RError 500 e)
        | (w, Ok _) => (w, RJson 201 (enc c_Message created))
        end
  end.

(* server/chat/api/handler.go: createMessage *)
Definition api_createMessage (env : Env) (rq : Request) : handler ChatApp :=
  with_tenant rq (λ t, with_actor rq (λ u,
    with_body (dec_object ["body"; "file_id"; "file_ids"; "emojis"] (λ o,
      body ← required c_string (o "body"); fileID ← optional (c_ptr c_string) (o "file_id");
      fileIDs ← optional (c_list c_string) (o "file_ids"); emojis ← optional (c_ptr (c_list c_string)) (o "emojis");
      Some (body, fileID, fileIDs, emojis))) (rq_body rq) (λ '(body, fileID, fileIDs, emojis),
        create_and_publish env t (Param rq "id") u
          (mkMessage t "" (Param rq "id") u body (BuildMessageMeta fileID fileIDs emojis) zero_time)))).

(* server/chat/api/handler.go: listMessages *)
Definition api_listMessages (rq : Request) : handler ChatApp :=
  with_tenant rq (λ t,
    answer 200 400 (NewPaginatedResponse c_Message)
      (on_svc (ListMessages t (Param rq "id") (query_limit rq "50") (Query rq "cursor")))).

(* server/chat/api/handler.go: getRoomUnreadCount *)
Definition api_getRoomUnreadCount (rq : Request) : handler ChatApp :=
  with_tenant rq (λ t, with_actor rq (λ u,
    answer 200 500 (NewRoomUnreadCountResponse (Param rq "id") u) (on_svc (GetUnreadCount t (Param rq "id") u)))).

(* server/chat/api/handler.go: getMyUnreadCounts *)
Definition api_getMyUnreadCounts (rq : Request) : handler ChatApp :=
  with_tenant rq (λ t, with_actor rq (λ u,
    answer 200 500 (enc (c_list c_RoomUnread)) (on_svc (GetUnreadCounts t u)))).

(* server/chat/api/handler.go: markRoomRead *)
Definition api_markRoomRead (env : Env) (rq : Request) : handler ChatApp :=
  with_tenant rq (λ t, with_actor rq (λ u,
    with_body (dec_object ["message_id"] (λ o, id ← required c_string (o "message_id"); Some id)) (rq_body rq) (λ id,
      answer 200 500 (λ _, NewOKResponse) (on_svc (MarkReadUpTo env t (Param rq "id") u id))))).

(* server/chat/api/handler.go: getMyReadState *)
Definition api_getMyReadState (rq : Request) : handler ChatApp :=
  with_tenant rq (λ t, with_actor rq (λ u,
    answer 200 500 (NewReadStateResponse (Param rq "id") u) (on_svc (GetLastReadMessageID t (Param rq "id") u)))).

(* server/chat/api/handler.go: getMessageReaders *)
Definition api_getMessageReaders (rq : Request) : handler ChatApp :=
  with_tenant rq (λ t,
    answer 200 500 (enc (c_list c_MessageRead)) (on_svc (GetMessageReaders t (Param rq "id") (Param rq "messageId")))).

(* server/chat/api/handler.go: searchMessages *)
Definition api_searchMessages (rq : Request) : handler ChatApp :=
  with_tenant rq (λ t,
    let roomID := if decide (Query rq "room_id" = "") then None else Some (Query rq "room_id") in
    answer 200 400 (NewPaginatedResponse c_Message)
      (on_svc (SearchMessages vector t (Query rq "q") roomID (query_limit rq "30") (Query rq "cursor")))).

(** ** The routes *)
Variable parse : string → result (string * string * string).

Definition chat_routes (env : Env) : list (string * (Request → handler ChatApp)) := [
  ("POST /api/v1/rooms", api_createRoom env);
  ("GET /api/v1/rooms", api_listMyRooms);
  ("POST /api/v1/rooms/:id/members", api_addMember env);
  ("POST /api/v1/rooms/:id/messages", api_createMessage env);
  ("GET /api/v1/rooms/:id/messages", api_listMessages);
  ("GET /api/v1/rooms/:id/unread-count", api_getRoomUnreadCount);
  ("GET /api/v1/rooms/unread-counts", api_getMyUnreadCounts);
  ("POST /api/v1/rooms/:id/read", api_markRoomRead env);
  ("GET /api/v1/rooms/:id/read", api_getMyReadState);
  ("GET /api/v1/rooms/:id/messages/:messageId/readers", api_getMessageReaders);
  ("GET /api/v1/messages/search", api_searchMessages)].

(** What the server makes of a REST request, given the pattern gin matched it with.  GET /ws, which hands the
    connection over, is [RealtimeWS.handleWS]. *)
(* server/chat/api/handler.go: RegisterRoutes *)
Definition serve_chat (env : Env) (pattern : string) (rq : Request) : handler ChatApp :=
  if decide (pattern = "GET /health") then λ s, (s, RJson 200 (NewHealthResponse "ok"))
  else match find_route pattern (chat_routes env) with
  | Some h => guarded [AuthRequired parse] h rq
  | None => refuse 404 "404 page not found"
  end.
End api.

(** * Lemmas *)

(** ** Who is asking *)

Lemma auth_context_inv parse c c' :
  AuthRequired parse c = Next c' →
  ∃ token u t role, headers c "Authorization" = "Bearer " +:+ token ∧ parse token = Ok (u, t, role)
    ∧ tenantFromContext c' = Ok t ∧ actorFromContext c' = Ok (u, role).
Proof.
  intros Hn. destruct (auth_next_context parse c c' Hn) as (token & u & t & role & Hh & Hp & H1 & H2 & H3).
  exists token, u, t, role. unfold tenantFromContext, actorFromContext. by rewrite H1, H2, H3.
Qed.

(** ** Messages *)

Lemma create_message_stored `{Postgres} (DB : string → result unit) env m d d' m' :
  repo_CreateMessage DB env m d = (d', Ok m') →
  messages d' = messages d ++ [as_stored m'] ∧ m_ID m' ∉ m_ID <$> messages d ∧ m_ID m' = new_uuid env
  ∧ m_RoomID m' = m_RoomID m ∧ SenderID m' = SenderID m ∧ m_Body m' = m_Body m.
Proof. unfold repo_CreateMessage. by repeat case_match; intros [= <- <-]. Qed.

(** ** What the calls of a store leave alone *)

(** Nothing but the creation of a message changes what [obs] sees of the store. *)
Record only_creation_seen {S X} (obs : S → X) (B : ChatBackend S) : Prop := {
  seen_CreateRoom env t room ids s : obs (st_CreateRoom env t room ids s).1 = obs s;
  seen_AddMember env t r u s : obs (st_AddMember env t r u s).1 = obs s;
  seen_MarkReadUpTo env t r u id s : obs (st_MarkReadUpTo env t r u id s).1 = obs s;
  seen_ListMessages t r limit c s : obs (st_ListMessages t r limit c s).1 = obs s;
  seen_SearchMessages t q r limit c s : obs (st_SearchMessages t q r limit c s).1 = obs s;
  seen_GetMessageReaders t r id s : obs (st_GetMessageReaders t r id s).1 = obs s;
  seen_GetLastReadMessageID t r u s : obs (st_GetLastReadMessageID t r u s).1 = obs s;
  seen_GetUnreadCount t r u s : obs (st_GetUnreadCount t r u s).1 = obs s;
  seen_GetUnreadCounts t u s : obs (st_GetUnreadCounts t u s).1 = obs s;
  seen_ListMyRooms t u limit at_ r s : obs (st_ListMyRooms t u limit at_ r s).1 = obs s;
}.

(** The messages a recording store was asked to create. *)
Lemma recording_seen {S} (B : ChatBackend S) : only_creation_seen snd (recording B).
Proof. split; intros; destruct s as [s l]; cbn; unfold unrecorded; by match goal with |- context [let '(_, _) := ?x in _] => destruct x end. Qed.

Section messages.
Context `{Postgres}.
Variable DB : string → result unit.

(** An operation that leaves the messages alone. *)
Definition mute {A} (m : M ChatDB A) : Prop := ∀ d, messages (m d).1 = messages d.

Lemma insert_member_mute env t r u : mute (insert_member env t r u).
Proof. intros d. unfold insert_member. by repeat case_match. Qed.

Lemma create_room_mute env t room ids : mute (repo_CreateRoom DB env t room ids).
Proof.
  intros d. unfold repo_CreateRoom. destruct (DB t); [|done]. unfold transaction.
  pose proof (for_each_inv (λ d', messages d' = messages d) (insert_member env t (new_uuid env)) ids) as Hloop.
  unfold insert_room. case_decide as Hfk; [done|]. case_decide as Hdup; [done|]. set (d1 := set_chat_rooms _ d).
  specialize (Hloop d1). destruct (for_each _ ids d1) as [d2 [[]|e]]; [|done]. cbn [fst] in Hloop.
  pose proof (insert_member_mute env t (new_uuid env) (CreatedBy room) d2) as Hm.
  destruct (insert_member env t _ _ d2) as [d3 [[]|e]]; [|done]. cbn in *. rewrite Hm. apply Hloop; [|done].
  intros u d' _ Hd'. by rewrite insert_member_mute.
Qed.

Lemma add_member_mute env t r u : mute (repo_AddMember DB env t r u).
Proof. intros d. unfold repo_AddMember. destruct (DB t); [apply insert_member_mute|done]. Qed.

Lemma mark_read_mute env t r u id : mute (repo_MarkReadUpTo DB env t r u id).
Proof. intros d. unfold repo_MarkReadUpTo. cbv zeta. by repeat case_match. Qed.

(** dbman's tables of messages. *)
Lemma dbman_seen : only_creation_seen messages (dbman_chat_store DB).
Proof.
  split; intros; cbn [dbman_chat_store st_CreateRoom st_AddMember st_MarkReadUpTo st_ListMessages st_SearchMessages
    st_GetMessageReaders st_GetLastReadMessageID st_GetUnreadCount st_GetUnreadCounts st_ListMyRooms];
    first [apply create_room_mute | apply add_member_mute | apply mark_read_mute | idtac];
    unfold dbman_ListMessages, repo_ListMessages, dbman_SearchMessages, repo_SearchMessages, repo_GetMessageReaders,
      repo_GetLastReadMessageID, repo_GetUnreadCount, repo_GetUnreadCounts, dbman_ListMyRooms, repo_ListMyRooms;
    by repeat case_match; simplify_eq/=.
Qed.
End messages.

(** ** The handlers over a store *)
Section requests.
Context {S X : Type} (B : ChatBackend S) (obs : S → X) (Hobs : only_creation_seen obs B) `{Gin}.
Variables (useMQ hasMQ : bool) (vector : string → option string → Z → result (list string)).
Variable ClientForTenant : string → result unit.
Variable redis : string → wsEnvelope → result unit.
Variable parse : string → result (string * string * string).

#[local] Existing Instance B.
Notation store w := (cstore (ca_chat w)).
Notation serve := (serve_chat useMQ hasMQ vector ClientForTenant redis parse).

(** A handler that is not seen to touch the store, and announces nothing. *)
Definition quiet (h : handler (ChatApp (S := S))) : Prop :=
  ∀ w, obs (store (h w).1) = obs (store w) ∧ ca_out (h w).1 = ca_out w.

Definition svc_unseen {A} (m : M (ChatSvc S) A) : Prop := ∀ s, obs (cstore (m s).1) = obs (cstore s).

Lemma answer_quiet {A} ok failed (enc : A → json) (m : M (ChatSvc S) A) :
  svc_unseen m → quiet (answer ok failed enc (on_svc m)).
Proof.
  intros Hm w. unfold answer, on_svc. specialize (Hm (ca_chat w)). by destruct (m (ca_chat w)) as [s [a|e]].
Qed.

Lemma on_cstore_unseen {A} (m : M S A) : (∀ s, obs (m s).1 = obs s) → svc_unseen (on_cstore m).
Proof. intros Hm s. unfold on_cstore. specialize (Hm (cstore s)). by destruct (m (cstore s)). Qed.

Lemma body_quiet {T} (bind : json → option T) body k : (∀ r, quiet (k r)) → quiet (with_body bind body k).
Proof. intros Hk w. unfold with_body. destruct (ShouldBindJSON bind body); [apply Hk|done]. Qed.

Lemma tenant_quiet rq k : (∀ t, quiet (k t)) → quiet (with_tenant rq k).
Proof. intros Hk w. unfold with_tenant. destruct (tenantFromContext _); [apply Hk|done]. Qed.

Lemma actor_quiet rq k : (∀ u, quiet (k u)) → quiet (with_actor rq k).
Proof. intros Hk w. unfold with_actor. destruct (actorFromContext _) as [[u role]|]; [apply Hk|done]. Qed.

Lemma list_messages_unseen t r limit c : svc_unseen (ListMessages t r limit c).
Proof.
  intros s. unfold ListMessages. cbv zeta. destruct (message_cursor c); [|done].
  pose proof (on_cstore_unseen _ (seen_ListMessages _ _ Hobs t r (clamp limit 200 50 + 1) a) s) as Hq.
  by destruct (on_cstore _ s) as [s' []].
Qed.

Lemma search_unseen t q r limit c : svc_unseen (SearchMessages vector t q r limit c).
Proof.
  intros s. unfold SearchMessages. cbv zeta. destruct (message_cursor c); [|done].
  pose proof (on_cstore_unseen _ (seen_SearchMessages _ _ Hobs t q r (clamp limit 100 30 + 1) a) s) as Hq.
  destruct (on_cstore _ s) as [s' []]; [|done]. by repeat case_match; simplify_eq/=.
Qed.

Lemma list_rooms_unseen t u limit c : svc_unseen (ListMyRooms t u limit c).
Proof.
  intros s. unfold ListMyRooms. cbv zeta. destruct (room_cursor c) as [[at_ r]|]; [|done].
  pose proof (on_cstore_unseen _ (seen_ListMyRooms _ _ Hobs t u (clamp limit 200 50 + 1) at_ r) s) as Hq.
  by destruct (on_cstore _ s) as [s' []].
Qed.

Ltac solve_quiet :=
  repeat first
    [ match goal with |- ∀ _, _ => intros ? end
    | case_match
    | apply tenant_quiet | apply actor_quiet | apply body_quiet
    | apply answer_quiet; first [apply list_messages_unseen | apply search_unseen | apply list_rooms_unseen
      | apply on_cstore_unseen; intros ?; first [apply (seen_CreateRoom _ _ Hobs) | apply (seen_AddMember _ _ Hobs)
        | apply (seen_MarkReadUpTo _ _ Hobs) | apply (seen_GetMessageReaders _ _ Hobs)
        | apply (seen_GetLastReadMessageID _ _ Hobs) | apply (seen_GetUnreadCount _ _ Hobs)
        | apply (seen_GetUnreadCounts _ _ Hobs)]] ].

Lemma other_routes_quiet env pattern rq h :
  find_route pattern (chat_routes useMQ hasMQ vector ClientForTenant redis env) = Some h →
  pattern ≠ "POST /api/v1/rooms/:id/messages" → quiet (h rq).
Proof.
  unfold chat_routes. cbn [find_route].
  repeat match goal with
  | |- (if decide ?P then _ else _) = _ → _ =>
      let Hp := fresh in destruct (decide P) as [Hp|Hp];
        [subst pattern; intros [= <-] Hne; first [done | clear Hne; solve_quiet]|clear Hp]
  end. done.
Qed.

(** *** Sending a message *)

(** The store was asked once to create [m], a message of the tenant, the room and the user, and what it answered was
    announced on the room's channel, or nothing was. *)
Definition asked_to_create (env : Env) (t r u : string) (w w' : ChatApp (S := S)) (m : Message) : Prop :=
  m_TenantID m = t ∧ m_RoomID m = r ∧ SenderID m = u
  ∧ obs (store w') = obs (st_CreateMessage env m (store w)).1
  ∧ (ca_out w' = ca_out w
     ∨ ∃ m', (st_CreateMessage env m (store w)).2 = Ok m'
         ∧ ca_out w' = ca_out w ++ [(room_channel t r, mkWsEnvelope "message" r u "" (PMessage m'))]).

Lemma create_message_svc env msg (s : ChatSvc S) :
  ∃ m, m_TenantID m = m_TenantID msg ∧ m_RoomID m = m_RoomID msg ∧ SenderID m = SenderID msg
    ∧ (CreateMessage useMQ hasMQ env msg s).2 = (st_CreateMessage env m (cstore s)).2
    ∧ obs (cstore (CreateMessage useMQ hasMQ env msg s).1) = obs (st_CreateMessage env m (cstore s)).1.
Proof.
  unfold CreateMessage. set (m := mkMessage _ _ _ _ _ _ _). exists m. repeat split; unfold on_cstore at 1.
  - destruct (st_CreateMessage env m (cstore s)) as [s1 [c|e]]; [|done]. by destruct (on_cstore _ _) as [s2 r2].
  - destruct (st_CreateMessage env m (cstore s)) as [s1 [c|e]]; [|done]. cbv zeta.
    match goal with |- context [on_cstore ?f ?s2] =>
      pose proof (on_cstore_unseen f (seen_MarkReadUpTo _ _ Hobs _ _ _ _ _) s2) as Hq; destruct (on_cstore f s2) end.
    cbn [fst cstore] in *. rewrite Hq. by destruct (IsMQEnabled _ _).
Qed.

Lemma create_and_publish_asks env t r u msg w :
  m_TenantID msg = t → m_RoomID msg = r → SenderID msg = u →
  ∃ m, asked_to_create env t r u w (create_and_publish useMQ hasMQ ClientForTenant redis env t r u msg w).1 m.
Proof.
  intros <- <- <-. destruct (create_message_svc env msg (ca_chat w)) as (m & Ht & Hr & Hu & Hres & Hst).
  exists m. unfold create_and_publish, on_svc. destruct (CreateMessage useMQ hasMQ env msg (ca_chat w)) as [s [c|e]].
  - cbn [fst snd] in *. destruct (IsMQEnabled useMQ hasMQ); [repeat split; auto|].
    unfold PublishMessage. destruct (ClientForTenant _); [destruct (redis _ _)|]; repeat split; eauto.
  - repeat split; auto.
Qed.

(** What a request does to the store and the channels: nothing that is seen, or it sends one message in the name of
    its token. *)
Lemma request_outcome env pattern rq w :
  let w' := (serve env pattern rq w).1 in
  (obs (store w') = obs (store w) ∧ ca_out w' = ca_out w)
  ∨ ∃ token u t role m,
      headers (rq_ctx rq) "Authorization" = "Bearer " +:+ token ∧ parse token = Ok (u, t, role)
      ∧ pattern = "POST /api/v1/rooms/:id/messages" ∧ asked_to_create env t (Param rq "id") u w w' m.
Proof.
  cbv zeta. unfold serve_chat. case_decide; [by left|]. destruct (find_route pattern _) as [h|] eqn:Eh; [|by left]. cbn [guarded].
  destruct (AuthRequired parse (rq_ctx rq)) as [st msg|c'] eqn:Ea; [by left|].
  destruct (decide (pattern = "POST /api/v1/rooms/:id/messages")) as [->|Hne];
    [|left; by apply (other_routes_quiet env pattern (with_ctx c' rq) h Eh)].
  injection Eh as <-. destruct (auth_context_inv _ _ _ Ea) as (token & u & t & role & Hh & Hp & Ht & Ha).
  unfold api_createMessage, with_tenant, with_actor. cbn [rq_ctx with_ctx]. rewrite Ht, Ha.
  unfold with_body. destruct (ShouldBindJSON _ _) as [[[[b f] fs] em]|]; [|by left].
  right. change (Param (with_ctx c' rq) "id") with (Param rq "id").
  match goal with |- context [create_and_publish _ _ _ _ _ _ _ _ ?msg w] =>
    destruct (create_and_publish_asks env t (Param rq "id") u msg w eq_refl eq_refl eq_refl) as [m Hm] end.
  by exists token, u, t, role, m.
Qed.
End requests.

(** ** Membership *)
Section rest.
Context `{Postgres} `{Gin}.
Variable DB : string → result unit.
Variables (useMQ hasMQ : bool) (vector : string → option string → Z → result (list string)).
Variable ClientForTenant : string → result unit.
Variable redis : string → wsEnvelope → result unit.
Variable parse : string → result (string * string * string).

#[local] Instance rest_store : ChatBackend ChatDB := dbman_chat_store DB.
Notation App := (ChatApp (S := ChatDB)).
Notation stored w := (messages (cstore (ca_chat w))).

(** The same tables with other members in the rooms. *)
Definition with_members (x : list MemberRow) (w : App) : App :=
  let s := ca_chat w in
  mkChatApp (mkChatSvc (set_room_members x (cstore s)) (mq_sent s) (indexed s)) (ca_out w).

(** What does not look at the members. *)
Definition blind {B} (h : App → App * B) : Prop := ∀ x w, h (with_members x w) = let '(w', b) := h w in (with_members x w', b).
Definition store_blind {B} (m : ChatDB → ChatDB * B) : Prop :=
  ∀ x d, m (set_room_members x d) = let '(d', b) := m d in (set_room_members x d', b).

Lemma list_messages_blind t r limit c : store_blind (dbman_ListMessages DB t r limit c).
Proof. intros x d. unfold dbman_ListMessages, repo_ListMessages. by repeat case_match. Qed.

Lemma search_messages_blind t q r limit c : store_blind (dbman_SearchMessages DB t q r limit c).
Proof. intros x d. unfold dbman_SearchMessages, repo_SearchMessages. by repeat case_match. Qed.

Lemma readers_blind t r id : store_blind (repo_GetMessageReaders DB t r id).
Proof. intros x d. unfold repo_GetMessageReaders. by repeat case_match. Qed.

Lemma create_blind env m : store_blind (repo_CreateMessage DB env m).
Proof.
  intros x []. unfold repo_CreateMessage. cbn. destruct (DB _); [|done]. destruct (negb _); [done|].
  case_decide; [done|]. by case_decide.
Qed.

Lemma mark_read_blind env t r u id : store_blind (repo_MarkReadUpTo DB env t r u id).
Proof.
  intros x d. unfold repo_MarkReadUpTo. cbv zeta. change (read_targets t r id (set_room_members x d)) with (read_targets t r id d).
  destruct d. cbn. destruct (DB _); [|done]. case_decide; [done|]. by case_decide.
Qed.

Lemma on_store_blind {A} (m : M ChatDB A) x w :
  store_blind m → on_st m (with_members x w) = let '(w', r) := on_st m w in (with_members x w', r).
Proof.
  intros Hm. unfold on_st, on_svc, on_cstore, with_members. cbn. rewrite Hm. by destruct (m (cstore (ca_chat w))).
Qed.

Lemma answer_blind {A} ok failed (enc : A → json) m : blind m → blind (answer ok failed enc m).
Proof. intros Hm x w. unfold answer. rewrite Hm. by destruct (m w) as [w' [a|e]]. Qed.

Lemma tenant_blind rq k : (∀ t, blind (k t)) → blind (with_tenant rq k).
Proof. intros Hk x w. unfold with_tenant. destruct (tenantFromContext _); [apply Hk|done]. Qed.

Lemma svc_list_blind t r limit c : blind (on_svc (ListMessages t r limit c)).
Proof.
  intros x w. unfold on_svc, ListMessages. cbv zeta. destruct (message_cursor c) as [cid|e]; [|done].
  unfold on_cstore. cbn [st_ListMessages rest_store dbman_chat_store with_members ca_chat cstore].
  rewrite list_messages_blind. by destruct (dbman_ListMessages _ _ _ _ _ _) as [d [l|e]].
Qed.

Lemma svc_search_blind t q r limit c : blind (on_svc (SearchMessages vector t q r limit c)).
Proof.
  intros x w. unfold on_svc, SearchMessages. cbv zeta. destruct (message_cursor c) as [cid|e]; [|done].
  unfold on_cstore. cbn [st_SearchMessages rest_store dbman_chat_store with_members ca_chat cstore].
  rewrite search_messages_blind. destruct (dbman_SearchMessages _ _ _ _ _ _ _) as [d [l|e]]; [|done].
  destruct (cut_items _ _ l), cid as [cid|]; [done|]. by destruct (vector _ _ _) as [[|i ids]|e].
Qed.

Lemma svc_create_blind env msg : blind (on_svc (CreateMessage useMQ hasMQ env msg)).
Proof.
  intros x w. unfold on_svc, CreateMessage, on_cstore. cbv zeta.
  cbn [st_CreateMessage st_MarkReadUpTo rest_store dbman_chat_store with_members ca_chat cstore mq_sent indexed].
  rewrite create_blind. destruct (repo_CreateMessage _ _ _ _) as [d [m|e]]; [|done].
  cbn [cstore mq_sent indexed]. destruct (IsMQEnabled useMQ hasMQ); cbn [cstore mq_sent indexed]; rewrite mark_read_blind;
    by destruct (repo_MarkReadUpTo _ _ _ _ _ _ _).
Qed.

Lemma create_and_publish_blind env t r u msg :
  blind (create_and_publish useMQ hasMQ ClientForTenant redis env t r u msg).
Proof.
  intros x w. unfold create_and_publish. rewrite svc_create_blind.
  destruct (on_svc _ w) as [w' [m|e]]; [|done]. destruct (IsMQEnabled useMQ hasMQ); [done|].
  unfold PublishMessage. by repeat case_match; simplify_eq/=.
Qed.

Definition blind_routes : list string :=
  ["POST /api/v1/rooms/:id/messages"; "GET /api/v1/rooms/:id/messages"; "GET /api/v1/messages/search";
   "GET /api/v1/rooms/:id/messages/:messageId/readers"].

Lemma room_routes_blind env pattern rq h :
  find_route pattern (chat_routes useMQ hasMQ vector ClientForTenant redis env) = Some h →
  pattern ∈ blind_routes → blind (h rq).
Proof.
  unfold blind_routes. rewrite !elem_of_cons, elem_of_nil. intros Hf [->|[->|[->|[->|[]]]]]; injection Hf as <-;
    apply tenant_blind; intros t.
  - intros x w. unfold with_actor. destruct (actorFromContext _) as [[u role]|]; [|done].
    unfold with_body. destruct (ShouldBindJSON _ _) as [[[[b f] fs] em]|]; [|done]. apply create_and_publish_blind.
  - apply answer_blind, svc_list_blind.
  - apply answer_blind, svc_search_blind.
  - apply answer_blind. intros x w. by apply on_store_blind, readers_blind.
Qed.

(** * Properties *)

(** A message can be stored and its sender told that it was not: when the publication fails. *)
Theorem unpublished_message_is_stored (env : Env) t r u (msg : Message) (w : App) e :
  IsMQEnabled useMQ hasMQ = false → ClientForTenant t = Err e →
  m_TenantID msg = t → m_RoomID msg = r → SenderID msg = u →
  (∃ d m, repo_CreateMessage DB env (mkMessage t (m_ID msg) r u (m_Body msg)
            (if decide (MetaJSON msg = "") then "{}" else MetaJSON msg) (m_CreatedAt msg)) (cstore (ca_chat w)) = (d, Ok m)) →
  let '(w', res) := create_and_publish useMQ hasMQ ClientForTenant redis env t r u msg w in
  res = RError 500 e ∧ ∃ m, stored w' = stored w ++ [as_stored m].
Proof.
  intros Hmq Hc <- <- <- (d & m & Hd). unfold create_and_publish, on_svc, CreateMessage, on_cstore.
  cbn [st_CreateMessage st_MarkReadUpTo rest_store dbman_chat_store]. rewrite Hd. cbv zeta. cbn [cstore].
  match goal with |- context [repo_MarkReadUpTo ?a ?b ?c ?d ?e ?f ?g] =>
    pose proof (mark_read_mute a b c d e f g) as Hmute; destruct (repo_MarkReadUpTo a b c d e f g) as [d2 r2] end.
  rewrite Hmq in *. unfold PublishMessage. rewrite Hc. split; [done|]. exists m. cbn in *. rewrite Hmute.
  apply (create_message_stored DB env _ _ _ _ Hd).
Qed.
End rest.

(** C7: What a REST request sends, it sends as the user of its token.  Whatever the route, the body and what the store
    answers, a request asks the store at most once to create a message; if it does, the request had a bearer token, and
    the message has the tenant and the user of that token and the room of the path.  At most one envelope is
    announced, on the channel of that tenant and room, with the message the store answered.  With dbman called
    directly the tables then hold at most one message more, the one that was answered (its metadata as the JSONB column
    reads back).  (Over the network the endpoint client may send the one call again when its answer is lost, and dbman
    then stores it again: see lost_reply_stores_twice.) *)
Theorem rest_speaks_for_token `{Gin} useMQ hasMQ vector (ClientForTenant : string → result unit)
    (redis : string → wsEnvelope → result unit) parse (env : Env) (pattern : string) (rq : Request) :
  (∀ S (B : ChatBackend S) (w : ChatApp (S := S * list Message)),
     let '(w', _) := serve_chat (H0 := recording B) useMQ hasMQ vector ClientForTenant redis parse env pattern rq w in
     let asked w := (cstore (ca_chat w)).2 in
     (asked w' = asked w ∧ ca_out w' = ca_out w)
     ∨ ∃ token u t role m,
         headers (rq_ctx rq) "Authorization" = "Bearer " +:+ token ∧ parse token = Ok (u, t, role)
         ∧ pattern = "POST /api/v1/rooms/:id/messages"
         ∧ asked w' = asked w ++ [m] ∧ m_TenantID m = t ∧ m_RoomID m = Param rq "id" ∧ SenderID m = u
         ∧ (ca_out w' = ca_out w
            ∨ ∃ m', (st_CreateMessage (ChatBackend := B) env m (cstore (ca_chat w)).1).2 = Ok m'
                ∧ ca_out w' = ca_out w ++ [(room_channel t (Param rq "id"),
                                            mkWsEnvelope "message" (Param rq "id") u "" (PMessage m'))]))
  ∧ ∀ (PG : Postgres) (DB : string → result unit) (w : ChatApp (S := ChatDB)),
     let '(w', _) := serve_chat (H0 := dbman_chat_store DB) useMQ hasMQ vector ClientForTenant redis parse env pattern rq w in
     let stored w := messages (cstore (ca_chat w)) in
     (stored w' = stored w ∧ ca_out w' = ca_out w)
     ∨ ∃ token u t role m,
         headers (rq_ctx rq) "Authorization" = "Bearer " +:+ token ∧ parse token = Ok (u, t, role)
         ∧ pattern = "POST /api/v1/rooms/:id/messages"
         ∧ stored w' = stored w ++ [as_stored m] ∧ m_TenantID m = t ∧ m_RoomID m = Param rq "id" ∧ SenderID m = u
         ∧ (ca_out w' = ca_out w
            ∨ ca_out w' = ca_out w ++ [(room_channel t (Param rq "id"),
                                        mkWsEnvelope "message" (Param rq "id") u "" (PMessage m))]).
Proof.
  split.
  - intros S B w. pose proof (request_outcome (recording B) snd (recording_seen B) useMQ hasMQ vector ClientForTenant redis
      parse env pattern rq w) as Hout. destruct (serve_chat _ _ _ _ _ _ _ _ _ w) as [w' res]. cbv zeta in *.
    destruct Hout as [Hq|(token & u & t & role & m & Hh & Hp & Hr & Ht & Hroom & Hu & Hst & Hann)]; [by left|].
    right. exists token, u, t, role, m. cbn [fst] in *. cbn [st_CreateMessage recording] in Hst, Hann.
    destruct (cstore (ca_chat w)) as [s l]. cbn [fst snd] in *.
    destruct (st_CreateMessage env m s) as [s' a]. by split_and!.
  - intros PG DB w. pose proof (request_outcome (dbman_chat_store DB) messages (dbman_seen DB) useMQ hasMQ vector
      ClientForTenant redis parse env pattern rq w) as Hout. destruct (serve_chat _ _ _ _ _ _ _ _ _ w) as [w' res]. cbv zeta in *.
    destruct Hout as [Hq|(token & u & t & role & m & Hh & Hp & Hr & Ht & Hroom & Hu & Hst & Hann)]; [by left|].
    cbn [fst] in *. cbn [st_CreateMessage dbman_chat_store] in Hst, Hann.
    destruct (repo_CreateMessage DB env m (cstore (ca_chat w))) as [d [m'|e]] eqn:E.
    + right. destruct (create_message_stored DB env m _ _ _ E) as (Hs & _ & _ & Hr' & Hu' & _).
      assert (m_TenantID m' = m_TenantID m) by (unfold repo_CreateMessage in E; by repeat case_match; simplify_eq/=).
      exists token, u, t, role, m'. cbn [fst snd] in *. rewrite Hst. split_and!; try congruence.
      destruct Hann as [Hann|(m2 & [= <-] & Hann)]; [by left|by right].
    + left. assert (d = cstore (ca_chat w)) as -> by (unfold repo_CreateMessage in E; by repeat case_match; simplify_eq/=).
      split; [done|]. by destruct Hann as [Hann|(m2 & [=] & _)].
Qed.

(** C22: The REST interface does not look at who is in a room.  No route, over whatever store, asks the store's
    IsRoomMember: with any other answers to that question every request is answered the same and leaves the same store.  And the rooms' messages are open to the
    whole tenant: with dbman called directly, posting a message, listing a room's messages, searching them and listing
    a message's readers do not depend on the table of members: with any other members, and with none, the same
    requests are answered the same and store the same. *)
Theorem rest_ignores_membership `{Gin} useMQ hasMQ vector (ClientForTenant : string → result unit)
    (redis : string → wsEnvelope → result unit) parse (env : Env) (pattern : string) (rq : Request) :
  (∀ S (B : ChatBackend S) f (w : ChatApp (S := S)),
     serve_chat (H0 := asking_members f B) useMQ hasMQ vector ClientForTenant redis parse env pattern rq w
     = serve_chat (H0 := B) useMQ hasMQ vector ClientForTenant redis parse env pattern rq w)
  ∧ ∀ (PG : Postgres) (DB : string → result unit) (x : list MemberRow) (w : ChatApp (S := ChatDB)),
     pattern ∈ ["POST /api/v1/rooms/:id/messages"; "GET /api/v1/rooms/:id/messages"; "GET /api/v1/messages/search";
                "GET /api/v1/rooms/:id/messages/:messageId/readers"] →
     let serve := serve_chat (H0 := dbman_chat_store DB) useMQ hasMQ vector ClientForTenant redis parse env pattern rq in
     serve (with_members x w) = let '(w', r) := serve w in (with_members x w', r).
Proof.
  split; [done|]. intros PG DB x w Hp. cbv zeta. unfold serve_chat. case_decide; [done|].
  destruct (find_route pattern _) as [h|] eqn:Eh; [|done]. cbn [guarded].
  destruct (AuthRequired parse (rq_ctx rq)) as [st msg|c']; [done|].
  by apply (room_routes_blind DB useMQ hasMQ vector ClientForTenant redis env pattern (with_ctx c' rq) h).
Qed.

(** * Concrete runs *)

#[local] Existing Instance demo_pg.
#[local] Instance demo_gin : Gin := {| bind_error _ := "EOF"; required_struct := true |}.

Definition demo_app : ChatApp (S := ChatDB) := mkChatApp demo_svc [].
Definition demo_request (body : string) : Request :=
  mkRequest body (λ _, "r") (λ _, None) "10.0.0.1" "curl" (mkCtx (λ _, "Bearer tok") ∅).

(** In the witness a user who is in no room posts to the room. *)
Lemma rest_ignores_membership_witness :
  let serve := serve_chat (H0 := dbman_chat_store (λ _, Ok tt)) false false (λ _ _ _, Err "off") (λ _, Ok tt) (λ _ _, Ok tt)
    (λ _, Ok ("u", "a", "user")) (mkEnv 50 "m9") "POST /api/v1/rooms/:id/messages"
    (demo_request (marshal_json (JObj [("body", JStr "hi")]))) in
  serve (with_members [] demo_app) = (let '(w', r) := serve demo_app in (with_members [] w', r))
  ∧ status_of (serve (with_members [] demo_app)).2 = 201%Z.
Proof.
  split; [|vm_compute; reflexivity].
  apply (proj2 (rest_ignores_membership false false (λ _ _ _, Err "off") (λ _, Ok tt) (λ _ _, Ok tt)
    (λ _, Ok ("u", "a", "user")) _ _ _)). by left.
Defined.
