(* ===== verification/OrgApi.v ===== *)
(** * orgHub's HTTP interface

    server/orgHub/api/handler.go: the login, and the handlers of units, users and aliases over the
    services of [Users], behind AuthRequired and, for the administration, RequireRoles. *)

From S2P Require Import Prelude GoStrings GoEncoding Cursor Paging Env Auth SessionStore ChatStore GoJson GoTime.
From S2P Require Import JsonText ChatService Users Tenants FileStore Wire Gin Binding.

Definition UserRoleAdmin : string := "admin".
Definition UserRoleManager : string := "manager".

(** ** Who is asking *)

(* server/orgHub/api/handler.go: actorFromContext *)
Definition actorFromContext (c : Ctx) : option (string * string) :=
  match ctx_string c "auth_tenant_id", ctx_string c "auth_user_id" with
  | Some t, Some u => if decide (TrimSpace t = "" ∨ TrimSpace u = "") then None else Some (t, u)
  | _, _ => None
  end.

(* server/orgHub/api/handler.go: actorRoleFromContext *)
Definition actorRoleFromContext (c : Ctx) : option string :=
  match ctx_string c "auth_role" with
  | Some role => if decide (TrimSpace role = "") then None else Some (TrimSpace role)
  | None => None
  end.

Section api.
Context `{Gin} {S : Type} `{OrgBackend S}.
(** The signer of the tokens. *)
Variable SignedString : string → string → Claims → result string.
Variable auth : AuthService.

Definition with_actor (rq : Request) (k : string → string → handler S) : handler S :=
  match actorFromContext (rq_ctx rq) with
  | None => refuse 401 ErrUnauthorized
  | Some (t, u) => k t u
  end.

(** ** The handlers *)

(* server/orgHub/api/handler.go: createOrgUnit *)
Definition orgapi_createOrgUnit (env : Env) (rq : Request) : handler S :=
  with_actor rq (λ t _,
    with_body (dec_object ["parent_id"; "name"] (λ o,
      parent ← optional (c_ptr c_string) (o "parent_id"); name ← required c_string (o "name");
      Some (parent, name))) (rq_body rq) (λ '(parent, name),
        answer 201 500 NewIDResponse (orghub_CreateOrgUnit env t parent name))).

(* server/orgHub/api/handler.go: listOrgUnits *)
Definition orgapi_listOrgUnits (rq : Request) : handler S :=
  with_actor rq (λ t _, answer 200 500 (enc (c_list c_OrgUnit)) (orghub_ListOrgUnits t)).

(** The password goes where the hash will be. *)
(* server/orgHub/api/handler.go: createUser *)
Definition orgapi_createUser (env : Env) (rq : Request) : handler S :=
  with_actor rq (λ t _,
    with_body (dec_object ["org_id"; "email"; "password"; "name"; "title"; "role"; "status"; "status_note"] (λ o,
      org ← required c_string (o "org_id"); email ← required c_string (o "email");
      password ← required c_string (o "password"); name ← required c_string (o "name");
      title ← optional c_string (o "title"); role ← optional c_string (o "role");
      status ← optional c_string (o "status"); note ← optional c_string (o "status_note");
      Some (mkUser "" "" org email name title role status note password zero_time zero_time)))
      (rq_body rq) (λ user, answer 201 500 NewIDResponse (orghub_CreateUser env t user))).

(* server/orgHub/api/handler.go: updateUserStatus *)
Definition orgapi_updateUserStatus (env : Env) (rq : Request) : handler S :=
  let target := Param rq "id" in
  with_actor rq (λ t actor,
    match actorRoleFromContext (rq_ctx rq) with
    | None => refuse 401 ErrUnauthorized
    | Some role =>
        if decide (actor ≠ target ∧ role ≠ UserRoleAdmin ∧ role ≠ UserRoleManager)
        then refuse 403 ErrCannotUpdateOtherUserState
        else
          with_body (dec_object ["status"; "note"] (λ o,
            status ← required c_string (o "status"); note ← optional c_string (o "note");
            Some (status, note))) (rq_body rq) (λ '(status, note),
              answer 200 500 (λ _, NewOKResponse) (orghub_UpdateStatus env t target status note))
    end).

(* server/orgHub/api/handler.go: searchUsers *)
Definition orgapi_searchUsers (rq : Request) : handler S :=
  with_actor rq (λ t _,
    answer 200 500 (enc (c_list c_User)) (orghub_SearchUsers t (Query rq "q") (query_limit rq "20"))).

(* server/orgHub/api/handler.go: listMyAliases *)
Definition orgapi_listMyAliases (rq : Request) : handler S :=
  with_actor rq (λ t u,
    answer 200 500 (λ l, JObj [("aliases", enc (c_list c_string) l)]) (orghub_ListAliases t u)).

Definition alias_body : json → option string :=
  dec_object ["alias"] (λ o, alias ← required c_string (o "alias"); Some alias).

(* server/orgHub/api/handler.go: addMyAlias *)
Definition orgapi_addMyAlias (env : Env) (rq : Request) : handler S :=
  with_actor rq (λ t u, with_body alias_body (rq_body rq) (λ alias,
    answer 200 400 (λ _, NewOKResponse) (orghub_AddAlias env t u alias (rq_ip rq) (rq_agent rq)))).

(* server/orgHub/api/handler.go: deleteMyAlias *)
Definition orgapi_deleteMyAlias (env : Env) (rq : Request) : handler S :=
  with_actor rq (λ t u, with_body alias_body (rq_body rq) (λ alias,
    answer 200 400 (λ _, NewOKResponse) (orghub_DeleteAlias env t u alias (rq_ip rq) (rq_agent rq)))).

(** A bound of the query: none, an instant, or a text that is not one. *)
Definition query_time (rq : Request) (k : string) : option (option time) :=
  if decide (Query rq k = "") then Some None else Some <$> ParseRFC3339 (Query rq k).

(* server/orgHub/api/handler.go: listMyAliasAudit *)
Definition orgapi_listMyAliasAudit (rq : Request) : handler S :=
  with_actor rq (λ t u,
    match query_time rq "from" with
    | None => refuse 400 "from must use RFC3339 format"
    | Some from =>
        match query_time rq "to" with
        | None => refuse 400 "to must use RFC3339 format"
        | Some to_ =>
            answer 200 400
              (λ '(items, next), JObj (("items", enc (c_list c_AliasAudit) items) ::
                                       (if is_empty next then [] else [("next_cursor", JStr next)])))
              (orghub_ListAliasAudit t u (query_limit rq "50") from to_ (Query rq "action") (Query rq "cursor"))
        end
    end).

(** The token is for the tenant of the request and the user and role of the answer. *)
(* server/orgHub/api/handler.go: loginAuth *)
Definition loginAuth (now : time) (rq : Request) : handler S :=
  with_body (dec_object ["tenant_id"; "email"; "password"] (λ o,
    t ← required c_string (o "tenant_id"); email ← required c_string (o "email");
    password ← required c_string (o "password");
    Some (t, email, password))) (rq_body rq) (λ '(t, email, password) s,
      match orghub_Authenticate t email password s with
      | (s, Err _) => (s, RError 401 ErrInvalidCredentials)
      | (s, Ok user) =>
          match GenerateToken SignedString auth now (u_ID user) t (u_Role user) with
          | Err e => (s, RError 500 e)
          | Ok token => (s, RJson 200 (NewTokenResponse token (u_ID user) t (u_Role user)))
          end
      end).

(** ** The routes *)
Variable parse : string → result (string * string * string).

(** The routes behind the roles, and the ones open to every user. *)
Definition org_admin_routes (env : Env) : list (string * (Request → handler S)) := [
  ("POST /api/v1/org-units", orgapi_createOrgUnit env);
  ("GET /api/v1/org-units", orgapi_listOrgUnits);
  ("POST /api/v1/users", orgapi_createUser env)].

Definition org_user_routes (env : Env) : list (string * (Request → handler S)) := [
  ("PATCH /api/v1/users/:id/status", orgapi_updateUserStatus env);
  ("GET /api/v1/users/search", orgapi_searchUsers);
  ("GET /api/v1/users/me/aliases", orgapi_listMyAliases);
  ("POST /api/v1/users/me/aliases", orgapi_addMyAlias env);
  ("DELETE /api/v1/users/me/aliases", orgapi_deleteMyAlias env);
  ("GET /api/v1/users/me/aliases/audit", orgapi_listMyAliasAudit)].

(* server/orgHub/api/handler.go: RegisterRoutes *)
Definition serve_org (env : Env) (pattern : string) (rq : Request) : handler S :=
  if decide (pattern = "GET /health") then health rq
  else if decide (pattern = "POST /api/v1/auth/login") then loginAuth (NOW env) rq
  else
    match find_route pattern (org_admin_routes env) with
    | Some h => guarded [AuthRequired parse; RequireRoles [UserRoleAdmin; UserRoleManager]] h rq
    | None =>
        match find_route pattern (org_user_routes env) with
        | Some h => guarded [AuthRequired parse] h rq
        | None => refuse 404 "404 page not found"
        end
    end.
End api.

(** * Lemmas *)

Lemma actor_of_context c t u : actorFromContext c = Some (t, u) →
  ctx_string c "auth_tenant_id" = Some t ∧ ctx_string c "auth_user_id" = Some u.
Proof. unfold actorFromContext. repeat case_match; try done. by intros [= <- <-]. Qed.

(** ** The rows of the other tenants *)
Section isolation.
Context `{Postgres}.
Variable DB : string → result unit.

Definition foreign (t : string) (d : OrgDB) :=
  (filter (λ r, u_TenantID r.2 ≠ t) (users (o_chat d)), filter (λ a, al_tenant a ≠ t) (user_aliases (o_chat d)),
   filter (λ o, ou_TenantID o ≠ t) (org_units d), filter (λ x, aa_TenantID x ≠ t) (alias_audit d)).

Definition isolated {A} (t : string) (m : M OrgDB A) : Prop := ∀ d, foreign t (m d).1 = foreign t d.

Lemma filter_own {B} (P : B → Prop) `{∀ x, Decision (P x)} l x : ¬ P x → filter P (l ++ [x]) = filter P l.
Proof. intros Hx. rewrite filter_app, filter_cons, filter_nil, decide_False by done. by rewrite app_nil_r. Qed.

Lemma create_org_unit_isolated env t p n : isolated t (repo_CreateOrgUnit DB env t p n).
Proof.
  intros d. unfold repo_CreateOrgUnit. repeat case_match; try done. unfold foreign. cbn.
  f_equal. f_equal. apply filter_own. cbn. tauto.
Qed.

Lemma create_user_isolated generate env t u : isolated t (dbman_CreateUser DB generate env t u).
Proof.
  intros d. unfold dbman_CreateUser, repo_CreateUser. cbv zeta. case_decide as Hp; [done|].
  destruct (generate _); [|done]. destruct (DB t); [|done]. destruct (decide (t ∉ _ ∨ _)); [done|].
  destruct (decide (is_Some _ ∨ _)) as [|Hdup]; [done|]. unfold foreign. cbn. do 3 f_equal. apply map_filter_insert_not'; cbn; [tauto|].
  intros y Hy. destruct Hdup. left. by exists y.
Qed.

Lemma update_user_isolated env t u s n : isolated t (repo_UpdateStatus DB env t u s n).
Proof.
  intros d. unfold repo_UpdateStatus. destruct (DB t); [|done]. destruct (users (o_chat d) !! u) as [r|] eqn:El; [|done].
  case_decide as Ht; [|done]. unfold foreign. cbn. do 3 f_equal. apply map_filter_insert_not'; cbn; [tauto|].
  intros y Hy. rewrite El in Hy. injection Hy as <-. tauto.
Qed.

Lemma insert_audit_isolated env t u a action ip ag als d d' :
  insert_audit env t u a action ip ag (set_user_aliases als d) = (d', Ok tt) →
  filter (λ a, al_tenant a ≠ t) als = filter (λ a, al_tenant a ≠ t) (user_aliases (o_chat d)) →
  foreign t d' = foreign t d.
Proof.
  intros Hi Hals. unfold insert_audit in Hi. case_decide as Hn; [done|]. injection Hi as <-.
  unfold foreign. cbn. rewrite Hals. f_equal. apply filter_own. cbn. tauto.
Qed.

Lemma transaction_isolated {A} t (m : M OrgDB A) d :
  (∀ d' x, m d = (d', Ok x) → foreign t d' = foreign t d) → foreign t (transaction m d).1 = foreign t d.
Proof. intros Hm. destruct (transaction_spec m d) as [(d' & x & E & ->)|(e & ->)]; [by eapply Hm|done]. Qed.

Lemma add_alias_isolated env t u a ip ag : isolated t (dbman_AddAlias DB env t u a ip ag).
Proof.
  intros d. unfold dbman_AddAlias, repo_AddAlias. cbv zeta. case_decide as Ha; [done|]. do 2 (case_match; [done|]).
  destruct (DB t); [|done]. apply transaction_isolated. intros d' []. case_decide as Htaken; [by intros [= <-]|].
  case_decide as Hfk; [done|]. intros Hi. eapply insert_audit_isolated; [exact Hi|]. apply filter_own. cbn. tauto.
Qed.

Lemma delete_alias_isolated env t u a ip ag : isolated t (dbman_DeleteAlias DB env t u a ip ag).
Proof.
  intros d. unfold dbman_DeleteAlias, repo_DeleteAlias. cbv zeta. case_decide as Ha; [done|]. case_match; [done|].
  destruct (DB t); [|done]. apply transaction_isolated. intros d' []. case_decide as Hex; [|by intros [= <-]].
  intros Hi. eapply insert_audit_isolated; [exact Hi|]. apply list_filter_filter_l.
  intros x Hx (Ht & _). by apply Hx.
Qed.

Lemma reader_isolated {A} t (m : M OrgDB A) : (∀ d, (m d).1 = d) → isolated t m.
Proof. intros Hm d. by rewrite Hm. Qed.
End isolation.

(** ** The handlers over dbman *)
Section rest.
Context `{Postgres} `{Gin}.
Variable user_match : User → string → bool.
Variable DB : string → result unit.
Variables (generate : string → result string) (compare : string → string → result unit).
Variable SignedString : string → string → Claims → result string.
Variable auth : AuthService.
Variable parse : string → result (string * string * string).

#[local] Instance org_store : OrgBackend OrgDB := dbman_org_store user_match DB generate compare.
Notation serve := (serve_org SignedString auth parse).

(** A handler that answers for tenant [t] alone. *)
Definition confined (t : string) (h : handler OrgDB) : Prop := ∀ d, foreign t (h d).1 = foreign t d.

Lemma answer_confined {A} t ok failed (enc : A → json) m : isolated t m → confined t (answer ok failed enc m).
Proof. intros Hm d. unfold answer. specialize (Hm d). by destruct (m d) as [d' [a|e]]. Qed.

Lemma body_confined {T} t (bind : json → option T) body k : (∀ r, confined t (k r)) → confined t (with_body bind body k).
Proof. intros Hk d. unfold with_body. destruct (ShouldBindJSON bind body); [apply Hk|done]. Qed.

Lemma audit_reads t u limit from to_ action cursor d :
  (orghub_ListAliasAudit t u limit from to_ action cursor d).1 = d.
Proof.
  unfold orghub_ListAliasAudit. cbn [og_ListAliasAudit org_store dbman_org_store].
  unfold dbman_ListAliasAudit, repo_ListAliasAudit. cbv zeta. by repeat case_match; simplify_eq/=.
Qed.

Ltac solve_confined :=
  repeat first
    [ match goal with |- ∀ _, _ => intros ? end
    | case_match
    | apply body_confined
    | match goal with |- confined _ (refuse _ _) => by intros ? end
    | apply answer_confined; first
        [ apply create_org_unit_isolated | apply create_user_isolated | apply update_user_isolated
        | apply add_alias_isolated | apply delete_alias_isolated
        | apply reader_isolated; intros ?; first [apply audit_reads |
            unfold orghub_ListOrgUnits, orghub_ListAliases, orghub_SearchUsers;
            cbn [og_ListOrgUnits og_ListAliases og_SearchUsers org_store dbman_org_store];
            unfold repo_ListOrgUnits, repo_ListAliases, dbman_SearchUsers, repo_SearchUsers;
            repeat case_match; done ] ] ].

(** Behind AuthRequired, a handler works in the tenant of the context. *)
Lemma org_route_confined env pattern h rq c t :
  find_route pattern (org_admin_routes env ++ org_user_routes env) = Some h →
  ctx_string c "auth_tenant_id" = Some t → confined t (h (with_ctx c rq)).
Proof.
  intros Hf Ht. assert (Hactor : ∀ k, (∀ u, confined t (k t u)) → confined t (with_actor (with_ctx c rq) k)).
  { intros k Hk. unfold with_actor. cbn [rq_ctx with_ctx]. destruct (actorFromContext c) as [[t' u]|] eqn:E; [|done].
    apply actor_of_context in E as [E _]. rewrite Ht in E. injection E as <-. apply Hk. }
  revert Hf. unfold org_admin_routes, org_user_routes. cbn [app find_route].
  repeat match goal with
  | |- (if decide ?P then _ else _) = _ → _ =>
      let Hp := fresh in destruct (decide P) as [Hp|Hp];
        [intros [= <-]; apply Hactor; solve_confined|clear Hp]
  end. done.
Qed.

Lemma login_reads now rq d : (loginAuth SignedString auth now rq d).1 = d.
Proof.
  unfold loginAuth, with_body. destruct (ShouldBindJSON _ _) as [[[t e] p]|]; [|done].
  unfold orghub_Authenticate. cbn [og_AuthenticateUser org_store dbman_org_store].
  unfold dbman_Authenticate, repo_GetByEmail.
  by repeat case_match; simplify_eq/=.
Qed.

(** * Properties *)

(** C5: A request changes its own tenant only.  Whatever is requested of orgHub, with whatever body, either
    nothing changes, or the request had a bearer token and the users, aliases, units and audit
    entries of all tenants but the token's are as before. *)
Theorem org_tenant_isolation (env : Env) (pattern : string) (rq : Request) (d : OrgDB) :
  let d' := (serve env pattern rq d).1 in
  d' = d
  ∨ ∃ token u t role, headers (rq_ctx rq) "Authorization" = "Bearer " +:+ token ∧ parse token = Ok (u, t, role)
      ∧ foreign t d' = foreign t d.
Proof.
  cbv zeta. unfold serve_org. case_decide; [by left|]. case_decide as Hl; [left; apply login_reads|].
  destruct (find_route pattern (org_admin_routes env)) as [h|] eqn:Ea;
    [|destruct (find_route pattern (org_user_routes env)) as [h|] eqn:Eu; [|by left]]; cbn [guarded];
    (destruct (AuthRequired parse (rq_ctx rq)) as [st msg|c] eqn:Ec; [by left|]);
    destruct (auth_next_context _ _ _ Ec) as (token & u & t & role & Hh & Hp & Ht & _).
  - destruct (RequireRoles _ _) as [st msg|c2] eqn:Er; [by left|].
    assert (c2 = c) as -> by (unfold RequireRoles in Er; by repeat case_match; simplify_eq).
    right. exists token, u, t, role. split_and!; [done..|]. apply (org_route_confined env pattern); [|done].
    by apply find_route_app_l.
  - right. exists token, u, t, role. split_and!; [done..|]. apply (org_route_confined env pattern); [|done].
    by rewrite find_route_app_r.
Qed.

(** C6: Who may do what at orgHub.  A request that is answered with anything but an error is the health route or the
    login, or has a bearer token; units are created and listed, and users are created, only with the role of an
    administrator or a manager in that token; and a user's status is changed by that user, or by an administrator or a
    manager.  A request that is refused changes nothing.  (Searching for users is open to every token.) *)
Theorem org_permissions (env : Env) (pattern : string) (rq : Request) (d : OrgDB) :
  let '(d', r) := serve env pattern rq d in
  (d' = d ∧ ∃ status message, r = RError status message)
  ∨ pattern = "GET /health" ∨ pattern = "POST /api/v1/auth/login"
  ∨ ∃ token u t role, headers (rq_ctx rq) "Authorization" = "Bearer " +:+ token ∧ parse token = Ok (u, t, role)
      ∧ (pattern ∈ ["POST /api/v1/org-units"; "GET /api/v1/org-units"; "POST /api/v1/users"] → role ∈ ["admin"; "manager"])
      ∧ (pattern = "PATCH /api/v1/users/:id/status" → u = Param rq "id" ∨ TrimSpace role ∈ ["admin"; "manager"]).
Proof.
  unfold serve_org. case_decide; [cbn; auto|]. case_decide as Hl; [destruct (loginAuth _ _ _ _ _); auto|].
  destruct (find_route pattern (org_admin_routes env)) as [h|] eqn:Ea.
  - cbn [guarded]. destruct (AuthRequired parse (rq_ctx rq)) as [st msg|c] eqn:Ec; [left; cbn; eauto|].
    destruct (auth_next_context _ _ _ Ec) as (token & u & t & role & Hh & Hp & _ & _ & Hrole). cbn [rq_ctx with_ctx].
    destruct (RequireRoles _ c) as [st msg|c2] eqn:Er; [left; cbn; eauto|].
    destruct (h _ d) as [d' r]. right. right. right. exists token, u, t, role. split_and!; [done..| |].
    + intros _. revert Er Hrole. unfold RequireRoles, ctx_string. destruct (keys c !! "auth_role") as [[|]|]; [|done..].
      case_decide as Hin; [|done]. intros _ [= <-]. exact Hin.
    + intros ->. discriminate Ea.
  - destruct (find_route pattern (org_user_routes env)) as [h|] eqn:Eu; [|left; cbn; eauto]. cbn [guarded].
    destruct (AuthRequired parse (rq_ctx rq)) as [st msg|c] eqn:Ec; [left; cbn; eauto|].
    destruct (auth_next_context _ _ _ Ec) as (token & u & t & role & Hh & Hp & _ & Hu & Hrole).
    destruct (decide (pattern = "PATCH /api/v1/users/:id/status"
      ∧ ¬ (u = Param rq "id" ∨ TrimSpace role ∈ [UserRoleAdmin; UserRoleManager]))) as [[-> Hno]|Hyes].
    + injection Eu as <-.
      assert (∃ st msg, orgapi_updateUserStatus env (with_ctx c rq) d = (d, RError st msg)) as (st & msg & ->);
        [|left; eauto].
      unfold orgapi_updateUserStatus, with_actor. cbn [rq_ctx with_ctx].
      destruct (actorFromContext c) as [[t' u']|] eqn:E; [|by eexists _, _].
      apply actor_of_context in E as [_ E]. rewrite Hu in E. injection E as <-.
      unfold actorRoleFromContext. rewrite Hrole. case_decide as Hblank; [by eexists _, _|].
      rewrite decide_True; [by eexists _, _|]. change (Param (with_ctx c rq) "id") with (Param rq "id").
      split_and!; intros Hx; apply Hno; [by left|right; rewrite Hx; by left|right; rewrite Hx; by right; left].
    + destruct (h _ d) as [d' r]. right. right. right. exists token, u, t, role. split_and!; [done..| |].
      * intros Hin. destruct (find_route_none pattern _ Ea Hin).
      * intros Hpat. destruct (decide (u = Param rq "id" ∨ TrimSpace role ∈ [UserRoleAdmin; UserRoleManager])); [done|].
        exfalso. by apply Hyes.
Qed.

(** The user a login found. *)
Lemma authenticated t email password d d' user :
  dbman_Authenticate DB compare t email password d = (d', Ok user) →
  d' = d ∧ ∃ id row, users (o_chat d) !! id = Some row ∧ u_TenantID row = t ∧ Email row = email
    ∧ compare (PasswordHash row) password = Ok tt ∧ u_ID user = u_ID row ∧ u_Role user = u_Role row.
Proof.
  unfold dbman_Authenticate, repo_GetByEmail. destruct (DB t); [|done].
  destruct (list_find _ _) as [[i row]|] eqn:E; [|done]. cbn [PasswordHash].
  destruct (compare (PasswordHash row) password) as [[]|] eqn:Ec; [|done]. intros [= <- <-]. split; [done|].
  apply list_find_Some in E as (Hi & (Ht & He) & _). apply list_elem_of_lookup_2, list_elem_of_fmap in Hi as ([id r] & -> & Hin).
  apply elem_of_map_to_list in Hin. by exists id, r.
Qed.

(** The body of a login. *)
Lemma login_binds text ms t email password r :
  parse_json text = Some (JObj ms) → keys_ok ["tenant_id"; "email"; "password"] ms.*1 = true →
  assoc "tenant_id" ms = [JStr t] → assoc "email" ms = [JStr email] → assoc "password" ms = [JStr password] →
  ShouldBindJSON (dec_object ["tenant_id"; "email"; "password"] (λ o,
    t ← required c_string (o "tenant_id"); email ← required c_string (o "email");
    password ← required c_string (o "password"); Some (t, email, password))) text = Ok r →
  r = (t, email, password).
Proof.
  intros Hparse Hkeys Ht He Hp. unfold ShouldBindJSON. rewrite Hparse. unfold dec_object.
  rewrite !members_of_assoc by done. rewrite Ht, He, Hp. unfold required, dec_field. cbn.
  destruct (decide (t = "")); [done|]. destruct (decide (email = "")); [done|]. destruct (decide (password = "")); [done|].
  by intros [= <-].
Qed.

(** C9: A login admits its user.  A login whose body names a tenant, an e-mail and a password (its members, in any order,
    each once, and no others) and that is answered with 200 named a user's tenant and e-mail, and bcrypt accepts the
    password it named for that user's hash.  If the JWT library verifies what it signs, and the configured lifetime is
    positive and fits a Go duration (int64 nanoseconds), the answer carries a token that, until it expires, takes a
    request through AuthRequired as that user, in that tenant and with that user's role. *)
Theorem login_admits
    (ParseWithClaims : time → string → (string → result string) → result (Claims * bool))
    (key : string) (m : Z) (now later : time) (rq : Request) (c : Ctx) (d d' : OrgDB) (body : json)
    (ms : list (string * json)) (t email password : string) :
  parse_json (rq_body rq) = Some (JObj ms) → keys_ok ["tenant_id"; "email"; "password"] ms.*1 = true →
  assoc "tenant_id" ms = [JStr t] → assoc "email" ms = [JStr email] → assoc "password" ms = [JStr password] →
  (∀ claims token t keyfunc, SignedString HS256 key claims = Ok token → keyfunc HS256 = Ok key →
     (t < ExpiresAt claims)%Z → ParseWithClaims t token keyfunc = Ok (claims, true)) →
  (0 < m * 60000000000 ≤ int64_max)%Z →
  loginAuth SignedString (NewService key m) now rq d = (d', RJson 200 body) →
  (later < (now + m * 60000000000) / 1000000000 * 1000000000)%Z →
  d' = d ∧ ∃ token id row,
    users (o_chat d) !! id = Some row ∧ u_TenantID row = t ∧ Email row = email
    ∧ compare (PasswordHash row) password = Ok tt
    ∧ body = NewTokenResponse token (u_ID row) t (u_Role row)
    ∧ (headers c "Authorization" = "Bearer " +:+ token →
       ∃ c', AuthRequired (ParseAuthContext ParseWithClaims (NewService key m) later) c = Next c'
         ∧ ctx_string c' "auth_tenant_id" = Some t ∧ ctx_string c' "auth_user_id" = Some (u_ID row)
         ∧ ctx_string c' "auth_role" = Some (u_Role row)).
Proof.
  intros Hparse Hkeys Hbt Hbe Hbp Hlaw Hm Hlogin Hlater. unfold loginAuth, with_body in Hlogin.
  destruct (ShouldBindJSON _ _) as [r|] eqn:Hbind; [|done].
  apply (login_binds _ ms t email password) in Hbind as ->; [|done..].
  unfold orghub_Authenticate in *. destruct (og_AuthenticateUser t email password d) as [d1 [user|e]] eqn:Ea; [|done].
  destruct (authenticated t email password d d1 user Ea) as (-> & id & row & Hrow & Ht & He & Hc & Hid & Hrole).
  destruct (GenerateToken _ _ _ _ _ _) as [token|e] eqn:Eg; [|done]. injection Hlogin as <- <-.
  split; [done|]. exists token, id, row. rewrite Hid, Hrole. split_and!; try done. intros Hh.
  assert (ParseAuthContext ParseWithClaims (NewService key m) later token = Ok (u_ID user, t, u_Role user)) as Hp.
  { eapply token_roundtrip; [|exact Hm|exact Eg|exact Hlater]. intros claims t' kf Hs. by apply Hlaw. }
  destruct (AuthRequired_ok _ c token _ _ _ Hh Hp) as [c' Hn]. exists c'. split; [done|].
  destruct (auth_next_context _ _ _ Hn) as (token' & u' & t' & role' & Hh' & Hp' & H1 & H2 & H3).
  rewrite Hh in Hh'. apply (inj (String.append "Bearer ")) in Hh' as <-. rewrite Hp in Hp'. injection Hp' as <- <- <-.
  by rewrite H1, H2, H3, Hid, Hrole.
Qed.
End rest.

(** * A concrete run *)

#[local] Existing Instance demo_pg.
#[local] Instance demo_gin : Gin := {| bind_error _ := "EOF"; required_struct := true |}.

Definition demo_claims : Claims := mkClaims "u1" "a" "user" 0 (3600 * 1000000000).

Definition is_demo (c : Claims) : Prop :=
  UserID c = "u1" ∧ TenantID c = "a" ∧ Role c = "user" ∧ IssuedAt c = 0%Z ∧ ExpiresAt c = (3600 * 1000000000)%Z.

#[local] Instance is_demo_dec c : Decision (is_demo c).
Proof. unfold is_demo. apply _. Defined.

Lemma is_demo_eq c : is_demo c → c = demo_claims.
Proof. destruct c. intros (H1 & H2 & H3 & H4 & H5). cbn in *. by subst. Qed.

(** A library that signs one text, and knows it again. *)
Definition demo_sign (_ _ : string) (c : Claims) : result string := if decide (is_demo c) then Ok "tok" else Err "other".
Definition demo_verify (t : time) (_ : string) (_ : string → result string) : result (Claims * bool) :=
  if (t <? 3600 * 1000000000)%Z then Ok (demo_claims, true) else Err "token is expired".

Definition demo_login : Request :=
  mkRequest (marshal_json (JObj [("tenant_id", JStr "a"); ("email", JStr "u@x"); ("password", JStr "secret")]))
    (λ _, "") (λ _, None) "10.0.0.1" "curl" (mkCtx (λ _, "Bearer tok") ∅).

Definition demo_compare (h p : string) : result unit := if decide (h = p) then Ok tt else Err "mismatch".

Lemma login_admits_witness :
  ∃ c', AuthRequired (ParseAuthContext demo_verify (NewService "k" 60) 5) (mkCtx (λ _, "Bearer tok") ∅) = Next c'
    ∧ ctx_string c' "auth_user_id" = Some "u1".
Proof.
  destruct (login_admits (λ _ _, true) (λ _, Ok tt) Ok demo_compare demo_sign demo_verify "k" 60 0 5
    demo_login (mkCtx (λ _, "Bearer tok") ∅) demo_with_user demo_with_user
    (NewTokenResponse "tok" "u1" "a" "user") _ "a" "u@x" "secret" ltac:(vm_compute; reflexivity))
    as (_ & token & id & row & _ & _ & _ & _ & Hbody & Hadmit); [reflexivity..| | | | |].
  - intros claims token t kf Hs _ Ht. unfold demo_sign in Hs. destruct (decide (is_demo claims)) as [Hd|]; [|discriminate].
    apply is_demo_eq in Hd. subst claims. injection Hs as <-. unfold demo_verify. cbn in Ht.
    by rewrite (proj2 (Z.ltb_lt _ _) Ht).
  - unfold int64_max. lia.
  - vm_compute. reflexivity.
  - vm_compute. reflexivity.
  - injection Hbody as Htok Hid _. destruct Hadmit as (c' & Hn & _ & Hu & _); [by rewrite <-Htok|].
    exists c'. split; [exact Hn|]. rewrite Hu. f_equal. symmetry. exact Hid.
Defined.
