(* ===== verification/TenantApi.v ===== *)
(** * tenantHub's HTTP interface

    server/tenantHub/api/handler.go: the tenants, listed, created and configured by administrators and
    managers.  The tenant of the token is not looked at. *)

From S2P Require Import Prelude GoStrings GoEncoding Cursor Paging Env Auth SessionStore ChatStore GoJson GoTime.
From S2P Require Import JsonText ChatService TenantRouter Users Tenants FileStore Wire Gin Binding.

Section api.
Context `{Gin} {R S : Type} (invalidate : string → R → R).
(** The client of dbman. *)
Variable ListTenants : M S (list Tenant).
Variables (CreateTenant UpdateTenantConfig : Tenant → M S Tenant).
Notation Hub := (TenantService R S).

Definition tenant_fields : list string :=
  ["tenant_id"; "name"; "deployment_mode"; "dedicated_dsn"; "dedicated_redis_addr"; "dedicated_lavinmq_url";
   "dedicated_minio_endpoint"; "dedicated_minio_access_key"; "dedicated_minio_secret_key"; "dedicated_minio_bucket";
   "dedicated_minio_use_ssl"; "user_count_threshold"; "is_active"].

(* server/tenantHub/api/handler.go: listTenants *)
Definition tenantapi_listTenants (rq : Request) : handler Hub :=
  answer 200 500 (enc (c_list c_Tenant)) (λ s, let '(d, r) := ListTenants (t_store s) in (mkTenantService d (routers s), r)).

(** A threshold that is missing is 200, a tenant is active unless the body says otherwise. *)
(* server/tenantHub/api/handler.go: createTenant *)
Definition tenantapi_createTenant (rq : Request) : handler Hub :=
  with_body (dec_object tenant_fields (λ o,
    id ← required c_string (o "tenant_id"); name ← required c_string (o "name");
    mode ← required c_string (o "deployment_mode"); dsn ← optional c_string (o "dedicated_dsn");
    redis ← optional c_string (o "dedicated_redis_addr"); mq ← optional c_string (o "dedicated_lavinmq_url");
    ep ← optional c_string (o "dedicated_minio_endpoint"); ak ← optional c_string (o "dedicated_minio_access_key");
    sk ← optional c_string (o "dedicated_minio_secret_key"); bucket ← optional c_string (o "dedicated_minio_bucket");
    ssl ← optional c_bool (o "dedicated_minio_use_ssl"); threshold ← optional c_int (o "user_count_threshold");
    active ← optional (c_ptr c_bool) (o "is_active");
    Some (mkTenant id name mode dsn redis mq ep ak sk bucket ssl
            (if decide (threshold = 0%Z) then 200%Z else threshold) (default true active) zero_time zero_time)))
    (rq_body rq) (λ item,
      answer 201 400 (enc c_Tenant) (tenanthub_Create invalidate CreateTenant item)).

(* server/tenantHub/api/handler.go: updateTenant *)
Definition tenantapi_updateTenant (rq : Request) : handler Hub :=
  with_body (dec_object (tail tenant_fields) (λ o,
    name ← required c_string (o "name");
    mode ← required c_string (o "deployment_mode"); dsn ← optional c_string (o "dedicated_dsn");
    redis ← optional c_string (o "dedicated_redis_addr"); mq ← optional c_string (o "dedicated_lavinmq_url");
    ep ← optional c_string (o "dedicated_minio_endpoint"); ak ← optional c_string (o "dedicated_minio_access_key");
    sk ← optional c_string (o "dedicated_minio_secret_key"); bucket ← optional c_string (o "dedicated_minio_bucket");
    ssl ← optional c_bool (o "dedicated_minio_use_ssl"); threshold ← required c_int (o "user_count_threshold");
    active ← optional c_bool (o "is_active");
    Some (mkTenant (Param rq "id") name mode dsn redis mq ep ak sk bucket ssl threshold active zero_time zero_time)))
    (rq_body rq) (λ item,
      answer 200 400 (enc c_Tenant) (tenanthub_UpdateConfig invalidate UpdateTenantConfig item)).

Variable parse : string → result (string * string * string).

Definition tenant_routes : list (string * (Request → handler Hub)) := [
  ("GET /api/v1/tenants", tenantapi_listTenants);
  ("POST /api/v1/tenants", tenantapi_createTenant);
  ("PATCH /api/v1/tenants/:id", tenantapi_updateTenant)].

(* server/tenantHub/api/handler.go: RegisterRoutes *)
Definition serve_tenants (pattern : string) (rq : Request) : handler Hub :=
  if decide (pattern = "GET /health") then health rq
  else match find_route pattern tenant_routes with
  | Some h => guarded [AuthRequired parse; RequireRoles ["admin"; "manager"]] h rq
  | None => refuse 404 "404 page not found"
  end.
End api.

(** * Properties *)
Section properties.
Context `{Gin} {R S : Type} (invalidate : string → R → R).
Variable ListTenants : M S (list Tenant).
Variables (CreateTenant UpdateTenantConfig : Tenant → M S Tenant).

(** The tenants are open to the administrators and managers of every tenant.  What tenantHub does
    with a request does not depend on the tenant in the token, nor on the user: with the role of an
    administrator or a manager anywhere, the same request lists the same tenants, the
    credentials of their dedicated services included, and configures the same one. *)
Theorem tenant_routes_ignore_tenant (pattern : string) (rq : Request) (s : TenantService R S) u1 t1 r1 u2 t2 r2 :
  r1 ∈ ["admin"; "manager"] → r2 ∈ ["admin"; "manager"] →
  serve_tenants invalidate ListTenants CreateTenant UpdateTenantConfig (λ _, Ok (u1, t1, r1)) pattern rq s
  = serve_tenants invalidate ListTenants CreateTenant UpdateTenantConfig (λ _, Ok (u2, t2, r2)) pattern rq s.
Proof.
  intros H1 H2. unfold serve_tenants. case_decide; [done|]. destruct (find_route pattern _) as [h|] eqn:Eh; [|done]. cbn [guarded].
  unfold AuthRequired. destruct (HasPrefix _ _); [|done]. cbn [negb]. unfold RequireRoles, ctx_set. cbn [rq_ctx with_ctx keys].
  rewrite !lookup_insert_eq. rewrite !decide_True by (revert H1 H2; set_solver). cbn [guarded].
  revert Eh. unfold tenant_routes. cbn [find_route].
  repeat match goal with
  | |- (if decide ?P then _ else _) = _ → _ => let Hp := fresh in destruct (decide P) as [Hp|Hp]; [by intros [= <-]|clear Hp]
  end. done.
Qed.

(** A configuration without is_active turns the tenant off, although a tenant created without it is on. *)
Theorem update_without_flag_deactivates (rq : Request) (s : TenantService R S) (name mode : string) (threshold : Z) :
  utf8 name = true → utf8 mode = true → name ≠ "" → mode ≠ "" → is_int64 threshold → threshold ≠ 0%Z →
  rq_body rq = marshal_json (JObj [("name", JStr name); ("deployment_mode", JStr mode);
                                   ("user_count_threshold", JNum threshold)]) →
  tenantapi_updateTenant invalidate UpdateTenantConfig rq s
  = answer 200 400 (enc c_Tenant) (tenanthub_UpdateConfig invalidate UpdateTenantConfig
      (mkTenant (Param rq "id") name mode "" "" "" "" "" "" "" false threshold false zero_time zero_time)) s.
Proof.
  intros Hn Hm Hn0 Hm0 Hz Hz0 Hb. unfold tenantapi_updateTenant, with_body, ShouldBindJSON. rewrite Hb.
  rewrite parse_marshal by (cbn [wf_json forallb]; rewrite Hn, Hm; done).
  unfold dec_object. rewrite !members_of_assoc by reflexivity. cbn [assoc String.eqb Ascii.eqb Bool.eqb].
  rewrite (required_enc c_string name), (required_enc c_string mode), (required_enc c_int threshold) by
    (done || by apply bool_decide_eq_true_2).
  reflexivity.
Qed.
End properties.

(** * A concrete run *)

#[local] Instance demo_gin : Gin := {| bind_error _ := "EOF"; required_struct := true |}.

Definition demo_admin : Request := mkRequest "" (λ _, "") (λ _, None) "10.0.0.1" "curl" (mkCtx (λ _, "Bearer tok") ∅).

(** In the witness a manager of tenant b lists tenant a with its database. *)
Lemma tenant_routes_ignore_tenant_witness :
  let list u t := serve_tenants (λ _ (r : unit), r) (λ s : TenantDB, (s, Ok (snd <$> map_to_list s)))
    (λ x s, (s, Ok x)) (λ x s, (s, Ok x)) (λ _, Ok (u, t, "manager")) "GET /api/v1/tenants" demo_admin
    (mkTenantService {["a" := demo_tenant "dedicated" "postgres://a"]} []) in
  list "u" "b" = list "v" "a"
  ∧ (list "u" "b").2 = RJson 200 (JList [enc c_Tenant (demo_tenant "dedicated" "postgres://a")]).
Proof.
  split; [|vm_compute; reflexivity].
  apply (tenant_routes_ignore_tenant (λ _ (r : unit), r) (λ s : TenantDB, (s, Ok (snd <$> map_to_list s)))
    (λ x s, (s, Ok x)) (λ x s, (s, Ok x))); by_computation.
Defined.
