(* ===== verification/SessionApi.v ===== *)
(** * The session service's HTTP interface

    server/session/api/handler.go: the handlers over [SessionServices] behind AuthRequired, and the
    WebSocket of a device session: the gate, the registration with the hub, and the loop that
    reads until the connection fails. *)

From S2P Require Import Prelude GoStrings GoEncoding Cursor Paging Env Auth SessionStore ChatStore.
From S2P Require Import GoJson GoTime JsonText ChatService Users Tenants FileStore Wire Gin Binding GoFloat SessionHub SessionServices.

(** ** Who is asking *)

(* server/session/api/handler.go: actorFromContext *)
Definition session_actor (c : Ctx) : option (string * string) :=
  match ctx_string c "auth_tenant_id", ctx_string c "auth_user_id" with
  | Some t, Some u => if decide (TrimSpace t = "" ∨ TrimSpace u = "") then None else Some (t, u)
  | _, _ => None
  end.

(* server/session/api/handler.go: authTokenFromContext *)
Definition authTokenFromContext (c : Ctx) : option string :=
  match ctx_string c "auth_access_token" with
  | Some token => if decide (TrimSpace token = "") then None else Some (TrimSpace token)
  | None => None
  end.

Section api.
Context `{Gin} {S : Type} `{SessionStore S}.
Variable redis : option (string → result unit).
Notation App := (Svc S).

Definition with_session_actor (rq : Request) (k : string → string → handler App) : handler App :=
  match session_actor (rq_ctx rq) with
  | None => refuse 401 ErrUnauthorized
  | Some (t, u) => k t u
  end.

Definition with_token (rq : Request) (k : string → handler App) : handler App :=
  match authTokenFromContext (rq_ctx rq) with
  | None => refuse 401 ErrUnauthorized
  | Some token => k token
  end.

(** ** The handlers *)

(** [read] is the random source. *)
(* server/session/api/handler.go: loginDevice *)
Definition loginDevice (env : Env) (read : nat → result (list Z)) (rq : Request) : handler App :=
  with_session_actor rq (λ t u, with_token rq (λ token,
    with_body (dec_object ["device_id"; "device_name"; "allowed_tenants"] (λ o,
      id ← required c_string (o "device_id"); name ← optional c_string (o "device_name");
      allowed ← optional (c_list c_string) (o "allowed_tenants");
      Some (id, name, allowed))) (rq_body rq) (λ '(id, name, allowed),
        answer 200 400 (enc c_DeviceSession) (LoginDevice env read t u id name token allowed)))).

(* server/session/api/handler.go: updateSessionStatus *)
Definition updateSessionStatus (env : Env) (rq : Request) : handler App :=
  with_session_actor rq (λ t u,
    with_body (dec_object ["status"; "status_note"] (λ o,
      status ← required c_string (o "status"); note ← optional c_string (o "status_note");
      Some (status, note))) (rq_body rq) (λ '(status, note),
        answer 200 400 (λ _, NewOKResponse) (UpdateStatus redis env t u status note))).

(* server/session/api/handler.go: sendNote *)
Definition sendNote (env : Env) (rq : Request) : handler App :=
  with_session_actor rq (λ t u,
    with_body (dec c_NoteCreateInput (zero c_NoteCreateInput)) (rq_body rq) (λ input,
      answer 201 400 (enc c_Note) (SendNote redis env t u input))).

(* server/session/api/handler.go: listInbox *)
Definition listInbox (env : Env) (rq : Request) : handler App :=
  with_session_actor rq (λ t u,
    answer 200 500 (enc (c_list c_NoteInboxItem)) (ListInbox env t u (query_limit rq "50"))).

(* server/session/api/handler.go: markNoteRead *)
Definition markNoteRead (env : Env) (rq : Request) : handler App :=
  with_session_actor rq (λ t u,
    answer 200 400 (λ _, NewOKResponse) (MarkNoteRead env t u (TrimSpace (Param rq "id")))).

(* server/session/api/handler.go: notifyChat *)
Definition notifyChat (env : Env) (rq : Request) : handler App :=
  with_session_actor rq (λ t u, with_token rq (λ token,
    with_body (dec c_ChatNotifyInput (zero c_ChatNotifyInput)) (rq_body rq) (λ input,
      answer 200 400 (λ _, NewOKResponse) (NotifyChat redis env t u token input)))).

(** ** The WebSocket *)

(** The beginning: an error, or the client it registers, and the token it goes on with. *)
(* server/session/api/handler.go: handleSessionWS #51-83 *)
Definition session_open (env : Env) (upgrade : result unit) (conn : nat) (rq : Request) :
    App → App * response (WSClient * string) := λ s,
  let t := TrimSpace (Query rq "tenant_id") in
  let u := TrimSpace (Query rq "user_id") in
  let id := TrimSpace (Query rq "session_id") in
  let token := TrimSpace (Query rq "session_token") in
  match ValidateSession env t u id token s with
  | (s, Err e) => (s, RError 500 e)
  | (s, Ok false) => (s, RError 401 ErrUnauthorized)
  | (s, Ok true) =>
      match upgrade with
      | Err e => (s, RError 400 e)
      | Ok _ =>
          let client := mkWSClient t u id conn in
          let h := WriteJSON (frame_json (SessionConnected t u id (NOW env))) client (Register client (hub s)) in
          (mkSvc (store s) h (published s), RJson 101 (client, token))
      end
  end.

(** One round of the loop: whether it goes on. *)
(* server/session/api/handler.go: handleSessionWS #75-95 *)
Definition session_frame (env : Env) (client : WSClient) (token : string) (deadline read : result unit) :
    App → App * bool := λ s,
  match deadline ≫= λ _, read with
  | Err _ => (mkSvc (store s) (Unregister client (hub s)) (published s), false)
  | Ok _ =>
      let '(s, _) := ValidateSession env (ws_TenantID client) (ws_UserID client) (ws_SessionID client) token s in
      (s, true)
  end.

(** ** The routes *)
Variable parse : string → result (string * string * string).

Definition session_routes (env : Env) (read : nat → result (list Z)) : list (string * (Request → handler App)) := [
  ("POST /api/v1/session/login", loginDevice env read);
  ("PATCH /api/v1/session/status", updateSessionStatus env);
  ("POST /api/v1/notes", sendNote env);
  ("GET /api/v1/notes/inbox", listInbox env);
  ("POST /api/v1/notes/:id/read", markNoteRead env);
  ("POST /api/v1/chat/notify", notifyChat env)].

(** What the server makes of a REST request.  GET /ws/session, which hands the connection over, is [session_open]
    followed by [session_frame] for every frame. *)
(* server/session/api/handler.go: RegisterRoutes *)
Definition serve_session (env : Env) (read : nat → result (list Z)) (pattern : string) (rq : Request) : handler App :=
  if decide (pattern = "GET /health") then health rq
  else match find_route pattern (session_routes env read) with
  | Some h => guarded [AuthRequired parse] h rq
  | None => refuse 404 "404 page not found"
  end.
End api.

(** * Lemmas *)

Section session_rest.
Context `{Postgres} `{Gin}.
Variable DB : string → result unit.

(** A session that validates is in the table. *)
Lemma validated env t u id token (s s' : Svc SessionDB) :
  @ValidateSession _ (repo_store DB) env t u id token s = (s', Ok true) →
  map_Exists (λ _ row, session_matches t u id token row) (device_sessions (store s)) ∧ hub s' = hub s.
Proof.
  unfold ValidateSession, on_store. case_decide as Hblank; [done|]. cbn [ValidateAndTouchSession repo_store].
  unfold repo_ValidateAndTouchSession. destruct (DB t); [|done]. intros [= <- He]. split; [|done].
  by apply bool_decide_eq_true in He.
Qed.

Lemma validation_keeps_hub {S} `{SessionStore S} env t u id token (s : Svc S) :
  hub (ValidateSession env t u id token s).1 = hub s.
Proof. unfold ValidateSession. case_decide; [done|]. apply on_store_hub. Qed.
End session_rest.

(** * Properties *)

(** C19: A device socket belongs to a session.  The WebSocket endpoint registers a client with the hub exactly
    when it answers with a connection, and then the session table has an active session of that
    tenant, user and identifier with the token of the query; the client is registered under them,
    and is greeted.  Otherwise the hub is as before. *)
Theorem session_socket_needs_session `{Postgres} (DB : string → result unit) (env : Env) (upgrade : result unit)
    (conn : nat) (rq : Request) (s : Svc SessionDB) :
  match @session_open _ (repo_store DB) env upgrade conn rq s with
  | (s', RError _ _) => hub s' = hub s
  | (s', RJson _ (client, token)) =>
      map_Exists (λ _ row, session_matches (ws_TenantID client) (ws_UserID client) (ws_SessionID client) token row)
        (device_sessions (store s))
      ∧ token = TrimSpace (Query rq "session_token") ∧ ws_Conn client = conn
      ∧ (hub_inv (hub s) → sessions_of (hub s') (client_key client) !! ws_SessionID client = Some client)
      ∧ sent (hub s') = sent (hub s)
          ++ [(conn, frame_json (SessionConnected (ws_TenantID client) (ws_UserID client) (ws_SessionID client) (NOW env)))]
  end.
Proof.
  unfold session_open. set (t := TrimSpace _). set (u := TrimSpace _). set (id := TrimSpace _). set (token := TrimSpace _).
  pose proof (@validation_keeps_hub _ (repo_store DB) env t u id token s) as Hhub.
  pose proof (validated DB env t u id token s) as Hv.
  destruct (ValidateSession env t u id token s) as [s1 [[]|e]]; cbn [fst] in Hhub; [|done|done].
  destruct (Hv s1 eq_refl) as [Hrow _]. destruct upgrade as [[]|e]; [|done]. cbn [store hub published].
  set (client := mkWSClient t u id conn). rewrite Hhub. split_and!; [done|done|done| |].
  - intros Hinv. change (sessions_of (WriteJSON ?p client ?h) ?k) with (sessions_of h k).
    rewrite sessions_of_Register by done. rewrite decide_True by done. apply lookup_insert_eq.
  - cbn [WriteJSON sent]. unfold Register. by destruct (clients (hub s) !! _).
Qed.

(** The loop of the socket goes on whatever the validation answers, and the hub keeps the client: a session that
    was replaced keeps its socket. *)
Theorem socket_outlives_session {S} `{SessionStore S} (env : Env) (client : WSClient) (token : string) (s : Svc S) :
  (session_frame env client token (Ok tt) (Ok tt) s).2 = true
  ∧ hub (session_frame env client token (Ok tt) (Ok tt) s).1 = hub s.
Proof.
  unfold session_frame. cbn [mbind result_bind].
  pose proof (validation_keeps_hub env (ws_TenantID client) (ws_UserID client) (ws_SessionID client) token s) as Hh.
  destruct (ValidateSession _ _ _ _ _ s) as [s' r]. done.
Qed.

(** A chat notification hands its sender's credentials to the recipients.  When a notification is
    accepted, every open socket of every recipient gets a frame with the bearer token of the
    request; and a request with that token is, to every service, a request of the sender. *)
Theorem notification_hands_over_token {S} `{Gin} `{SessionStore S}
    (parse : string → result (string * string * string)) (env : Env) (read : nat → result (list Z))
    (rq : Request) (s s' : Svc S) (body : json) (token u t role : string) :
  headers (rq_ctx rq) "Authorization" = "Bearer " +:+ token → parse token = Ok (u, t, role) → TrimSpace token = token →
  serve_session None parse env read "POST /api/v1/chat/notify" rq s = (s', RJson 200 body) →
  ∃ input,
    ShouldBindJSON (dec c_ChatNotifyInput (zero c_ChatNotifyInput)) (rq_body rq) = Ok input
    ∧ (∀ r c, r ∈ dedupeAndTrim (RecipientIDs input) → c ∈ members (sessions_of (hub s) (userKey t r)) →
        (ws_Conn c, frame_json (ChatNotification t (cn_RoomID input) (MessageID input) token u r
                                  (cn_Title input) (cn_Body input) (NOW env))) ∈ sent (hub s'))
    ∧ ∀ c, headers c "Authorization" = "Bearer " +:+ token →
        ∃ c', AuthRequired parse c = Next c' ∧ session_actor c' = Some (t, u).
Proof.
  intros Hh Hp Htrim Hserve. unfold serve_session in Hserve. cbn [find_route session_routes] in Hserve.
  rewrite !decide_False, decide_True in Hserve by done. cbn [guarded] in Hserve.
  destruct (AuthRequired_ok parse (rq_ctx rq) token u t role Hh Hp) as [c1 Hn]. rewrite Hn in Hserve.
  assert (Hctx : ∀ c c', headers c "Authorization" = "Bearer " +:+ token → AuthRequired parse c = Next c' →
    ctx_string c' "auth_tenant_id" = Some t ∧ ctx_string c' "auth_user_id" = Some u).
  { intros c c' Hc Hc'. destruct (auth_next_context parse c c' Hc') as (token' & u' & t' & r' & Hh' & Hp' & H1 & H2 & _).
    rewrite Hc in Hh'. apply (inj (String.append "Bearer ")) in Hh' as <-. rewrite Hp in Hp'. by injection Hp' as <- <- <-. }
  assert (Htok : ctx_string c1 "auth_access_token" = Some token).
  { unfold AuthRequired in Hn. rewrite Hh in Hn. destruct (HasPrefix _ _); [|done]. cbn [negb] in Hn.
    rewrite TrimPrefix_app, Hp in Hn. injection Hn as <-. unfold ctx_string. cbn. by simplify_map_eq. }
  destruct (Hctx _ _ Hh Hn) as [Ht Hu].
  unfold notifyChat, with_session_actor, with_token, session_actor, authTokenFromContext in Hserve.
  cbn [rq_ctx with_ctx] in Hserve. rewrite Ht, Hu, Htok, Htrim in Hserve.
  case_decide as Hblank; [done|]. case_decide as Hnotok; [done|]. unfold with_body in Hserve. cbn [rq_body with_ctx] in Hserve.
  destruct (ShouldBindJSON _ (rq_body rq)) as [input|e]; [|done]. exists input. split; [done|]. split.
  - intros r c Hr Hc. unfold answer, NotifyChat in Hserve. case_decide; [done|]. cbv zeta in Hserve. case_decide; [done|].
    pose proof (on_store_hub (SaveSessionChatNotifications env t u input) s) as (Hhub & _ & _).
    destruct (on_store _ s) as [s1 [[]|e]]; [|done]. cbn [fst] in Hhub. injection Hserve as <- _.
    unfold on_hub, NotifyUsers. cbn [publishNotifyUsers].
    match goal with |- context [foldl (λ h0 u0, (notifyUserLocal t u0 (@?b u0) h0).1) (hub s1) ?us] =>
      destruct (notify_users_sent t us b (hub s1)) as [_ Hsent] end.
    cbn [hub]. rewrite Hsent, Htrim. apply elem_of_app. right. apply list_elem_of_bind. exists r. split; [|done].
    rewrite Hhub. apply list_elem_of_fmap. by exists c.
  - intros c Hc. destruct (AuthRequired_ok parse c token u t role Hc Hp) as [c' Hn']. exists c'. split; [done|].
    destruct (Hctx _ _ Hc Hn') as [H1 H2]. unfold session_actor. rewrite H1, H2. by rewrite decide_False.
Qed.

(** * A concrete run *)

#[local] Instance demo_gin : Gin := {| bind_error _ := "EOF"; required_struct := true |}.

Definition demo_sessions : Svc SessionDB :=
  mkSvc (empty_db {["a"]}) (Register (mkWSClient "a" "v" "s1" 9) NewHub) [].

Definition demo_notify : Request :=
  mkRequest (marshal_json (enc c_ChatNotifyInput (mkChatNotifyInput "r" "m1" "hi" "there" ["v"]))) (λ _, "") (λ _, None)
    "10.0.0.1" "curl" (mkCtx (λ _, "Bearer tok") ∅).

Definition demo_parse (token : string) : result (string * string * string) :=
  if decide (token = "tok") then Ok ("u", "a", "user") else Err "invalid".

(** In the witness v's socket receives u's token. *)
Lemma notification_hands_over_token_witness :
  (9, frame_json (ChatNotification "a" "r" "m1" "tok" "u" "v" "hi" "there" 50))
    ∈ sent (hub (serve_session (H0 := repo_store (λ _, Ok tt)) None demo_parse (mkEnv 50 "") (λ _, Ok [])
                   "POST /api/v1/chat/notify" demo_notify demo_sessions).1).
Proof.
  destruct (@notification_hands_over_token _ _ (repo_store (λ _, Ok tt)) demo_parse (mkEnv 50 "")
    (λ _, Ok []) demo_notify demo_sessions
    (serve_session (H0 := repo_store (λ _, Ok tt)) None demo_parse (mkEnv 50 "") (λ _, Ok [])
       "POST /api/v1/chat/notify" demo_notify demo_sessions).1 NewOKResponse "tok" "u" "a" "user")
    as (input & Hin & Hsent & _); [reflexivity|reflexivity|vm_compute; reflexivity|vm_compute; reflexivity|].
  assert (input = mkChatNotifyInput "r" "m1" "hi" "there" ["v"]) as ->.
  { vm_compute in Hin. injection Hin as <-. reflexivity. }
  apply (Hsent "v" (mkWSClient "a" "v" "s1" 9)); by_computation.
Defined.
