(* ===== verification/GoPath.v ===== *)
(** * Slash-separated paths

    What the services use of Go's [path/filepath] on Unix: [Ext], [Clean], [Dir], [Base] and
    [Join].  A path is cleaned as the list of its elements, with a stack. *)

From S2P Require Import Prelude GoStrings GoEncoding.

Definition no_ext_char (s : string) : bool := forallb (λ a, negb (Ascii.eqb a "." || Ascii.eqb a "/")) (chars s).

(** [filepath.Ext]: from the last dot of the last path element. *)
Fixpoint Ext (s : string) : string :=
  match s with
  | EmptyString => EmptyString
  | String a rest => if Ascii.eqb a "." && no_ext_char rest then s else Ext rest
  end.

Fixpoint join_slash (l : list string) : string :=
  match l with
  | [] => ""
  | [x] => x
  | x :: rest => x +:+ String "/" (join_slash rest)
  end.

(** One more element on a cleaned path, the last element on top. *)
Definition clean_step (rooted : bool) (stack : list string) (elem : string) : list string :=
  if decide (elem = "" ∨ elem = ".") then stack
  else if decide (elem = "..") then
    match stack with
    | [] => if rooted then [] else [".."]
    | top :: below => if decide (top = "..") then ".." :: stack else below
    end
  else elem :: stack.

Definition clean_elems (rooted : bool) (elems : list string) : list string := rev (foldl (clean_step rooted) [] elems).

Definition rooted (s : string) : bool := HasPrefix s "/".

(** [filepath.Clean] *)
Definition Clean (s : string) : string :=
  let elems := clean_elems (rooted s) (Split "/" s) in
  if rooted s then String "/" (join_slash elems)
  else if decide (elems = []) then "." else join_slash elems.

(** The text up to and with the last slash, and the text after it. *)
Fixpoint split_last (s : string) : option (string * string) :=
  match s with
  | EmptyString => None
  | String a rest =>
      match split_last rest with
      | Some (d, b) => Some (String a d, b)
      | None => if Ascii.eqb a "/" then Some ("/", rest) else None
      end
  end.

(** [filepath.Dir] *)
Definition Dir (s : string) : string := match split_last s with Some (d, _) => Clean d | None => "." end.

(** [filepath.Base] *)
Definition Base (s : string) : string :=
  if decide (s = "") then "."
  else
    let t := TrimRightSlash s in
    if decide (t = "") then "/" else match split_last t with Some (_, b) => b | None => t end.

(** [filepath.Join] of two elements *)
Definition Join (dir name : string) : string :=
  if decide (dir = "") then (if decide (name = "") then "" else Clean name)
  else Clean (dir +:+ String "/" name).

Example path_ex :
  (Clean "./logs//app/../msg.log", Clean "/../a/./b/", Clean "a/../../b", Dir "./logs/msg.log", Base "./logs/msg.log/",
   Dir "msg.log", Join "logs" "x.log", Ext "a.b/c.tar.gz", Ext "a.b/c")
  = ("logs/msg.log", "/a/b", "../b", "logs", "msg.log", ".", "logs/x.log", ".gz", "").
Proof. vm_compute. reflexivity. Qed.

(** * Lemmas *)

Lemma Split_cons_ne sep s : Split sep s ≠ [].
Proof. destruct s as [|a s]; cbn; [done|]. case_decide; [done|]. by destruct (Split sep s). Qed.

Lemma Split_plain sep s : sep ∉ chars s → Split sep s = [s].
Proof.
  induction s as [|a s IH]; [done|]. cbn. intros [Ha Hs]%not_elem_of_cons.
  rewrite decide_False by done. by rewrite IH.
Qed.

Lemma Split_app sep s t : Split sep (s +:+ String sep t) = Split sep s ++ Split sep t.
Proof.
  induction s as [|a s IH].
  - rewrite append_nil. cbn. by rewrite decide_True.
  - rewrite append_cons. cbn. case_decide; [by rewrite IH|].
    rewrite IH. pose proof (Split_cons_ne sep s). by destruct (Split sep s).
Qed.

Lemma Split_no_sep sep s w : w ∈ Split sep s → sep ∉ chars w.
Proof.
  revert w. induction s as [|a s IH]; cbn; intros w.
  - intros ->%list_elem_of_singleton. cbn. set_solver.
  - case_decide as Ha.
    + intros [->|Hw]%elem_of_cons; [cbn; set_solver|by apply IH].
    + destruct (Split sep s) as [|x l].
      * intros ->%list_elem_of_singleton. cbn. set_solver.
      * intros [->|Hw]%elem_of_cons; [|by apply IH; right].
        cbn. apply not_elem_of_cons. split; [congruence|apply IH; left].
Qed.

Lemma Split_join sep_free :
  Forall (λ w, "/"%char ∉ chars w) sep_free → sep_free ≠ [] → Split "/" (join_slash sep_free) = sep_free.
Proof.
  induction sep_free as [|x [|y l] IH]; intros Hl Hne; [done| |].
  - cbn. apply Split_plain. by apply Forall_cons in Hl as [? _].
  - apply Forall_cons in Hl as [Hx Hl]. change (join_slash (x :: y :: l)) with (x +:+ String "/" (join_slash (y :: l))).
    rewrite Split_app, IH, Split_plain by done. done.
Qed.

Lemma join_slash_app l x : l ≠ [] → join_slash (l ++ [x]) = join_slash l +:+ String "/" x.
Proof.
  induction l as [|a [|b l] IH]; intros Hne; [done|done|].
  change ((a :: b :: l) ++ [x]) with (a :: ((b :: l) ++ [x])).
  change (join_slash (a :: (b :: l) ++ [x])) with (a +:+ String "/" (join_slash ((b :: l) ++ [x]))).
  rewrite IH by done. change (join_slash (a :: b :: l)) with (a +:+ String "/" (join_slash (b :: l))).
  by rewrite app_assoc_s, append_cons.
Qed.

(** An element that names something: it stays where it is. *)
Definition proper (w : string) : Prop := w ≠ "" ∧ w ≠ "." ∧ w ≠ ".." ∧ "/"%char ∉ chars w.

#[export] Instance proper_dec w : Decision (proper w).
Proof. unfold proper. apply _. Defined.

Lemma clean_step_proper r stack w : proper w → clean_step r stack w = w :: stack.
Proof. intros (? & ? & ? & _). unfold clean_step. rewrite !decide_False by naive_solver. done. Qed.

(** A cleaned stack: proper elements above parents, and no parents below the root. *)
Definition clean_stack (r : bool) (stack : list string) : Prop :=
  ∃ up down, stack = down ++ up ∧ Forall proper down ∧ Forall (λ w, w = "..") up ∧ (r = true → up = []).

Lemma clean_step_stack r stack w :
  "/"%char ∉ chars w → clean_stack r stack → clean_stack r (clean_step r stack w).
Proof.
  intros Hw (up & down & -> & Hd & Hu & Hr). unfold clean_step.
  case_decide; [by exists up, down|]. case_decide as Hdd.
  - destruct down as [|d down]; cbn [app].
    + destruct up as [|u up]; cbn.
      * destruct r; [by exists [], []|]. exists [".."], []. split; [done|]. repeat split; [by constructor|by repeat constructor|done].
      * pose proof Hu as [-> _]%Forall_cons. rewrite decide_True by done.
        exists (".." :: ".." :: up), []. repeat split; [by constructor|by constructor|].
        intros Hrt. by specialize (Hr Hrt).
    + apply Forall_cons in Hd as [(?&?&?&?) Hd]. rewrite decide_False by done. by exists up, down.
  - exists up, (w :: down). repeat split; [|done|done]. constructor; [|done]. unfold proper. naive_solver.
Qed.

Lemma clean_elems_stack r elems : Forall (λ w, "/"%char ∉ chars w) elems → clean_stack r (foldl (clean_step r) [] elems).
Proof.
  intros He. assert (clean_stack r []) as H0 by (exists [], []; by repeat constructor).
  revert H0. generalize (@nil string) as st. induction He as [|w l Hw He IH]; intros st Hst; [done|].
  cbn. by apply IH, clean_step_stack.
Qed.

(** A cleaned list of elements is its own cleaning. *)
Lemma clean_elems_clean r stack : clean_stack r stack → foldl (clean_step r) [] (rev stack) = stack.
Proof.
  intros (up & down & -> & Hd & Hu & Hr). induction Hd as [|w down Hw Hd IH]; cbn [app].
  - clear -Hu Hr. induction Hu as [|w up -> Hu IH]; [done|]. cbn [rev]. rewrite foldl_app, IH by (intros ?; by specialize (Hr ltac:(done))).
    cbn. unfold clean_step. rewrite decide_False by naive_solver. rewrite decide_True by done.
    destruct r; [by specialize (Hr eq_refl)|]. destruct up as [|u up]; [done|].
    apply Forall_cons in Hu as [-> _]. by rewrite decide_True.
  - cbn [rev]. rewrite foldl_app, IH. cbn. by apply clean_step_proper.
Qed.

Lemma clean_stack_no_slash r stack : clean_stack r stack → Forall (λ w, "/"%char ∉ chars w) (rev stack).
Proof.
  intros (up & down & -> & Hd & Hu & _). apply Forall_rev, Forall_app. split.
  - eapply Forall_impl; [done|]. by intros w (?&?&?&?).
  - eapply Forall_impl; [done|]. intros w ->. by_computation.
Qed.

Lemma rooted_true s : rooted s = true ↔ ∃ t, s = String "/" t.
Proof. unfold rooted. rewrite HasPrefix_true. split; intros [t ->]; by exists t. Qed.

Lemma rooted_join l : l ≠ [] → Forall (λ w, w ≠ "" ∧ "/"%char ∉ chars w) l → rooted (join_slash l) = false.
Proof.
  intros Hne Hl. apply not_true_iff_false. intros [t Ht]%rooted_true.
  destruct l as [|x l]; [done|]. apply Forall_cons in Hl as [[Hx Hs] _].
  destruct x as [|a x]; [done|]. destruct l; cbn in Ht; injection Ht as -> _; by apply Hs; left.
Qed.

(** The elements of a clean path. *)
Lemma clean_stack_nonempty r stack : clean_stack r stack → Forall (λ w, w ≠ "" ∧ "/"%char ∉ chars w) (rev stack).
Proof.
  intros Hst. apply Forall_and. split; [|by apply (clean_stack_no_slash r)].
  destruct Hst as (up & down & -> & Hd & Hu & _). apply Forall_rev, Forall_app.
  split; (eapply Forall_impl; [done|]); [by intros w (?&?&?&?)|by intros w ->].
Qed.

Lemma Split_Forall s : Forall (λ w, "/"%char ∉ chars w) (Split "/" s).
Proof. apply Forall_forall. intros w. apply Split_no_sep. Qed.

Theorem Clean_idem s : Clean (Clean s) = Clean s.
Proof.
  unfold Clean at 2 3. unfold clean_elems.
  pose proof (clean_elems_stack (rooted s) _ (Split_Forall s)) as Hst.
  set (stack := foldl _ _ _) in *. pose proof (clean_stack_nonempty _ _ Hst) as Hel.
  pose proof (clean_elems_clean _ _ Hst) as Hc. pose proof (clean_stack_no_slash _ _ Hst) as Hns.
  destruct (rooted s) eqn:Er.
  - unfold Clean. assert (rooted (String "/" (join_slash (rev stack))) = true) as -> by (apply rooted_true; by eexists).
    cbn [Split]. rewrite decide_True by done. unfold clean_elems. cbn [foldl].
    f_equal. f_equal. f_equal. change (clean_step true [] "") with (@nil string).
    destruct (decide (rev stack = [])) as [E|E]; [|by rewrite Split_join].
    rewrite E. cbn. by rewrite <-(rev_involutive stack), E.
  - case_decide as E; [done|]. unfold Clean. rewrite rooted_join by done. unfold clean_elems.
    rewrite Split_join, Hc by done. by rewrite decide_False.
Qed.

(** A proper name joined to a directory is the last element. *)
Lemma Clean_under dir name :
  proper name →
  let r := rooted (dir +:+ "/") in
  let elems := clean_elems r (Split "/" dir) ++ [name] in
  Clean (dir +:+ String "/" name) = if r then String "/" (join_slash elems) else join_slash elems.
Proof.
  intros Hn r elems. unfold Clean.
  assert (rooted (dir +:+ String "/" name) = r) as ->.
  { subst r. destruct dir as [|a dir]; [done|]. apply eq_true_iff_eq. rewrite !rooted_true, !append_cons.
    split; intros [t [= -> _]]; by eexists. }
  unfold clean_elems. rewrite Split_app, foldl_app, (Split_plain _ name) by apply Hn. cbn [foldl].
  rewrite clean_step_proper by done. cbn [rev]. fold elems.
  rewrite decide_False; [done|]. subst elems. by intros [_ ?]%app_eq_nil.
Qed.

Lemma join_slash_last_inj l x y : join_slash (l ++ [x]) = join_slash (l ++ [y]) → x = y.
Proof.
  destruct l as [|a l]; [done|]. rewrite !join_slash_app by done. intros [= E]%app_inj_l_s. done.
Qed.

Lemma Join_inj dir x y : proper x → proper y → Clean (Join dir x) = Clean (Join dir y) → x = y.
Proof.
  intros Hx Hy. unfold Join. assert (x ≠ "" ∧ y ≠ "") as [Hx0 Hy0] by (unfold proper in *; naive_solver).
  case_decide.
  - rewrite !decide_False by done. rewrite !Clean_idem.
    assert (∀ w, proper w → Clean w = w) as Hc.
    { intros w Hw. unfold Clean. assert (rooted w = false) as ->.
      { apply (rooted_join [w]); [done|]. apply Forall_singleton. split; apply Hw. }
      unfold clean_elems. rewrite Split_plain by apply Hw. cbn [foldl]. rewrite clean_step_proper by done. done. }
    by rewrite !Hc.
  - rewrite !Clean_idem, !Clean_under by done. destruct (rooted _); [intros [= E]|intros E]; by apply join_slash_last_inj in E.
Qed.
