(* ===== verification/Logger.v ===== *)
(** * The logger

    server/common/log/logger.go: levels, the two line formats, and a file that is rotated by size.
    The file system is a map from cleaned paths to inodes, with handles that outlive a rename; every system
    call can fail, as the parameter [fault] says (permissions, missing directories, a full disk), and a
    write that fails may have written a part.  There are no symbolic links.  [logf] takes the message that
    [fmt.Sprintf] made, and the name the runtime has for its caller. *)

From S2P Require Import Prelude GoStrings GoEncoding Cursor GoJson GoTime GoPath Env.

(** ** Files *)

Record FS := mkFS { names : gmap string nat; contents : gmap nat string; next_inode : nat }.

(** An open file: its inode, whether it appends, its offset, and whether it was closed. *)
Record handle := mkHandle { h_inode : nat; h_append : bool; h_offset : nat; h_closed : bool }.

Definition inode_at (f : FS) (path : string) : option nat := names f !! Clean path.
Definition text_of (f : FS) (i : nat) : string := default "" (contents f !! i).
Definition set_text (i : nat) (text : string) (f : FS) : FS := mkFS (names f) (<[i := text]> (contents f)) (next_inode f).
Definition new_file (path : string) (f : FS) : FS * nat :=
  (mkFS (<[Clean path := next_inode f]> (names f)) (<[next_inode f := ""]> (contents f)) (S (next_inode f)), next_inode f).

(** The text of an inode after [data] is written at [offset]. *)
Definition write_at (offset : nat) (data old : string) : string :=
  of_chars (take offset (chars old) ++ replicate (offset - strlen old) zero_byte ++ chars data
            ++ drop (offset + strlen data) (chars old)).

(** [os.OpenFile] with O_CREATE, and with O_TRUNC or not *)
Definition OpenFile (trunc : bool) (path : string) (f : FS) : FS * result nat :=
  match inode_at f path with
  | Some i => (if trunc then set_text i "" f else f, Ok i)
  | None => let '(f, i) := new_file path f in (f, Ok i)
  end.

Definition Rename (old new : string) (f : FS) : FS * result unit :=
  match inode_at f old with
  | None => (f, Err ("rename " +:+ old +:+ " " +:+ new +:+ ": no such file or directory"))
  | Some i => (mkFS (<[Clean new := i]> (delete (Clean old) (names f))) (contents f) (next_inode f), Ok tt)
  end.

(** ** Levels and lines *)

(* server/common/log/logger.go: level *)
Definition level : Type := string.
(* server/common/log/logger.go: debugLevel #18-18 *)
Definition debugLevel : level := "DEBUG".
(* server/common/log/logger.go: infoLevel #19-19 *)
Definition infoLevel : level := "INFO".
(* server/common/log/logger.go: warnLevel #20-20 *)
Definition warnLevel : level := "WARN".
(* server/common/log/logger.go: errorLevel #21-21 *)
Definition errorLevel : level := "ERROR".
(* server/common/log/logger.go: exceptionLevel #22-22 *)
Definition exceptionLevel : level := "EXCEPTION".

(* server/common/log/logger.go: defaultLogFilePath #24-24 *)
Definition defaultLogFilePath : string := "./logs/msg_server.log".
(* server/common/log/logger.go: defaultMaxSizeBytes #25-25 *)
Definition defaultMaxSizeBytes : Z := 20 * 1024 * 1024.
Definition terminal (code : string) : string := String (byte_of 27) ("[" +:+ code +:+ "m").
(* server/common/log/logger.go: terminalColorReset #32-32 *)
Definition terminalColorReset : string := terminal "0".

(* server/common/log/logger.go: colorForLevel *)
Definition colorForLevel (lv : level) : string :=
  if decide (lv = debugLevel) then terminal "90"
  else if decide (lv = infoLevel) then terminal "32"
  else if decide (lv = warnLevel) then terminal "33"
  else if decide (lv = errorLevel) then terminal "31"
  else if decide (lv = exceptionLevel) then terminal "35"
  else terminalColorReset.

(* server/common/log/logger.go: logger *)
Record logger := mkLogger {
  filePath : string;
  maxSizeBytes : Z;
  format : string;
  colorEnabled : bool;
  file : option handle;
}.

(* server/common/log/logger.go: parseBoolDefault *)
Definition parseBoolDefault (raw : string) (defaultValue : bool) : bool :=
  let v := ToLower (TrimSpace raw) in
  if decide (v ∈ ["1"; "true"; "yes"; "y"; "on"]) then true
  else if decide (v ∈ ["0"; "false"; "no"; "n"; "off"]) then false
  else defaultValue.

(** The product of a size in megabytes wraps like the code's. *)
(* server/common/log/logger.go: newLoggerFromEnv *)
Definition newLoggerFromEnv (getenv : string → string) : logger :=
  let path := TrimSpace (getenv "LOG_FILE_PATH") in
  let path := if decide (path = "") then defaultLogFilePath else path in
  let raw := TrimSpace (getenv "LOG_MAX_SIZE_MB") in
  let max :=
    if decide (raw ≠ "") then
      match Atoi raw with
      | (sizeMB, ErrNone) => if (0 <? sizeMB)%Z then wrap64 (wrap64 (sizeMB * 1024) * 1024) else defaultMaxSizeBytes
      | _ => defaultMaxSizeBytes
      end
    else defaultMaxSizeBytes in
  let fmt := ToLower (TrimSpace (getenv "LOG_FORMAT")) in
  mkLogger path max (if decide (fmt ≠ "json") then "text" else fmt) (parseBoolDefault (TrimSpace (getenv "LOG_COLOR")) true) None.

(** [json.Marshal] sorts the keys of a map, and does not fail on strings. *)
(* server/common/log/logger.go: formatLine *)
Definition formatLine (l : logger) (ts : string) (lv : level) (caller message : string) : string :=
  if decide (format l = "json") then
    marshal_json (JObj [("caller", JStr caller); ("level", JStr lv); ("message", JStr message); ("timestamp", JStr ts)])
  else ts +:+ ":" +:+ lv +:+ ":" +:+ caller +:+ ":" +:+ message.

(** [fn]: the name of the caller, when the runtime knows it. *)
(* server/common/log/logger.go: callerFuncName *)
Definition callerFuncName (fn : option string) : string :=
  match fn with
  | None => "unknown"
  | Some fullName => default fullName (last (Split "/" fullName))
  end.

(** ** Writing *)

(** The logger, the file system, the number of system calls made, and what was printed. *)
Record Log := mkLog { lg : logger; fs : FS; syscalls : nat; stdout : list string; stderr : list string }.

Definition set_file (h : option handle) (s : Log) : Log :=
  let l := lg s in
  mkLog (mkLogger (filePath l) (maxSizeBytes l) (format l) (colorEnabled l) h) (fs s) (syscalls s) (stdout s) (stderr s).
Definition set_fs (f : FS) (s : Log) : Log := mkLog (lg s) f (syscalls s) (stdout s) (stderr s).
Definition tick (s : Log) : Log := mkLog (lg s) (fs s) (S (syscalls s)) (stdout s) (stderr s).
Definition to_stdout (line : string) (s : Log) : Log := mkLog (lg s) (fs s) (syscalls s) (stdout s ++ [line]) (stderr s).
Definition to_stderr (line : string) (s : Log) : Log := mkLog (lg s) (fs s) (syscalls s) (stdout s) (stderr s ++ [line]).

Section logger.
(** How the n-th system call fails, if it does: bytes a write got done, and the error. *)
Variable fault : nat → option (nat * string).

Definition sys {A} (act : FS → FS * result A) : M Log A := λ s,
  match fault (syscalls s) with
  | Some (_, e) => (tick s, Err e)
  | None => let '(f, r) := act (fs s) in (set_fs f (tick s), r)
  end.

(** A method of the logger's file, which must be there and not be closed. *)
Definition on_file {A} (what : string) (k : handle → M Log A) : M Log A := λ s,
  match file (lg s) with
  | None => (s, Err "invalid argument")
  | Some h => if h_closed h then (s, Err (what +:+ " " +:+ filePath (lg s) +:+ ": use of closed file")) else k h s
  end.

Definition file_Stat : M Log Z := on_file "stat" (λ h, sys (λ f, (f, Ok (Z.of_nat (strlen (text_of f (h_inode h))))))).

Definition file_Sync : M Log unit := on_file "sync" (λ _, sys (λ f, (f, Ok tt))).

(** The handle is closed even when [Close] reports an error. *)
Definition file_Close : M Log unit :=
  on_file "close" (λ h s, sys (λ f, (f, Ok tt)) (set_file (Some (mkHandle (h_inode h) (h_append h) (h_offset h) true)) s)).

Definition append_text (h : handle) (data : string) (s : Log) : Log :=
  let old := text_of (fs s) (h_inode h) in
  let offset := if h_append h then strlen old else h_offset h in
  set_file (Some (mkHandle (h_inode h) (h_append h) (offset + strlen data) (h_closed h)))
    (set_fs (set_text (h_inode h) (write_at offset data old) (fs s)) s).

Definition file_WriteString (data : string) : M Log unit := on_file "write" (λ h s,
  match fault (syscalls s) with
  | Some (n, e) => (append_text h (of_chars (take n (chars data))) (tick s), Err e)
  | None => (append_text h data (tick s), Ok tt)
  end).

(** [l.file = f] *)
Definition reopened (i : nat) (append : bool) : M Log unit := λ s, (set_file (Some (mkHandle i append 0 false)) s, Ok tt).

(* server/common/log/logger.go: ensureOpen *)
Definition ensureOpen : M Log unit := λ s,
  match file (lg s) with
  | Some _ => (s, Ok tt)
  | None =>
      (sys (λ f, (f, Ok (Dir (filePath (lg s)))));;
       i ← sys (OpenFile false (filePath (lg s)));
       reopened i true) s
  end.

(** 20060102_150405 *)
Definition stamp (now : time) : string :=
  let c := civil_of now in
  pad 4 (c_year c) +:+ pad 2 (c_month c) +:+ pad 2 (c_day c) +:+ "_" +:+ pad 2 (c_hour c) +:+ pad 2 (c_min c) +:+ pad 2 (c_sec c).

Definition candidate_name (currentPath ts : string) (index : Z) : string :=
  let ext := Ext currentPath in
  let base := TrimSuffix (Base currentPath) ext in
  base +:+ "_" +:+ ts +:+ "_" +:+ FormatInt index +:+ ext.

Definition candidate (currentPath ts : string) (index : Z) : string :=
  Join (Dir currentPath) (candidate_name currentPath ts index).

(** The search for a free name, for [fuel] attempts. *)
Fixpoint next_loop (fuel : nat) (currentPath ts : string) (index : Z) : M Log (option string) := λ s,
  match fuel with
  | O => (s, Ok None)
  | S fuel =>
      let c := candidate currentPath ts index in
      match sys (λ f, (f, Ok (bool_decide (inode_at f c ≠ None)))) s with
      | (s, Err e) => (s, Err e)
      | (s, Ok false) => (s, Ok (Some c))
      | (s, Ok true) => next_loop fuel currentPath ts (index + 1) s
      end
  end.

(** One attempt more than there are files is enough (theorem [next_rotated_path_terminates]). *)
(* server/common/log/logger.go: nextRotatedPath *)
Definition nextRotatedPath (now : time) (currentPath : string) : M Log string := λ s,
  match next_loop (S (size (names (fs s)))) currentPath (stamp now) 1 s with
  | (s, Ok (Some path)) => (s, Ok path)
  | (s, Ok None) => (s, Err "")
  | (s, Err e) => (s, Err e)
  end.

(* server/common/log/logger.go: rotateIfNeeded *)
Definition rotateIfNeeded (now : time) (incomingSize : Z) : M Log unit := λ s,
  match file (lg s) with
  | None => (s, Ok tt)
  | Some _ =>
      (size ← file_Stat;
       if (size + incomingSize <=? maxSizeBytes (lg s))%Z then mret tt
       else
         file_Sync;;
         file_Close;;
         rotatedPath ← nextRotatedPath now (filePath (lg s));
         sys (Rename (filePath (lg s)) rotatedPath);;
         i ← sys (OpenFile true (filePath (lg s)));
         reopened i false) s
  end.

(* server/common/log/logger.go: writeToFile *)
Definition writeToFile (now : time) (line : string) (s : Log) : Log :=
  match ensureOpen s with
  | (s, Err e) => to_stderr ("logger open file error: " +:+ e) s
  | (s, Ok _) =>
      match rotateIfNeeded now (Z.of_nat (strlen line)) s with
      | (s, Err e) => to_stderr ("logger rotate error: " +:+ e) s
      | (s, Ok _) =>
          match file_WriteString line s with
          | (s, Err e) => to_stderr ("logger write error: " +:+ e) s
          | (s, Ok _) => (file_Sync s).1
          end
      end
  end.

Definition newline : string := String (byte_of 10) "".

(* server/common/log/logger.go: logf *)
Definition logf (now : time) (fn : option string) (lv : level) (message : string) (s : Log) : Log :=
  let line := formatLine (lg s) (FormatRFC3339Nano now) lv (callerFuncName fn) message in
  let s := to_stdout (if colorEnabled (lg s) then colorForLevel lv +:+ line +:+ terminalColorReset else line) s in
  writeToFile now (line +:+ newline) s.

(* server/common/log/logger.go: Debugf *)
Definition Debugf (now : time) (fn : option string) (message : string) : Log → Log := logf now fn debugLevel message.
(* server/common/log/logger.go: Infof *)
Definition Infof (now : time) (fn : option string) (message : string) : Log → Log := logf now fn infoLevel message.
(* server/common/log/logger.go: Warnf *)
Definition Warnf (now : time) (fn : option string) (message : string) : Log → Log := logf now fn warnLevel message.
(* server/common/log/logger.go: Errorf *)
Definition Errorf (now : time) (fn : option string) (message : string) : Log → Log := logf now fn errorLevel message.
(* server/common/log/logger.go: Exceptionf *)
Definition Exceptionf (now : time) (fn : option string) (message : string) : Log → Log := logf now fn exceptionLevel message.
End logger.

(** * Lemmas *)

(** ** The names of rotated files *)

Lemma no_slash_pad n z : (0 ≤ z < 10 ^ Z.of_nat n)%Z → "/"%char ∉ chars (pad n z).
Proof.
  revert z. induction n as [|m IH]; intros z Hz; cbn; [set_solver|]. apply not_elem_of_cons. split.
  - pose proof (digit_of_digit _ (high_digit m z Hz)) as Hd. intros E. rewrite <-E in Hd. done.
  - apply IH, low_digits.
Qed.

Lemma stamp_no_slash now : encodable now → "/"%char ∉ chars (stamp now).
Proof.
  intros Ht. pose proof (encodable_year now Ht) as Hy. destruct (civil_spec now) as [_ Hv].
  assert (Hn : (0 ≤ c_hour (civil_of now) ∧ 0 ≤ c_min (civil_of now) ∧ 0 ≤ c_sec (civil_of now))%Z).
  { unfold civil_of. repeat case_match. cbn. repeat split; apply Z.mod_pos_bound || apply Z.div_pos; lia || apply Z.mod_pos_bound; lia. }
  unfold stamp. destruct (civil_of now) as [y mo d h mi sec nano]. cbn [c_year c_month c_day c_hour c_min c_sec] in *.
  unfold valid_civil in Hv. cbn -[days_in] in Hv. rewrite !andb_true_iff, !Z.leb_le, !Z.ltb_lt in Hv.
  pose proof (days_in_le y mo). rewrite !chars_app, !not_elem_of_app.
  repeat split; try (apply no_slash_pad; lia). cbn. set_solver.
Qed.

Lemma Ext_no_slash s : "/"%char ∉ chars (Ext s).
Proof.
  induction s as [|a s IH]; cbn [Ext]; [cbn; set_solver|]. destruct (_ && _) eqn:E; [|done].
  apply andb_true_iff in E as [Ha Hs]. apply Ascii.eqb_eq in Ha as ->. cbn. apply not_elem_of_cons. split; [done|].
  intros Hin. unfold no_ext_char in Hs. rewrite forallb_forall in Hs. apply list_elem_of_In in Hin. by specialize (Hs _ Hin).
Qed.

Lemma TrimSuffix_chars s p c : c ∈ chars (TrimSuffix s p) → c ∈ chars s.
Proof.
  unfold TrimSuffix. destruct (strip_prefix _ _) as [r|] eqn:E; [|done]. apply strip_prefix_Some in E.
  assert (s = rev_string r +:+ p) as ->.
  { rewrite <-(rev_string_involutive s), E, rev_string_app. by rewrite rev_string_involutive. }
  rewrite chars_app. set_solver.
Qed.

Lemma split_last_None s : split_last s = None → "/"%char ∉ chars s.
Proof.
  induction s as [|a s IH]; cbn; [set_solver|]. destruct (split_last s) as [[??]|]; [done|].
  destruct (Ascii.eqb a "/") eqn:Ea; [done|]. intros _. apply Ascii.eqb_neq in Ea. apply not_elem_of_cons. auto.
Qed.

Lemma split_last_base s d b : split_last s = Some (d, b) → "/"%char ∉ chars b.
Proof.
  revert d b. induction s as [|a s IH]; intros d b; cbn; [done|].
  destruct (split_last s) as [[d' b']|] eqn:E; [intros [= <- <-]; eauto|]. destruct (Ascii.eqb a "/"); [|done]. intros [= <- <-]. by apply split_last_None.
Qed.

Lemma Base_no_slash s : Base s ≠ "/" → "/"%char ∉ chars (Base s).
Proof.
  unfold Base. case_decide; [by cbn; set_solver|]. case_decide; [done|].
  destruct (split_last _) as [[d b]|] eqn:E; intros _; [by eapply split_last_base|by apply split_last_None].
Qed.


Section candidates.
Variables (path : string) (now : time).
Hypothesis Hbase : Base path ≠ "/".
Hypothesis Hnow : encodable now.

Lemma candidate_name_proper i : proper (candidate_name path (stamp now) i).
Proof.
  set (n := candidate_name path (stamp now) i).
  assert ("_"%char ∈ chars n) as Hu.
  { subst n. unfold candidate_name. rewrite !chars_app, !elem_of_app. right. left. by_computation. }
  split_and!; [by intros E; rewrite E in Hu; revert Hu; by_computation..|].
  subst n. unfold candidate_name. rewrite !chars_app, !not_elem_of_app. split_and!.
  - intros Hin%TrimSuffix_chars. by apply (Base_no_slash path).
  - by_computation.
  - by apply stamp_no_slash.
  - by_computation.
  - by apply FormatInt_no_char.
  - apply Ext_no_slash.
Qed.

Lemma candidate_inj i j :
  Clean (candidate path (stamp now) i) = Clean (candidate path (stamp now) j) → i = j.
Proof.
  intros E%Join_inj; [|apply candidate_name_proper..]. unfold candidate_name in E.
  do 4 apply app_inj_l_s in E. by apply app_inj_r_s, FormatInt_inj in E.
Qed.

(** ** The search *)
Section loop.
Variable fault : nat → option (nat * string).
Notation next_loop := (next_loop fault).

(** Candidates that are all taken are as many as there are names at most. *)
Lemma taken_bound (f : FS) (n : nat) (k : Z) :
  (∀ i, (i < n)%nat → inode_at f (candidate path (stamp now) (k + Z.of_nat i)) ≠ None) → n ≤ size (names f).
Proof.
  intros Hall. pose (keys := (λ i, Clean (candidate path (stamp now) (k + Z.of_nat i))) <$> seq 0 n).
  transitivity (length keys); [subst keys; by rewrite length_fmap, length_seq|].
  rewrite <-size_dom. rewrite <-(size_list_to_set (C := gset string) keys).
  - apply subseteq_size. intros x. rewrite elem_of_list_to_set. subst keys.
    intros (i & -> & [_ Hi]%elem_of_seq)%list_elem_of_fmap. apply elem_of_dom.
    specialize (Hall i Hi). unfold inode_at in Hall. destruct (names f !! _) eqn:E; [by eexists|done].
  - subst keys. apply NoDup_fmap_2_strong; [|apply NoDup_seq].
    intros x y _ _ E%candidate_inj. lia.
Qed.

Lemma next_loop_spec n k s :
  (∃ s', next_loop n path (stamp now) k s = (s', Ok None) ∧ fs s' = fs s
     ∧ ∀ i, (i < n)%nat → inode_at (fs s) (candidate path (stamp now) (k + Z.of_nat i)) ≠ None)
  ∨ (∃ s' r, (∀ m, next_loop (n + m) path (stamp now) k s = (s', r)) ∧ r ≠ Ok None ∧ fs s' = fs s ∧ lg s' = lg s
     ∧ ∀ c, r = Ok (Some c) → inode_at (fs s) c = None ∧ ∃ i, c = candidate path (stamp now) i).
Proof.
  revert k s. induction n as [|n IH]; intros k s.
  { left. exists s. repeat split; lia. }
  cbn [Logger.next_loop Nat.add]. unfold sys. destruct (fault (syscalls s)) as [[b e]|].
  { right. exists (tick s), (Err e). by repeat split. }
  cbn [fst]. case_bool_decide as Hc.
  - set (s1 := set_fs (fs s) (tick s)). destruct (IH (k + 1)%Z s1) as [(s' & -> & Hf & Hall)|(s' & r & Hr & Hne & Hf & Hl & Hx)].
    + left. exists s'. repeat split; [done|]. intros [|i] Hi; [by rewrite Z.add_0_r|].
      replace (k + Z.of_nat (S i))%Z with (k + 1 + Z.of_nat i)%Z by lia. apply Hall. lia.
    + right. exists s', r. split_and!; done.
  - right. eexists _, _. split; [done|]. repeat split; [done|..]; simplify_eq; [|by eexists].
    by destruct (inode_at (fs s) _).
Qed.
End loop.
End candidates.

(** ** The file system *)

(** The text under a cleaned path. *)
Definition file_text (f : FS) (key : string) : option string := text_of f <$> names f !! key.

(** Names lead to inodes that exist, each to its own: nothing is linked twice. *)
Definition fs_wf (f : FS) : Prop :=
  (∀ p i, names f !! p = Some i → i < next_inode f) ∧ ∀ p q i, names f !! p = Some i → names f !! q = Some i → p = q.

Lemma text_set f i j t : text_of (set_text i t f) j = if decide (j = i) then t else text_of f j.
Proof. unfold text_of, set_text. cbn. case_decide as E; [subst; by rewrite lookup_insert_eq|by rewrite lookup_insert_ne]. Qed.

Lemma set_text_spec f key i t :
  fs_wf f → names f !! key = Some i →
  fs_wf (set_text i t f) ∧ ∀ q, file_text (set_text i t f) q = if decide (q = key) then Some t else file_text f q.
Proof.
  intros Hwf Hi. split; [done|]. intros q. unfold file_text. cbn [names set_text].
  case_decide as E; [subst; rewrite Hi; cbn; by rewrite text_set, decide_True|].
  destruct (names f !! q) as [j|] eqn:Eq; [|done]. cbn. rewrite text_set, decide_False; [done|].
  intros ->. by apply E, (proj2 Hwf q key i).
Qed.

Lemma new_file_spec f path :
  fs_wf f → names f !! Clean path = None →
  let '(f', i) := new_file path f in
  fs_wf f' ∧ names f' !! Clean path = Some i ∧ ∀ q, file_text f' q = if decide (q = Clean path) then Some "" else file_text f q.
Proof.
  intros [Hb Hinj] Hn. unfold new_file. cbn [names]. rewrite lookup_insert_eq. split; [split|split; [done|]].
  - cbn. intros p i. rewrite lookup_insert_Some. intros [[_ <-]|[_ Hp]]; [lia|]. apply Hb in Hp. lia.
  - cbn. intros p q i. rewrite !lookup_insert_Some. intros [[<- <-]|[? Hp]] [[<- E]|[? Hq]]; try done.
    + apply Hb in Hq. lia.
    + subst. apply Hb in Hp. lia.
    + by apply (Hinj p q i).
  - intros q. unfold file_text, text_of. cbn. case_decide as E.
    + subst. rewrite lookup_insert_eq. cbn. by rewrite lookup_insert_eq.
    + rewrite lookup_insert_ne by done. destruct (names f !! q) as [j|] eqn:Eq; [|done]. cbn.
      apply Hb in Eq. by rewrite lookup_insert_ne by lia.
Qed.

Lemma OpenFile_spec f path :
  fs_wf f →
  let '(f', r) := OpenFile false path f in
  ∃ i, r = Ok i ∧ fs_wf f' ∧ names f' !! Clean path = Some i
    ∧ ∀ q, file_text f' q = if decide (q = Clean path) then Some (default "" (file_text f (Clean path))) else file_text f q.
Proof.
  intros Hwf. unfold OpenFile, inode_at. destruct (names f !! Clean path) as [i|] eqn:E.
  - exists i. split_and!; [done..|]. intros q. case_decide; [subst|done]. unfold file_text. by rewrite E.
  - pose proof (new_file_spec f path Hwf E) as Hn. destruct (new_file path f) as [f' i]. destruct Hn as (? & ? & Hn).
    exists i. split_and!; [done..|]. intros q. rewrite Hn. unfold file_text at 2. by rewrite E.
Qed.

(** The two calls of a rotation: the file takes the free name, and an empty one takes its place. *)
Lemma rotation_spec f path free cur :
  fs_wf f → file_text f (Clean path) = Some cur → names f !! Clean free = None →
  ∃ f1 f2 i, Rename path free f = (f1, Ok tt) ∧ OpenFile true path f1 = (f2, Ok i) ∧ fs_wf f2
    ∧ names f2 !! Clean path = Some i
    ∧ ∀ q, file_text f2 q = if decide (q = Clean path) then Some "" else if decide (q = Clean free) then Some cur else file_text f q.
Proof.
  intros [Hb Hinj] Hcur Hfree. unfold file_text in Hcur. destruct (names f !! Clean path) as [i|] eqn:E; [|done].
  cbn in Hcur. injection Hcur as <-.
  assert (Clean free ≠ Clean path) as Hne by congruence.
  unfold Rename, inode_at. rewrite E. set (f1 := mkFS _ _ _).
  assert (names f1 !! Clean path = None) as H1 by (cbn; by rewrite lookup_insert_ne, lookup_delete_eq by done).
  assert (fs_wf f1) as Hwf1.
  { split; cbn; intros p; [intros j|intros q j]; rewrite !lookup_insert_Some, !lookup_delete_Some.
    - intros [[_ <-]|(_ & _ & Hp)]; by eapply Hb.
    - pose proof (Hinj (Clean path)). naive_solver. }
  pose proof (new_file_spec f1 path Hwf1 H1) as Hn. unfold OpenFile, inode_at.
  destruct (new_file path f1) as [f2 j] eqn:En. destruct Hn as (Hwf2 & Hj & Hn).
  exists f1, f2, j. rewrite H1, En. split_and!; [done..|]. intros q. rewrite Hn. case_decide as Eq; [done|].
  unfold file_text. cbn. case_decide as Eq'; [subst; by rewrite lookup_insert_eq|].
  by rewrite lookup_insert_ne, lookup_delete_ne by done.
Qed.

Lemma write_at_end data old : write_at (strlen old) data old = old +:+ data.
Proof.
  unfold write_at. rewrite Nat.sub_diag. cbn [replicate app].
  rewrite take_ge, drop_ge, app_nil_r by (rewrite length_chars; lia).
  rewrite <-(of_chars_chars (old +:+ data)). by rewrite chars_app.
Qed.

(** ** Without failures *)

Definition quiet : nat → option (nat * string) := λ _, None.

Definition log_key (s : Log) : string := Clean (filePath (lg s)).
Definition log_text (s : Log) : string := default "" (file_text (fs s) (log_key s)).

(** The logger's file is the one under its path, and writes go to its end. *)
Definition opened_on (s : Log) (h : handle) : Prop :=
  file (lg s) = Some h ∧ h_closed h = false ∧ names (fs s) !! log_key s = Some (h_inode h)
  ∧ (h_append h = true ∨ h_offset h = strlen (log_text s)).

Definition ready (s : Log) : Prop := fs_wf (fs s) ∧ (file (lg s) = None ∨ ∃ h, opened_on s h).

Definition same_config (s s' : Log) : Prop :=
  filePath (lg s') = filePath (lg s) ∧ maxSizeBytes (lg s') = maxSizeBytes (lg s).

Lemma opened_text s h : opened_on s h → text_of (fs s) (h_inode h) = log_text s ∧ file_text (fs s) (log_key s) = Some (log_text s).
Proof. intros (_ & _ & Hn & _). unfold log_text, file_text. by rewrite Hn. Qed.

Lemma on_file_opened {A} what (k : handle → M Log A) s h : opened_on s h → on_file what k s = k h s.
Proof. intros (Hf & Hc & _). unfold on_file. by rewrite Hf, Hc. Qed.

Lemma ensureOpen_quiet s :
  ready s → ∃ s' h, ensureOpen quiet s = (s', Ok tt) ∧ fs_wf (fs s') ∧ opened_on s' h ∧ same_config s s'
    ∧ ∀ q, file_text (fs s') q = if decide (q = log_key s) then Some (log_text s) else file_text (fs s) q.
Proof.
  intros [Hwf [Hf|[h Hh]]]; unfold ensureOpen.
  - rewrite Hf. unfold mbind, M_bind, sys. cbn [quiet].
    set (s1 := set_fs (fs s) (tick s)). change (fs s1) with (fs s). change (filePath (lg s1)) with (filePath (lg s)).
    pose proof (OpenFile_spec (fs s) (filePath (lg s)) Hwf) as Ho.
    destruct (OpenFile false (filePath (lg s)) (fs s)) as [f r]. destruct Ho as (i & -> & Hwf' & Hi & Hq).
    eexists _, (mkHandle i true 0 false). unfold reopened. split; [done|]. split_and!; try done. split_and!; try done. by left.
  - pose proof Hh as (Hf & _). rewrite Hf. exists s, h. split_and!; try done. intros q. case_decide; [subst|done].
    by apply opened_text in Hh as [_ ?].
Qed.

Lemma next_loop_quiet n path ts k s e : (next_loop quiet n path ts k s).2 ≠ Err e.
Proof.
  revert k s. induction n as [|n IH]; intros k s; cbn [next_loop]; [done|].
  unfold sys. cbn [quiet]. case_bool_decide; [apply IH|done].
Qed.

Lemma nextRotatedPath_quiet now s path :
  Base path ≠ "/" → encodable now → ∃ s' p, nextRotatedPath quiet now path s = (s', Ok p) ∧ fs s' = fs s ∧ lg s' = lg s
    ∧ names (fs s) !! Clean p = None.
Proof.
  intros Hb Ht. unfold nextRotatedPath.
  destruct (next_loop_spec path now quiet (S (size (names (fs s)))) 1 s)
    as [(s' & _ & _ & Hall)|(s' & r & Hr & Hne & Hf & Hl & Hx)].
  - exfalso. apply (taken_bound path now Hb Ht) in Hall. lia.
  - specialize (Hr 0). rewrite Nat.add_0_r in Hr. rewrite Hr. destruct r as [[p|]|e]; [|done|].
    + exists s', p. split_and!; try done. by apply Hx.
    + pose proof (next_loop_quiet (S (size (names (fs s)))) path (stamp now) 1 s e) as Hq. by rewrite Hr in Hq.
Qed.

Lemma rotate_quiet now s h (size : Z) :
  Base (filePath (lg s)) ≠ "/" → encodable now → fs_wf (fs s) → opened_on s h →
  ∃ s' h', rotateIfNeeded quiet now size s = (s', Ok tt) ∧ fs_wf (fs s') ∧ opened_on s' h' ∧ same_config s s'
    ∧ if decide (Z.of_nat (strlen (log_text s)) + size ≤ maxSizeBytes (lg s))%Z then fs s' = fs s
      else ∃ p, file_text (fs s) p = None ∧ ∀ q, file_text (fs s') q =
             if decide (q = log_key s) then Some "" else if decide (q = p) then Some (log_text s) else file_text (fs s) q.
Proof.
  intros Hb Ht Hwf Hh. pose proof (opened_text s h Hh) as [Htext Hkey]. pose proof Hh as (Hf & Hc & Hn & Ha).
  unfold rotateIfNeeded. rewrite Hf. unfold mbind, M_bind, file_Stat. rewrite (on_file_opened _ _ _ _ Hh).
  unfold sys at 1. cbn [quiet]. rewrite Htext. set (s1 := set_fs (fs s) (tick s)).
  assert (opened_on s1 h) as Hh1 by done.
  case_decide as Hle.
  - rewrite (proj2 (Z.leb_le _ _)) by done. by exists s1, h.
  - rewrite (proj2 (Z.leb_gt _ _)) by lia. unfold file_Sync. rewrite (on_file_opened _ _ s1 h Hh1).
    unfold sys at 1. cbn [quiet]. set (s2 := set_fs (fs s1) (tick s1)).
    assert (opened_on s2 h) as Hh2 by done.
    unfold file_Close. rewrite (on_file_opened _ _ s2 h Hh2). unfold sys at 1. cbn [quiet].
    set (s3 := set_fs _ _).
    destruct (nextRotatedPath_quiet now s3 (filePath (lg s)) Hb Ht) as (s4 & p & -> & Hf4 & Hl4 & Hp).
    assert (fs s4 = fs s) as Hf4' by done. change (names (fs s) !! Clean p = None) in Hp.
    assert (log_key s = Clean (filePath (lg s))) as Hk by done.
    destruct (rotation_spec (fs s) (filePath (lg s)) p (log_text s) Hwf Hkey Hp) as (f1 & f2 & i & Hr & Ho & Hwf2 & Hi & Hq).
    unfold sys at 1. cbn [quiet]. rewrite Hf4'. rewrite Hr. unfold sys. cbn [quiet fs set_fs tick]. rewrite Ho.
    eexists _, (mkHandle i false 0 false). unfold reopened. split; [done|].
    assert (filePath (lg s4) = filePath (lg s) ∧ maxSizeBytes (lg s4) = maxSizeBytes (lg s)) as [Hfp Hmx] by by rewrite Hl4.
    cbn [fs set_fs tick set_file lg filePath maxSizeBytes]. split; [done|]. split; [|split; [done|]].
    + unfold opened_on, log_key, log_text. cbn [fs set_fs tick set_file lg filePath file h_closed h_inode h_append h_offset].
      rewrite Hfp. split_and!; try done. right. unfold log_key. cbn [lg filePath set_file]. cbn. by rewrite Hfp, Hq, decide_True.
    + exists (Clean p). split; [|done]. unfold file_text. by rewrite Hp.
Qed.

Lemma write_quiet line s h :
  fs_wf (fs s) → opened_on s h →
  ∃ s' h', file_WriteString quiet line s = (s', Ok tt) ∧ fs_wf (fs s') ∧ opened_on s' h' ∧ same_config s s'
    ∧ ∀ q, file_text (fs s') q = if decide (q = log_key s) then Some (log_text s +:+ line) else file_text (fs s) q.
Proof.
  intros Hwf Hh. pose proof (opened_text s h Hh) as [Htext _]. unfold file_WriteString. rewrite (on_file_opened _ _ _ _ Hh).
  destruct Hh as (Hf & Hc & Hn & Ha). cbn [quiet]. unfold append_text. cbn [fs tick]. rewrite Htext.
  replace (if h_append h then strlen (log_text s) else h_offset h) with (strlen (log_text s)) by (destruct (h_append h); naive_solver).
  rewrite write_at_end.
  destruct (set_text_spec (fs s) (log_key s) (h_inode h) (log_text s +:+ line) Hwf Hn) as [Hwf' Hq].
  eexists _, (mkHandle (h_inode h) (h_append h) (strlen (log_text s) + strlen line) (h_closed h)).
  split; [done|]. split; [done|]. split; [|done].
  unfold opened_on. split_and!; try done. right. unfold log_text at 2, log_key. cbn [fs set_fs set_file lg filePath h_offset].
  fold (log_key s). rewrite Hq, decide_True by done. symmetry. apply length_append.
Qed.

Lemma sync_quiet s h : opened_on s h → file_Sync quiet s = (tick s, Ok tt).
Proof. intros Hh. unfold file_Sync. rewrite (on_file_opened _ _ _ _ Hh). unfold sys. cbn [quiet]. by destruct s. Qed.

(** One line: it is added to the file, or the file is put aside and the line begins a new one. *)
Lemma writeToFile_quiet now line s :
  Base (filePath (lg s)) ≠ "/" → encodable now → ready s →
  let s' := writeToFile quiet now line s in
  ready s' ∧ same_config s s'
  ∧ if decide (Z.of_nat (strlen (log_text s)) + Z.of_nat (strlen line) ≤ maxSizeBytes (lg s))%Z then
      ∀ q, file_text (fs s') q = if decide (q = log_key s) then Some (log_text s +:+ line) else file_text (fs s) q
    else ∃ p, file_text (fs s) p = None ∧ p ≠ log_key s ∧ ∀ q, file_text (fs s') q =
      if decide (q = log_key s) then Some line else if decide (q = p) then Some (log_text s) else file_text (fs s) q.
Proof.
  intros Hb Ht Hr. unfold writeToFile.
  destruct (ensureOpen_quiet s Hr) as (s1 & h1 & -> & Hwf1 & Hh1 & [Hp1 Hm1] & Hq1).
  assert (log_key s1 = log_key s) as Hk1 by (unfold log_key; by rewrite Hp1).
  assert (log_text s1 = log_text s) as Ht1 by (unfold log_text at 1; by rewrite Hk1, Hq1, decide_True).
  rewrite <-Hp1 in Hb.
  destruct (rotate_quiet now s1 h1 (Z.of_nat (strlen line)) Hb Ht Hwf1 Hh1) as (s2 & h2 & -> & Hwf2 & Hh2 & [Hp2 Hm2] & Hq2).
  assert (log_key s2 = log_key s) as Hk2 by (unfold log_key; by rewrite Hp2, Hp1).
  destruct (write_quiet line s2 h2 Hwf2 Hh2) as (s3 & h3 & -> & Hwf3 & Hh3 & [Hp3 Hm3] & Hq3).
  rewrite (sync_quiet s3 h3 Hh3). cbn [fst].
  split; [split; [done|right; by exists h3]|]. split; [split; cbn; congruence|].
  change (fs (tick s3)) with (fs s3). rewrite Ht1, Hm1 in Hq2.
  case_decide as Hle.
  - assert (log_text s2 = log_text s) as Ht2 by (rewrite <-Ht1; unfold log_text; by rewrite Hk2, Hk1, Hq2).
    intros q. rewrite Hq3, Hk2, Ht2, Hq2, Hq1. by case_decide.
  - destruct Hq2 as (p & Hp & Hq2). exists p. rewrite Hq1 in Hp. rewrite Hk1 in Hq2.
    assert (log_text s2 = "") as Ht2 by (unfold log_text; rewrite Hk2, Hq2; by destruct (decide (log_key s = log_key s))).
    case_decide as Hpk; [done|]. split; [done|]. split; [done|].
    intros q. rewrite Hq3, Hk2, Ht2, Hq2, Hq1. repeat case_decide; try done.
Qed.

(** ** The specification: closed segments and the current one *)

Definition add_line (max : Z) (segs : list string * string) (line : string) : list string * string :=
  let '(closed, cur) := segs in
  if decide (Z.of_nat (strlen cur) + Z.of_nat (strlen line) ≤ max)%Z then (closed, cur +:+ line) else (closed ++ [cur], line).

Fixpoint concat_s (l : list string) : string := match l with [] => "" | x :: rest => x +:+ concat_s rest end.

Lemma concat_s_app l1 l2 : concat_s (l1 ++ l2) = concat_s l1 +:+ concat_s l2.
Proof. induction l1 as [|x l IH]; [done|]. cbn [concat_s app]. by rewrite IH, app_assoc_s. Qed.

(** The segments together are what was written, and only a single line or the text found at the start exceeds
    the limit. *)
Lemma add_lines_text max start lines :
  let '(closed, cur) := foldl (add_line max) ([], start) lines in
  concat_s (closed ++ [cur]) = start +:+ concat_s lines
  ∧ ∀ t, t ∈ closed ++ [cur] → (Z.of_nat (strlen t) ≤ max)%Z ∨ t = start ∨ t ∈ lines.
Proof.
  induction lines as [|line lines IH] using rev_ind.
  - split; [by rewrite concat_s_app|]. set_solver.
  - rewrite foldl_app. destruct (foldl _ _ lines) as [closed cur]. destruct IH as [IH Hb]. cbn [foldl]. unfold add_line.
    assert (concat_s (closed ++ [cur]) +:+ line = start +:+ concat_s (lines ++ [line])) as Htext.
    { rewrite IH, concat_s_app, app_assoc_s. cbn. by rewrite app_nil_r_s. }
    case_decide; (split; [rewrite <-Htext|]).
    + rewrite !concat_s_app, app_assoc_s. cbn. by rewrite !app_nil_r_s.
    + intros t [Ht| ->%list_elem_of_singleton]%elem_of_app.
      * destruct (Hb t) as [?|[?|?]]; set_solver.
      * left. rewrite length_append. lia.
    + rewrite (concat_s_app _ [line]). cbn. by rewrite !app_nil_r_s.
    + intros t [Ht| ->%list_elem_of_singleton]%elem_of_app; [|set_solver]. destruct (Hb t Ht) as [?|[?|?]]; set_solver.
Qed.

Definition write_lines (fault : nat → option (nat * string)) : Log → list (time * string) → Log :=
  foldl (λ s '(now, line), writeToFile fault now line s).

(** The segments as files: the closed ones under new names, the current one under the logger's path. *)
Definition represents (s0 s : Log) (segs : list string * string) : Prop :=
  log_text s = segs.2
  ∧ ∃ rotated, NoDup rotated ∧ log_key s0 ∉ rotated
      ∧ Forall2 (λ p text, file_text (fs s0) p = None ∧ file_text (fs s) p = Some text) rotated segs.1
      ∧ ∀ q, q ≠ log_key s0 → q ∉ rotated → file_text (fs s) q = file_text (fs s0) q.

Lemma represents_step now line s0 s closed cur :
  Base (filePath (lg s)) ≠ "/" → encodable now → ready s → same_config s0 s → represents s0 s (closed, cur) →
  let s' := writeToFile quiet now line s in
  ready s' ∧ same_config s0 s' ∧ represents s0 s' (add_line (maxSizeBytes (lg s0)) (closed, cur) line).
Proof.
  intros Hb Ht Hr [Hp Hm] (Hcur & rotated & Hnd & Hk & Hclosed & Hother). cbn [fst snd] in *.
  destruct (writeToFile_quiet now line s Hb Ht Hr) as (Hr' & [Hp' Hm'] & Hstep).
  set (s' := writeToFile quiet now line s) in *. assert (log_key s = log_key s0) as Hk1 by (unfold log_key; by rewrite Hp).
  assert (log_key s' = log_key s0) as Hk2 by (unfold log_key; by rewrite Hp', Hp).
  split; [done|]. split; [split; congruence|]. cbn [add_line]. rewrite Hcur, Hm, Hk1 in Hstep.
  assert ((∀ q, q ∈ rotated → file_text (fs s') q = file_text (fs s) q) →
    Forall2 (λ p text, file_text (fs s0) p = None ∧ file_text (fs s') p = Some text) rotated closed) as Hkeep.
  { intros Hq. apply Forall2_same_length_lookup. split; [by eapply Forall2_length|]. intros i p text Hi Hj.
    destruct (Forall2_lookup_lr _ _ _ _ _ _ Hclosed Hi Hj). rewrite Hq; [done|]. by eapply list_elem_of_lookup_2. }
  case_decide as Hle.
  - split; [unfold log_text; by rewrite Hk2, Hstep, decide_True|]. exists rotated. split_and!; [done..| |].
    + apply Hkeep. intros q Hq. rewrite Hstep, decide_False; [done|]. by intros ->.
    + intros q Hq Hqr. rewrite Hstep, decide_False by done. by apply Hother.
  - destruct Hstep as (p & Hfree & Hpk & Hstep).
    assert (p ∉ rotated) as Hpr.
    { intros Hin. apply list_elem_of_lookup in Hin as [i Hi]. destruct (Forall2_lookup_l _ _ _ _ _ Hclosed Hi) as (? & _ & _ & ?). congruence. }
    split; [unfold log_text; rewrite Hk2, Hstep; by destruct (decide (log_key s0 = log_key s0))|].
    exists (rotated ++ [p]). split_and!.
    + apply NoDup_app. split_and!; [done|set_solver|apply NoDup_singleton].
    + set_solver.
    + apply Forall2_app; [|constructor; [|constructor]].
      * apply Hkeep. intros q Hq. rewrite Hstep, !decide_False; [done| |]; intros ->; done.
      * split; [by rewrite <-(Hother p)|]. by rewrite Hstep, decide_False, decide_True.
    + intros q Hq [Hqr Hqp]%not_elem_of_app. rewrite Hstep, !decide_False by set_solver. by apply Hother.
Qed.

Lemma represents_lines s0 lines :
  Base (filePath (lg s0)) ≠ "/" → Forall encodable lines.*1 → ready s0 →
  let s := write_lines quiet s0 lines in
  ready s ∧ same_config s0 s ∧ represents s0 s (foldl (add_line (maxSizeBytes (lg s0))) ([], log_text s0) lines.*2).
Proof.
  intros Hb Ht Hs. cbn zeta. induction lines as [|[now line] lines IH] using rev_ind.
  { split; [done|]. split; [done|]. split; [done|]. exists []. split_and!; [constructor|set_solver|constructor|done]. }
  rewrite fmap_app, Forall_app in Ht. destruct Ht as [Ht [Hnow _]%Forall_cons]. destruct (IH Ht) as (Hr & Hc & Hrep).
  unfold write_lines in *. rewrite foldl_app, fmap_app, foldl_app. cbn [foldl fmap list_fmap].
  destruct (foldl (add_line _) _ lines.*2) as [closed cur]. apply represents_step; try done. by rewrite (proj1 Hc).
Qed.

(** * Properties *)

(** C21: The search for a free name ends.  Whatever files there are and whichever calls fail, it is over after at
    most one attempt more than there are files, with more attempts it ends the same, it changes nothing, and the name
    it gives is taken by no file, so that the rotation overwrites nothing. *)
Theorem next_rotated_path_terminates fault now path s m :
  Base path ≠ "/" → encodable now →
  let n := S (size (names (fs s))) in
  ∃ s' r, next_loop fault (n + m) path (stamp now) 1 s = (s', r) ∧ r ≠ Ok None
    ∧ nextRotatedPath fault now path s = (s', r ≫= λ found, match found with Some p => Ok p | None => Err "" end)
    ∧ fs s' = fs s ∧ ∀ p, r = Ok (Some p) → inode_at (fs s) p = None.
Proof.
  intros Hb Ht n. destruct (next_loop_spec path now fault n 1 s) as [(s' & _ & _ & Hall)|(s' & r & Hr & Hne & Hf & _ & Hx)].
  - apply (taken_bound path now Hb Ht) in Hall. subst n. lia.
  - exists s', r. split_and!; try done; [|by intros p [? _]%Hx].
    unfold nextRotatedPath. fold n. specialize (Hr 0). rewrite Nat.add_0_r in Hr. rewrite Hr. by destruct r as [[p|]|e].
Qed.

(** C20: Without failures the log loses and duplicates nothing.  The lines, in order, after what the file
    held, are cut into segments as the limit says; all but the last are in files with new names, one for each rotation,
    the last is in the log file, no other file changes, and only a single line, or what the file held at the
    start, is longer than the limit. *)
Theorem logger_keeps_lines lines s :
  Base (filePath (lg s)) ≠ "/" → Forall encodable lines.*1 → ready s →
  let s' := write_lines quiet s lines in
  let '(closed, cur) := foldl (add_line (maxSizeBytes (lg s))) ([], log_text s) lines.*2 in
  concat_s (closed ++ [cur]) = log_text s +:+ concat_s lines.*2
  ∧ (∀ t, t ∈ closed ++ [cur] → (Z.of_nat (strlen t) ≤ maxSizeBytes (lg s))%Z ∨ t = log_text s ∨ t ∈ lines.*2)
  ∧ log_text s' = cur
  ∧ ∃ rotated, NoDup rotated ∧ log_key s ∉ rotated
      ∧ Forall2 (λ p text, file_text (fs s) p = None ∧ file_text (fs s') p = Some text) rotated closed
      ∧ ∀ q, q ≠ log_key s → q ∉ rotated → file_text (fs s') q = file_text (fs s) q.
Proof.
  intros Hb Ht Hs s'. pose proof (add_lines_text (maxSizeBytes (lg s)) (log_text s) lines.*2) as Htext.
  destruct (represents_lines s lines Hb Ht Hs) as (_ & _ & Hrep). destruct (foldl _ _ _) as [closed cur].
  destruct Htext, Hrep. by split_and!.
Qed.

(** A failed rotation silences the logger for good.  Once its file is closed, which it is after a rotation
    that fails at the renaming or the reopening, nothing that is logged reaches a file any more, whatever becomes
    of the file system; each line is an error on stderr. *)
Theorem failed_rotation_silences_logger fault lines s h :
  file (lg s) = Some h → h_closed h = true →
  let s' := write_lines fault s lines in
  fs s' = fs s ∧ file (lg s') = Some h ∧ length (stderr s') = length (stderr s) + length lines.
Proof.
  intros Hf Hc. cbn zeta. induction lines as [|[now line] lines IH] using rev_ind; [by rewrite Nat.add_0_r|].
  unfold write_lines in *. rewrite foldl_app. cbn [foldl]. set (s1 := foldl _ s lines) in *.
  destruct IH as (Hfs & Hf1 & Herr). unfold writeToFile, ensureOpen. rewrite Hf1.
  unfold rotateIfNeeded. rewrite Hf1. unfold mbind, M_bind, file_Stat, on_file. rewrite Hf1, Hc.
  cbn. rewrite !length_app, Herr. cbn. split_and!; [done..|lia].
Qed.

(** * A concrete run *)

Definition demo_env (k : string) : string :=
  if decide (k = "LOG_FILE_PATH") then "/var/log/../log/chat.log" else if decide (k = "LOG_COLOR") then "off" else "".

Definition demo_log (max : Z) : Log :=
  mkLog (let l := newLoggerFromEnv demo_env in mkLogger (filePath l) max (format l) (colorEnabled l) None) (mkFS ∅ ∅ 0) 0 [] [].

Definition demo_now : time := 1700000000123456789.

Example demo_line :
  (logf quiet demo_now (Some "msg_server/server/chat/service.(*ChatService).Send") infoLevel "sent" (demo_log 1000)).(stdout)
  = ["2023-11-14T22:13:20.123456789Z:INFO:service.(*ChatService).Send:sent"].
Proof. vm_compute. reflexivity. Qed.

(** The names of one second are counted up. *)
Lemma next_rotated_path_terminates_witness :
  let s := mkLog (lg (demo_log 5)) (mkFS {["/var/log/chat_20231114_221320_1.log" := 0]} ∅ 1) 0 [] [] in
  ∃ s' r, next_loop quiet (2 + 3) "/var/log/chat.log" (stamp demo_now) 1 s = (s', r) ∧ r ≠ Ok None
    ∧ nextRotatedPath quiet demo_now "/var/log/chat.log" s = (s', Ok "/var/log/chat_20231114_221320_2.log")
    ∧ inode_at (fs s) "/var/log/chat_20231114_221320_2.log" = None.
Proof.
  intros s. destruct (next_rotated_path_terminates quiet demo_now "/var/log/chat.log" s 3) as (s' & r & Hr & Hne & Hn & _ & Hx);
    [by_computation..|].
  assert (r = Ok (Some "/var/log/chat_20231114_221320_2.log")) as Er by
    (change r with (s', r).2; rewrite <-Hr; vm_compute; reflexivity).
  exists s', r. split; [exact Hr|]. split; [exact Hne|]. rewrite Er in Hn. split; [exact Hn|exact (Hx _ Er)].
Defined.

(** Three lines with a limit of five bytes, in the second of one rotation before: two segments are put aside. *)
Lemma logger_keeps_lines_witness :
  let lines := [(demo_now, "ab"); (demo_now, "cde"); (demo_now, "f"); (demo_now, "ghijkl")] in
  let s' := write_lines quiet (demo_log 5) lines in
  foldl (add_line 5) ([], "") lines.*2 = (["abcde"; "f"], "ghijkl") ∧ log_text s' = "ghijkl"
  ∧ file_text (fs s') "/var/log/chat_20231114_221320_1.log" = Some "abcde"
  ∧ file_text (fs s') "/var/log/chat_20231114_221320_2.log" = Some "f".
Proof.
  intros lines s'.
  assert (ready (demo_log 5)) as Hr by (split; [split; by intros ? *|by left]).
  assert (Forall encodable lines.*1) as Ht by (repeat constructor; by_computation).
  pose proof (logger_keeps_lines lines (demo_log 5) ltac:(by_computation) Ht Hr) as Hk. cbv zeta in Hk.
  split; [vm_compute; reflexivity|]. split; [|split; vm_compute; reflexivity].
  destruct Hk as (_ & _ & Hcur & _). exact Hcur.
Defined.

(** The tenth call, a rename, fails; two more lines are lost although nothing fails any more. *)
Lemma failed_rotation_silences_logger_witness :
  let broken k := if decide (k = 9) then Some (0, "rename: permission denied") else None in
  let s := write_lines broken (demo_log 5) [(demo_now, "abcd"); (demo_now, "efgh")] in
  let s' := write_lines broken s [(demo_now, "ij"); (demo_now, "kl")] in
  log_text s = "abcd" ∧ stderr s = ["logger rotate error: rename: permission denied"]
  ∧ fs s' = fs s ∧ length (stderr s') = 3.
Proof.
  intros broken s s'. split; [vm_compute; reflexivity|]. split; [vm_compute; reflexivity|].
  destruct (failed_rotation_silences_logger broken [(demo_now, "ij"); (demo_now, "kl")] s (mkHandle 0 true 4 true)) as (Hf & _ & Hl);
    [vm_compute; reflexivity..|].
  split; [exact Hf|]. unfold s'. rewrite Hl. vm_compute. reflexivity.
Defined.
