(* ===== verification/Files.v ===== *)
(** * The file service

    server/fileman/service/file_service.go and server/fileman/api/handler.go: presigned URLs, the
    registration of an upload with its thumbnail, and the handlers.  The MinIO client and the image
    libraries are parameters; the client of dbman is an argument. *)

From S2P Require Import Prelude GoStrings GoEncoding Cursor TenantRouter Env Auth SessionStore Paging ChatStore GoJson GoTime.
From S2P Require Import JsonText ChatService Users Tenants FileStore Wire Gin Binding GoPath.
Import MinIORouter.

(** ** Keys *)

(* server/fileman/service/file_service.go: tenantObjectKey *)
Definition tenantObjectKey (prefix objectKey : string) : string :=
  let cleaned := TrimPrefix (TrimSpace objectKey) "/" in
  let normalizedPrefix := TrimSpace prefix in
  if decide (normalizedPrefix = "") then cleaned
  else
    let normalizedPrefix := TrimPrefix normalizedPrefix "/" in
    let normalizedPrefix :=
      if HasSuffix normalizedPrefix "/" then normalizedPrefix else normalizedPrefix +:+ "/" in
    if HasPrefix cleaned normalizedPrefix then cleaned else normalizedPrefix +:+ cleaned.

Section service.
Context {S : Type}.
(** The MinIO router's parameters; a URL for an object, to write and to read it; the bytes of an object,
    the thumbnail of an image as JPEG bytes, and what MinIO says to an object being stored. *)
Variables (sharedBucket : string) (provider : string → result TenantMinIOMeta).
Variables (newClient : TenantMinIOMeta → result unit) (ensureBucket : string → string → result unit).
Variables presign_put presign_get : target → string → string → result string.
Variable GetObject : target → string → string → result string.
Variable thumbnail : string → result string.
Variable PutObject : target → string → string → string → result unit.
Variable CreateFile : FileObject → M S FileObject.

(** The router, what dbman keeps, and the thumbnails stored, with their places. *)
Record FileService := mkFileService {
  fs_router : Router TenantMinIOMeta;
  fs_dbman : S;
  fs_thumbs : list (target * string * string);
}.

Definition resolve (now : time) (t : string) : M FileService (target * string * string) := λ s,
  let '(r, out) := Resolve sharedBucket provider newClient ensureBucket now t (fs_router s) in
  (mkFileService r (fs_dbman s) (fs_thumbs s), out).

(* server/fileman/service/file_service.go: PresignUpload *)
Definition PresignUpload (now : time) (tenantID objectKey : string) : M FileService string := λ s,
  match resolve now tenantID s with
  | (s, Err e) => (s, Err e)
  | (s, Ok (client, bucket, prefix)) => (s, presign_put client bucket (tenantObjectKey prefix objectKey))
  end.

(* server/fileman/service/file_service.go: PresignDownload *)
Definition PresignDownload (now : time) (tenantID objectKey : string) : M FileService string := λ s,
  match resolve now tenantID s with
  | (s, Err e) => (s, Err e)
  | (s, Ok (client, bucket, prefix)) => (s, presign_get client bucket (tenantObjectKey prefix objectKey))
  end.

Definition thumb_key (objectKey : string) : string := TrimSuffix objectKey (Ext objectKey) +:+ "_thumb.jpg".

(* server/fileman/service/file_service.go: makeThumbnail *)
Definition makeThumbnail (client : target) (bucket objectKey : string) : M FileService string := λ s,
  match GetObject client bucket objectKey ≫= thumbnail with
  | Err e => (s, Err e)
  | Ok data =>
      let thumbKey := thumb_key objectKey in
      match PutObject client bucket thumbKey data with
      | Err e => (s, Err ("upload thumb: " +:+ e))
      | Ok _ => (mkFileService (fs_router s) (fs_dbman s) (fs_thumbs s ++ [(client, bucket, thumbKey)]), Ok thumbKey)
      end
  end.

(** A thumbnail that cannot be made is left out. *)
(* server/fileman/service/file_service.go: RegisterAndMaybeThumbnail *)
Definition RegisterAndMaybeThumbnail (now : time) (item : FileObject) : M FileService FileObject := λ s,
  match resolve now (fo_TenantID item) s with
  | (s, Err e) => (s, Err e)
  | (s, Ok (client, bucket, prefix)) =>
      let key := tenantObjectKey prefix (fo_ObjectKey item) in
      let '(s, thumb) :=
        if HasPrefix (fo_ContentType item) "image/" then
          match makeThumbnail client bucket key s with
          | (s, Ok thumbKey) => (s, thumbKey)
          | (s, Err _) => (s, ThumbnailKey item)
          end
        else (s, ThumbnailKey item) in
      let item := mkFileObject (fo_TenantID item) (fo_ID item) (fo_RoomID item) (UploaderID item) key
                    (fo_ContentType item) (fo_SizeBytes item) thumb (OriginalName item) (fo_CreatedAt item) in
      let '(d, out) := CreateFile item (fs_dbman s) in
      (mkFileService (fs_router s) d (fs_thumbs s), out)
  end.

(** ** The handlers *)
Context `{Gin}.

(* server/fileman/api/handler.go: tenantFromContext *)
Definition file_tenant (c : Ctx) : option string :=
  match ctx_string c "auth_tenant_id" with Some t => if decide (t = "") then None else Some t | None => None end.

(* server/fileman/api/handler.go: actorFromContext *)
Definition file_actor (c : Ctx) : option string :=
  match ctx_string c "auth_user_id" with Some u => if decide (u = "") then None else Some u | None => None end.

Definition from_ctx (f : Ctx → option string) (rq : Request) (k : string → handler FileService) : handler FileService :=
  match f (rq_ctx rq) with None => refuse 401 ErrUnauthorized | Some x => k x end.

Definition key_body : json → option string :=
  dec_object ["object_key"] (λ o, key ← required c_string (o "object_key"); Some key).

(* server/fileman/api/handler.go: presignUpload *)
Definition presignUpload (now : time) (rq : Request) : handler FileService :=
  from_ctx file_tenant rq (λ t, with_body key_body (rq_body rq) (λ key,
    answer 200 500 NewURLResponse (PresignUpload now t key))).

(* server/fileman/api/handler.go: presignDownload *)
Definition presignDownload (now : time) (rq : Request) : handler FileService :=
  from_ctx file_tenant rq (λ t, with_body key_body (rq_body rq) (λ key,
    answer 200 500 NewURLResponse (PresignDownload now t key))).

(* server/fileman/api/handler.go: registerFile *)
Definition registerFile (now : time) (rq : Request) : handler FileService :=
  from_ctx file_tenant rq (λ t, from_ctx file_actor rq (λ u,
    with_body (dec_object ["room_id"; "object_key"; "content_type"; "size_bytes"; "original_name"] (λ o,
      room ← required c_string (o "room_id"); key ← required c_string (o "object_key");
      ty ← required c_string (o "content_type"); size ← required c_int (o "size_bytes");
      name ← required c_string (o "original_name");
      Some (mkFileObject t "" room u key ty size "" name zero_time))) (rq_body rq) (λ item,
        answer 201 500 (enc c_FileObject) (RegisterAndMaybeThumbnail now item)))).

Variable parse : string → result (string * string * string).

Definition file_routes (now : time) : list (string * (Request → handler FileService)) := [
  ("POST /api/v1/files/presign-upload", presignUpload now);
  ("POST /api/v1/files/presign-download", presignDownload now);
  ("POST /api/v1/files/register", registerFile now)].

(* server/fileman/api/handler.go: RegisterRoutes *)
Definition serve_files (now : time) (pattern : string) (rq : Request) : handler FileService :=
  if decide (pattern = "GET /health") then health rq
  else match find_route pattern (file_routes now) with
  | Some h => guarded [AuthRequired parse] h rq
  | None => refuse 404 "404 page not found"
  end.
End service.

(** * Lemmas *)

(** The objects of a tenant in the shared bucket. *)
Definition folder (t : string) : string := "tenants/" +:+ t +:+ "/".

(** Whose folder a key lies in. *)
Definition owner_of (key : string) : option string :=
  match SplitN2 "/" key with
  | (top, Some rest) =>
      if decide (top = "tenants") then match SplitN2 "/" rest with (t, Some _) => Some t | _ => None end else None
  | _ => None
  end.

Lemma folder_cons t : folder t = String "t" ("enants/" +:+ t +:+ "/").
Proof. done. Qed.

Lemma rev_folder t : rev_string (folder t) = String "/" (rev_string ("tenants/" +:+ t)).
Proof. unfold folder. by rewrite <-app_assoc_s, rev_string_app. Qed.

Lemma owner_folder t r : "/"%char ∉ chars t → owner_of (folder t +:+ r) = Some t.
Proof.
  intros Ht. unfold owner_of, folder. rewrite !app_assoc_s.
  change ("tenants/" +:+ ?x) with ("tenants" +:+ String "/" x). rewrite SplitN2_app by (vm_compute; set_solver).
  rewrite decide_True by done. change ("/" +:+ r) with (String "/" r). by rewrite SplitN2_app.
Qed.

Lemma folder_trimmed t : TrimSpace (folder t) = folder t.
Proof.
  apply trimmed_TrimSpace. unfold trimmed. rewrite rev_folder, folder_cons.
  split; [apply (strip_any_plain "t")|apply (strip_any_plain "/")]; done.
Qed.

(** A key in the shared bucket lies in the folder, whatever was asked for. *)
Lemma tenantObjectKey_folder t k : ∃ r, tenantObjectKey (folder t) k = folder t +:+ r.
Proof.
  unfold tenantObjectKey. rewrite folder_trimmed, decide_False by done.
  assert (TrimPrefix (folder t) "/" = folder t) as -> by done.
  assert (HasSuffix (folder t) "/" = true) as ->.
  { unfold HasSuffix. rewrite rev_folder. apply HasPrefix_true. by eexists. }
  destruct (HasPrefix _ _) eqn:E; [by apply HasPrefix_true in E|by eexists].
Qed.

Lemma Ext_suffix s : ∃ w, s = w +:+ Ext s.
Proof.
  induction s as [|a s [w IH]]; [by exists ""|]. cbn [Ext]. destruct (_ && _); [by exists ""|].
  exists (String a w). by rewrite append_cons, <-IH.
Qed.

Lemma no_ext_char_slash p r : no_ext_char (p +:+ String "/" r) = false.
Proof.
  unfold no_ext_char. rewrite chars_app, forallb_app. cbn [chars forallb]. by rewrite Ascii.eqb_refl, orb_true_r, andb_false_r.
Qed.

Lemma Ext_app p r : Ext (p +:+ String "/" r) = Ext r.
Proof.
  induction p as [|a p IH]; [done|]. rewrite append_cons. cbn [Ext]. by rewrite no_ext_char_slash, andb_false_r.
Qed.

(** The thumbnail lies beside its image. *)
Lemma thumb_key_folder t r : ∃ r', thumb_key (folder t +:+ r) = folder t +:+ r'.
Proof.
  assert (folder t +:+ r = ("tenants/" +:+ t) +:+ String "/" r) as Hf.
  { unfold folder. by rewrite <-!app_assoc_s, (app_assoc_s ("tenants/" +:+ t)). }
  unfold thumb_key. rewrite Hf, Ext_app, <-Hf. destruct (Ext_suffix r) as [w Hw].
  exists (w +:+ "_thumb.jpg"). unfold TrimSuffix.
  assert (folder t +:+ r = (folder t +:+ w) +:+ Ext r) as -> by by rewrite app_assoc_s, <-Hw.
  rewrite rev_string_app, strip_prefix_app, rev_string_involutive. apply app_assoc_s.
Qed.

(** A place that belongs to a tenant: its folder of the shared bucket, or its own client. *)
Section placed.
Context {S : Type} (sharedBucket : string).

Definition placed (t : string) (s : FileService (S := S)) (x : target * string * string) : Prop :=
  let '(client, bucket, key) := x in
  match client with
  | Shared => bucket = sharedBucket ∧ owner_of key = Some t
  | Dedicated c => dedicated (fs_router s) !! t = Some c
  end.

Variables (provider : string → result TenantMinIOMeta).
Variables (newClient : TenantMinIOMeta → result unit) (ensureBucket : string → string → result unit).
Notation resolve := (resolve (S := S) sharedBucket provider newClient ensureBucket).

Lemma route_dedicated {Meta} `{RouterPolicy Meta} fetch open now t (r r' : Router Meta) c m :
  route fetch open now t r = (r', Ok (Dedicated c, m)) → dedicated r' !! t = Some c ∧ m ≠ None.
Proof.
  unfold route, install. intros H'. repeat (case_match; simplify_eq/=); try done;
    (split; [|done]); first [done|by rewrite lookup_insert_eq].
Qed.

Lemma route_shared {Meta} `{RouterPolicy Meta} fetch open now t (r r' : Router Meta) m :
  TrimSpace t ≠ "" → route fetch open now t r = (r', Ok (Shared, m)) → m ≠ None.
Proof.
  intros Ht. unfold route. rewrite decide_False by done. intros H'. by repeat (case_match; simplify_eq/=).
Qed.

(** What a lookup of the tenant gives: its place for every key, and nothing else changes. *)
Lemma resolve_placed now t s s' client bucket prefix k :
  TrimSpace t ≠ "" → "/"%char ∉ chars t → resolve now t s = (s', Ok (client, bucket, prefix)) →
  let key := tenantObjectKey prefix k in
  placed t s' (client, bucket, key) ∧ placed t s' (client, bucket, thumb_key key).
Proof.
  intros Ht Hslash. unfold Files.resolve, Resolve.
  destruct (route _ _ now t (fs_router s)) as [r [[[|c] [m|]]|e]] eqn:E; intros [= <- <- <- <-].
  - fold (folder t). destruct (tenantObjectKey_folder t k) as [w Hw]. cbn zeta. rewrite Hw.
    destruct (thumb_key_folder t w) as [w' ->]. unfold placed. by rewrite !owner_folder.
  - by apply route_shared in E.
  - by apply route_dedicated in E as [? _].
  - by apply route_dedicated in E as [_ ?].
Qed.

Lemma resolve_frame now t s :
  fs_dbman (resolve now t s).1 = fs_dbman s ∧ fs_thumbs (resolve now t s).1 = fs_thumbs s.
Proof. unfold Files.resolve. by destruct (Resolve _ _ _ _ now t _). Qed.
End placed.

(** * Properties *)
Section properties.
Context `{Gin} {S : Type} (sharedBucket : string) (provider : string → result TenantMinIOMeta).
Variables (newClient : TenantMinIOMeta → result unit) (ensureBucket : string → string → result unit).
Variables presign_put presign_get : target → string → string → result string.
Variables (GetObject : target → string → string → result string) (thumbnail : string → result string).
Variable PutObject : target → string → string → string → result unit.
Variable CreateFile : FileObject → M S FileObject.
Notation placed := (placed sharedBucket).

(** What a request of user [u] in tenant [t] did: a URL it got is one for a place of the tenant, the
    thumbnails it stored are there too, and dbman was asked at most for an object of that
    user and tenant with such a key. *)
Definition stays_inside (t u : string) (s s' : FileService (S := S)) (r : response json) : Prop :=
  (∀ url, r = RJson 200 (NewURLResponse url) →
     ∃ client bucket key, placed t s' (client, bucket, key)
       ∧ (presign_put client bucket key = Ok url ∨ presign_get client bucket key = Ok url))
  ∧ (∀ x, x ∈ fs_thumbs s' → x ∈ fs_thumbs s ∨ placed t s' x)
  ∧ (fs_dbman s' = fs_dbman s
     ∨ ∃ item client bucket, fo_TenantID item = t ∧ UploaderID item = u ∧ placed t s' (client, bucket, fo_ObjectKey item)
         ∧ fs_dbman s' = (CreateFile item (fs_dbman s)).1).

Lemma refused_stays_inside t u s status e : stays_inside t u s s (RError status e).
Proof. split; [done|]. split; by left. Qed.

(** Whatever a presigning handler does with the key. *)
Lemma presign_stays_inside now t u s body (presign : target → string → string → result string) :
  TrimSpace t ≠ "" → "/"%char ∉ chars t →
  (∀ client bucket key url, presign client bucket key = Ok url →
     presign_put client bucket key = Ok url ∨ presign_get client bucket key = Ok url) →
  let out := with_body key_body body (λ key, answer 200 500 NewURLResponse (λ s,
    match resolve sharedBucket provider newClient ensureBucket now t s with
    | (s, Err e) => (s, Err e)
    | (s, Ok (client, bucket, prefix)) => (s, presign client bucket (tenantObjectKey prefix key))
    end)) s in
  stays_inside t u s out.1 out.2.
Proof.
  intros Ht Hs Hp. unfold with_body. destruct (ShouldBindJSON key_body body) as [key|e]; [|apply refused_stays_inside].
  unfold answer. pose proof (resolve_frame sharedBucket provider newClient ensureBucket now t s) as [Hd Hth].
  destruct (resolve _ _ _ _ now t s) as [s1 [[[client bucket] prefix]|e]] eqn:E; cbn [fst] in Hd, Hth.
  - apply (resolve_placed _ _ _ _ _ _ _ _ _ _ _ key) in E as [Hplace _]; [|done..].
    unfold stays_inside. destruct (presign client bucket _) as [url|e] eqn:Eu; cbn [fst snd]; rewrite Hd, Hth;
      (split; [|split; by left]); [|done]. intros url' [= <-]. eauto 8.
  - unfold stays_inside. cbn [fst snd]. rewrite Hd, Hth. split; [done|split; by left].
Qed.

Lemma makeThumbnail_frame client bucket key (s : FileService (S := S)) :
  let '(s', _) := makeThumbnail GetObject thumbnail PutObject client bucket key s in
  fs_router s' = fs_router s ∧ fs_dbman s' = fs_dbman s
  ∧ ∀ x, x ∈ fs_thumbs s' → x ∈ fs_thumbs s ∨ x = (client, bucket, thumb_key key).
Proof.
  unfold makeThumbnail. destruct (GetObject client bucket key ≫= thumbnail) as [data|e]; [|by auto].
  destruct (PutObject client bucket _ data); [|by auto]. cbn [fs_router fs_dbman fs_thumbs].
  repeat split. intros x [?| ->%list_elem_of_singleton]%elem_of_app; auto.
Qed.

Lemma register_stays_inside now t u item s :
  TrimSpace t ≠ "" → "/"%char ∉ chars t → fo_TenantID item = t → UploaderID item = u →
  let out := answer 201 500 (enc c_FileObject) (RegisterAndMaybeThumbnail sharedBucket provider newClient ensureBucket
               GetObject thumbnail PutObject CreateFile now item) s in
  stays_inside t u s out.1 out.2.
Proof.
  intros Ht Hs <- <-. unfold answer, RegisterAndMaybeThumbnail.
  pose proof (resolve_frame sharedBucket provider newClient ensureBucket now (fo_TenantID item) s) as [Hd Hth].
  destruct (resolve _ _ _ _ now _ s) as [s1 [[[client bucket] prefix]|e]] eqn:E; cbn [fst] in Hd, Hth.
  2:{ unfold stays_inside. cbn [fst snd]. rewrite Hd, Hth. split; [done|split; by left]. }
  apply (resolve_placed _ _ _ _ _ _ _ _ _ _ _ (fo_ObjectKey item)) in E as [Hkey Hthumb]; [|done..].
  set (key := tenantObjectKey prefix (fo_ObjectKey item)) in *.
  assert (∃ s2 thumb, (if HasPrefix (fo_ContentType item) "image/" then
      match makeThumbnail GetObject thumbnail PutObject client bucket key s1 with
      | (s, Ok thumbKey) => (s, thumbKey) | (s, Err _) => (s, ThumbnailKey item) end
      else (s1, ThumbnailKey item)) = (s2, thumb)
    ∧ fs_router s2 = fs_router s1 ∧ fs_dbman s2 = fs_dbman s1
    ∧ ∀ x, x ∈ fs_thumbs s2 → x ∈ fs_thumbs s1 ∨ x = (client, bucket, thumb_key key)) as (s2 & thumb & -> & Hr & Hd2 & Hx).
  { destruct (HasPrefix _ "image/"); [|by eauto 8].
    pose proof (makeThumbnail_frame client bucket key s1) as Hm.
    destruct (makeThumbnail _ _ _ client bucket key s1) as [s2 [th|e]]; eauto. }
  rewrite Hth in Hx. rewrite Hd in Hd2. rewrite Hd2.
  set (item' := mkFileObject _ _ _ _ _ _ _ _ _ _).
  assert (∀ d : S, placed (fo_TenantID item) (mkFileService (fs_router s2) d (fs_thumbs s2)) (client, bucket, key)
               ∧ placed (fo_TenantID item) (mkFileService (fs_router s2) d (fs_thumbs s2)) (client, bucket, thumb_key key)) as Hp.
  { intros d. revert Hkey Hthumb. unfold Files.placed. cbn [fs_router]. by rewrite Hr. }
  destruct (CreateFile item' (fs_dbman s)) as [d [f|e]] eqn:Ec; unfold stays_inside; cbn [fst snd fs_dbman fs_thumbs];
    (split; [done|]); (split; [intros x [?| ->]%Hx; [by left|right; apply Hp]|]);
    (right; exists item', client, bucket; rewrite Ec; repeat split; apply Hp).
Qed.

(** C8: A tenant's requests stay among the tenant's objects.  In the name of a user and a tenant, and
    with any object key in its body, a request to the file service is given URLs only for keys in the tenant's
    folder of the shared bucket, or with the tenant's own client; the same holds for the key that is
    registered, as that user's, and for the thumbnail that is stored.  It needs a tenant identifier that has no slash
    (see slash_in_tenant_crosses) and is not blank: a token of a tenant of white space opens the whole shared
    bucket (see blank_tenant_opens_bucket). *)
Theorem object_keys_isolated now pattern rq t u role (s : FileService (S := S)) :
  TrimSpace t ≠ "" → "/"%char ∉ chars t →
  let out := serve_files sharedBucket provider newClient ensureBucket presign_put presign_get GetObject thumbnail
               PutObject CreateFile (λ _, Ok (u, t, role)) now pattern rq s in
  stays_inside t u s out.1 out.2.
Proof.
  intros Ht Hs. unfold serve_files. case_decide; [split; [done|]; split; by left|]. destruct (find_route pattern _) as [h|] eqn:Eh; [|apply refused_stays_inside].
  cbn [guarded]. destruct (AuthRequired _ (rq_ctx rq)) as [status e|c] eqn:Ea; [apply refused_stays_inside|].
  apply auth_next_context in Ea as (token & u' & t' & role' & _ & [= <- <- <-] & Hct & Hcu & _).
  assert (file_tenant c = Some t) as Htc.
  { unfold file_tenant. rewrite Hct, decide_False; [done|]. by intros ->. }
  apply find_route_in in Eh. unfold file_routes in Eh. cbn in Eh.
  rewrite !elem_of_cons in Eh. destruct Eh as [->|[->|[->|[]%not_elem_of_nil]]];
    unfold presignUpload, presignDownload, registerFile, from_ctx; cbn [rq_ctx with_ctx]; rewrite Htc.
  - apply (presign_stays_inside now t u s _ presign_put); auto.
  - apply (presign_stays_inside now t u s _ presign_get); auto.
  - destruct (file_actor c) as [u1|] eqn:Eu; [|apply refused_stays_inside].
    assert (u1 = u) as ->.
    { revert Eu. unfold file_actor. rewrite Hcu. case_decide; congruence. }
    unfold with_body, ShouldBindJSON. destruct (parse_json _) as [v|]; [|apply refused_stays_inside].
    destruct (dec_object _ _ v) as [item|] eqn:Ed; [|apply refused_stays_inside].
    apply register_stays_inside; [done..| |]; revert Ed; unfold dec_object;
      destruct v; intros Ed; by simplify_option_eq.
Qed.

(** The file service takes the tenant of a token when it is not empty, and the router gives a blank one the shared bucket
    without a folder: the token gets URLs for the objects of every tenant. *)
Lemma blank_tenant_opens_bucket now (c : Ctx) t t' k w (s : FileService (S := S)) :
  ctx_string c "auth_tenant_id" = Some t → t ≠ "" → TrimSpace t = "" → k = folder t' +:+ w → TrimSpace k = k →
  file_tenant c = Some t
  ∧ PresignDownload sharedBucket provider newClient ensureBucket presign_get now t k s
    = (s, presign_get Shared sharedBucket (folder t' +:+ w)).
Proof.
  intros Hc Ht Hblank -> Hk. split; [unfold file_tenant; by rewrite Hc, decide_False|].
  unfold PresignDownload, resolve, Resolve, route. rewrite decide_True by done. unfold tenantObjectKey. cbn [decide].
  rewrite Hk. by destruct s.
Qed.

(** The identifiers of tenants are not kept free of slashes, and then the folders overlap: the object x of a tenant
    a/b is the object b/x of a tenant a. *)
Lemma slash_in_tenant_crosses : tenantObjectKey (folder "a") "b/x" = tenantObjectKey (folder "a/b") "x".
Proof. reflexivity. Qed.

(** Images that differ only in their extension share one thumbnail. *)
Lemma thumbnails_collide : thumb_key "tenants/a/cat.png" = thumb_key "tenants/a/cat.gif".
Proof. reflexivity. Qed.
End properties.

(** * A concrete run *)

#[local] Instance demo_gin : Gin := {| bind_error _ := "EOF"; required_struct := true |}.

Definition demo_provider (t : string) : result TenantMinIOMeta := Ok (mkMinIOMeta "Shared" "" "" "" false "" true).

Definition demo_upload : Request :=
  mkRequest (marshal_json (JObj [("object_key", JStr "tenants/rival/plan.png")])) (λ _, "") (λ _, None) "10.0.0.1" "curl"
    (mkCtx (λ _, "Bearer tok") ∅).

Definition demo_service : FileService (S := list FileObject) := mkFileService empty_router [] [].

(** In the witness a user of acme asks for a key of another tenant, and is given one of its own. *)
Lemma object_keys_isolated_witness :
  let put (_ : target) b k := Ok ("https://minio/" +:+ b +:+ "/" +:+ k) in
  let serve := serve_files "msg" demo_provider (λ _, Ok tt) (λ _ _, Ok tt) put put (λ _ _ _, Ok "img") Ok
    (λ _ _ _ _, Ok tt) (λ item l, (item :: l, Ok item)) (λ _, Ok ("u1", "acme", "user")) 0%Z
    "POST /api/v1/files/presign-upload" demo_upload demo_service in
  stays_inside "msg" put put (λ item l, (item :: l, Ok item)) "acme" "u1" demo_service serve.1 serve.2
  ∧ serve.2 = RJson 200 (NewURLResponse "https://minio/msg/tenants/acme/tenants/rival/plan.png").
Proof.
  split; [|vm_compute; reflexivity].
  apply (object_keys_isolated "msg" demo_provider (λ _, Ok tt) (λ _ _, Ok tt)); by_computation.
Defined.
