(* ===== verification/Sha256.v ===== *)
(** * SHA-256

    [sha256.Sum256] of Go's crypto/sha256, which server/vectorman/service/embed.go hashes texts
    with: 32-bit words as integers below 2^32. *)

From S2P Require Import Prelude GoStrings.

#[local] Open Scope Z_scope.

Definition word (z : Z) : Z := z mod 2 ^ 32.
Definition rotr (n x : Z) : Z := Z.lor (Z.shiftr x n) (word (Z.shiftl x (32 - n))).
Definition Ch (x y z : Z) : Z := Z.lxor (Z.land x y) (Z.land (Z.lxor x (2 ^ 32 - 1)) z).
Definition Maj (x y z : Z) : Z := Z.lxor (Z.lxor (Z.land x y) (Z.land x z)) (Z.land y z).
Definition Sigma0 (x : Z) : Z := Z.lxor (Z.lxor (rotr 2 x) (rotr 13 x)) (rotr 22 x).
Definition Sigma1 (x : Z) : Z := Z.lxor (Z.lxor (rotr 6 x) (rotr 11 x)) (rotr 25 x).
Definition sigma0 (x : Z) : Z := Z.lxor (Z.lxor (rotr 7 x) (rotr 18 x)) (Z.shiftr x 3).
Definition sigma1 (x : Z) : Z := Z.lxor (Z.lxor (rotr 17 x) (rotr 19 x)) (Z.shiftr x 10).

Definition round_constants : list Z := [
  0x428a2f98; 0x71374491; 0xb5c0fbcf; 0xe9b5dba5; 0x3956c25b; 0x59f111f1; 0x923f82a4; 0xab1c5ed5;
  0xd807aa98; 0x12835b01; 0x243185be; 0x550c7dc3; 0x72be5d74; 0x80deb1fe; 0x9bdc06a7; 0xc19bf174;
  0xe49b69c1; 0xefbe4786; 0x0fc19dc6; 0x240ca1cc; 0x2de92c6f; 0x4a7484aa; 0x5cb0a9dc; 0x76f988da;
  0x983e5152; 0xa831c66d; 0xb00327c8; 0xbf597fc7; 0xc6e00bf3; 0xd5a79147; 0x06ca6351; 0x14292967;
  0x27b70a85; 0x2e1b2138; 0x4d2c6dfc; 0x53380d13; 0x650a7354; 0x766a0abb; 0x81c2c92e; 0x92722c85;
  0xa2bfe8a1; 0xa81a664b; 0xc24b8b70; 0xc76c51a3; 0xd192e819; 0xd6990624; 0xf40e3585; 0x106aa070;
  0x19a4c116; 0x1e376c08; 0x2748774c; 0x34b0bcb5; 0x391c0cb3; 0x4ed8aa4a; 0x5b9cca4f; 0x682e6ff3;
  0x748f82ee; 0x78a5636f; 0x84c87814; 0x8cc70208; 0x90befffa; 0xa4506ceb; 0xbef9a3f7; 0xc67178f2].

Record digest := mkDigest { ha : Z; hb : Z; hc : Z; hd : Z; he : Z; hf : Z; hg : Z; hh : Z }.

Definition initial_digest : digest :=
  mkDigest 0x6a09e667 0xbb67ae85 0x3c6ef372 0xa54ff53a 0x510e527f 0x9b05688c 0x1f83d9ab 0x5be0cd19.

Definition be32 (b : list Z) : Z := foldl (λ acc x, acc * 256 + x) 0 b.

Fixpoint words (n : nat) (b : list Z) : list Z :=
  match n with O => [] | S n => be32 (take 4 b) :: words n (drop 4 b) end.

(** The message schedule, the latest word first. *)
Fixpoint extend (n : nat) (w : list Z) : list Z :=
  match n with
  | O => w
  | S n =>
      let at_ k := nth k w 0 in
      extend n (word (sigma1 (at_ 1%nat) + at_ 6%nat + sigma0 (at_ 14%nat) + at_ 15%nat) :: w)
  end.

Definition round (d : digest) (kw : Z * Z) : digest :=
  let t1 := hh d + Sigma1 (he d) + Ch (he d) (hf d) (hg d) + kw.1 + kw.2 in
  let t2 := Sigma0 (ha d) + Maj (ha d) (hb d) (hc d) in
  mkDigest (word (t1 + t2)) (ha d) (hb d) (hc d) (word (hd d + t1)) (he d) (hf d) (hg d).

Definition block (d : digest) (b : list Z) : digest :=
  let w := rev (extend 48 (rev (words 16 b))) in
  let r := foldl round d (zip round_constants w) in
  mkDigest (word (ha d + ha r)) (word (hb d + hb r)) (word (hc d + hc r)) (word (hd d + hd r))
           (word (he d + he r)) (word (hf d + hf r)) (word (hg d + hg r)) (word (hh d + hh r)).

Fixpoint blocks (n : nat) (d : digest) (b : list Z) : digest :=
  match n with O => d | S n => blocks n (block d (take 64 b)) (drop 64 b) end.

Definition bytes_be (n : nat) (z : Z) : list Z := (λ k, z / 256 ^ Z.of_nat k mod 256) <$> rev (seq 0 n).

(** One bit, zeros up to eight bytes before the end of a block, and the length in bits. *)
Definition padded (b : list Z) : list Z :=
  b ++ 0x80 :: replicate (Z.to_nat ((55 - Z.of_nat (length b)) mod 64)) 0 ++ bytes_be 8 (8 * Z.of_nat (length b)).

Definition digest_bytes (d : digest) : list Z :=
  bytes_be 4 (ha d) ++ bytes_be 4 (hb d) ++ bytes_be 4 (hc d) ++ bytes_be 4 (hd d)
  ++ bytes_be 4 (he d) ++ bytes_be 4 (hf d) ++ bytes_be 4 (hg d) ++ bytes_be 4 (hh d).

Definition Sum256 (text : string) : list Z :=
  let b := padded (code <$> chars text) in
  digest_bytes (blocks (Nat.div (length b) 64) initial_digest b).

Example Sum256_abc : be32 (Sum256 "abc") = 0xba7816bf8f01cfea414140de5dae2223b00361a396177a9cb410ff61f20015ad.
Proof. vm_compute. reflexivity. Qed.

Example Sum256_long :
  be32 (Sum256 "abcdbcdecdefdefgefghfghighijhijkijkljklmklmnlmnomnopnopq")
  = 0x248d6a61d20638b8e5c026930c3e6039a33ce45964ff2167f6ecedd419db06c1.
Proof. vm_compute. reflexivity. Qed.

Lemma length_Sum256 text : length (Sum256 text) = 32%nat.
Proof. unfold Sum256. generalize (blocks (Nat.div (length (padded (code <$> chars text))) 64) initial_digest (padded (code <$> chars text))). done. Qed.

Lemma Sum256_bytes text : Forall (λ b, 0 ≤ b < 256) (Sum256 text).
Proof.
  unfold Sum256, digest_bytes. rewrite !Forall_app. unfold bytes_be.
  repeat split; apply Forall_fmap, Forall_forall; intros k _; apply Z.mod_pos_bound; lia.
Qed.

Lemma be32_range b : Forall (λ x, 0 ≤ x < 256) b → 0 ≤ be32 b.
Proof.
  intros Hb. unfold be32. assert (∀ acc, 0 ≤ acc → 0 ≤ foldl (λ acc x, acc * 256 + x) acc b) as H; [|by apply H].
  induction Hb as [|x b Hx Hb IH]; intros acc Hacc; [done|]. cbn. apply IH. lia.
Qed.
