(* ===== verification/Vectorman.v ===== *)
(** * vectorman

    server/vectorman: the embedding (service/embed.go), the three back ends of the vector service
    (service/milvus_service.go, qdrant_service.go, elasticsearch_service.go), the handlers (api/handler.go) and
    the choice of a back end (app/server.go).  The server of the back end is a parameter: what it does to its state
    and answers, given a method, a URL and a body. *)

From S2P Require Import Prelude GoStrings GoEncoding Cursor TenantRouter Env Auth SessionStore Paging ChatStore GoJson GoTime.
From S2P Require Import JsonText ChatService Users Tenants FileStore Wire Gin Binding GoFloat Sha256.

(** ** The embedding *)

(** A component is a float32 of so many thousandths. *)
(* server/vectorman/service/embed.go: embed *)
Definition embed (text : string) (dim : nat) : list Z :=
  let hash := Sum256 text in
  (λ i, let offset := Nat.modulo (i * 4) (length hash) in
        (be32 (take 4 (drop offset hash)) mod 1000)%Z) <$> seq 0 dim.

Fixpoint strip_zeros (l : list ascii) : list ascii :=
  match l with a :: rest => if Ascii.eqb a "0" then strip_zeros rest else l | [] => [] end.

(** The shortest text that reads back as the float32 nearest to k/1000: a float32 tells decimals of three
    digits apart. *)
Definition json_thousandths (k : Z) : json :=
  if decide (k = 0%Z) then JNum 0 else JReal ("0." +:+ of_chars (rev (strip_zeros (rev (chars (pad 3 k)))))).

Definition json_vector (v : list Z) : json := JList (json_thousandths <$> v).

Example json_vector_ex : marshal_json (json_vector [0; 5; 120; 999]%Z) = "[0,0.005,0.12,0.999]".
Proof. vm_compute. reflexivity. Qed.

(* server/vectorman/service/milvus_service.go: defaultCollectionName #20-20 *)
Definition defaultCollectionName : string := "messages".
(* server/vectorman/service/milvus_service.go: defaultVectorDim #21-21 *)
Definition defaultVectorDim : nat := 128.

(** ** The interface *)

(** A nil slice is [None]. *)
(* server/vectorman/service/vector_service.go: VectorService *)
Record VectorService (W : Type) := mkVectorService {
  EnsureCollection : M W unit;
  vs_IndexMessage : string → string → string → M W unit;
  vs_SemanticSearch : string → option string → Z → M W (option (list string));
}.
Arguments mkVectorService {W}.
Arguments EnsureCollection {W}.
Arguments vs_IndexMessage {W}.
Arguments vs_SemanticSearch {W}.

Section backends.
Context `{Gin} {W : Type}.
(** The request to the back end, by method, URL and body: no answer, or a status and a body. *)
Variable Do : string → string → string → M W (Z * string).

Definition absolute (path : string) : string := if HasPrefix path "/" then path else "/" +:+ path.

(** [json.Unmarshal] takes the whole text, a [json.Decoder] the first value. *)
Definition unmarshal {A} (read : json → option A) (text : string) : result A :=
  match parse_value (strlen text) text with
  | Some (v, rest) =>
      match skip_ws rest, read v with EmptyString, Some a => Ok a | _, _ => Err (bind_error text) end
  | None => Err (bind_error text)
  end.

Definition decode {A} (read : json → option A) (text : string) : result A :=
  match parse_json text ≫= read with Some a => Ok a | None => Err (bind_error text) end.

(** A value read into a map[string]any *)
Definition read_map (v : json) : option (list (string * json)) :=
  match v with
  | JNull => Some []
  | JObj ms => if any_ok v then Some (last_members ms) else None
  | _ => None
  end.

(** *** Milvus *)

(* server/vectorman/service/milvus_service.go: MilvusService *)
Record MilvusService := mkMilvus { mv_endpoint : string; mv_enabled : bool }.

(* server/vectorman/service/milvus_service.go: NewMilvusService *)
Definition NewMilvusService (endpoint : string) (enabled : bool) : MilvusService :=
  mkMilvus (TrimRightSlash (TrimSpace endpoint)) enabled.

(* server/vectorman/service/milvus_service.go: postRaw *)
Definition milvus_postRaw (m : MilvusService) (path : string) (payload : json) : M W (list (string * json)) := λ s,
  match Do "POST" (mv_endpoint m +:+ absolute path) (marshal_json payload) s with
  | (s, Err e) => (s, Err e)
  | (s, Ok (status, body)) =>
      if (300 <=? status)%Z then (s, Err ("milvus status " +:+ FormatInt status)) else (s, decode read_map body)
  end.

(* server/vectorman/service/milvus_service.go: MilvusService.post *)
Definition milvus_post (m : MilvusService) (path : string) (payload : json) : M W (list (list (string * json))) := λ s,
  match milvus_postRaw m path payload s with
  | (s, Err e) => (s, Err e)
  | (s, Ok raw) =>
      (s, Ok match json_field raw "data" with
             | Some (JList rows) => omap (λ row, match row with JObj ms => Some (last_members ms) | _ => None end) rows
             | _ => []
             end)
  end.

Definition milvus_field (name type : string) (more : list (string * json)) : json :=
  JObj (("dataType", JStr type) :: ("fieldName", JStr name) :: more).

Definition milvus_has (resp : result (list (string * json))) : bool :=
  match resp with
  | Ok raw =>
      match json_field raw "data" with
      | Some (JObj ms) => match json_field (last_members ms) "has" with Some (JBool b) => b | _ => false end
      | _ => false
      end
  | Err _ => false
  end.

(* server/vectorman/service/milvus_service.go: MilvusService.EnsureCollection *)
Definition milvus_EnsureCollection (m : MilvusService) : M W unit := λ s,
  if negb (mv_enabled m) then (s, Ok tt)
  else
    let '(s, hasResp) := milvus_postRaw m "/v2/vectordb/collections/has"
                           (JObj [("collectionName", JStr defaultCollectionName)]) s in
    if milvus_has hasResp then (s, Ok tt)
    else
      let createPayload := JObj [("collectionName", JStr defaultCollectionName); ("schema", JObj [
        ("autoId", JBool false); ("enableDynamicField", JBool true); ("fields", JList [
          milvus_field "id" "VarChar" [("isPrimary", JBool true); ("maxLength", JNum 128)];
          milvus_field "room_id" "VarChar" [("maxLength", JNum 128)];
          milvus_field "text" "VarChar" [("maxLength", JNum 8192)];
          JObj [("dataType", JStr "FloatVector"); ("elementTypeParams", JObj [("dim", JStr "128")]); ("fieldName", JStr "vector")]])])] in
      match milvus_postRaw m "/v2/vectordb/collections/create" createPayload s with
      | (s, Err e) =>
          if Contains (ToLower e) "already" || Contains (ToLower e) "exist" then (s, Ok tt) else (s, Err e)
      | (s, Ok _) => (s, Ok tt)
      end.

(* server/vectorman/service/milvus_service.go: MilvusService.IndexMessage *)
Definition milvus_IndexMessage (m : MilvusService) (messageID roomID text : string) : M W unit := λ s,
  if negb (mv_enabled m) then (s, Ok tt)
  else
    let payload := JObj [("collectionName", JStr defaultCollectionName); ("data", JList [JObj [
      ("id", JStr messageID); ("room_id", JStr roomID); ("text", JStr text);
      ("vector", json_vector (embed text defaultVectorDim))]])] in
    match milvus_post m "/v2/vectordb/entities/insert" payload s with
    | (s, Err e) => (s, Err e)
    | (s, Ok _) => (s, Ok tt)
    end.

Definition milvus_filter (roomID : option string) : string :=
  match roomID with None => "" | Some r => "room_id == " +:+ String quote (r +:+ String quote "") end.

(** The text of a numeric identifier, or the identifier. *)
Definition id_text (v : json) : option string :=
  match v with JStr s => Some s | _ => format_0f <$> number v end.

(* server/vectorman/service/milvus_service.go: MilvusService.SemanticSearch *)
Definition milvus_SemanticSearch (m : MilvusService) (query : string) (roomID : option string) (limit : Z) :
    M W (option (list string)) := λ s,
  if negb (mv_enabled m) then (s, Ok None)
  else
    let payload := JObj [("collectionName", JStr defaultCollectionName); ("filter", JStr (milvus_filter roomID));
      ("limit", JNum limit); ("outputFields", JList [JStr "id"; JStr "room_id"]);
      ("vector", json_vector (embed query defaultVectorDim))] in
    match milvus_post m "/v2/vectordb/entities/search" payload s with
    | (s, Err e) => (s, Err e)
    | (s, Ok rows) => (s, Ok (Some (omap (λ row, v ← json_field row "id"; id_text v) rows)))
    end.

(** *** Qdrant *)

(* server/vectorman/service/qdrant_service.go: QdrantService *)
Record QdrantService := mkQdrant { qd_endpoint : string; qd_collection : string; qd_enabled : bool }.

(* server/vectorman/service/qdrant_service.go: NewQdrantService *)
Definition NewQdrantService (endpoint collection : string) (enabled : bool) : QdrantService :=
  let normalizedCollection := TrimSpace collection in
  mkQdrant (TrimRightSlash (TrimSpace endpoint))
    (if decide (normalizedCollection = "") then "messages" else normalizedCollection) enabled.

(* server/vectorman/service/qdrant_service.go: requestBytes *)
Definition qdrant_requestBytes (q : QdrantService) (method path : string) (payload : option json) : M W (Z * string) :=
  Do method (qd_endpoint q +:+ absolute path) match payload with Some p => marshal_json p | None => "" end.

(* server/vectorman/service/qdrant_service.go: statusOnly *)
Definition qdrant_statusOnly (q : QdrantService) (method path : string) : M W Z := λ s,
  match qdrant_requestBytes q method path None s with
  | (s, Err e) => (s, Err e)
  | (s, Ok (status, _)) => (s, Ok status)
  end.

(* server/vectorman/service/qdrant_service.go: requestNoDecode *)
Definition qdrant_requestNoDecode (q : QdrantService) (method path : string) (payload : json) : M W unit := λ s,
  match qdrant_requestBytes q method path (Some payload) s with
  | (s, Err e) => (s, Err e)
  | (s, Ok (status, _)) =>
      if (300 <=? status)%Z then (s, Err ("qdrant status " +:+ FormatInt status)) else (s, Ok tt)
  end.

(* server/vectorman/service/qdrant_service.go: QdrantService.EnsureCollection *)
Definition qdrant_EnsureCollection (q : QdrantService) : M W unit := λ s,
  if negb (qd_enabled q) then (s, Ok tt)
  else
    let path := "/collections/" +:+ qd_collection q in
    match qdrant_statusOnly q "GET" path s with
    | (s, Err e) => (s, Err e)
    | (s, Ok status) =>
        if decide (status = 200%Z) then (s, Ok tt)
        else if decide (status ≠ 404%Z) then
          (s, Err ("qdrant unexpected status " +:+ FormatInt status +:+ " while checking collection"))
        else
          let createPayload := JObj [("vectors", JObj [("distance", JStr "Cosine"); ("size", JNum 128)])] in
          match qdrant_requestBytes q "PUT" path (Some createPayload) s with
          | (s, Err e) => (s, Err e)
          | (s, Ok (created, _)) =>
              if decide (created ≠ 200%Z ∧ created ≠ 409%Z) then
                (s, Err ("qdrant status " +:+ FormatInt created +:+ " while creating collection"))
              else (s, Ok tt)
          end
    end.

(* server/vectorman/service/qdrant_service.go: QdrantService.IndexMessage *)
Definition qdrant_IndexMessage (q : QdrantService) (messageID roomID text : string) : M W unit := λ s,
  if negb (qd_enabled q) then (s, Ok tt)
  else
    let payload := JObj [("points", JList [JObj [("id", JStr messageID);
      ("payload", JObj [("id", JStr messageID); ("room_id", JStr roomID); ("text", JStr text)]);
      ("vector", json_vector (embed text defaultVectorDim))]])] in
    qdrant_requestNoDecode q "PUT" ("/collections/" +:+ qd_collection q +:+ "/points") payload s.

(** The fields of a row: an identifier that may be anything, and a payload. *)
(* server/vectorman/service/qdrant_service.go: qdrantSearchResponse *)
Record qdrantRow := mkRow { row_id : json; row_payload : list (string * json) }.

Definition c_any : codec json :=
  mkCodec JNull id (λ _ v, if any_ok v then Some v else None) (λ v, any_ok v).

(** A map that is decoded into keeps the members it has. *)
Definition c_map : codec (list (string * json)) :=
  mkCodec [] JObj
    (λ old v, match v with
              | JNull => Some []
              | JObj ms => if any_ok v then Some (last_members (old ++ ms)) else None
              | _ => None
              end) (λ _, true).

Definition c_row : codec qdrantRow :=
  mkCodec (mkRow JNull []) (λ r, JObj [("id", row_id r); ("payload", JObj (row_payload r))])
    (λ old v, dec_object ["id"; "payload"] (λ o,
       i ← dec_field c_any (row_id old) (o "id"); p ← dec_field c_map (row_payload old) (o "payload"); Some (mkRow i p)) v)
    (λ _, true).

Definition read_qdrant : json → option (list qdrantRow) :=
  dec_object ["result"] (λ o, dec_field (c_list c_row) [] (o "result")).

(* server/vectorman/service/qdrant_service.go: postSearch *)
Definition qdrant_postSearch (q : QdrantService) (path : string) (payload : json) : M W (list qdrantRow) := λ s,
  match qdrant_requestBytes q "POST" path (Some payload) s with
  | (s, Err e) => (s, Err e)
  | (s, Ok (status, body)) =>
      if (300 <=? status)%Z then (s, Err ("qdrant status " +:+ FormatInt status)) else (s, unmarshal read_qdrant body)
  end.

(** The identifier in the payload, or the identifier of the point. *)
Definition qdrant_id (row : qdrantRow) : option string :=
  match json_field (row_payload row) "id" with
  | Some (JStr (String _ _ as id)) => Some id
  | _ => match row_id row with
         | JStr "" => None
         | v => id_text v
         end
  end.

(* server/vectorman/service/qdrant_service.go: QdrantService.SemanticSearch *)
Definition qdrant_SemanticSearch (q : QdrantService) (query : string) (roomID : option string) (limit : Z) :
    M W (option (list string)) := λ s,
  if negb (qd_enabled q) then (s, Ok None)
  else
    let filter_ := match roomID with
                   | None => []
                   | Some r => [("filter", JObj [("must", JList [JObj [("key", JStr "room_id");
                                  ("match", JObj [("value", JStr r)])]])])]
                   end in
    let payload := JObj (filter_ ++ [("limit", JNum limit); ("vector", json_vector (embed query defaultVectorDim));
                                     ("with_payload", JBool true)]) in
    match qdrant_postSearch q ("/collections/" +:+ qd_collection q +:+ "/points/search") payload s with
    | (s, Err e) => (s, Err e)
    | (s, Ok rows) => (s, Ok (Some (omap qdrant_id rows)))
    end.

(** *** Elasticsearch *)

(* server/vectorman/service/elasticsearch_service.go: ElasticsearchService *)
Record ElasticsearchService := mkElastic { es_endpoint : string; es_index : string; es_enabled : bool }.

(* server/vectorman/service/elasticsearch_service.go: NewElasticsearchService *)
Definition NewElasticsearchService (endpoint index : string) (enabled : bool) : ElasticsearchService :=
  let normalizedIndex := TrimSpace index in
  mkElastic (TrimRightSlash (TrimSpace endpoint))
    (if decide (normalizedIndex = "") then defaultCollectionName else normalizedIndex) enabled.

(* server/vectorman/service/elasticsearch_service.go: requestBytes *)
Definition elastic_requestBytes (e : ElasticsearchService) (method path : string) (payload : option json) : M W (Z * string) :=
  Do method (es_endpoint e +:+ absolute path) match payload with Some p => marshal_json p | None => "" end.

Definition es_type (t : string) : json := JObj [("type", JStr t)].

(* server/vectorman/service/elasticsearch_service.go: ElasticsearchService.EnsureCollection *)
Definition elastic_EnsureCollection (e : ElasticsearchService) : M W unit := λ s,
  if negb (es_enabled e) then (s, Ok tt)
  else
    match elastic_requestBytes e "HEAD" ("/" +:+ es_index e) None s with
    | (s, Err er) => (s, Err er)
    | (s, Ok (status, _)) =>
        if decide (status = 200%Z) then (s, Ok tt)
        else if decide (status ≠ 404%Z) then
          (s, Err ("elasticsearch unexpected status " +:+ FormatInt status +:+ " while checking index"))
        else
          let createPayload := JObj [("mappings", JObj [("properties", JObj [
            ("id", es_type "keyword"); ("room_id", es_type "keyword"); ("text", es_type "text");
            ("vector", JObj [("dims", JNum 128); ("index", JBool true); ("similarity", JStr "cosine");
                             ("type", JStr "dense_vector")])])])] in
          match elastic_requestBytes e "PUT" ("/" +:+ es_index e) (Some createPayload) s with
          | (s, Err er) => (s, Err er)
          | (s, Ok (created, _)) =>
              if decide (created ≠ 200%Z ∧ created ≠ 201%Z ∧ created ≠ 400%Z) then
                (s, Err ("elasticsearch status " +:+ FormatInt created +:+ " while creating index"))
              else (s, Ok tt)
          end
    end.

(* server/vectorman/service/elasticsearch_service.go: ElasticsearchService.IndexMessage *)
Definition elastic_IndexMessage (e : ElasticsearchService) (messageID roomID text : string) : M W unit := λ s,
  if negb (es_enabled e) then (s, Ok tt)
  else
    let payload := JObj [("id", JStr messageID); ("room_id", JStr roomID); ("text", JStr text);
                         ("vector", json_vector (embed text defaultVectorDim))] in
    match elastic_requestBytes e "PUT" ("/" +:+ es_index e +:+ "/_doc/" +:+ messageID) (Some payload) s with
    | (s, Err er) => (s, Err er)
    | (s, Ok (status, _)) =>
        if (300 <=? status)%Z then (s, Err ("elasticsearch status " +:+ FormatInt status)) else (s, Ok tt)
    end.

(** A hit: its _id and the id of its _source. *)
(* server/vectorman/service/elasticsearch_service.go: elasticSearchResponse *)
Record elasticHit := mkHit { hit_ID : string; hit_SourceID : string }.

Definition c_source : codec string :=
  mkCodec "" (λ i, JObj [("id", JStr i)]) (λ old, dec_object ["id"] (λ o, dec_field c_string old (o "id"))) utf8.

Definition c_hit : codec elasticHit :=
  mkCodec (mkHit "" "") (λ h, JObj [("_id", JStr (hit_ID h)); ("_source", enc c_source (hit_SourceID h))])
    (λ old, dec_object ["_id"; "_source"] (λ o,
       i ← dec_field c_string (hit_ID old) (o "_id"); src ← dec_field c_source (hit_SourceID old) (o "_source"); Some (mkHit i src)))
    (λ _, true).

Definition c_hits : codec (list elasticHit) :=
  mkCodec [] (λ l, JObj [("hits", enc (c_list c_hit) l)])
    (λ old, dec_object ["hits"] (λ o, dec_field (c_list c_hit) old (o "hits"))) (λ _, true).

Definition read_elastic : json → option (list elasticHit) := dec_object ["hits"] (λ o, dec_field c_hits [] (o "hits")).

(* server/vectorman/service/elasticsearch_service.go: ElasticsearchService.SemanticSearch *)
Definition elastic_SemanticSearch (e : ElasticsearchService) (query : string) (roomID : option string) (limit : Z) :
    M W (option (list string)) := λ s,
  if negb (es_enabled e) then (s, Ok None)
  else
    let innerQuery := match roomID with
                      | None => JObj [("match_all", JObj [])]
                      | Some r => JObj [("bool", JObj [("filter", JList [JObj [("term", JObj [("room_id", JStr r)])]])])]
                      end in
    let payload := JObj [("_source", JList [JStr "id"; JStr "room_id"]);
      ("query", JObj [("script_score", JObj [("query", innerQuery);
        ("script", JObj [("params", JObj [("query_vector", json_vector (embed query defaultVectorDim))]);
                         ("source", JStr "cosineSimilarity(params.query_vector, 'vector') + 1.0")])])]);
      ("size", JNum limit)] in
    match elastic_requestBytes e "POST" ("/" +:+ es_index e +:+ "/_search") (Some payload) s with
    | (s, Err er) => (s, Err er)
    | (s, Ok (status, body)) =>
        if (300 <=? status)%Z then (s, Err ("elasticsearch status " +:+ FormatInt status))
        else match unmarshal read_elastic body with
             | Err er => (s, Err er)
             | Ok hits =>
                 (s, Ok (Some (omap (λ h, if decide (hit_SourceID h ≠ "") then Some (hit_SourceID h)
                                          else if decide (hit_ID h ≠ "") then Some (hit_ID h) else None) hits)))
             end
    end.

Definition milvus_service (m : MilvusService) : VectorService W :=
  mkVectorService (milvus_EnsureCollection m) (milvus_IndexMessage m) (milvus_SemanticSearch m).
Definition qdrant_service (q : QdrantService) : VectorService W :=
  mkVectorService (qdrant_EnsureCollection q) (qdrant_IndexMessage q) (qdrant_SemanticSearch q).
Definition elastic_service (e : ElasticsearchService) : VectorService W :=
  mkVectorService (elastic_EnsureCollection e) (elastic_IndexMessage e) (elastic_SemanticSearch e).

(** ** The server *)

(* server/vectorman/app/server.go: Config *)
Record Config := mkConfig {
  Port : string; VectorBackend : string;
  MilvusEnabled : bool; MilvusEndpoint : string;
  QdrantEnabled : bool; QdrantEndpoint : string; QdrantCollection : string;
  ElasticsearchEnabled : bool; ElasticsearchEndpoint : string; ElasticsearchIndex : string;
}.

(* cmd/vectorman/main.go: main #18-34 *)
Definition vectorman_config (getenv : string → string) : Config :=
  let port := getenv "VECTORMAN_PORT" in
  mkConfig (if decide (port = "") then "8083" else port)
    (env_String getenv "VECTOR_BACKEND" "milvus")
    (env_Bool getenv "MILVUS_ENABLED" true) (env_String getenv "MILVUS_ENDPOINT" "http://localhost:9091")
    (env_Bool getenv "QDRANT_ENABLED" true) (env_String getenv "QDRANT_ENDPOINT" "http://localhost:6333")
    (env_String getenv "QDRANT_COLLECTION" "messages")
    (env_Bool getenv "ELASTICSEARCH_ENABLED" true) (env_String getenv "ELASTICSEARCH_ENDPOINT" "http://localhost:9200")
    (env_String getenv "ELASTICSEARCH_INDEX" "messages").

(** The back end the handlers get, after its collection is there. *)
(* server/vectorman/app/server.go: NewServer #33-55 *)
Definition NewVectorServer (cfg : Config) : M W (VectorService W) := λ s,
  let backend := ToLower (TrimSpace (VectorBackend cfg)) in
  let backend := if decide (backend = "") then "milvus" else backend in
  let start svc :=
    match EnsureCollection svc s with
    | (s, Err e) => (s, Err ("ensure vector collection: " +:+ e))
    | (s, Ok _) => (s, Ok svc)
    end in
  if decide (backend = "milvus") then start (milvus_service (NewMilvusService (MilvusEndpoint cfg) (MilvusEnabled cfg)))
  else if decide (backend = "qdrant") then
    start (qdrant_service (NewQdrantService (QdrantEndpoint cfg) (QdrantCollection cfg) (QdrantEnabled cfg)))
  else if decide (backend = "elasticsearch") then
    start (elastic_service (NewElasticsearchService (ElasticsearchEndpoint cfg) (ElasticsearchIndex cfg) (ElasticsearchEnabled cfg)))
  else (s, Err ("unsupported vector backend: " +:+ VectorBackend cfg)).

(** ** The handlers *)
Variable svc : VectorService W.

Definition index_body : json → option (string * string * string) :=
  dec_object ["message_id"; "room_id"; "text"] (λ o,
    m ← required c_string (o "message_id"); r ← required c_string (o "room_id"); t ← optional c_string (o "text");
    Some (m, r, t)).

(* server/vectorman/api/handler.go: index *)
Definition index (rq : Request) : handler W :=
  with_body index_body (rq_body rq) (λ '(m, r, t), answer 200 500 (λ _, NewOKResponse) (vs_IndexMessage svc m r t)).

Definition ids_response (ids : option (list string)) : json :=
  JObj [("ids", match ids with None => JNull | Some l => JList (JStr <$> l) end)].

Definition search_body : json → option (string * option string * Z) :=
  dec_object ["query"; "room_id"; "limit"] (λ o,
    q ← required c_string (o "query"); r ← optional (c_ptr c_string) (o "room_id"); l ← optional c_int (o "limit");
    Some (q, r, l)).

(* server/vectorman/api/handler.go: search *)
Definition search (rq : Request) : handler W :=
  with_body search_body (rq_body rq) (λ '(q, r, l),
      let limit := if (l <=? 0)%Z || (200 <? l)%Z then 30%Z else l in
      answer 200 500 ids_response (vs_SemanticSearch svc q r limit)).

Definition vector_routes : list (string * (Request → handler W)) := [
  ("POST /api/v1/vectors/messages/index", index); ("POST /api/v1/vectors/messages/search", search)].

(* server/vectorman/api/handler.go: RegisterRoutes *)
Definition serve_vectors (pattern : string) (rq : Request) : handler W :=
  if decide (pattern = "GET /health") then health rq
  else match find_route pattern vector_routes with
  | Some h => h rq
  | None => refuse 404 "404 page not found"
  end.
End backends.

(** * Properties *)

(** An embedding of any dimension is eight numbers over and over.  Component i is the same as component i + 8, every
    component is below 1, and the 128 dimensions the back ends are given hold what eight hold: the hash has 32
    bytes and the index wraps around. *)
Theorem embedding_repeats text dim :
  length (embed text dim) = dim ∧ Forall (λ k, (0 ≤ k < 1000)%Z) (embed text dim)
  ∧ ∀ i, embed text dim !! (i + 8) = (if decide (i + 8 < dim) then embed text dim !! i else None)
    ∧ (i < dim → embed text dim !! i = embed text 8 !! Nat.modulo i 8).
Proof.
  unfold embed. rewrite length_Sum256, length_fmap, length_seq. split; [done|]. split.
  { apply Forall_fmap, Forall_forall. intros i _. apply Z.mod_pos_bound. lia. }
  assert (∀ i d, i < d → ((λ i, (be32 (take 4 (drop (Nat.modulo (i * 4) 32) (Sum256 text))) mod 1000)%Z) <$> seq 0 d) !! i
    = Some (be32 (take 4 (drop (Nat.modulo (i * 4) 32) (Sum256 text))) mod 1000)%Z) as Hat.
  { intros i d Hi. rewrite list_lookup_fmap, lookup_seq_lt by done. done. }
  intros i. split.
  - case_decide as Hi.
    + rewrite !Hat by lia. replace ((i + 8) * 4) with (i * 4 + 1 * 32) by lia. by rewrite Nat.Div0.mod_add.
    + apply lookup_ge_None_2. rewrite length_fmap, length_seq. lia.
  - intros Hi. pose proof (Nat.mod_upper_bound i 8 ltac:(lia)). rewrite !Hat by lia.
    do 5 f_equal. rewrite (Nat.div_mod_eq i 8) at 1.
    replace ((8 * Nat.div i 8 + Nat.modulo i 8) * 4) with (Nat.modulo i 8 * 4 + Nat.div i 8 * 32) by lia. by rewrite Nat.Div0.mod_add.
Qed.

(** A room identifier is pasted into the filter of a search: one with quotes in it asks for other rooms. *)
Lemma milvus_filter_injection r r' :
  milvus_filter (Some (r +:+ String quote (" || room_id == " +:+ String quote r')))
  = milvus_filter (Some r) +:+ " || " +:+ milvus_filter (Some r').
Proof.
  apply chars_inj. unfold milvus_filter. repeat (rewrite chars_app || cbn [chars app]). by rewrite <-!(assoc_L (++)).
Qed.

(** ** chat and vectorman together *)
Section over_http.
Context `{Gin} {W : Type} (svc : VectorService W) (w : W).

Definition vector_request (body : string) : Request :=
  mkRequest body (λ _, "") (λ _, None) "" "" (mkCtx (λ _, "") ∅).

(** vectorman as chat's client meets it, in a state. *)
Definition vector_http (endpoint url body : string) : http_outcome :=
  match strip_prefix endpoint url with
  | None => HttpErr "no such host"
  | Some path =>
      let r := (serve_vectors svc ("POST " +:+ path) (vector_request body) w).2 in
      HttpResponse (status_of r) (decode read_map (body_of r))
  end.

(** What chat makes of an answer of vectorman. *)
Definition seen_by_chat (r : result (option (list string))) : result (list string) :=
  match r with
  | Ok (Some ids) => Ok ids
  | Ok None => Err "invalid ids payload"
  | Err _ => Err "vectorman status 500"
  end.

Lemma vm_post_serves m path payload :
  vm_post (vector_http (vm_endpoint m)) m path payload
  = let r := (serve_vectors svc ("POST " +:+ path) (vector_request (marshal_json payload)) w).2 in
    if (300 <=? status_of r)%Z then Err ("vectorman status " +:+ FormatInt (status_of r)) else decode read_map (body_of r).
Proof. unfold vm_post, vector_http. by rewrite strip_prefix_app. Qed.

Lemma json_strings_all l : json_strings (JStr <$> l) = l.
Proof. induction l as [|x l IH]; [done|]. cbn. by rewrite <-IH at 2. Qed.

Lemma search_binds q room limit :
  given q = true → enc_ok (c_ptr c_string) room = true → is_int64 limit →
  ShouldBindJSON search_body (marshal_json (JObj [("limit", JNum limit); ("query", JStr q); ("room_id", json_opt_string room)]))
  = Ok (q, room, limit).
Proof.
  intros Hq Hroom Hl. apply given_spec in Hq as Hu. apply bind_marshal.
  - apply wf_obj. repeat (apply Forall_cons; split); [by split|split; [done|apply Hu]| |constructor].
    split; [done|]. destruct room as [r|]; [|done]. by apply andb_true_iff in Hroom as [? _].
  - unfold search_body, dec_object. rewrite !members_of_assoc by reflexivity. cbn [assoc String.eqb Ascii.eqb Bool.eqb].
    rewrite required_given by done.
    change [JNum limit] with [enc c_int limit]. rewrite (optional_enc c_int limit) by (by apply bool_decide_eq_true_2).
    assert (json_opt_string room = enc (c_ptr c_string) room) as -> by by destruct room.
    by rewrite (optional_enc (c_ptr c_string) room).
Qed.

Lemma index_binds id r text :
  given id = true → given r = true → utf8 text = true →
  ShouldBindJSON index_body (marshal_json (JObj [("message_id", JStr id); ("room_id", JStr r); ("text", JStr text)]))
  = Ok (id, r, text).
Proof.
  intros Hid Hr Ht. apply given_spec in Hid as Hu. apply given_spec in Hr as Hu'. apply bind_marshal.
  - apply wf_obj. repeat (apply Forall_cons; split); [split; [done|apply Hu]|split; [done|apply Hu']|split; done|constructor].
  - unfold index_body, dec_object. rewrite !members_of_assoc by reflexivity. cbn [assoc String.eqb Ascii.eqb Bool.eqb].
    rewrite !required_given by done. change [JStr text] with [enc c_string text]. by rewrite (optional_enc c_string text).
Qed.

Lemma wf_strings l : forallb utf8 l = true → wf_json (JList (JStr <$> l)) = true.
Proof.
  intros Hl. cbn [wf_json]. induction l as [|x l IH]; [done|]. cbn in Hl. apply andb_true_iff in Hl as [Hx Hl].
  cbn. rewrite Hx. by apply IH.
Qed.

Lemma any_ok_strings l : forallb any_ok (JStr <$> l) = true.
Proof. induction l as [|x l IH]; [done|exact IH]. Qed.

(** C18: chat's vector client and vectorman's handlers agree.  A search that chat makes with a text, a room or none, and
    a limit in range reaches the back end with exactly these, and chat gets the back end's identifiers, or an error
    when the back end failed; so does a message to be indexed.  When the back end is switched off vectorman
    answers null, which chat does not read as an empty answer but reports as an error. *)
Theorem vector_search_over_http m q room limit :
  enabled m = true → given q = true → enc_ok (c_ptr c_string) room = true → (0 < limit ≤ 200)%Z →
  (∀ ids, (vs_SemanticSearch svc q room limit w).2 = Ok (Some ids) → forallb utf8 ids = true) →
  ChatService.SemanticSearch (vector_http (vm_endpoint m)) m q room limit
  = seen_by_chat (vs_SemanticSearch svc q room limit w).2
  ∧ ∀ id r text, given id = true → given r = true → utf8 text = true →
    ChatService.IndexMessage (vector_http (vm_endpoint m)) m id r text
    = match (vs_IndexMessage svc id r text w).2 with Ok _ => Ok tt | Err _ => Err "vectorman status 500" end.
Proof.
  intros Hen Hq Hroom Hl Hids. split.
  - unfold ChatService.SemanticSearch. rewrite Hen. cbn [negb].
    rewrite vm_post_serves.
    unfold serve_vectors. cbn [String.append find_route vector_routes].
    do 2 (rewrite decide_False by done). rewrite decide_True by done. unfold search, with_body. cbn [rq_body vector_request].
    rewrite search_binds by first [done|unfold is_int64, int64_min, int64_max; lia].
    rewrite (proj2 (Z.leb_gt limit 0)), (proj2 (Z.ltb_ge 200 limit)) by lia. cbn [orb]. unfold answer.
    specialize (Hids) . destruct (vs_SemanticSearch svc q room limit w) as [w' [[ids|]|e]]; cbn [snd status_of].
    + unfold body_of, decode, ids_response. rewrite parse_marshal by (apply wf_obj, Forall_singleton; split; [done|by apply wf_strings, Hids]).
      cbn [mbind option_bind read_map]. cbn [any_ok forallb]. rewrite any_ok_strings. cbn.
      rewrite decide_False by apply not_elem_of_nil.
      change (Ok (json_strings (JStr <$> ids)) = Ok ids). by rewrite json_strings_all.
    + reflexivity.
    + reflexivity.
  - intros id r text Hid Hr Ht. unfold ChatService.IndexMessage. rewrite Hen. cbn [negb].
    rewrite vm_post_serves.
    unfold serve_vectors. cbn [String.append find_route vector_routes].
    rewrite decide_False, decide_True by done. unfold index, with_body. cbn [rq_body vector_request]. rewrite index_binds by done.
    unfold answer. by destruct (vs_IndexMessage svc id r text w) as [w' [[]|e]].
Qed.
End over_http.

(** * A concrete run *)

#[local] Instance demo_gin : Gin := {| bind_error _ := "EOF"; required_struct := true |}.

(** A Qdrant that knows two points, the second without a payload, and remembers what it was asked. *)
Definition demo_qdrant (method url body : string) : M (list string) (Z * string) := λ s,
  (s ++ [method +:+ " " +:+ url],
   Ok (200%Z, marshal_json (JObj [("result", JList [
     JObj [("id", JStr "p1"); ("payload", JObj [("id", JStr "m1")])]; JObj [("id", JNum 42)]])]))).

Definition demo_vectors : VectorService (list string) :=
  qdrant_service demo_qdrant (NewQdrantService "http://qdrant:6333/ " "" true).

Example demo_search :
  vs_SemanticSearch demo_vectors "hello" (Some "r1") 10 []
  = (["POST http://qdrant:6333/collections/messages/points/search"], Ok (Some ["m1"; "42"])).
Proof. vm_compute. reflexivity. Qed.

Lemma vector_search_over_http_witness :
  let m := NewVectormanClient "http://vectorman:8083/" true in
  ChatService.SemanticSearch (vector_http demo_vectors [] (vm_endpoint m)) m "hello" (Some "r1") 10 = Ok ["m1"; "42"]
  ∧ ChatService.IndexMessage (vector_http demo_vectors [] (vm_endpoint m)) m "m9" "r1" "" = Ok tt.
Proof.
  intros m.
  assert (∀ ids, (vs_SemanticSearch demo_vectors "hello" (Some "r1") 10 []).2 = Ok (Some ids) → forallb utf8 ids = true) as Hids
    by (rewrite demo_search; by intros ids [= <-]).
  destruct (vector_search_over_http demo_vectors [] m "hello" (Some "r1") 10) as [Hs Hi]; [reflexivity..|lia|exact Hids|].
  rewrite demo_search in Hs. split; [exact Hs|]. rewrite (Hi "m9" "r1" "") by reflexivity. vm_compute. reflexivity.
Defined.

(** A back end that is switched off answers null. *)
Example disabled_backend_is_an_error :
  let m := NewVectormanClient "http://vectorman:8083" true in
  let off := milvus_service demo_qdrant (NewMilvusService "http://milvus:9091" false) in
  ChatService.SemanticSearch (vector_http off [] (vm_endpoint m)) m "hello" None 10 = Err "invalid ids payload".
Proof. vm_compute. reflexivity. Qed.
