(* ===== verification/DbmanApi.v ===== *)
(** * dbman's HTTP interface

    server/dbman/api/handler.go: the handlers behind /api/internal/v1/db and /api/v1/db, over the
    repositories and services of [ChatStore], [SessionStore], [Users], [Tenants] and [FileStore].
    A handler binds the body, calls one operation and answers 200 or 201 with its value, 400 to a
    body it refuses, and 500 with the operation's error; only the login answers 401 instead. *)

From S2P Require Import Prelude GoStrings GoEncoding Cursor Env Auth SessionStore Paging ChatStore GoJson GoTime.
From S2P Require Import JsonText ChatService Users Tenants FileStore Wire Gin.

Section api.
Context `{Postgres} `{Gin} {R : Type}.
Variable invalidate : string → R → R.
Variable user_match : User → string → bool.
Variable DBForTenant : string → result unit.
Variable generate : string → result string.
Variable compare : string → string → result unit.

(** The tables behind the handlers, and the routers the tenant service invalidates. *)
Record Dbman := mkDbman {
  db_org : OrgDB;
  db_files : list FileObject;
  db_session : SessionDB;
  db_tenants : TenantService R TenantDB;
}.

Definition on_org {A} (m : M OrgDB A) : M Dbman A := λ s,
  let '(d, r) := m (db_org s) in (mkDbman d (db_files s) (db_session s) (db_tenants s), r).

Definition on_chat {A} (m : M ChatDB A) : M Dbman A :=
  on_org (λ d, let '(c, r) := m (o_chat d) in (set_o_chat c d, r)).

Definition on_files {A} (m : M FilesDB A) : M Dbman A := λ s,
  let '(d, r) := m (mkFilesDB (o_chat (db_org s)) (db_files s)) in
  (mkDbman (set_o_chat (f_chat d) (db_org s)) (files d) (db_session s) (db_tenants s), r).

Definition on_session {A} (m : M SessionDB A) : M Dbman A := λ s,
  let '(d, r) := m (db_session s) in (mkDbman (db_org s) (db_files s) d (db_tenants s), r).

Definition on_tenants {A} (m : M (TenantService R TenantDB) A) : M Dbman A := λ s,
  let '(d, r) := m (db_tenants s) in (mkDbman (db_org s) (db_files s) (db_session s) d, r).

Definition on_tenant_table {A} (m : M TenantDB A) : M Dbman A :=
  on_tenants (λ s, let '(d, r) := m (t_store s) in (mkTenantService d (routers s), r)).

Definition ok_body (_ : unit) : json := NewOKResponse.

(* server/dbman/api/handler.go: upsertDeviceSession *)
Definition upsertDeviceSession (env : Env) (body : string) : handler Dbman :=
  with_body (dec c_DeviceSession (zero c_DeviceSession)) body (λ req,
    answer 200 500 (enc c_DeviceSession) (on_session (repo_UpsertDeviceSession DBForTenant env req))).

(* server/dbman/api/handler.go: validateSession *)
Definition validateSession (env : Env) (body : string) : handler Dbman :=
  with_body (dec_object ["tenant_id"; "user_id"; "session_id"; "session_token"] (λ o,
    t ← required c_string (o "tenant_id"); u ← required c_string (o "user_id");
    sid ← required c_string (o "session_id"); tok ← required c_string (o "session_token");
    Some (t, u, sid, tok))) body (λ '(t, u, sid, tok),
      answer 200 500 (λ valid, JObj [("valid", JBool valid)])
      (on_session (repo_ValidateAndTouchSession DBForTenant env t u sid tok))).

(* server/dbman/api/handler.go: updateSessionUserStatus *)
Definition updateSessionUserStatus (env : Env) (body : string) : handler Dbman :=
  with_body (dec c_UserStatus (zero c_UserStatus)) body (λ req,
    answer 200 500 ok_body (on_session (repo_UpdateUserStatus DBForTenant env req))).

(* server/dbman/api/handler.go: createSessionNote *)
Definition createSessionNote (env : Env) (body : string) : handler Dbman :=
  with_body (dec c_Note (zero c_Note)) body (λ req,
    answer 201 500 (enc c_Note) (on_session (repo_CreateNote DBForTenant env req))).

(* server/dbman/api/handler.go: listSessionInbox *)
Definition listSessionInbox (body : string) : handler Dbman :=
  with_body (dec_object ["tenant_id"; "user_id"; "limit"] (λ o,
    t ← required c_string (o "tenant_id"); u ← required c_string (o "user_id");
    limit ← optional c_int (o "limit");
    Some (t, u, limit))) body (λ '(t, u, limit),
      answer 200 500 (enc (c_list c_NoteInboxItem)) (on_session (repo_ListInbox DBForTenant t u (clamp limit 200 50)))).

(* server/dbman/api/handler.go: markSessionNoteRead *)
Definition markSessionNoteRead (body : string) : handler Dbman :=
  with_body (dec_object ["tenant_id"; "user_id"; "note_id"] (λ o,
    t ← required c_string (o "tenant_id"); u ← required c_string (o "user_id");
    id ← required c_string (o "note_id");
    Some (t, u, id))) body (λ '(t, u, id),
      answer 200 500 ok_body (on_session (repo_MarkNoteRead DBForTenant t u id))).

(* server/dbman/api/handler.go: saveSessionChatNotifications *)
Definition saveSessionChatNotifications (body : string) : handler Dbman :=
  with_body (dec_object ["tenant_id"; "sender_user_id"; "input"] (λ o,
    t ← required c_string (o "tenant_id"); u ← required c_string (o "sender_user_id");
    input ← required_value c_ChatNotifyInput (o "input");
    Some (t, u, input))) body (λ '(t, u, input),
      answer 200 500 ok_body (on_session (repo_SaveChatNotifications DBForTenant t u input))).

(* server/dbman/api/handler.go: createOrgUnit *)
Definition createOrgUnit (env : Env) (body : string) : handler Dbman :=
  with_body (dec_object ["tenant_id"; "parent_id"; "name"] (λ o,
    t ← required c_string (o "tenant_id"); parent ← optional (c_ptr c_string) (o "parent_id");
    name ← required c_string (o "name");
    Some (t, parent, name))) body (λ '(t, parent, name),
      answer 201 500 NewIDResponse (on_org (repo_CreateOrgUnit DBForTenant env t parent name))).

(* server/dbman/api/handler.go: listOrgUnits *)
Definition listOrgUnits (body : string) : handler Dbman :=
  with_body (dec_object ["tenant_id"] (λ o,
    t ← required c_string (o "tenant_id");
    Some t)) body (λ t,
      answer 200 500 (enc (c_list c_OrgUnit)) (on_org (repo_ListOrgUnits DBForTenant t))).

(* server/dbman/api/handler.go: createUser *)
Definition createUser (env : Env) (body : string) : handler Dbman :=
  with_body (dec_object ["tenant_id"; "user"] (λ o,
    t ← required c_string (o "tenant_id"); user ← required_value c_User (o "user");
    Some (t, user))) body (λ '(t, user),
      answer 201 500 NewIDResponse (on_org (dbman_CreateUser DBForTenant generate env t user))).

(* server/dbman/api/handler.go: updateUserStatus *)
Definition updateUserStatus (env : Env) (body : string) : handler Dbman :=
  with_body (dec_object ["tenant_id"; "user_id"; "status"; "note"] (λ o,
    t ← required c_string (o "tenant_id"); u ← required c_string (o "user_id");
    status ← required c_string (o "status"); note ← optional c_string (o "note");
    Some (t, u, status, note))) body (λ '(t, u, status, note),
      answer 200 500 ok_body (on_org (repo_UpdateStatus DBForTenant env t u status note))).

(* server/dbman/api/handler.go: searchUsers *)
Definition searchUsers (body : string) : handler Dbman :=
  with_body (dec_object ["tenant_id"; "q"; "limit"] (λ o,
    t ← required c_string (o "tenant_id"); q ← required c_string (o "q");
    limit ← optional c_int (o "limit");
    Some (t, q, limit))) body (λ '(t, q, limit),
      answer 200 500 (enc (c_list c_User)) (on_org (dbman_SearchUsers user_match DBForTenant t q (clamp limit 100 20)))).

(* server/dbman/api/handler.go: authenticateUser *)
Definition authenticateUser (body : string) : handler Dbman :=
  with_body (dec_object ["tenant_id"; "email"; "password"] (λ o,
    t ← required c_string (o "tenant_id"); email ← required c_string (o "email");
    password ← required c_string (o "password");
    Some (t, email, password))) body (λ '(t, email, password),
      λ s, match on_org (dbman_Authenticate DBForTenant compare t email password) s with
          | (s', Err _) => (s', RError 401 "invalid credentials")
          | (s', Ok user) => (s', RJson 200 (enc c_User user))
          end).

(* server/dbman/api/handler.go: listAliases *)
Definition listAliases (body : string) : handler Dbman :=
  with_body (dec_object ["tenant_id"; "user_id"] (λ o,
    t ← required c_string (o "tenant_id"); u ← required c_string (o "user_id");
    Some (t, u))) body (λ '(t, u),
      answer 200 500 (enc (c_list c_string)) (on_org (repo_ListAliases DBForTenant t u))).

(* server/dbman/api/handler.go: addAlias *)
Definition addAlias (env : Env) (body : string) : handler Dbman :=
  with_body (dec_object ["tenant_id"; "user_id"; "alias"; "ip"; "user_agent"] (λ o,
    t ← required c_string (o "tenant_id"); u ← required c_string (o "user_id");
    alias ← required c_string (o "alias"); ip ← optional c_string (o "ip");
    agent ← optional c_string (o "user_agent");
    Some (t, u, alias, ip, agent))) body (λ '(t, u, alias, ip, agent),
      answer 200 500 ok_body (on_org (dbman_AddAlias DBForTenant env t u alias ip agent))).

(* server/dbman/api/handler.go: deleteAlias *)
Definition deleteAlias (env : Env) (body : string) : handler Dbman :=
  with_body (dec_object ["tenant_id"; "user_id"; "alias"; "ip"; "user_agent"] (λ o,
    t ← required c_string (o "tenant_id"); u ← required c_string (o "user_id");
    alias ← required c_string (o "alias"); ip ← optional c_string (o "ip");
    agent ← optional c_string (o "user_agent");
    Some (t, u, alias, ip, agent))) body (λ '(t, u, alias, ip, agent),
      answer 200 500 ok_body (on_org (dbman_DeleteAlias DBForTenant env t u alias ip agent))).

(* server/dbman/api/handler.go: listAliasAudit *)
Definition listAliasAudit (body : string) : handler Dbman :=
  with_body (dec_object ["tenant_id"; "user_id"; "limit"; "from"; "to"; "action"; "cursor_created_at"; "cursor_id"] (λ o,
    t ← required c_string (o "tenant_id"); u ← required c_string (o "user_id");
    limit ← optional c_int (o "limit"); from ← optional (c_ptr c_time) (o "from");
    to_ ← optional (c_ptr c_time) (o "to"); action ← optional c_string (o "action");
    at_ ← optional (c_ptr c_time) (o "cursor_created_at"); id ← optional (c_ptr c_string) (o "cursor_id");
    Some (t, u, limit, from, to_, action, at_, id))) body (λ '(t, u, limit, from, to_, action, at_, id),
      answer 200 500 (enc (c_list c_AliasAudit))
      (on_org (dbman_ListAliasAudit DBForTenant t u (clamp limit 200 50) from to_ action at_ id))).

(* server/dbman/api/handler.go: listTenants *)
Definition listTenants : handler Dbman :=
  answer 200 500 (enc (c_list c_Tenant)) (on_tenant_table repo_ListTenants).

(* server/dbman/api/handler.go: getTenant *)
Definition getTenant (body : string) : handler Dbman :=
  with_body (dec_object ["tenant_id"] (λ o,
    t ← required c_string (o "tenant_id");
    Some t)) body (λ t,
      answer 200 500 (enc c_Tenant) (on_tenant_table (repo_GetTenant t))).

(* server/dbman/api/handler.go: createTenant *)
Definition createTenant (env : Env) (body : string) : handler Dbman :=
  with_body (dec c_Tenant (zero c_Tenant)) body (λ req,
    answer 201 500 (enc c_Tenant) (on_tenants (dbman_CreateTenant invalidate env req))).

(* server/dbman/api/handler.go: updateTenant *)
Definition updateTenant (env : Env) (body : string) : handler Dbman :=
  with_body (dec c_Tenant (zero c_Tenant)) body (λ req,
    answer 200 500 (enc c_Tenant) (on_tenants (dbman_UpdateTenant invalidate env req))).

(* server/dbman/api/handler.go: createFile *)
Definition createFile (env : Env) (body : string) : handler Dbman :=
  with_body (dec c_FileObject (zero c_FileObject)) body (λ req,
    if decide (fo_TenantID req = "" ∨ fo_RoomID req = "" ∨ UploaderID req = "" ∨ fo_ObjectKey req = ""
               ∨ fo_ContentType req = "" ∨ OriginalName req = "")
    then refuse 400 "tenant_id, room_id, uploader_id, object_key, content_type, original_name are required"
    else answer 201 500 (enc c_FileObject) (on_files (repo_CreateFile DBForTenant env req))).

(* server/dbman/api/handler.go: searchFilesByRoom *)
Definition searchFilesByRoom (rq : Request) : handler Dbman :=
  let tenantID := Query rq "tenant_id" in
  let roomID := Query rq "room_id" in
  if decide (tenantID = "" ∨ roomID = "") then refuse 400 "tenant_id and room_id are required"
  else
    let limit := clamp (query_limit rq "50") 200 50 in
    answer 200 500 (enc (c_list c_FileObject)) (on_files (repo_SearchByRoom DBForTenant tenantID roomID limit)).

(* server/dbman/api/handler.go: searchMessages *)
Definition searchMessages (body : string) : handler Dbman :=
  with_body (dec_object ["tenant_id"; "q"; "room_id"; "limit"; "cursor_id"] (λ o,
    t ← required c_string (o "tenant_id"); q ← required c_string (o "q");
    room ← optional (c_ptr c_string) (o "room_id"); limit ← optional c_int (o "limit");
    cursor ← optional (c_ptr c_string) (o "cursor_id");
    Some (t, q, room, limit, cursor))) body (λ '(t, q, room, limit, cursor),
      answer 200 500 (enc (c_list c_Message))
      (on_chat (dbman_SearchMessages DBForTenant t q room (clamp limit 200 30) cursor))).

(* server/dbman/api/handler.go: createRoom *)
Definition createRoom (env : Env) (body : string) : handler Dbman :=
  with_body (dec_object ["tenant_id"; "room"; "member_ids"] (λ o,
    t ← required c_string (o "tenant_id"); room ← required_value c_ChatRoom (o "room");
    ids ← optional (c_list c_string) (o "member_ids");
    Some (t, room, ids))) body (λ '(t, room, ids),
      if decide (r_Name room = "" ∨ RoomType room = "" ∨ CreatedBy room = "")
      then refuse 400 "room.name, room.room_type, room.created_by are required"
      else answer 201 500 (λ id, JObj [("room_id", JStr id)]) (on_chat (repo_CreateRoom DBForTenant env t room ids))).

(* server/dbman/api/handler.go: addMember *)
Definition addMember (env : Env) (body : string) : handler Dbman :=
  with_body (dec_object ["tenant_id"; "room_id"; "user_id"] (λ o,
    t ← required c_string (o "tenant_id"); r ← required c_string (o "room_id");
    u ← required c_string (o "user_id");
    Some (t, r, u))) body (λ '(t, r, u),
      answer 200 500 ok_body (on_chat (repo_AddMember DBForTenant env t r u))).

(* server/dbman/api/handler.go: checkRoomMember *)
Definition checkRoomMember (body : string) : handler Dbman :=
  with_body (dec_object ["tenant_id"; "room_id"; "user_id"] (λ o,
    t ← required c_string (o "tenant_id"); r ← required c_string (o "room_id");
    u ← required c_string (o "user_id");
    Some (t, r, u))) body (λ '(t, r, u),
      answer 200 500 (λ ok, JObj [("ok", JBool ok)]) (on_chat (repo_IsRoomMember DBForTenant t r u))).

(* server/dbman/api/handler.go: createMessage *)
Definition createMessage (env : Env) (body : string) : handler Dbman :=
  with_body (dec c_Message (zero c_Message)) body (λ req,
    if decide (m_TenantID req = "" ∨ m_RoomID req = "" ∨ SenderID req = "")
    then refuse 400 "tenant_id, room_id, sender_id are required"
    else answer 201 500 (enc c_Message) (on_chat (repo_CreateMessage DBForTenant env req))).

(* server/dbman/api/handler.go: markReadUpTo *)
Definition markReadUpTo (env : Env) (body : string) : handler Dbman :=
  with_body (dec_object ["tenant_id"; "room_id"; "user_id"; "message_id"] (λ o,
    t ← required c_string (o "tenant_id"); r ← required c_string (o "room_id");
    u ← required c_string (o "user_id"); id ← required c_string (o "message_id");
    Some (t, r, u, id))) body (λ '(t, r, u, id),
      answer 200 500 ok_body (on_chat (repo_MarkReadUpTo DBForTenant env t r u id))).

(* server/dbman/api/handler.go: listMessages *)
Definition listMessages (body : string) : handler Dbman :=
  with_body (dec_object ["tenant_id"; "room_id"; "limit"; "cursor_id"] (λ o,
    t ← required c_string (o "tenant_id"); r ← required c_string (o "room_id");
    limit ← optional c_int (o "limit"); cursor ← optional (c_ptr c_string) (o "cursor_id");
    Some (t, r, limit, cursor))) body (λ '(t, r, limit, cursor),
      answer 200 500 (enc (c_list c_Message)) (on_chat (dbman_ListMessages DBForTenant t r (clamp limit 200 50) cursor))).

(* server/dbman/api/handler.go: messageReaders *)
Definition messageReaders (body : string) : handler Dbman :=
  with_body (dec_object ["tenant_id"; "room_id"; "message_id"] (λ o,
    t ← required c_string (o "tenant_id"); r ← required c_string (o "room_id");
    id ← required c_string (o "message_id");
    Some (t, r, id))) body (λ '(t, r, id),
      answer 200 500 (enc (c_list c_MessageRead)) (on_chat (repo_GetMessageReaders DBForTenant t r id))).

(* server/dbman/api/handler.go: lastReadMessage *)
Definition lastReadMessage (body : string) : handler Dbman :=
  with_body (dec_object ["tenant_id"; "room_id"; "user_id"] (λ o,
    t ← required c_string (o "tenant_id"); r ← required c_string (o "room_id");
    u ← required c_string (o "user_id");
    Some (t, r, u))) body (λ '(t, r, u),
      answer 200 500 (λ id, JObj [("message_id", JStr id)]) (on_chat (repo_GetLastReadMessageID DBForTenant t r u))).

(* server/dbman/api/handler.go: unreadCount *)
Definition unreadCount (body : string) : handler Dbman :=
  with_body (dec_object ["tenant_id"; "room_id"; "user_id"] (λ o,
    t ← required c_string (o "tenant_id"); r ← required c_string (o "room_id");
    u ← required c_string (o "user_id");
    Some (t, r, u))) body (λ '(t, r, u),
      answer 200 500 (λ count, JObj [("count", enc c_count count)]) (on_chat (repo_GetUnreadCount DBForTenant t r u))).

(* server/dbman/api/handler.go: unreadCounts *)
Definition unreadCounts (body : string) : handler Dbman :=
  with_body (dec_object ["tenant_id"; "user_id"] (λ o,
    t ← required c_string (o "tenant_id"); u ← required c_string (o "user_id");
    Some (t, u))) body (λ '(t, u),
      answer 200 500 (enc (c_list c_RoomUnread)) (on_chat (repo_GetUnreadCounts DBForTenant t u))).

(* server/dbman/api/handler.go: listMyRooms *)
Definition listMyRooms (body : string) : handler Dbman :=
  with_body (dec_object ["tenant_id"; "user_id"; "limit"; "cursor_created_at"; "cursor_room_id"] (λ o,
    t ← required c_string (o "tenant_id"); u ← required c_string (o "user_id");
    limit ← optional c_int (o "limit"); at_ ← optional (c_ptr c_time) (o "cursor_created_at");
    room ← optional (c_ptr c_string) (o "cursor_room_id");
    Some (t, u, limit, at_, room))) body (λ '(t, u, limit, at_, room),
      answer 200 500 (enc (c_list c_ChatRoomSummary))
      (on_chat (dbman_ListMyRooms DBForTenant t u (clamp limit 200 50) at_ room))).

(** ** Routes *)

(* server/dbman/api/handler.go: registerDBRoutes *)
Definition registerDBRoutes (env : Env) : list (string * (string → handler Dbman)) := [
  ("/org-units/create", createOrgUnit env);
  ("/org-units/list", listOrgUnits);
  ("/users/create", createUser env);
  ("/users/status", updateUserStatus env);
  ("/users/search", searchUsers);
  ("/users/authenticate", authenticateUser);
  ("/users/aliases/list", listAliases);
  ("/users/aliases/add", addAlias env);
  ("/users/aliases/delete", deleteAlias env);
  ("/users/aliases/audit", listAliasAudit);
  ("/tenants/list", λ _, listTenants);
  ("/tenants/get", getTenant);
  ("/tenants/create", createTenant env);
  ("/tenants/update", updateTenant env);
  ("/files", createFile env);
  ("/rooms", createRoom env);
  ("/rooms/members", addMember env);
  ("/rooms/members/check", checkRoomMember);
  ("/messages", createMessage env);
  ("/messages/read", markReadUpTo env);
  ("/messages/list", listMessages);
  ("/messages/search", searchMessages);
  ("/messages/readers", messageReaders);
  ("/messages/last-read", lastReadMessage);
  ("/messages/unread-count", unreadCount);
  ("/messages/unread-counts", unreadCounts);
  ("/rooms/list", listMyRooms);
  ("/session/device/login", upsertDeviceSession env);
  ("/session/device/validate", validateSession env);
  ("/session/status/update", updateSessionUserStatus env);
  ("/session/notes/create", createSessionNote env);
  ("/session/notes/inbox", listSessionInbox);
  ("/session/notes/read", markSessionNoteRead);
  ("/session/chat/notify", saveSessionChatNotifications)
].

(** [readyCheck] is the check of main, when there is one. *)
Definition readiness (ready : string) (readyCheck : option (result unit)) : response json :=
  match readyCheck with
  | Some (Err e) => RJson 503 (JObj [("error", JStr e); ("status", JStr "not_ready")])
  | _ => RJson 200 (JObj [("status", JStr ready)])
  end.

(** The POST routes: the handler of a path under one of the two prefixes. *)
(* server/dbman/api/handler.go: RegisterRoutes *)
Definition route_post (env : Env) (path : string) : option (string → handler Dbman) :=
  match strip_prefix "/api/internal/v1/db" path with
  | Some p => find_route p (registerDBRoutes env)
  | None =>
      match strip_prefix "/api/v1/db" path with
      | Some p => find_route p (registerDBRoutes env)
      | None => None
      end
  end.

(** The GET routes. *)
(* server/dbman/api/handler.go: RegisterRoutes *)
Definition route_get (readyCheck : option (result unit)) (path : string) (rq : Request) : option (handler Dbman) :=
  if decide (path = "/health") then Some (λ s, (s, readiness "ok" readyCheck))
  else if decide (path = "/health/live") then Some (λ s, (s, RJson 200 (JObj [("status", JStr "ok")])))
  else if decide (path = "/health/ready") then Some (λ s, (s, readiness "ready" readyCheck))
  else if decide (path = "/api/internal/v1/db/files/search" ∨ path = "/api/v1/db/files/search")
  then Some (searchFilesByRoom rq)
  else None.

(** What a server on gin answers: what a handler did, a redirect to another path, without a body, or 404 as plain
    text. *)
Inductive reply := Answered (r : response json) | Redirected (status : Z) (location : string) | NoRoute.

Definition reply_status (r : reply) : Z :=
  match r with Answered r => status_of r | Redirected status _ => status | NoRoute => 404 end.
Definition reply_body (r : reply) : string :=
  match r with Answered r => body_of r | Redirected _ _ => "" | NoRoute => "404 page not found" end.

(** What the server makes of a POST.  Where there is no route, the engine of gin.Default redirects a path with a slash
    too many (RedirectTrailingSlash is on; the request has no X-Forwarded-Prefix header), and answers 404 to the others. *)
(* server/dbman/app/server.go: NewServer #55-57 *)
Definition serve_post (env : Env) (path body : string) : Dbman → Dbman * reply := λ w,
  match route_post env path with
  | Some h => let '(w', r) := h body w in (w', Answered r)
  | None =>
      let shorter := TrimSuffix path "/" in
      match route_post env shorter with
      | Some _ => (w, Redirected 307 shorter)
      | None => (w, NoRoute)
      end
  end.
End api.

(** * Lemmas *)

(** ** Operations that fail change nothing *)

Definition atomic {S A} (m : M S A) : Prop := ∀ s s' e, m s = (s', Err e) → s' = s.

Create HintDb atomic discriminated.

Ltac prove_atomic :=
  intros ? ? ?; cbv beta zeta;
  repeat (case_match; simplify_eq/=; try done; try congruence).

Lemma transaction_atomic {S A} (m : M S A) : atomic (transaction m).
Proof. intros s s' e. unfold transaction. destruct (m s) as [s1 [a|e1]]; congruence. Qed.

Section atomic_lemmas.
Context `{Postgres} {R : Type} (invalidate : string → R → R) (user_match : User → string → bool).
Variable DB : string → result unit.
Variables (generate : string → result string) (compare : string → string → result unit).

Lemma org_atomic {A} (m : M OrgDB A) : atomic m → atomic (on_org (R := R) m).
Proof.
  intros Hm s s' e. unfold on_org. destruct (m (db_org s)) as [d r] eqn:E. intros [= <- ->].
  apply Hm in E as ->. by destruct s.
Qed.

Lemma chat_atomic {A} (m : M ChatDB A) : atomic m → atomic (on_chat (R := R) m).
Proof.
  intros Hm. apply org_atomic. intros d d' e. destruct (m (o_chat d)) as [c r] eqn:E. intros [= <- ->].
  apply Hm in E as ->. by destruct d.
Qed.

Lemma files_atomic {A} (m : M FilesDB A) : atomic m → atomic (on_files (R := R) m).
Proof.
  intros Hm s s' e. unfold on_files. destruct (m _) as [d r] eqn:E. intros [= <- ->].
  apply Hm in E as ->. by destruct s as [[] ? ? ?].
Qed.

Lemma session_atomic {A} (m : M SessionDB A) : atomic m → atomic (on_session (R := R) m).
Proof.
  intros Hm s s' e. unfold on_session. destruct (m _) as [d r] eqn:E. intros [= <- ->].
  apply Hm in E as ->. by destruct s.
Qed.

Lemma tenants_atomic {A} (m : M (TenantService R TenantDB) A) : atomic m → atomic (on_tenants m).
Proof.
  intros Hm s s' e. unfold on_tenants. destruct (m _) as [d r] eqn:E. intros [= <- ->].
  apply Hm in E as ->. by destruct s.
Qed.

Lemma tenant_table_atomic {A} (m : M TenantDB A) : atomic m → atomic (on_tenant_table (R := R) m).
Proof.
  intros Hm. apply tenants_atomic. intros d d' e. destruct (m _) as [c r] eqn:E. intros [= <- ->].
  apply Hm in E as ->. by destruct d.
Qed.

Lemma write_then_invalidate_atomic (write : M TenantDB Tenant) :
  atomic write → atomic (write_then_invalidate invalidate write).
Proof.
  intros Hw s s' e. unfold write_then_invalidate. destruct (write _) as [d [t|e']] eqn:E; [done|].
  intros [= <- ->]. apply Hw in E as ->. by destruct s.
Qed.

Lemma create_room_atomic env t room ids : atomic (repo_CreateRoom DB env t room ids).
Proof. intros s s' e. unfold repo_CreateRoom. destruct (DB t); [|congruence]. apply transaction_atomic. Qed.

Lemma add_member_atomic env t r u : atomic (repo_AddMember DB env t r u).
Proof. unfold repo_AddMember, insert_member. prove_atomic. Qed.

Lemma is_member_atomic t r u : atomic (repo_IsRoomMember DB t r u).
Proof. unfold repo_IsRoomMember. prove_atomic. Qed.

Lemma create_message_atomic env m : atomic (repo_CreateMessage DB env m).
Proof. unfold repo_CreateMessage. prove_atomic. Qed.

Lemma mark_read_atomic env t r u id : atomic (repo_MarkReadUpTo DB env t r u id).
Proof. unfold repo_MarkReadUpTo. prove_atomic. Qed.

Lemma list_messages_atomic t r limit c : atomic (dbman_ListMessages DB t r limit c).
Proof. unfold dbman_ListMessages, repo_ListMessages. prove_atomic. Qed.

Lemma search_messages_atomic t q r limit c : atomic (dbman_SearchMessages DB t q r limit c).
Proof. unfold dbman_SearchMessages, repo_SearchMessages. prove_atomic. Qed.

Lemma list_rooms_atomic t u limit c r : atomic (dbman_ListMyRooms DB t u limit c r).
Proof. unfold dbman_ListMyRooms, repo_ListMyRooms. prove_atomic. Qed.

Lemma readers_atomic t r id : atomic (repo_GetMessageReaders DB t r id).
Proof. unfold repo_GetMessageReaders. prove_atomic. Qed.

Lemma last_read_atomic t r u : atomic (repo_GetLastReadMessageID DB t r u).
Proof. unfold repo_GetLastReadMessageID. prove_atomic. Qed.

Lemma unread_atomic t r u : atomic (repo_GetUnreadCount DB t r u).
Proof. unfold repo_GetUnreadCount. prove_atomic. Qed.

Lemma unreads_atomic t u : atomic (repo_GetUnreadCounts DB t u).
Proof. unfold repo_GetUnreadCounts. prove_atomic. Qed.

Lemma create_org_unit_atomic env t p n : atomic (repo_CreateOrgUnit DB env t p n).
Proof. unfold repo_CreateOrgUnit. prove_atomic. Qed.

Lemma list_org_units_atomic t : atomic (repo_ListOrgUnits DB t).
Proof. unfold repo_ListOrgUnits. prove_atomic. Qed.

Lemma create_user_atomic env t u : atomic (dbman_CreateUser DB generate env t u).
Proof. unfold dbman_CreateUser, repo_CreateUser. prove_atomic. Qed.

Lemma update_user_atomic env t u st note : atomic (repo_UpdateStatus DB env t u st note).
Proof. unfold repo_UpdateStatus. prove_atomic. Qed.

Lemma search_users_atomic t q limit : atomic (dbman_SearchUsers user_match DB t q limit).
Proof. unfold dbman_SearchUsers, repo_SearchUsers. prove_atomic. Qed.

Lemma by_email_atomic t e : atomic (repo_GetByEmail DB t e).
Proof. unfold repo_GetByEmail. prove_atomic. Qed.

Lemma authenticate_atomic t e p : atomic (dbman_Authenticate DB compare t e p).
Proof.
  intros d d' err. unfold dbman_Authenticate, repo_GetByEmail. destruct (DB t); [|congruence].
  repeat case_match; simplify_eq/=; congruence.
Qed.

Lemma list_aliases_atomic t u : atomic (repo_ListAliases DB t u).
Proof. unfold repo_ListAliases. prove_atomic. Qed.

Lemma add_alias_atomic env t u a ip ag : atomic (dbman_AddAlias DB env t u a ip ag).
Proof.
  intros d d' err. unfold dbman_AddAlias, repo_AddAlias. cbv zeta. repeat case_decide; try congruence.
  do 2 (case_match; [congruence|]). case_match; [apply transaction_atomic|congruence].
Qed.

Lemma delete_alias_atomic env t u a ip ag : atomic (dbman_DeleteAlias DB env t u a ip ag).
Proof.
  intros d d' err. unfold dbman_DeleteAlias, repo_DeleteAlias. cbv zeta. case_decide; [congruence|].
  case_match; [congruence|]. case_match; [apply transaction_atomic|congruence].
Qed.

Lemma list_audit_atomic t u limit from to_ action at_ id :
  atomic (dbman_ListAliasAudit DB t u limit from to_ action at_ id).
Proof. unfold dbman_ListAliasAudit, repo_ListAliasAudit. prove_atomic. Qed.

Lemma list_tenants_atomic : atomic repo_ListTenants.
Proof. done. Qed.

Lemma get_tenant_atomic t : atomic (repo_GetTenant t).
Proof. unfold repo_GetTenant. prove_atomic. Qed.

Lemma create_tenant_atomic env item : atomic (dbman_CreateTenant invalidate env item).
Proof.
  intros s s' e. unfold dbman_CreateTenant. cbv zeta. destruct (validateTenant _); [|congruence].
  apply write_then_invalidate_atomic. unfold repo_CreateTenant. prove_atomic.
Qed.

Lemma update_tenant_atomic env item : atomic (dbman_UpdateTenant invalidate env item).
Proof.
  intros s s' e. unfold dbman_UpdateTenant. cbv zeta. destruct (validateTenant _); [|congruence].
  apply write_then_invalidate_atomic. unfold repo_UpdateTenant. prove_atomic.
Qed.

Lemma create_file_atomic env item : atomic (repo_CreateFile DB env item).
Proof. unfold repo_CreateFile. prove_atomic. Qed.

Lemma files_by_room_atomic t r limit : atomic (repo_SearchByRoom DB t r limit).
Proof. unfold repo_SearchByRoom. prove_atomic. Qed.

Lemma upsert_device_atomic env sess : atomic (repo_UpsertDeviceSession DB env sess).
Proof. unfold repo_UpsertDeviceSession. prove_atomic. Qed.

Lemma validate_session_atomic env t u sid tok : atomic (repo_ValidateAndTouchSession DB env t u sid tok).
Proof. unfold repo_ValidateAndTouchSession. prove_atomic. Qed.

Lemma session_status_atomic env st : atomic (repo_UpdateUserStatus DB env st).
Proof. unfold repo_UpdateUserStatus. prove_atomic. Qed.

Lemma create_note_atomic env note : atomic (repo_CreateNote DB env note).
Proof.
  intros d d' e. unfold repo_CreateNote. destruct (DB _); [|congruence]. case_decide; [congruence|].
  apply transaction_atomic.
Qed.

Lemma list_inbox_atomic t u limit : atomic (repo_ListInbox DB t u limit).
Proof. unfold repo_ListInbox. prove_atomic. Qed.

Lemma mark_note_atomic t u id : atomic (repo_MarkNoteRead DB t u id).
Proof. unfold repo_MarkNoteRead. prove_atomic. Qed.

Lemma save_notifications_atomic t u input : atomic (repo_SaveChatNotifications DB t u input).
Proof.
  intros d d' e. unfold repo_SaveChatNotifications. case_decide; [congruence|].
  destruct (DB t); [apply transaction_atomic|congruence].
Qed.
End atomic_lemmas.

#[export] Hint Resolve org_atomic chat_atomic files_atomic session_atomic tenants_atomic tenant_table_atomic
  create_room_atomic add_member_atomic is_member_atomic create_message_atomic mark_read_atomic
  list_messages_atomic search_messages_atomic list_rooms_atomic readers_atomic last_read_atomic
  unread_atomic unreads_atomic create_org_unit_atomic list_org_units_atomic create_user_atomic
  update_user_atomic search_users_atomic authenticate_atomic list_aliases_atomic add_alias_atomic
  delete_alias_atomic list_audit_atomic list_tenants_atomic get_tenant_atomic create_tenant_atomic
  update_tenant_atomic create_file_atomic files_by_room_atomic upsert_device_atomic
  validate_session_atomic session_status_atomic create_note_atomic list_inbox_atomic mark_note_atomic
  save_notifications_atomic : atomic.

(** ** What every handler answers *)

(** A value with 200 or 201; or an error with 400, 401, 404 or 500, and then nothing happened. *)
Definition well_behaved {S} (h : handler S) : Prop := ∀ s,
  match h s with
  | (_, RJson status _) => status ∈ [200; 201]%Z
  | (s', RError status _) => status ∈ [400; 401; 404; 500]%Z ∧ s' = s
  end.

Lemma answer_well_behaved {S A} ok failed (enc : A → json) (m : M S A) :
  atomic m → ok ∈ [200; 201]%Z → failed ∈ [400; 401; 404; 500]%Z → well_behaved (answer ok failed enc m).
Proof.
  intros Hm Hok Hf s. unfold answer. destruct (m s) as [s' [a|e]] eqn:E; [done|]. split; [done|]. by eapply Hm.
Qed.

Lemma refuse_well_behaved {S} status message :
  status ∈ [400; 401; 404; 500]%Z → well_behaved (refuse (S := S) status message).
Proof. intros Hs s. by split. Qed.

Section handlers.
Context `{Gin}.

Lemma with_body_well_behaved {S R} (bind : json → option R) body (k : R → handler S) :
  (∀ r, well_behaved (k r)) → well_behaved (with_body bind body k).
Proof.
  intros Hk s. unfold with_body. destruct (ShouldBindJSON bind body) as [r|e]; [apply Hk|].
  split; [set_solver|done].
Qed.
End handlers.

Ltac solve_handler :=
  repeat first
    [ match goal with |- ∀ _, _ => intros ? end
    | case_match
    | apply with_body_well_behaved
    | apply refuse_well_behaved; set_solver
    | apply answer_well_behaved; [eauto with atomic|set_solver|set_solver] ].

Section served.
Context `{Postgres} `{Gin} {R : Type} (invalidate : string → R → R) (user_match : User → string → bool).
Variable DB : string → result unit.
Variables (generate : string → result string) (compare : string → string → result unit).

Lemma authenticate_well_behaved body : well_behaved (authenticateUser (R := R) DB compare body).
Proof.
  apply with_body_well_behaved. intros [[t e] p] s.
  pose proof (org_atomic (R := R) _ (authenticate_atomic DB compare t e p)) as Ha.
  destruct (on_org _ s) as [s' [u|err]] eqn:E; [set_solver|]. split; [set_solver|]. by eapply Ha.
Qed.

Lemma route_well_behaved env h body :
  h ∈ (registerDBRoutes invalidate user_match DB generate compare env).*2 → well_behaved (h body).
Proof.
  unfold registerDBRoutes. cbn [fmap list_fmap snd].
  rewrite !elem_of_cons, elem_of_nil. intros Hh.
  repeat (destruct Hh as [->|Hh]; [first [apply authenticate_well_behaved | solve_handler]|]); done.
Qed.
End served.
