(* ===== verification/DbmanInv.v ===== *)
(** * The tables behind dbman, as a whole

    One invariant of all the tables dbman serves: the invariants of the chat, organisation, session
    and tenant tables of their own files, and that files belong to rooms and users that exist.
    Every route keeps it, whatever the body. *)

From S2P Require Import Prelude GoStrings GoEncoding Cursor Env Auth SessionStore Paging ChatStore GoJson GoTime.
From S2P Require Import JsonText ChatService Users Tenants FileStore Wire Gin DbmanApi.

(** ** Operations that keep an invariant *)

Definition keeps {S B} (I : S → Prop) (m : S → S * B) : Prop := ∀ s, I s → I (m s).1.

(** Operations that only read. *)
Definition reads_only {S B} (m : S → S * B) : Prop := ∀ s, (m s).1 = s.

Lemma reads_keep {S B} (I : S → Prop) (m : S → S * B) : reads_only m → keeps I m.
Proof. intros Hm s Hs. by rewrite Hm. Qed.

Create HintDb keeps discriminated.

(** The tables an operation on the chat tables may not lose: users and aliases stay, rooms are added. *)
Definition chat_ext (d d' : ChatDB) : Prop :=
  users d' = users d ∧ user_aliases d' = user_aliases d
  ∧ ∀ id, is_Some (chat_rooms d !! id) → is_Some (chat_rooms d' !! id).

#[export] Instance chat_ext_preorder : PreOrder chat_ext.
Proof.
  split; [by intros d; repeat split|]. intros d1 d2 d3 (A1 & A2 & A3) (B1 & B2 & B3).
  split_and!; [congruence..|]. intros id Hid. by apply B3, A3.
Qed.

(** And an operation on the organisation's: rooms stay, users are added. *)
Definition org_ext (d d' : OrgDB) : Prop :=
  chat_rooms (o_chat d') = chat_rooms (o_chat d)
  ∧ ∀ id, is_Some (users (o_chat d) !! id) → is_Some (users (o_chat d') !! id).

Definition extends {S B} (ext : S → S → Prop) (m : S → S * B) : Prop := ∀ s, ext s (m s).1.

Lemma insert_is_Some {A} (m : gmap string A) k v id : is_Some (m !! id) → is_Some (<[k := v]> m !! id).
Proof. intros Hid. apply lookup_insert_is_Some. destruct (decide (k = id)); auto. Qed.

Section extensions.
Context `{Postgres}.
Variable DB : string → result unit.
Variable generate : string → result string.

Lemma insert_member_ext env t r u : extends chat_ext (insert_member env t r u).
Proof. intros d. unfold insert_member. by repeat case_match. Qed.

Lemma insert_room_ext env t room : extends chat_ext (insert_room env t room).
Proof.
  intros d. unfold insert_room. repeat case_match; try done. repeat split. intros id. apply insert_is_Some.
Qed.

Lemma transaction_ext {S B} (ext : S → S → Prop) `{!PreOrder ext} (m : M S B) :
  extends ext m → extends ext (transaction m).
Proof.
  intros Hm s. unfold transaction. specialize (Hm s). destruct (m s) as [s' [b|e]]; [exact Hm|]. cbn. reflexivity.
Qed.

Lemma create_room_ext env t room ids : extends chat_ext (repo_CreateRoom DB env t room ids).
Proof.
  intros d. unfold repo_CreateRoom. destruct (DB t); [|done]. revert d. apply (transaction_ext chat_ext). intros d.
  pose proof (insert_room_ext env t room d) as H1. destruct (insert_room env t room d) as [d1 [id|e]]; [|exact H1].
  cbn [fst] in H1.
  pose proof (for_each_inv (chat_ext d) (insert_member env t id) ids d1) as H2.
  destruct (for_each _ ids d1) as [d2 [[]|e]]; cbn [fst] in H2;
    (assert (Hd2 : chat_ext d d2) by (apply H2; [|exact H1]; intros u s _ Hs; etrans; [exact Hs|apply insert_member_ext]));
    [|exact Hd2].
  pose proof (insert_member_ext env t id (CreatedBy room) d2) as H3.
  destruct (insert_member env t id _ d2) as [d3 [[]|e]]; (etrans; [exact Hd2|exact H3]).
Qed.

Lemma add_member_ext env t r u : extends chat_ext (repo_AddMember DB env t r u).
Proof. intros d. unfold repo_AddMember. destruct (DB t); [apply insert_member_ext|done]. Qed.

Lemma create_message_ext env m : extends chat_ext (repo_CreateMessage DB env m).
Proof. intros d. unfold repo_CreateMessage. by repeat case_match. Qed.

Lemma mark_read_ext env t r u id : extends chat_ext (repo_MarkReadUpTo DB env t r u id).
Proof. intros d. unfold repo_MarkReadUpTo. cbv zeta. by repeat case_match. Qed.

Lemma run_org_call_ext c d : org_ext d (run_org_call DB generate c d).
Proof.
  assert (Haudit : ∀ env t u a action ip ua als d d', insert_audit env t u a action ip ua (set_user_aliases als d) = (d', Ok tt) →
    org_ext d d').
  { intros env t u a action ip ua als d0 d' Hi. unfold insert_audit in Hi. case_decide as Hn; [done|].
    by injection Hi as <-. }
  destruct c; cbn [run_org_call].
  - unfold repo_CreateOrgUnit. by repeat case_match.
  - unfold dbman_CreateUser, repo_CreateUser. repeat case_match; try done; split; try done; intros id; apply insert_is_Some.
  - unfold repo_UpdateStatus. repeat case_match; try done. split; [done|]. intros id. apply insert_is_Some.
  - unfold dbman_AddAlias, repo_AddAlias. cbv zeta. case_decide as Hd; [done|]. do 2 (case_match; [done|]).
    destruct (DB _); [|done].
    match goal with |- org_ext d (transaction ?m d).1 =>
      destruct (transaction_spec m d) as [(d2 & [] & Hm & ->)|(e & ->)] end; [|done].
    revert Hm. repeat case_match; try done; [by intros [= <-]|]. apply Haudit.
  - unfold dbman_DeleteAlias, repo_DeleteAlias. cbv zeta. case_decide as Hd; [done|]. case_match; [done|].
    destruct (DB _); [|done].
    match goal with |- org_ext d (transaction ?m d).1 =>
      destruct (transaction_spec m d) as [(d2 & [] & Hm & ->)|(e & ->)] end; [|done].
    revert Hm. repeat case_match; try done; [|by intros [= <-]]. apply Haudit.
Qed.
End extensions.

(** ** The invariant *)
Section invariant.
Context `{Postgres} `{Gin} {R : Type} (invalidate : string → R → R) (user_match : User → string → bool).
Variable DB : string → result unit.
Variables (generate : string → result string) (compare : string → string → result unit).
Notation Dbman := (Dbman (R := R)).

Record dbman_inv (w : Dbman) : Prop := mkDbmanInv {
  dv_org : org_inv (db_org w);
  dv_files : files_inv (mkFilesDB (o_chat (db_org w)) (db_files w));
  dv_session : db_inv (db_session w);
  dv_tenants : tenants_ok (t_store (db_tenants w));
}.

Lemma files_inv_ext chat chat' fs :
  (∀ id, is_Some (chat_rooms chat !! id) → is_Some (chat_rooms chat' !! id)) →
  (∀ id, is_Some (users chat !! id) → is_Some (users chat' !! id)) →
  files_inv (mkFilesDB chat fs) → files_inv (mkFilesDB chat' fs).
Proof.
  intros Hr Hu [Hids Hfk]. split; [done|]. cbn in *. eapply Forall_impl; [exact Hfk|]. cbn. intros f [Ha Hb]. auto.
Qed.

Lemma org_keeps {A} (m : M OrgDB A) : keeps org_inv m → extends org_ext m → keeps dbman_inv (on_org m).
Proof.
  intros Hm Hext w [Ho Hf Hs Ht]. unfold on_org. specialize (Hm _ Ho). specialize (Hext (db_org w)).
  destruct (m (db_org w)) as [d r]. cbn [fst] in *. split; try done. cbn.
  destruct Hext as [Hrooms Husers]. eapply files_inv_ext; [|exact Husers|exact Hf]. intros id. by rewrite Hrooms.
Qed.

Lemma chat_keeps {A} (m : M ChatDB A) : keeps chat_inv m → extends chat_ext m → keeps dbman_inv (on_chat m).
Proof.
  intros Hm Hext w [Ho Hf Hs Ht]. unfold on_chat, on_org. destruct Ho as [H1 H2 H3 H4 H5 H6 H7].
  specialize (Hm _ H1). specialize (Hext (o_chat (db_org w))).
  destruct (m (o_chat (db_org w))) as [c r]. cbn [fst] in *. destruct Hext as (Hu & Ha & Hr).
  split; try done; cbn; [|eapply files_inv_ext; [exact Hr| |exact Hf]; by rewrite Hu].
  split; try done; cbn; rewrite ?Hu, ?Ha; try done.
Qed.

Lemma session_keeps {A} (m : M SessionDB A) : keeps db_inv m → keeps dbman_inv (on_session m).
Proof.
  intros Hm w [Ho Hf Hs Ht]. unfold on_session. specialize (Hm _ Hs). destruct (m _) as [d r]. by split.
Qed.

Lemma tenants_keeps {A} (m : M (TenantService R TenantDB) A) :
  keeps (λ s, tenants_ok (t_store s)) m → keeps dbman_inv (on_tenants m).
Proof.
  intros Hm w [Ho Hf Hs Ht]. unfold on_tenants. specialize (Hm _ Ht). destruct (m _) as [d r]. by split.
Qed.

Lemma files_keeps env item : keeps dbman_inv (on_files (R := R) (repo_CreateFile DB env item)).
Proof.
  intros w [Ho Hf Hs Ht]. unfold on_files. pose proof (create_file_inv DB env item _ Hf) as Hc.
  assert (f_chat (repo_CreateFile DB env item (mkFilesDB (o_chat (db_org w)) (db_files w))).1 = o_chat (db_org w)) as Hchat
    by (unfold repo_CreateFile; by repeat case_match).
  destruct (repo_CreateFile _ _ _ _) as [d r]. cbn [fst] in *. split; cbn; try done.
  - rewrite Hchat. by destruct (db_org w).
  - by destruct d.
Qed.

Lemma reads_on_org {A} (m : M OrgDB A) : reads_only m → reads_only (on_org (R := R) m).
Proof. intros Hm w. unfold on_org. specialize (Hm (db_org w)). destruct (m _) as [d r]. cbn in *. subst d. by destruct w. Qed.

Lemma reads_on_chat {A} (m : M ChatDB A) : reads_only m → reads_only (on_chat (R := R) m).
Proof.
  intros Hm. apply reads_on_org. intros d. specialize (Hm (o_chat d)). destruct (m _) as [c r]. cbn in *. subst c. by destruct d.
Qed.

Lemma reads_on_files {A} (m : M FilesDB A) : reads_only m → reads_only (on_files (R := R) m).
Proof.
  intros Hm w. unfold on_files. specialize (Hm (mkFilesDB (o_chat (db_org w)) (db_files w))). destruct (m _) as [d r].
  cbn in *. subst d. by destruct w as [[] ? ? ?].
Qed.

Lemma reads_on_session {A} (m : M SessionDB A) : reads_only m → reads_only (on_session (R := R) m).
Proof. intros Hm w. unfold on_session. specialize (Hm (db_session w)). destruct (m _) as [d r]. cbn in *. subst d. by destruct w. Qed.

Lemma reads_on_tenants {A} (m : M TenantDB A) : reads_only m → reads_only (on_tenant_table (R := R) m).
Proof.
  intros Hm w. unfold on_tenant_table, on_tenants. specialize (Hm (t_store (db_tenants w))). destruct (m _) as [d r].
  cbn in *. subst d. by destruct w as [? ? ? []].
Qed.

(** ** Handlers *)

Lemma answer_keeps {A} ok failed (enc : A → json) (m : M Dbman A) :
  keeps dbman_inv m → keeps dbman_inv (answer ok failed enc m).
Proof. intros Hm w Hw. unfold answer. specialize (Hm w Hw). by destruct (m w) as [w' [a|e]]. Qed.

Lemma with_body_keeps {T} (bind : json → option T) body (k : T → handler Dbman) :
  (∀ r, keeps dbman_inv (k r)) → keeps dbman_inv (with_body bind body k).
Proof. intros Hk w Hw. unfold with_body. destruct (ShouldBindJSON bind body) as [r|e]; [by apply Hk|done]. Qed.

Lemma refuse_keeps status message : keeps dbman_inv (refuse status message).
Proof. by intros w. Qed.

(** The writes, by table. *)
Lemma create_room_keeps env t room ids : keeps dbman_inv (on_chat (repo_CreateRoom DB env t room ids)).
Proof. apply chat_keeps; [intros d; apply create_room_inv|apply create_room_ext]. Qed.
Lemma add_member_keeps env t r u : keeps dbman_inv (on_chat (repo_AddMember DB env t r u)).
Proof.
  apply chat_keeps; [|apply add_member_ext]. intros d Hd. unfold repo_AddMember.
  destruct (DB t); [by apply insert_member_inv|done].
Qed.
Lemma create_message_keeps env m : keeps dbman_inv (on_chat (repo_CreateMessage DB env m)).
Proof. apply chat_keeps; [intros d; apply create_message_inv|apply create_message_ext]. Qed.
Lemma mark_read_keeps env t r u id : keeps dbman_inv (on_chat (repo_MarkReadUpTo DB env t r u id)).
Proof. apply chat_keeps; [intros d; apply mark_read_up_to_inv|apply mark_read_ext]. Qed.

Lemma org_call_keeps {A} (m : M OrgDB A) c :
  (∀ d, (m d).1 = run_org_call DB generate c d) → keeps dbman_inv (on_org m).
Proof.
  intros Hm. apply org_keeps.
  - intros d Hd. rewrite Hm. by apply run_org_call_inv.
  - intros d. rewrite Hm. apply run_org_call_ext.
Qed.
Lemma create_org_unit_keeps env t p n : keeps dbman_inv (on_org (repo_CreateOrgUnit DB env t p n)).
Proof. by apply (org_call_keeps _ (CallCreateOrgUnit env t p n)). Qed.
Lemma create_user_keeps env t u : keeps dbman_inv (on_org (dbman_CreateUser DB generate env t u)).
Proof. by apply (org_call_keeps _ (CallCreateUser env t u)). Qed.
Lemma update_user_keeps env t u s n : keeps dbman_inv (on_org (repo_UpdateStatus DB env t u s n)).
Proof. by apply (org_call_keeps _ (CallUpdateStatus env t u s n)). Qed.
Lemma add_alias_keeps env t u a ip ag : keeps dbman_inv (on_org (dbman_AddAlias DB env t u a ip ag)).
Proof. by apply (org_call_keeps _ (CallAddAlias env t u a ip ag)). Qed.
Lemma delete_alias_keeps env t u a ip ag : keeps dbman_inv (on_org (dbman_DeleteAlias DB env t u a ip ag)).
Proof. by apply (org_call_keeps _ (CallDeleteAlias env t u a ip ag)). Qed.

Lemma upsert_device_keeps env x : keeps dbman_inv (on_session (repo_UpsertDeviceSession DB env x)).
Proof. apply session_keeps. intros d. apply upsert_device_inv. Qed.
Lemma validate_keeps env t u i k : keeps dbman_inv (on_session (repo_ValidateAndTouchSession DB env t u i k)).
Proof. apply session_keeps. intros d. apply validate_touch_inv. Qed.
Lemma session_status_keeps env x : keeps dbman_inv (on_session (repo_UpdateUserStatus DB env x)).
Proof. apply session_keeps. intros d. apply update_status_inv. Qed.
Lemma create_note_keeps env x : keeps dbman_inv (on_session (repo_CreateNote DB env x)).
Proof. apply session_keeps. intros d. apply create_note_inv. Qed.
Lemma mark_note_keeps t u i : keeps dbman_inv (on_session (repo_MarkNoteRead DB t u i)).
Proof. apply session_keeps. intros d. apply mark_read_inv. Qed.
Lemma save_notifications_keeps t u x : keeps dbman_inv (on_session (repo_SaveChatNotifications DB t u x)).
Proof. apply session_keeps. intros d. apply save_notifications_inv. Qed.

Lemma create_tenant_keeps env x : keeps dbman_inv (on_tenants (dbman_CreateTenant invalidate env x)).
Proof. apply tenants_keeps. intros s. apply (run_tenant_call_ok invalidate (CallCreateTenant env x)). Qed.
Lemma update_tenant_keeps env x : keeps dbman_inv (on_tenants (dbman_UpdateTenant invalidate env x)).
Proof. apply tenants_keeps. intros s. apply (run_tenant_call_ok invalidate (CallUpdateTenant env x)). Qed.
End invariant.

#[export] Hint Resolve files_keeps create_room_keeps add_member_keeps create_message_keeps mark_read_keeps
  create_org_unit_keeps create_user_keeps update_user_keeps add_alias_keeps delete_alias_keeps upsert_device_keeps
  validate_keeps session_status_keeps create_note_keeps mark_note_keeps save_notifications_keeps create_tenant_keeps
  update_tenant_keeps : keeps.

(** An operation that only reads: by cases on what it looks at. *)
Ltac solve_reads :=
  apply reads_keep;
  first [apply reads_on_chat | apply reads_on_org | apply reads_on_files | apply reads_on_session | apply reads_on_tenants];
  intros ?;
  repeat match goal with
  | |- (match ?x with Ok _ => _ | Err _ => _ end _).1 = _ => destruct x
  end;
  unfold repo_ListOrgUnits, dbman_SearchUsers, repo_SearchUsers, repo_ListAliases, dbman_ListAliasAudit,
    repo_ListAliasAudit, repo_ListTenants, repo_GetTenant, dbman_SearchMessages, repo_SearchMessages,
    repo_IsRoomMember, dbman_ListMessages, repo_ListMessages, repo_GetMessageReaders, repo_GetLastReadMessageID,
    repo_GetUnreadCount, repo_GetUnreadCounts, dbman_ListMyRooms, repo_ListMyRooms, repo_ListInbox;
  cbv zeta; repeat case_match; done.

Ltac solve_keeps :=
  repeat first
    [ match goal with |- ∀ _, _ => intros ? end
    | case_match
    | apply with_body_keeps
    | apply refuse_keeps
    | apply answer_keeps; first [solve [eauto with keeps] | solve_reads] ].

Section served.
Context `{Postgres} `{Gin} {R : Type} (invalidate : string → R → R) (user_match : User → string → bool).
Variable DB : string → result unit.
Variables (generate : string → result string) (compare : string → string → result unit).

Lemma authenticate_keeps body : keeps dbman_inv (authenticateUser (R := R) DB compare body).
Proof.
  apply with_body_keeps. intros [[t e] p] w Hw.
  assert (reads_only (dbman_Authenticate DB compare t e p)) as Hr.
  { intros d. unfold dbman_Authenticate, repo_GetByEmail. by repeat case_match; simplify_eq/=. }
  pose proof (reads_on_org (R := R) _ Hr w) as Hs. by destruct (on_org _ w) as [w' [u|err]]; cbn in Hs; subst w'.
Qed.

Lemma route_keeps env h body :
  h ∈ (registerDBRoutes invalidate user_match DB generate compare env).*2 → keeps dbman_inv (h body).
Proof.
  unfold registerDBRoutes. cbn [fmap list_fmap snd].
  rewrite !elem_of_cons, elem_of_nil. intros Hh.
  repeat (destruct Hh as [->|Hh]; [first [apply authenticate_keeps | solve_keeps]|]); done.
Qed.
End served.

(** * Properties *)
Section properties.
Context `{Postgres} `{Gin} {R : Type} (invalidate : string → R → R) (user_match : User → string → bool).
Variable DB : string → result unit.
Variables (generate : string → result string) (compare : string → string → result unit).
Notation Dbman := (Dbman (R := R)).
Notation serve := (serve_post invalidate user_match DB generate compare).

Lemma route_post_listed env path h :
  route_post invalidate user_match DB generate compare env path = Some h →
  h ∈ (registerDBRoutes invalidate user_match DB generate compare env).*2.
Proof.
  unfold route_post. case_match; [apply find_route_in|]. case_match; [apply find_route_in|done].
Qed.

Lemma serve_keeps env path body : keeps dbman_inv (serve env path body).
Proof.
  intros w Hw. unfold serve_post. destruct (route_post _ _ _ _ _ env path) as [h|] eqn:E.
  - pose proof (route_keeps invalidate user_match DB generate compare env h body (route_post_listed env path h E) w Hw) as Hk.
    by destruct (h body w).
  - by destruct (route_post _ _ _ _ _ env (TrimSuffix path "/")).
Qed.

(** POST requests, one after the other. *)
Definition serve_all (rqs : list (Env * string * string)) (w : Dbman) : Dbman :=
  foldl (λ w rq, (serve rq.1.1 rq.1.2 rq.2 w).1) w rqs.

(** C10: dbman's tables stay well-formed.  Whatever bodies are posted to whatever paths, at whatever
    moments and with whatever identifiers, tables that are well-formed stay so: unique keys, rows that
    refer to rooms, users, units, notes and messages that exist, aliases that are what the audit
    says, tenants that pass validation, files of existing rooms and users. *)
Theorem dbman_tables_well_formed (rqs : list (Env * string * string)) (w : Dbman) :
  dbman_inv w → dbman_inv (serve_all rqs w).
Proof. revert w. induction rqs as [|rq rqs IH]; intros w Hw; [done|]. cbn. by apply IH, serve_keeps. Qed.



(** C38: What dbman answers to a POST.  Every POST, whatever its path and body, is answered by the handler of the route
    with that path, with 200 or 201 and a value, or with an error and 400, 401, 404 or 500; or, where there is no such
    route, with a redirect (307) to a registered path that lacks the final slash of the one requested, or with 404.  And
    unless it is a value, nothing was stored.  (The database fails as the model's does: a tenant's database that
    cannot be reached, constraints, and rows that are not there.  Every operation writes in a single statement or in one
    transaction; a commit whose outcome gets lost is not modelled.) *)
Theorem dbman_errors_store_nothing (env : Env) (path body : string) (w : Dbman) :
  let registered p := is_Some (route_post invalidate user_match DB generate compare env p) in
  match serve env path body w with
  | (_, Answered (RJson status _)) => registered path ∧ status ∈ [200; 201]%Z
  | (w', Answered (RError status _)) => registered path ∧ status ∈ [400; 401; 404; 500]%Z ∧ w' = w
  | (w', Redirected status location) =>
      ¬ registered path ∧ registered location ∧ path = location +:+ "/" ∧ status = 307%Z ∧ w' = w
  | (w', NoRoute) => w' = w ∧ ∀ p, p = path ∨ p +:+ "/" = path → ¬ registered p
  end.
Proof.
  unfold serve_post. destruct (route_post _ _ _ _ _ env path) as [h|] eqn:E.
  - pose proof (route_well_behaved invalidate user_match DB generate compare env h body (route_post_listed env path h E) w) as Hw.
    unfold well_behaved in Hw. by destruct (h body w) as [w' [status e|status v]]; (split; [by eexists|]).
  - cbv zeta. assert (∀ p, route_post invalidate user_match DB generate compare env p = None →
      ¬ is_Some (route_post invalidate user_match DB generate compare env p)) as Hnone by (intros p Hp [? Hs]; congruence). destruct (route_post _ _ _ _ _ env (TrimSuffix path "/")) as [h|] eqn:E'.
    + split_and!; [by intros [? [=]]|by eexists| |done..].
      destruct (TrimSuffix_cases path "/") as [Heq|Heq]; [congruence|done].
    + split; [done|]. intros p [->|<-]; apply Hnone; [done|]. by rewrite TrimSuffix_app in E'.
Qed.
End properties.

(** * A concrete run *)

#[local] Existing Instance demo_pg.
#[local] Instance demo_gin : Gin := {| bind_error _ := "EOF"; required_struct := true |}.

Definition demo_dbman : Dbman (R := unit) :=
  mkDbman demo_org [] (mkSessionDB {["a"]} ∅ ∅ ∅ [] [] []) (mkTenantService ∅ []).

Lemma demo_dbman_inv : dbman_inv demo_dbman.
Proof.
  split; cbn.
  - apply demo_org_inv.
  - split; constructor.
  - split; cbn; intros *; rewrite ?lookup_empty; try done. constructor.
  - by intros id t; rewrite lookup_empty.
Qed.

(** A unit is created under the head office; a unit under an unknown parent is refused. *)
Lemma dbman_tables_well_formed_witness :
  let w := serve_all (λ _, id) (λ _ _, true) (λ _, Ok tt) Ok (λ _ _, Ok tt)
    [(mkEnv 5 "o2", "/api/v1/db/org-units/create", marshal_json (JObj [("tenant_id", JStr "a"); ("parent_id", JStr "o1"); ("name", JStr "lab")]));
     (mkEnv 6 "o3", "/api/v1/db/org-units/create", marshal_json (JObj [("tenant_id", JStr "a"); ("parent_id", JStr "o9"); ("name", JStr "lab")]))] demo_dbman in
  dbman_inv w ∧ ou_ID <$> org_units (db_org w) = ["o1"; "o2"].
Proof.
  split; [|vm_compute; reflexivity].
  apply (dbman_tables_well_formed (λ _, id) (λ _ _, true) (λ _, Ok tt) Ok (λ _ _, Ok tt)), demo_dbman_inv.
Defined.
