(* ===== verification/Rpc.v ===== *)
(** * Calls over the network

    A service's call to dbman: the payload is marshalled, [Post] sends it to the endpoints in
    turn, a dbman behind each of them runs its handler on the shared tables, and the answer is
    read back.  [EndpointClient] has the breaker and the order of the attempts against a network
    that only answers; here the network acts: what an attempt did to the tables stays done, also
    when its answer is lost. *)

From S2P Require Import Prelude GoStrings GoEncoding Cursor EndpointClient Env Auth SessionStore Paging ChatStore.
From S2P Require Import GoJson GoTime JsonText ChatService Users Tenants FileStore Wire Gin DbmanApi.

(** ** Post against a network with a state *)

Section post_world.
Context {A W : Type}.
(** The readings of the clock around an attempt, and what it does and meets. *)
Variables (clock : nat → time * time) (act : nat → string → string → string → W → W * outcome A).

Fixpoint world_loop (fuel offset : nat) (start : Z) (path body : string)
    (lastErr : option string) (c : Client) (w : W) : (Client * W) * result A :=
  match fuel with
  | O => ((c, w), Err (default "dbman request failed" lastErr))
  | S fuel' =>
      let endpoint := endpoint_at (endpoints c) start offset in
      let continue_with := world_loop fuel' (S offset) start path body in
      let '(c, cooling) := isCoolingDown endpoint (clock offset).1 c in
      if cooling then continue_with lastErr c w
      else
        let '(w, met) := act offset endpoint path body w in
        let failed e c := continue_with (Some e) (onFailure endpoint (clock offset).2 c) w in
        match met with
        | ReqErr e => failed e c
        | DoErr e => failed ("dbman request failed endpoint=" +:+ endpoint +:+ ": " +:+ e) c
        | Response status decoded =>
            let status_error := "dbman status " +:+ FormatInt status +:+ " endpoint=" +:+ endpoint in
            if (500 <=? status)%Z then failed status_error c
            else if (300 <=? status)%Z then ((c, w), Err status_error)
            else match decoded with
                 | Err e => ((onFailure endpoint (clock offset).2 c, w), Err e)
                 | Ok out => ((onSuccess endpoint c, w), Ok out)
                 end
        end
  end.

Definition post_world (path body : string) (c : Client) (w : W) : (Client * W) * result A :=
  match endpoints c with
  | [] => ((c, w), Err "dbman endpoint is not configured")
  | _ =>
      let n := length (endpoints c) in
      let new := wrap32u (next c + 1) in
      let start := (wrap32u (new - 1) mod Z.of_nat n)%Z in
      world_loop n 0 start (normalizePath path) body None (set_next new c) w
  end.

Lemma post_world_loop path body c w :
  endpoints c ≠ [] →
  post_world path body c w
  = world_loop (length (endpoints c)) 0 (wrap32u (wrap32u (next c + 1) - 1) mod Z.of_nat (length (endpoints c)))%Z
      (normalizePath path) body None (set_next (wrap32u (next c + 1)) c) w.
Proof. unfold post_world. by destruct (endpoints c). Qed.

(** Seen from the client this is [Post]: there is a network of answers it cannot tell apart. *)
Lemma world_loop_answers fuel off start path body lastErr c w :
  ∃ answers : nat → outcome A,
    post_loop (λ k _ _, mkAttempt (clock k).1 (answers k) (clock k).2) fuel off start path body lastErr c
    = ((world_loop fuel off start path body lastErr c w).1.1, (world_loop fuel off start path body lastErr c w).2).
Proof.
  revert off lastErr c w. induction fuel as [|fuel IH]; intros off lastErr c w.
  { exists (λ _, ReqErr ""). done. }
  assert (Hext : ∀ fuel f g off lastErr c, (∀ k, off ≤ k → f k = g k) →
    post_loop (A := A) (λ k _ _, mkAttempt (clock k).1 (f k) (clock k).2) fuel off start path body lastErr c
    = post_loop (λ k _ _, mkAttempt (clock k).1 (g k) (clock k).2) fuel off start path body lastErr c).
  { clear. intros fuel f g. induction fuel as [|fuel IH]; intros off lastErr c Hfg; [done|].
    rewrite !post_loop_S. cbv zeta. cbn [checked_at met ended_at]. rewrite (Hfg off) by lia.
    repeat case_match; try done; apply IH; intros; apply Hfg; lia. }
  cbn [world_loop]. set (e := endpoint_at _ _ _).
  destruct (isCoolingDown e (clock off).1 c) as [c1 cooling] eqn:Ecool. destruct cooling.
  { destruct (IH (S off) lastErr c1 w) as [f Hf]. exists f.
    rewrite post_loop_S. cbv zeta. cbn [checked_at]. fold e. rewrite Ecool. exact Hf. }
  destruct (act off e path body w) as [w1 out] eqn:Eact.
  assert (Hone : ∀ (rest : option string * Client) , ∃ f, f off = out ∧
    post_loop (λ k _ _, mkAttempt (clock k).1 (f k) (clock k).2) fuel (S off) start path body rest.1 rest.2
    = ((world_loop fuel (S off) start path body rest.1 rest.2 w1).1.1,
       (world_loop fuel (S off) start path body rest.1 rest.2 w1).2)).
  { intros [l c2]. destruct (IH (S off) l c2 w1) as [f Hf].
    exists (λ k, if Nat.eqb k off then out else f k). rewrite Nat.eqb_refl. split; [done|].
    cbn [fst snd]. rewrite <-Hf. apply Hext. intros k Hk. by rewrite (proj2 (Nat.eqb_neq k off)) by lia. }
  set (next_state := match out with
    | ReqErr e' => (Some e', onFailure e (clock off).2 c1)
    | DoErr e' => (Some ("dbman request failed endpoint=" +:+ e +:+ ": " +:+ e'), onFailure e (clock off).2 c1)
    | Response status _ => (Some ("dbman status " +:+ FormatInt status +:+ " endpoint=" +:+ e), onFailure e (clock off).2 c1)
    end).
  destruct (Hone next_state) as (f & Hf & Hrest). exists f.
  rewrite post_loop_S. cbv zeta. cbn [checked_at met ended_at]. fold e. rewrite Ecool, Hf.
  subst next_state. destruct out as [er|er|status decoded]; [exact Hrest|exact Hrest|].
  destruct (500 <=? status)%Z; [exact Hrest|]. by repeat case_match.
Qed.

Lemma post_world_answers path body c w :
  ∃ answers : nat → outcome A,
    Post (λ k _ _, mkAttempt (clock k).1 (answers k) (clock k).2) path (Ok body) c
    = ((post_world path body c w).1.1, (post_world path body c w).2).
Proof.
  unfold Post, post_world. destruct (endpoints c) eqn:E; [by exists (λ _, ReqErr "")|].
  cbv zeta. apply world_loop_answers.
Qed.
End post_world.

(** ** The network between a service and dbman *)

(** An attempt that never arrives, one whose answer is lost, and one that goes through. *)
Inductive fate := Lost (e : string) | LostReply (e : string) | Delivered.

(** An attempt: the clock before and after it at the client, the moment and the identifiers at
    dbman, and what became of it. *)
Record Delivery := mkDelivery { d_clock : time * time; d_env : Env; d_fate : fate }.

(** [json.NewDecoder(resp.Body).Decode(out)] *)
Definition read_reply `{Gin} {A} (read : json → option A) (text : string) : result A :=
  match parse_json text with
  | None => Err (bind_error text)
  | Some v => match read v with None => Err (bind_error text) | Some a => Ok a end
  end.

Section remote.
Context `{Postgres} `{Gin} {R : Type} (invalidate : string → R → R) (user_match : User → string → bool).
Variable DB : string → result unit.
Variables (generate : string → result string) (compare : string → string → result unit).

Notation Dbman := (Dbman (R := R)).
(** What a client of net/http gets for a POST: it follows a redirect of the kind dbman makes with the same method and body.
    One is enough, since no route ends in a slash. *)
Definition exchange (env : Env) (path body : string) (w : Dbman) : Dbman * reply :=
  match serve_post invalidate user_match DB generate compare env path body w with
  | (w', Redirected _ location) => serve_post invalidate user_match DB generate compare env location body w'
  | out => out
  end.
Notation serve := exchange.

Definition attempt {A} (deliveries : nat → Delivery) (read : json → option A)
    (k : nat) (endpoint path body : string) (w : Dbman) : Dbman * outcome A :=
  match d_fate (deliveries k) with
  | Lost e => (w, DoErr e)
  | LostReply e => ((serve (d_env (deliveries k)) path body w).1, DoErr e)
  | Delivered =>
      let '(w, r) := serve (d_env (deliveries k)) path body w in
      (w, Response (reply_status r) (read_reply read (reply_body r)))
  end.

(** A service's client, the tables behind dbman, and the number of calls made so far; [net] has
    the attempts of each call. *)
Record Remote := mkRemote { rm_client : Client; rm_db : Dbman; rm_calls : nat }.

Variable net : nat → nat → Delivery.

Definition call {A} (path : string) (payload : json) (read : json → option A) : M Remote A := λ s,
  let deliveries := net (rm_calls s) in
  let '((c, w), r) :=
    post_world (λ k, d_clock (deliveries k)) (attempt deliveries read) path (marshal_json payload)
      (rm_client s) (rm_db s) in
  (mkRemote c w (S (rm_calls s)), r).

(** ** What a delivered call does *)

(** Endpoints are configured, and none is cooling down. *)
Definition ready (c : Client) : Prop := endpoints c ≠ [] ∧ ∀ e, e ∈ endpoints c → cooldownTo c !! e = None.

(** The first attempt of the next call goes through. *)
Definition delivered (s : Remote) : Prop := d_fate (net (rm_calls s) 0) = Delivered.

Definition first_env (s : Remote) : Env := d_env (net (rm_calls s) 0).

(** The endpoint the next call tries first. *)
Definition first_endpoint (c : Client) : string :=
  endpoint_at (endpoints c) (wrap32u (wrap32u (next c + 1) - 1) mod Z.of_nat (length (endpoints c))) 0.

Lemma first_endpoint_in c : endpoints c ≠ [] → first_endpoint c ∈ endpoints c.
Proof.
  intros Hne. apply endpoint_at_in; [done|]. apply Z.mod_pos_bound. destruct (endpoints c); [done|cbn; lia].
Qed.

Lemma ready_success c e : ready c → ready (onSuccess e (set_next (wrap32u (next c + 1)) c)).
Proof.
  intros [Hne Hc]. split; [done|]. intros e' He'. cbn. rewrite lookup_delete. case_decide; [done|]. by apply Hc.
Qed.

Lemma first_attempt {A} path payload (read : json → option A) s :
  ready (rm_client s) → delivered s →
  let c := set_next (wrap32u (next (rm_client s) + 1)) (rm_client s) in
  let e := first_endpoint (rm_client s) in
  let '(w, r) := serve (first_env s) (normalizePath path) (marshal_json payload) (rm_db s) in
  ((500 ≤ reply_status r)%Z → length (endpoints c) = 1 →
   call path payload read s
   = (mkRemote (onFailure e (d_clock (net (rm_calls s) 0)).2 c) w (S (rm_calls s)),
      Err ("dbman status " +:+ FormatInt (reply_status r) +:+ " endpoint=" +:+ e)))
  ∧ ((300 ≤ reply_status r < 500)%Z →
     call path payload read s
     = (mkRemote c w (S (rm_calls s)), Err ("dbman status " +:+ FormatInt (reply_status r) +:+ " endpoint=" +:+ e)))
  ∧ (∀ a, (reply_status r < 300)%Z → read_reply read (reply_body r) = Ok a →
     call path payload read s = (mkRemote (onSuccess e c) w (S (rm_calls s)), Ok a)).
Proof.
  intros [Hne Hcool] Hdel. cbv zeta. unfold call, post_world, first_env.
  destruct (serve _ _ _ _) as [w r] eqn:Eserve.
  pose proof (first_endpoint_in _ Hne) as He. unfold first_endpoint in *.
  destruct (endpoints (rm_client s)) as [|e0 eps] eqn:Eeps; [done|]. rewrite <-Eeps in *.
  set (start := (_ mod Z.of_nat (length (endpoints (rm_client s))))%Z) in *.
  set (e := endpoint_at (endpoints (rm_client s)) start 0) in *.
  set (c := set_next (wrap32u (next (rm_client s) + 1)) (rm_client s)).
  assert (Hc : isCoolingDown e (d_clock (net (rm_calls s) 0)).1 c = (c, false)) by (apply isCoolingDown_None, Hcool, He).
  assert (Hact : attempt (net (rm_calls s)) read 0 e (normalizePath path) (marshal_json payload) (rm_db s)
    = (w, Response (reply_status r) (read_reply read (reply_body r)))).
  { unfold attempt. unfold delivered in Hdel. rewrite Hdel, Eserve. done. }
  assert (Hlen : length (endpoints (rm_client s)) = S (length eps)) by by rewrite Eeps.
  clearbody start. change (endpoints c) with (endpoints (rm_client s)).
  rewrite Hlen. cbn [world_loop]. change (endpoints c) with (endpoints (rm_client s)).
  fold e. rewrite Hc, Hact. repeat split.
  - intros Hs H1. destruct (Z.leb_spec 500 (reply_status r)); [|lia].
    injection H1 as ->. done.
  - intros Hs. destruct (Z.leb_spec 500 (reply_status r)); [lia|]. by destruct (Z.leb_spec 300 (reply_status r)); [|lia].
  - intros a Hs Hr. destruct (Z.leb_spec 500 (reply_status r)); [lia|]. destruct (Z.leb_spec 300 (reply_status r)); [lia|].
    by rewrite Hr.
Qed.
Lemma endpoint_at_next (eps : list string) start :
  NoDup eps → 2 ≤ length eps → (0 ≤ start)%Z → endpoint_at eps start 0 ≠ endpoint_at eps start 1.
Proof.
  intros Hnd H2 Hs Heq.
  pose proof (endpoint_at_lookup eps start 0 ltac:(by destruct eps; [cbn in H2; lia|]) Hs) as E0.
  pose proof (endpoint_at_lookup eps start 1 ltac:(by destruct eps; [cbn in H2; lia|]) Hs) as E1.
  rewrite Heq in E0. pose proof (NoDup_lookup _ _ _ _ Hnd E0 E1) as Hi.
  pose proof (Z.mod_pos_bound (start + 0) (Z.of_nat (length eps)) ltac:(lia)).
  pose proof (Z.mod_pos_bound (start + 1) (Z.of_nat (length eps)) ltac:(lia)).
  apply Z2Nat.inj in Hi; [|lia..]. change (Z.of_nat 0) with 0%Z in Hi. change (Z.of_nat 1) with 1%Z in Hi.
  pose proof (Z.div_mod (start + 0) (Z.of_nat (length eps)) ltac:(lia)).
  pose proof (Z.div_mod (start + 1) (Z.of_nat (length eps)) ltac:(lia)).
  set (n := Z.of_nat (length eps)) in *. set (q0 := ((start + 0) / n)%Z) in *. set (q1 := ((start + 1) / n)%Z) in *.
  assert ((n * (q1 - q0) = 1)%Z) by lia.
  destruct (Z.le_gt_cases (q1 - q0) 0); [|assert (1 ≤ q1 - q0)%Z by lia]; nia.
Qed.

(** The answer of the first attempt is lost; the second goes through. *)
Lemma second_attempt {A} path payload (read : json → option A) s e w1 r1 w2 r2 a :
  ready (rm_client s) → NoDup (endpoints (rm_client s)) → 2 ≤ length (endpoints (rm_client s)) →
  d_fate (net (rm_calls s) 0) = LostReply e → d_fate (net (rm_calls s) 1) = Delivered →
  serve (d_env (net (rm_calls s) 0)) (normalizePath path) (marshal_json payload) (rm_db s) = (w1, r1) →
  serve (d_env (net (rm_calls s) 1)) (normalizePath path) (marshal_json payload) w1 = (w2, r2) →
  (reply_status r2 < 300)%Z → read_reply read (reply_body r2) = Ok a →
  ∃ c, call path payload read s = (mkRemote c w2 (S (rm_calls s)), Ok a) ∧ endpoints c = endpoints (rm_client s).
Proof.
  intros [Hne Hcool] Hnd H2 Hf0 Hf1 Es1 Es2 Hst Hrd. unfold call. rewrite post_world_loop by done.
  set (eps := endpoints (rm_client s)) in *.
  set (start := (wrap32u (wrap32u (next (rm_client s) + 1) - 1) mod Z.of_nat (length eps))%Z).
  assert (Hs : (0 ≤ start)%Z) by (apply Z.mod_pos_bound; lia).
  pose proof (endpoint_at_in eps start 0 Hne Hs) as He0. pose proof (endpoint_at_in eps start 1 Hne Hs) as He1.
  pose proof (endpoint_at_next eps start Hnd H2 Hs) as Hdiff.
  set (c0 := set_next (wrap32u (next (rm_client s) + 1)) (rm_client s)).
  assert (Hlen : ∃ n, length eps = S (S n)) by (exists (length eps - 2); lia). destruct Hlen as [n Hlen].
  assert (Hc0 : ∀ now, isCoolingDown (endpoint_at eps start 0) now c0 = (c0, false)).
  { intros now. apply isCoolingDown_None. by apply Hcool. }
  assert (Hc1 : ∀ now now', isCoolingDown (endpoint_at eps start 1) now (onFailure (endpoint_at eps start 0) now' c0)
                          = (onFailure (endpoint_at eps start 0) now' c0, false)).
  { intros now now'. apply isCoolingDown_None, onFailure_other; [done|]. by apply Hcool. }
  fold c0. clearbody start. change (endpoints c0) with eps.
  rewrite Hlen. cbn [world_loop].
  change (endpoints c0) with eps. rewrite Hc0. unfold attempt at 1. rewrite Hf0, Es1. cbn [fst].
  destruct (onFailure_frame (endpoint_at eps start 0) (d_clock (net (rm_calls s) 0)).2 c0) as (-> & _ & _).
  change (endpoints c0) with eps. rewrite Hc1. unfold attempt at 1. rewrite Hf1, Es2.
  destruct (Z.leb_spec 500 (reply_status r2)); [lia|]. destruct (Z.leb_spec 300 (reply_status r2)); [lia|].
  rewrite Hrd. eexists. split; [reflexivity|]. cbn.
  by destruct (onFailure_frame (endpoint_at eps start 0) (d_clock (net (rm_calls s) 0)).2 c0) as (-> & _ & _).
Qed.
End remote.
