(* ===== verification/Clients.v ===== *)
(** * The services' dbman clients

    server/chat/service/dbman_client.go, server/session/service/dbman_client.go,
    server/orgHub/service/dbman_client.go, server/tenantHub/service/dbman_client.go and
    server/fileman/service/dbman_client.go: one request per method, a map or a struct for the
    payload and a struct or a slice for the answer.  [json.Marshal] writes the keys of a map in
    order, so the payloads are listed that way.

    [RemoteChat] and [RemoteOrg] prove that a method over the network does what dbman's service does
    when called directly. *)

From S2P Require Import Prelude GoStrings GoEncoding Cursor EndpointClient Env Auth SessionStore Paging ChatStore.
From S2P Require Import GoJson GoTime JsonText ChatService Users Tenants FileStore Wire Gin DbmanApi Rpc TenantRouter.

(* server/common/infra/dbman/client.go: BasePath #17-17 *)
Definition BasePath : string := "/api/internal/v1/db".

(** What the answers are read into: a struct with one field, a map, or a value. *)
Definition read_field {A} (c : codec A) (name : string) : json → option A :=
  dec_object [name] (λ o, optional c (o name)).
Definition read_map (v : json) : option unit := match v with JObj _ | JNull => Some tt | _ => None end.
Definition read_value {A} (c : codec A) : json → option A := dec c (zero c).

Definition json_ptr {A} (c : codec A) (o : option A) : json := enc (c_ptr c) o.

Section clients.
Context `{Postgres} `{Gin} {R : Type} (invalidate : string → R → R) (user_match : User → string → bool).
Variable DB : string → result unit.
Variables (generate : string → result string) (compare : string → string → result unit).
Variable net : nat → nat → Delivery.

Notation Remote := (Remote (R := R)).

(** The post method of each client. *)
(* server/chat/service/dbman_client.go: post *)
Definition post {A} (path : string) (payload : json) (read : json → option A) : M Remote A :=
  call invalidate user_match DB generate compare net (BasePath +:+ path) payload read.

(** ** chat *)

(* server/chat/service/dbman_client.go: CreateRoom *)
Definition chat_CreateRoom (tenantID : string) (room : ChatRoom) (memberIDs : list string) : M Remote string :=
  post "/rooms" (JObj [("member_ids", enc (c_list c_string) memberIDs); ("room", enc c_ChatRoom room);
                       ("tenant_id", JStr tenantID)]) (read_field c_string "room_id").

(* server/chat/service/dbman_client.go: AddMember *)
Definition chat_AddMember (tenantID roomID userID : string) : M Remote unit :=
  post "/rooms/members" (JObj [("room_id", JStr roomID); ("tenant_id", JStr tenantID); ("user_id", JStr userID)])
    read_map.

(* server/chat/service/dbman_client.go: IsRoomMember *)
Definition chat_IsRoomMember (tenantID roomID userID : string) : M Remote bool :=
  post "/rooms/members/check"
    (JObj [("room_id", JStr roomID); ("tenant_id", JStr tenantID); ("user_id", JStr userID)])
    (read_field c_bool "ok").

(* server/chat/service/dbman_client.go: CreateMessage *)
Definition chat_CreateMessage (msg : Message) : M Remote Message :=
  post "/messages" (enc c_Message msg) (read_value c_Message).

(* server/chat/service/dbman_client.go: MarkReadUpTo *)
Definition chat_MarkReadUpTo (tenantID roomID userID messageID : string) : M Remote unit :=
  post "/messages/read" (JObj [("message_id", JStr messageID); ("room_id", JStr roomID);
                               ("tenant_id", JStr tenantID); ("user_id", JStr userID)]) read_map.

(* server/chat/service/dbman_client.go: SearchMessages *)
Definition chat_SearchMessages (tenantID q : string) (roomID : option string) (limit : Z) (cursorID : option string) :
    M Remote (list Message) :=
  post "/messages/search"
    (JObj [("cursor_id", json_ptr c_string cursorID); ("limit", JNum limit); ("q", JStr q);
           ("room_id", json_ptr c_string roomID); ("tenant_id", JStr tenantID)]) (read_value (c_list c_Message)).

(* server/chat/service/dbman_client.go: ListMessages *)
Definition chat_ListMessages (tenantID roomID : string) (limit : Z) (cursorID : option string) :
    M Remote (list Message) :=
  post "/messages/list"
    (JObj [("cursor_id", json_ptr c_string cursorID); ("limit", JNum limit); ("room_id", JStr roomID);
           ("tenant_id", JStr tenantID)]) (read_value (c_list c_Message)).

(* server/chat/service/dbman_client.go: GetMessageReaders *)
Definition chat_GetMessageReaders (tenantID roomID messageID : string) : M Remote (list MessageRead) :=
  post "/messages/readers"
    (JObj [("message_id", JStr messageID); ("room_id", JStr roomID); ("tenant_id", JStr tenantID)])
    (read_value (c_list c_MessageRead)).

(* server/chat/service/dbman_client.go: GetLastReadMessageID *)
Definition chat_GetLastReadMessageID (tenantID roomID userID : string) : M Remote string :=
  post "/messages/last-read"
    (JObj [("room_id", JStr roomID); ("tenant_id", JStr tenantID); ("user_id", JStr userID)])
    (read_field c_string "message_id").

(* server/chat/service/dbman_client.go: GetUnreadCount *)
Definition chat_GetUnreadCount (tenantID roomID userID : string) : M Remote nat :=
  post "/messages/unread-count"
    (JObj [("room_id", JStr roomID); ("tenant_id", JStr tenantID); ("user_id", JStr userID)])
    (read_field c_count "count").

(* server/chat/service/dbman_client.go: GetUnreadCounts *)
Definition chat_GetUnreadCounts (tenantID userID : string) : M Remote (list RoomUnread) :=
  post "/messages/unread-counts" (JObj [("tenant_id", JStr tenantID); ("user_id", JStr userID)])
    (read_value (c_list c_RoomUnread)).

(* server/chat/service/dbman_client.go: ListMyRooms *)
Definition chat_ListMyRooms (tenantID userID : string) (limit : Z) (cursorCreatedAt : option time)
    (cursorRoomID : option string) : M Remote (list ChatRoomSummary) :=
  post "/rooms/list"
    (JObj [("cursor_created_at", json_ptr c_time cursorCreatedAt); ("cursor_room_id", json_ptr c_string cursorRoomID);
           ("limit", JNum limit); ("tenant_id", JStr tenantID); ("user_id", JStr userID)])
    (read_value (c_list c_ChatRoomSummary)).

(* server/chat/service/dbman_client.go: GetTenant *)
Definition chat_GetTenant (tenantID : string) : M Remote Tenant :=
  post "/tenants/get" (JObj [("tenant_id", JStr tenantID)]) (read_value c_Tenant).

(** The metadata the chat service's Redis and MQ routers keep of a tenant. *)
(* server/chat/service/dbman_client.go: GetTenantRedisMeta *)
Definition chat_GetTenantRedisMeta (tenantID : string) : M Remote RedisRouter.redisMeta := λ s,
  match chat_GetTenant tenantID s with
  | (s, Err e) => (s, Err e)
  | (s, Ok tenant) =>
      (s, Ok (RedisRouter.mkRedisMeta (ToLower (TrimSpace (t_DeploymentMode tenant)))
                (TrimSpace (DedicatedRedisAddr tenant)) (t_IsActive tenant)))
  end.

(* server/chat/service/dbman_client.go: GetTenantMQMeta *)
Definition chat_GetTenantMQMeta (tenantID : string) : M Remote MQRouter.mqMeta := λ s,
  match chat_GetTenant tenantID s with
  | (s, Err e) => (s, Err e)
  | (s, Ok tenant) =>
      (s, Ok (MQRouter.mkMQMeta (ToLower (TrimSpace (t_DeploymentMode tenant)))
                (TrimSpace (DedicatedLavinMQURL tenant)) (t_IsActive tenant)))
  end.

(** ** session *)

(* server/session/service/dbman_client.go: UpsertDeviceSession *)
Definition session_UpsertDeviceSession (session : DeviceSession) : M Remote DeviceSession :=
  post "/session/device/login" (enc c_DeviceSession session) (read_value c_DeviceSession).

(* server/session/service/dbman_client.go: ValidateAndTouchSession *)
Definition session_ValidateAndTouchSession (tenantID userID sessionID sessionToken : string) : M Remote bool :=
  post "/session/device/validate"
    (JObj [("session_id", JStr sessionID); ("session_token", JStr sessionToken); ("tenant_id", JStr tenantID);
           ("user_id", JStr userID)]) (read_field c_bool "valid").

(* server/session/service/dbman_client.go: UpdateSessionUserStatus *)
Definition session_UpdateSessionUserStatus (status : UserStatus) : M Remote unit :=
  post "/session/status/update" (enc c_UserStatus status) read_map.

(* server/session/service/dbman_client.go: CreateSessionNote *)
Definition session_CreateSessionNote (note : Note) : M Remote Note :=
  post "/session/notes/create" (enc c_Note note) (read_value c_Note).

(* server/session/service/dbman_client.go: ListSessionInbox *)
Definition session_ListSessionInbox (tenantID userID : string) (limit : Z) : M Remote (list NoteInboxItem) :=
  post "/session/notes/inbox" (JObj [("limit", JNum limit); ("tenant_id", JStr tenantID); ("user_id", JStr userID)])
    (read_value (c_list c_NoteInboxItem)).

(* server/session/service/dbman_client.go: MarkSessionNoteRead *)
Definition session_MarkSessionNoteRead (tenantID userID noteID : string) : M Remote unit :=
  post "/session/notes/read"
    (JObj [("note_id", JStr noteID); ("tenant_id", JStr tenantID); ("user_id", JStr userID)]) read_map.

(* server/session/service/dbman_client.go: SaveSessionChatNotifications *)
Definition session_SaveSessionChatNotifications (tenantID senderUserID : string) (input : ChatNotifyInput) :
    M Remote unit :=
  post "/session/chat/notify"
    (JObj [("input", enc c_ChatNotifyInput input); ("sender_user_id", JStr senderUserID); ("tenant_id", JStr tenantID)])
    read_map.

(** ** orgHub *)

(* server/orgHub/service/dbman_client.go: CreateOrgUnit *)
Definition org_CreateOrgUnit (tenantID : string) (parentID : option string) (name : string) : M Remote string :=
  post "/org-units/create"
    (JObj [("name", JStr name); ("parent_id", json_ptr c_string parentID); ("tenant_id", JStr tenantID)])
    (read_field c_string "id").

(* server/orgHub/service/dbman_client.go: ListOrgUnits *)
Definition org_ListOrgUnits (tenantID : string) : M Remote (list OrgUnit) :=
  post "/org-units/list" (JObj [("tenant_id", JStr tenantID)]) (read_value (c_list c_OrgUnit)).

(* server/orgHub/service/dbman_client.go: CreateUser *)
Definition org_CreateUser (tenantID : string) (user : User) : M Remote string :=
  post "/users/create" (JObj [("tenant_id", JStr tenantID); ("user", enc c_User user)]) (read_field c_string "id").

(* server/orgHub/service/dbman_client.go: UpdateUserStatus *)
Definition org_UpdateUserStatus (tenantID userID status note : string) : M Remote unit :=
  post "/users/status"
    (JObj [("note", JStr note); ("status", JStr status); ("tenant_id", JStr tenantID); ("user_id", JStr userID)])
    read_map.

(* server/orgHub/service/dbman_client.go: SearchUsers *)
Definition org_SearchUsers (tenantID q : string) (limit : Z) : M Remote (list User) :=
  post "/users/search" (JObj [("limit", JNum limit); ("q", JStr q); ("tenant_id", JStr tenantID)])
    (read_value (c_list c_User)).

(* server/orgHub/service/dbman_client.go: AuthenticateUser *)
Definition org_AuthenticateUser (tenantID email password : string) : M Remote User :=
  post "/users/authenticate"
    (JObj [("email", JStr email); ("password", JStr password); ("tenant_id", JStr tenantID)]) (read_value c_User).

(* server/orgHub/service/dbman_client.go: ListAliases *)
Definition org_ListAliases (tenantID userID : string) : M Remote (list string) :=
  post "/users/aliases/list" (JObj [("tenant_id", JStr tenantID); ("user_id", JStr userID)])
    (read_value (c_list c_string)).

Definition alias_payload (tenantID userID alias ip userAgent : string) : json :=
  JObj [("alias", JStr alias); ("ip", JStr ip); ("tenant_id", JStr tenantID); ("user_agent", JStr userAgent);
        ("user_id", JStr userID)].

(* server/orgHub/service/dbman_client.go: AddAlias *)
Definition org_AddAlias (tenantID userID alias ip userAgent : string) : M Remote unit :=
  post "/users/aliases/add" (alias_payload tenantID userID alias ip userAgent) read_map.

(* server/orgHub/service/dbman_client.go: DeleteAlias *)
Definition org_DeleteAlias (tenantID userID alias ip userAgent : string) : M Remote unit :=
  post "/users/aliases/delete" (alias_payload tenantID userID alias ip userAgent) read_map.

(* server/orgHub/service/dbman_client.go: ListAliasAudit *)
Definition org_ListAliasAudit (tenantID userID : string) (limit : Z) (from to_ : option time) (action : string)
    (cursorCreatedAt : option time) (cursorID : option string) : M Remote (list AliasAudit) :=
  post "/users/aliases/audit"
    (JObj [("action", JStr action); ("cursor_created_at", json_ptr c_time cursorCreatedAt);
           ("cursor_id", json_ptr c_string cursorID); ("from", json_ptr c_time from); ("limit", JNum limit);
           ("tenant_id", JStr tenantID); ("to", json_ptr c_time to_); ("user_id", JStr userID)])
    (read_value (c_list c_AliasAudit)).

(** ** tenantHub *)

(* server/tenantHub/service/dbman_client.go: ListTenants *)
Definition tenant_ListTenants : M Remote (list Tenant) := post "/tenants/list" (JObj []) (read_value (c_list c_Tenant)).

(* server/tenantHub/service/dbman_client.go: CreateTenant *)
Definition tenant_CreateTenant (item : Tenant) : M Remote Tenant :=
  post "/tenants/create" (enc c_Tenant item) (read_value c_Tenant).

(* server/tenantHub/service/dbman_client.go: UpdateTenantConfig *)
Definition tenant_UpdateTenantConfig (item : Tenant) : M Remote Tenant :=
  post "/tenants/update" (enc c_Tenant item) (read_value c_Tenant).

(** ** fileman *)

(* server/fileman/service/dbman_client.go: CreateFile *)
Definition file_CreateFile (item : FileObject) : M Remote FileObject :=
  post "/files" (enc c_FileObject item) (read_value c_FileObject).

(* server/fileman/service/dbman_client.go: GetTenant *)
Definition file_GetTenant (tenantID : string) : M Remote Tenant :=
  post "/tenants/get" (JObj [("tenant_id", JStr tenantID)]) (read_value c_Tenant).

(* server/fileman/service/dbman_client.go: GetTenantMinIOMeta *)
Definition file_GetTenantMinIOMeta (tenantID : string) : M Remote MinIORouter.TenantMinIOMeta := λ s,
  match file_GetTenant tenantID s with
  | (s, Err e) => (s, Err e)
  | (s, Ok tenant) =>
      (s, Ok (MinIORouter.mkMinIOMeta (t_DeploymentMode tenant) (DedicatedMinIOEndpoint tenant)
                (DedicatedMinIOAccessKey tenant) (DedicatedMinIOSecretKey tenant) (DedicatedMinIOUseSSL tenant)
                (DedicatedMinIOBucket tenant) (t_IsActive tenant)))
  end.

(** ** The interfaces of the services, over the network

    The moment and the identifiers of a write are dbman's, not the caller's. *)

Definition rpc_chat_store : ChatBackend Remote := {|
  st_CreateRoom _ := chat_CreateRoom;
  st_AddMember _ := chat_AddMember;
  st_IsRoomMember := chat_IsRoomMember;
  st_CreateMessage _ := chat_CreateMessage;
  st_MarkReadUpTo _ := chat_MarkReadUpTo;
  st_ListMessages := chat_ListMessages;
  st_SearchMessages := chat_SearchMessages;
  st_GetMessageReaders := chat_GetMessageReaders;
  st_GetLastReadMessageID := chat_GetLastReadMessageID;
  st_GetUnreadCount := chat_GetUnreadCount;
  st_GetUnreadCounts := chat_GetUnreadCounts;
  st_ListMyRooms := chat_ListMyRooms;
|}.

Definition rpc_session_store : SessionStore Remote := {|
  UpsertDeviceSession _ := session_UpsertDeviceSession;
  ValidateAndTouchSession _ := session_ValidateAndTouchSession;
  UpdateSessionUserStatus _ := session_UpdateSessionUserStatus;
  CreateSessionNote _ := session_CreateSessionNote;
  ListSessionInbox _ := session_ListSessionInbox;
  MarkSessionNoteRead _ := session_MarkSessionNoteRead;
  SaveSessionChatNotifications _ := session_SaveSessionChatNotifications;
|}.

Definition rpc_org_store : OrgBackend Remote := {|
  og_CreateOrgUnit _ := org_CreateOrgUnit;
  og_ListOrgUnits := org_ListOrgUnits;
  og_CreateUser _ := org_CreateUser;
  og_UpdateUserStatus _ := org_UpdateUserStatus;
  og_SearchUsers := org_SearchUsers;
  og_AuthenticateUser := org_AuthenticateUser;
  og_ListAliases := org_ListAliases;
  og_AddAlias _ := org_AddAlias;
  og_DeleteAlias _ := org_DeleteAlias;
  og_ListAliasAudit := org_ListAliasAudit;
|}.
End clients.
