(* ===== verification/Remote.v ===== *)
(** * Requests of a service over the network

    What a call through a dbman client amounts to, when the request binds at dbman and the
    answer can be read back: [travels] relates the operation on dbman's tables to the client's
    method.  A request that reaches dbman has the effect and the result of the direct call; an
    error of dbman comes back as an error of the client, and nothing happened; and a request
    whose first answer is lost runs twice. *)

From S2P Require Import Prelude GoStrings GoEncoding Cursor EndpointClient Env Auth SessionStore Paging ChatStore.
From S2P Require Import GoJson GoTime JsonText ChatService Users Tenants FileStore Wire Gin Binding DbmanApi Rpc Clients.

Lemma reply_marshal `{Gin} {T} (read : json → option T) status v r :
  wf_json v = true → read v = Some r → read_reply read (body_of (RJson status v)) = Ok r.
Proof. intros Hw Hb. unfold read_reply, body_of. by rewrite parse_marshal, Hb. Qed.

(** ** What a delivered request amounts to *)
Section spec.
Context `{Postgres} `{Gin} {R : Type} (invalidate : string → R → R) (user_match : User → string → bool).
Variable DB : string → result unit.
Variables (generate : string → result string) (compare : string → string → result unit).
Variable net : nat → nat → Delivery.

Notation Dbman := (Dbman (R := R)).
Notation Remote := (Remote (R := R)).
Notation post := (post invalidate user_match DB generate compare net).
Notation routes := (registerDBRoutes invalidate user_match DB generate compare).

(** The outcome of a request next to that of the direct call [m]: the same value and tables, and a
    client that stays ready; or, with a single endpoint, an error, and the tables as they were. *)
Definition same_outcome {A} (m : M Dbman A) (s : Remote) (out : Remote * result A) : Prop :=
  match m (rm_db s) with
  | (w, Ok a) => ∃ c, out = (mkRemote c w (S (rm_calls s)), Ok a)
                      ∧ ready c ∧ endpoints c = endpoints (rm_client s)
  | (_, Err _) =>
      length (endpoints (rm_client s)) = 1 →
      ∃ c msg, out = (mkRemote c (rm_db s) (S (rm_calls s)), Err msg) ∧ endpoints c = endpoints (rm_client s)
  end.

Lemma base_path path : normalizePath (BasePath +:+ path) = BasePath +:+ path.
Proof.
  unfold normalizePath. assert (HasPrefix (BasePath +:+ path) "/" = true) as ->; [|done].
  apply HasPrefix_true. by eexists.
Qed.

Lemma serve_base env path h body w :
  find_route path (routes env) = Some h →
  serve_post invalidate user_match DB generate compare env (BasePath +:+ path) body w
  = let '(w', r) := h body w in (w', Answered r).
Proof.
  intros Hr. unfold serve_post, route_post. change "/api/internal/v1/db" with BasePath.
  by rewrite strip_prefix_app, Hr.
Qed.

(** A request to a registered path is not redirected. *)
Lemma exchange_base env path h body w :
  find_route path (routes env) = Some h →
  exchange invalidate user_match DB generate compare env (BasePath +:+ path) body w
  = let '(w', r) := h body w in (w', Answered r).
Proof. intros Hr. unfold exchange. rewrite (serve_base env path h) by done. by destruct (h body w). Qed.

(** What a handler answers, next to its operation: the value, or an error of its own wording. *)
Definition answers {A} (ok failed : Z) (encode : A → json) (m : M Dbman A) (h : handler Dbman) : Prop :=
  ∀ w, match m w with
       | (w', Ok a) => h w = (w', RJson ok (encode a))
       | (w', Err _) => ∃ msg, h w = (w', RError failed msg)
       end.

Lemma answer_answers {A} ok failed (encode : A → json) m h :
  (∀ w, h w = answer ok failed encode m w) → answers ok failed encode m h.
Proof. intros Hh w. rewrite Hh. unfold answer. destruct (m w) as [w' [a|e]]; eauto. Qed.

(** A network method [r] and the operation [m] on dbman's tables: the payload binds to the arguments
    of [m], the handler runs [m] and nothing else, and an answer that can be written down
    ([good]) is read back as it was. *)
Definition travels {A} (m : Env → M Dbman A) (good : A → bool) (r : M Remote A) : Prop :=
  ∃ path payload (read : json → option A) (h : Env → string → handler Dbman) ok failed encode,
    r = post path payload read
    ∧ (∀ env, find_route path (routes env) = Some (h env))
    ∧ (∀ env, answers ok failed encode (m env) (h env (marshal_json payload)))
    ∧ ok ∈ [200; 201]%Z ∧ failed ∈ [401; 500]%Z ∧ (∀ env, atomic (m env))
    ∧ (∀ a, good a = true → wf_json (encode a) = true ∧ read (encode a) = Some a).

Lemma travels_outcome {A} m good (r : M Remote A) s :
  travels m good r → ready (rm_client s) → delivered net s →
  (∀ w a, m (first_env net s) (rm_db s) = (w, Ok a) → good a = true) →
  same_outcome (m (first_env net s)) s (r s).
Proof.
  intros (path & payload & read & h & ok & failed & encode & -> & Hroute & Hh & Hok & Hfailed & Hat & Hread) Hready Hdel Hans.
  unfold same_outcome, Clients.post.
  pose proof (first_attempt invalidate user_match DB generate compare net (BasePath +:+ path) payload read s Hready Hdel)
    as Hone. cbv zeta in Hone. rewrite base_path, (exchange_base _ _ (h (first_env net s))) in Hone by done.
  specialize (Hh (first_env net s) (rm_db s)). destruct (m (first_env net s) (rm_db s)) as [w [a|e]] eqn:Em.
  - rewrite Hh in Hone. destruct (Hread a (Hans w a eq_refl)) as [Hw Hr]. destruct Hone as (_ & _ & Hone).
    eexists. split; [apply Hone|].
    + cbn. revert Hok. rewrite !elem_of_cons, elem_of_nil. lia.
    + by apply reply_marshal.
    + split; [by apply ready_success|done].
  - destruct Hh as [msg Hh]. rewrite Hh in Hone. apply Hat in Em as ->. intros Hlen.
    destruct Hone as (H500 & H400 & _). cbn [reply_status status_of] in *.
    assert (failed = 401 ∨ failed = 500)%Z as [->| ->].
    { revert Hfailed. rewrite !elem_of_cons, elem_of_nil. tauto. }
    + rewrite H400 by lia. by eexists _, _.
    + rewrite H500 by (lia || done). eexists _, _. split; [done|].
      by destruct (onFailure_frame (first_endpoint (rm_client s)) (d_clock (net (rm_calls s) 0)).2
        (set_next (wrap32u (next (rm_client s) + 1)) (rm_client s))) as [-> _].
Qed.

(** The first answer is lost, the second arrives: the operation runs twice, and the caller sees the
    second. *)
Lemma travels_twice {A} m good (r : M Remote A) s e w1 a1 w2 a :
  travels m good r → ready (rm_client s) → NoDup (endpoints (rm_client s)) → 2 ≤ length (endpoints (rm_client s)) →
  d_fate (net (rm_calls s) 0) = LostReply e → d_fate (net (rm_calls s) 1) = Delivered →
  m (d_env (net (rm_calls s) 0)) (rm_db s) = (w1, a1) → m (d_env (net (rm_calls s) 1)) w1 = (w2, Ok a) →
  good a = true →
  ∃ c, r s = (mkRemote c w2 (S (rm_calls s)), Ok a) ∧ endpoints c = endpoints (rm_client s).
Proof.
  intros (path & payload & read & h & ok & failed & encode & -> & Hroute & Hh & Hok & Hfailed & Hat & Hread).
  intros Hr Hnd H2 Hf0 Hf1 Em1 Em2 Hgood. destruct (Hread a Hgood) as [Hw Hra].
  pose proof (Hh (d_env (net (rm_calls s) 0)) (rm_db s)) as Hh1. rewrite Em1 in Hh1.
  assert (∃ r1, h (d_env (net (rm_calls s) 0)) (marshal_json payload) (rm_db s) = (w1, r1)) as [r1 Er1].
  { destruct a1; [eauto|]. destruct Hh1 as [msg Hh1]. eauto. }
  pose proof (Hh (d_env (net (rm_calls s) 1)) w1) as Hh2. rewrite Em2 in Hh2.
  unfold Clients.post. eapply (second_attempt invalidate user_match DB generate compare net _ _ _ _ e); try done.
  - rewrite base_path, (exchange_base _ _ (h _)), Er1 by done. done.
  - rewrite base_path, (exchange_base _ _ (h _)), Hh2 by done. done.
  - cbn. revert Hok. rewrite !elem_of_cons, elem_of_nil. lia.
  - by apply reply_marshal.
Qed.
End spec.

(** Unfold a handler on a payload the client built: the body binds to what was sent. *)
Ltac bind_fields :=
  unfold dec_object, json_ptr, alias_payload; rewrite !members_of_assoc by reflexivity;
  cbn [assoc String.eqb Ascii.eqb Bool.eqb];
  repeat first [ rewrite required_given by assumption
               | rewrite (optional_enc c_int) by assumption
               | rewrite (optional_enc (c_ptr c_string)) by assumption
               | rewrite (optional_enc (c_ptr c_time)) by assumption
               | rewrite (optional_enc (c_list c_string)) by assumption
               | rewrite (required_value_enc c_ChatRoom) by assumption
               | rewrite (required_value_enc c_ChatNotifyInput) by assumption
               | rewrite (required_value_enc c_User) by assumption
               | rewrite (optional_enc c_string) by assumption
               | progress cbn [mbind option_bind] ].

Ltac each_member :=
  apply wf_obj;
  repeat match goal with
  | |- Forall _ [] => apply Forall_nil_2
  | |- Forall _ (_ :: _) => apply Forall_cons_2
  | |- _ ∧ _ => split
  end; cbn [fst snd].

Ltac wf_payload :=
  each_member;
  first [ reflexivity | assumption | by apply (enc_wf (c := (c_ptr c_string))) | by apply (enc_wf (c := (c_ptr c_time)))
        | by apply (enc_wf (c := (c_list c_string))) | by apply enc_wf
        | match goal with H : given ?s = true |- _ => apply given_spec in H as [_ H]; exact H end ].

Lemma clamp_idem limit max fallback :
  (0 < fallback ≤ max)%Z → clamp (clamp limit max fallback) max fallback = clamp limit max fallback.
Proof.
  intros Hf. pose proof (clamp_range limit max fallback Hf). unfold clamp at 1.
  destruct (Z.leb_spec (clamp limit max fallback) 0), (Z.ltb_spec max (clamp limit max fallback)); cbn; lia.
Qed.

(** ** Proving that a method travels

    The route and the binding of the payload; what the handler then does, and how its answer is
    read, is left. *)
Ltac travel_bound status refused binds :=
  eexists _, _, _, _, status, refused, _;
  split_and!;
    [ reflexivity
    | intros ?; reflexivity
    | intros ?; apply answer_answers; intros ?; cbv beta;
      eapply eq_trans; [eapply with_body_Ok; apply bind_marshal; binds|]; cbv beta iota
    | by_computation | by_computation
    | intros ?; eauto with atomic
    | ].

(** A payload put together from its fields, and one that is a struct. *)
Ltac travel status := travel_bound status 500%Z ltac:(first [wf_payload | bind_fields; reflexivity]).
Ltac travel_struct status := travel_bound status 500%Z ltac:(first [by apply enc_wf | by apply dec_enc]).

(** The answer is a value of a type whose codec is good, nothing, or a struct with one field. *)
Ltac read_with c :=
  let a := fresh in let Ha := fresh in
  intros a Ha; split; [by apply (enc_wf (c := c)) | by apply (dec_enc (c := c))].

Ltac read_closed := let a := fresh in intros a ?; destruct a; split; reflexivity.

Ltac read_one c :=
  let a := fresh in let Ha := fresh in
  intros a Ha; split;
  [ each_member; first [reflexivity | by apply (enc_wf (c := c))]
  | unfold read_field, NewIDResponse; bind_fields; by apply (dec_enc (c := c)) ].

Ltac split_given :=
  repeat match goal with H : (_ && _)%bool = true |- _ => apply andb_true_iff in H as [? ?] end.

(** The handler's own check on required fields passes. *)
Ltac not_refused :=
  rewrite decide_False; [reflexivity|];
  let Hz := fresh in intros Hz; repeat destruct Hz as [Hz|Hz]; revert Hz; by apply given_ne.
