(* ===== verification/RemoteChat.v ===== *)
(** * The chat service's store, over the network

    The two implementations of the chat service's store interface, dbman called directly
    ([dbman_chat_store]) and dbman behind the HTTP client ([rpc_chat_store]): every request
    travels. *)

From S2P Require Import Prelude GoStrings GoEncoding Cursor EndpointClient Env Auth SessionStore Paging ChatStore.
From S2P Require Import GoJson GoTime JsonText ChatService Users Tenants FileStore Wire Gin Binding DbmanApi Rpc Clients Remote.

(** ** The requests of the chat service *)

Inductive chat_request : Type → Type :=
| RqCreateRoom (t : string) (room : ChatRoom) (ids : list string) : chat_request string
| RqAddMember (t r u : string) : chat_request unit
| RqIsRoomMember (t r u : string) : chat_request bool
| RqCreateMessage (m : Message) : chat_request Message
| RqMarkReadUpTo (t r u id : string) : chat_request unit
| RqListMessages (t r : string) (limit : Z) (cursor : option string) : chat_request (list Message)
| RqSearchMessages (t q : string) (r : option string) (limit : Z) (cursor : option string) : chat_request (list Message)
| RqGetMessageReaders (t r id : string) : chat_request (list MessageRead)
| RqGetLastReadMessageID (t r u : string) : chat_request string
| RqGetUnreadCount (t r u : string) : chat_request nat
| RqGetUnreadCounts (t u : string) : chat_request (list RoomUnread)
| RqListMyRooms (t u : string) (limit : Z) (at_ : option time) (r : option string) : chat_request (list ChatRoomSummary).

(** A request to a store, whichever it is. *)
Definition run_request {S A} `{ChatBackend S} (env : Env) (rq : chat_request A) : M S A :=
  match rq with
  | RqCreateRoom t room ids => st_CreateRoom env t room ids
  | RqAddMember t r u => st_AddMember env t r u
  | RqIsRoomMember t r u => st_IsRoomMember t r u
  | RqCreateMessage m => st_CreateMessage env m
  | RqMarkReadUpTo t r u id => st_MarkReadUpTo env t r u id
  | RqListMessages t r limit c => st_ListMessages t r limit c
  | RqSearchMessages t q r limit c => st_SearchMessages t q r limit c
  | RqGetMessageReaders t r id => st_GetMessageReaders t r id
  | RqGetLastReadMessageID t r u => st_GetLastReadMessageID t r u
  | RqGetUnreadCount t r u => st_GetUnreadCount t r u
  | RqGetUnreadCounts t u => st_GetUnreadCounts t u
  | RqListMyRooms t u limit at_ r => st_ListMyRooms t u limit at_ r
  end.

Definition ok_ptr {A} (c : codec A) (o : option A) : bool := enc_ok (c_ptr c) o.

(** What dbman's handlers require of a request, in values that can be written down. *)
Definition valid_request {A} (rq : chat_request A) : bool :=
  match rq with
  | RqCreateRoom t room ids =>
      given t && given (r_Name room) && given (RoomType room) && given (CreatedBy room)
      && enc_ok c_ChatRoom room && enc_ok (c_list c_string) ids
  | RqAddMember t r u | RqIsRoomMember t r u | RqGetLastReadMessageID t r u | RqGetUnreadCount t r u =>
      given t && given r && given u
  | RqCreateMessage m => given (m_TenantID m) && given (m_RoomID m) && given (SenderID m) && enc_ok c_Message m
  | RqMarkReadUpTo t r u id => given t && given r && given u && given id
  | RqListMessages t r limit c => given t && given r && is_int64b limit && ok_ptr c_string c
  | RqSearchMessages t q r limit c =>
      given t && given q && ok_ptr c_string r && is_int64b limit && ok_ptr c_string c
  | RqGetMessageReaders t r id => given t && given r && given id
  | RqGetUnreadCounts t u => given t && given u
  | RqListMyRooms t u limit at_ r => given t && given u && is_int64b limit && ok_ptr c_time at_ && ok_ptr c_string r
  end.

(** An answer that can be written down. *)
Definition answer_ok {A} (rq : chat_request A) : A → bool :=
  match rq with
  | RqCreateRoom _ _ _ | RqGetLastReadMessageID _ _ _ => utf8
  | RqAddMember _ _ _ | RqMarkReadUpTo _ _ _ _ => λ _, true
  | RqIsRoomMember _ _ _ => λ _, true
  | RqCreateMessage _ => enc_ok c_Message
  | RqListMessages _ _ _ _ | RqSearchMessages _ _ _ _ _ => enc_ok (c_list c_Message)
  | RqGetMessageReaders _ _ _ => enc_ok (c_list c_MessageRead)
  | RqGetUnreadCount _ _ _ => enc_ok c_count
  | RqGetUnreadCounts _ _ => enc_ok (c_list c_RoomUnread)
  | RqListMyRooms _ _ _ _ _ => enc_ok (c_list c_ChatRoomSummary)
  end.

Section requests.
Context `{Postgres} `{Gin} {R : Type} (invalidate : string → R → R) (user_match : User → string → bool).
Variable DB : string → result unit.
Variables (generate : string → result string) (compare : string → string → result unit).
Variable net : nat → nat → Delivery.
Notation Remote := (Remote (R := R)).


Lemma list_messages_clamped t r limit c : dbman_ListMessages DB t r (clamp limit 200 50) c = dbman_ListMessages DB t r limit c.
Proof. exact (f_equal (λ l, repo_ListMessages DB t r l c) (clamp_idem limit 200 50 ltac:(lia))). Qed.

Lemma search_messages_clamped t q r limit c :
  dbman_SearchMessages DB t q r (clamp limit 200 30) c = dbman_SearchMessages DB t q r limit c.
Proof. exact (f_equal (λ l, repo_SearchMessages DB t q r l c) (clamp_idem limit 200 30 ltac:(lia))). Qed.

Lemma list_rooms_clamped t u limit at_ r :
  dbman_ListMyRooms DB t u (clamp limit 200 50) at_ r = dbman_ListMyRooms DB t u limit at_ r.
Proof. exact (f_equal (λ l, repo_ListMyRooms DB t u l at_ r) (clamp_idem limit 200 50 ltac:(lia))). Qed.


Lemma chat_request_travels {A} (rq : chat_request A) env0 :
  valid_request rq = true →
  travels invalidate user_match DB generate compare net
    (λ env, on_chat (run_request (H := dbman_chat_store DB) env rq)) (answer_ok rq)
    (run_request (H := rpc_chat_store invalidate user_match DB generate compare net) env0 rq).
Proof.
  intros Hv.
  destruct rq; cbn [valid_request answer_ok run_request st_CreateRoom st_AddMember st_IsRoomMember st_CreateMessage
    st_MarkReadUpTo st_ListMessages st_SearchMessages st_GetMessageReaders st_GetLastReadMessageID
    st_GetUnreadCount st_GetUnreadCounts st_ListMyRooms rpc_chat_store dbman_chat_store] in Hv |- *; split_given.
  - pose proof (given_spec (r_Name room)) as Hn. assert (room ≠ zero c_ChatRoom) by (intros ->; by apply Hn).
    travel 201%Z; [not_refused|read_one c_string].
  - travel 200%Z; [reflexivity|read_closed].
  - travel 200%Z; [reflexivity|read_closed].
  - travel_struct 201%Z; [not_refused|read_with c_Message].
  - travel 200%Z; [reflexivity|read_closed].
  - travel 200%Z; [by rewrite list_messages_clamped|read_with (c_list c_Message)].
  - travel 200%Z; [by rewrite search_messages_clamped|read_with (c_list c_Message)].
  - travel 200%Z; [reflexivity|read_with (c_list c_MessageRead)].
  - travel 200%Z; [reflexivity|read_one c_string].
  - travel 200%Z; [reflexivity|read_one c_count].
  - travel 200%Z; [reflexivity|read_with (c_list c_RoomUnread)].
  - travel 200%Z; [by rewrite list_rooms_clamped|read_with (c_list c_ChatRoomSummary)].
Qed.
End requests.
