(* ===== verification/RemoteOrg.v ===== *)
(** * The session, organisation, tenant and file stores, over the network

    The same for the other clients of dbman: the session service's store interface, orgHub's, the
    tenant operations of tenantHub and of the routers, and the registration of files. *)

From S2P Require Import Prelude GoStrings GoEncoding Cursor EndpointClient Env Auth SessionStore Paging ChatStore.
From S2P Require Import GoJson GoTime JsonText ChatService Users Tenants FileStore Wire Gin Binding DbmanApi Rpc Clients Remote.

(** ** The requests *)

Inductive session_request : Type → Type :=
| RqUpsertDeviceSession (session : DeviceSession) : session_request DeviceSession
| RqValidateAndTouchSession (t u sid tok : string) : session_request bool
| RqUpdateSessionUserStatus (status : UserStatus) : session_request unit
| RqCreateSessionNote (note : Note) : session_request Note
| RqListSessionInbox (t u : string) (limit : Z) : session_request (list NoteInboxItem)
| RqMarkSessionNoteRead (t u id : string) : session_request unit
| RqSaveSessionChatNotifications (t u : string) (input : ChatNotifyInput) : session_request unit.

Definition run_session {S A} `{SessionStore S} (env : Env) (rq : session_request A) : M S A :=
  match rq with
  | RqUpsertDeviceSession session => UpsertDeviceSession env session
  | RqValidateAndTouchSession t u sid tok => ValidateAndTouchSession env t u sid tok
  | RqUpdateSessionUserStatus status => UpdateSessionUserStatus env status
  | RqCreateSessionNote note => CreateSessionNote env note
  | RqListSessionInbox t u limit => ListSessionInbox env t u limit
  | RqMarkSessionNoteRead t u id => MarkSessionNoteRead env t u id
  | RqSaveSessionChatNotifications t u input => SaveSessionChatNotifications env t u input
  end.

(** The request dbman serves: its handler clamps the limit of the inbox. *)
Definition served_session {A} (rq : session_request A) : session_request A :=
  match rq in session_request A return session_request A with
  | RqListSessionInbox t u limit => RqListSessionInbox t u (clamp limit 200 50)
  | rq => rq
  end.

(** What dbman's handlers require of a request, in values that can be written down. *)
Definition valid_session {A} (rq : session_request A) : bool :=
  match rq with
  | RqUpsertDeviceSession session => enc_ok c_DeviceSession session
  | RqValidateAndTouchSession t u sid tok => given t && given u && given sid && given tok
  | RqUpdateSessionUserStatus status => enc_ok c_UserStatus status
  | RqCreateSessionNote note => enc_ok c_Note note
  | RqListSessionInbox t u limit =>
      given t && given u && is_int64b limit
  | RqMarkSessionNoteRead t u id => given t && given u && given id
  | RqSaveSessionChatNotifications t u input =>
      given t && given u && enc_ok c_ChatNotifyInput input && negb (bool_decide (input = zero c_ChatNotifyInput))
  end.

Definition session_answer_ok {A} (rq : session_request A) : A → bool :=
  match rq with
  | RqUpsertDeviceSession _ => enc_ok c_DeviceSession
  | RqValidateAndTouchSession _ _ _ _ => λ _, true
  | RqCreateSessionNote _ => enc_ok c_Note
  | RqListSessionInbox _ _ _ => enc_ok (c_list c_NoteInboxItem)
  | RqUpdateSessionUserStatus _ | RqMarkSessionNoteRead _ _ _ | RqSaveSessionChatNotifications _ _ _ => λ _, true
  end.

Inductive org_request : Type → Type :=
| RqCreateOrgUnit (t : string) (parent : option string) (name : string) : org_request string
| RqListOrgUnits (t : string) : org_request (list OrgUnit)
| RqCreateUser (t : string) (user : User) : org_request string
| RqUpdateUserStatus (t u status note : string) : org_request unit
| RqSearchUsers (t q : string) (limit : Z) : org_request (list User)
| RqAuthenticateUser (t email password : string) : org_request User
| RqListAliases (t u : string) : org_request (list string)
| RqAddAlias (t u alias ip agent : string) : org_request unit
| RqDeleteAlias (t u alias ip agent : string) : org_request unit
| RqListAliasAudit (t u : string) (limit : Z) (from to_ : option time) (action : string)
    (at_ : option time) (id : option string) : org_request (list AliasAudit).

Definition run_org {S A} `{OrgBackend S} (env : Env) (rq : org_request A) : M S A :=
  match rq with
  | RqCreateOrgUnit t parent name => og_CreateOrgUnit env t parent name
  | RqListOrgUnits t => og_ListOrgUnits t
  | RqCreateUser t user => og_CreateUser env t user
  | RqUpdateUserStatus t u status note => og_UpdateUserStatus env t u status note
  | RqSearchUsers t q limit => og_SearchUsers t q limit
  | RqAuthenticateUser t email password => og_AuthenticateUser t email password
  | RqListAliases t u => og_ListAliases t u
  | RqAddAlias t u alias ip agent => og_AddAlias env t u alias ip agent
  | RqDeleteAlias t u alias ip agent => og_DeleteAlias env t u alias ip agent
  | RqListAliasAudit t u limit from to_ action at_ id => og_ListAliasAudit t u limit from to_ action at_ id
  end.

(** A user must have no password to arrive as it was sent. *)
Definition valid_org {A} (rq : org_request A) : bool :=
  match rq with
  | RqCreateOrgUnit t parent name => given t && given name && enc_ok (c_ptr c_string) parent
  | RqListOrgUnits t => given t
  | RqCreateUser t user => given t && enc_ok c_User user && given (Email user)
  | RqUpdateUserStatus t u status note => given t && given u && given status && utf8 note
  | RqSearchUsers t q limit => given t && given q && is_int64b limit
  | RqAuthenticateUser t email password => given t && given email && given password
  | RqListAliases t u => given t && given u
  | RqAddAlias t u alias ip agent | RqDeleteAlias t u alias ip agent =>
      given t && given u && given alias && utf8 ip && utf8 agent
  | RqListAliasAudit t u limit from to_ action at_ id =>
      given t && given u && is_int64b limit && enc_ok (c_ptr c_time) from && enc_ok (c_ptr c_time) to_
      && utf8 action && enc_ok (c_ptr c_time) at_ && enc_ok (c_ptr c_string) id
  end.

Definition org_answer_ok {A} (rq : org_request A) : A → bool :=
  match rq with
  | RqCreateOrgUnit _ _ _ | RqCreateUser _ _ => utf8
  | RqListOrgUnits _ => enc_ok (c_list c_OrgUnit)
  | RqSearchUsers _ _ _ => enc_ok (c_list c_User)
  | RqAuthenticateUser _ _ _ => enc_ok c_User
  | RqListAliases _ _ => enc_ok (c_list c_string)
  | RqListAliasAudit _ _ _ _ _ _ _ _ => enc_ok (c_list c_AliasAudit)
  | RqUpdateUserStatus _ _ _ _ | RqAddAlias _ _ _ _ _ | RqDeleteAlias _ _ _ _ _ => λ _, true
  end.

Section requests.
Context `{Postgres} `{Gin} {R : Type} (invalidate : string → R → R) (user_match : User → string → bool).
Variable DB : string → result unit.
Variables (generate : string → result string) (compare : string → string → result unit).
Variable net : nat → nat → Delivery.
Notation travels := (travels invalidate user_match DB generate compare net).

Lemma session_request_travels {A} (rq : session_request A) env0 :
  valid_session rq = true →
  travels (λ env, on_session (run_session (H := repo_store DB) env (served_session rq))) (session_answer_ok rq)
    (run_session (H := rpc_session_store invalidate user_match DB generate compare net) env0 rq).
Proof.
  intros Hv.
  destruct rq; cbn [valid_session served_session session_answer_ok run_session UpsertDeviceSession ValidateAndTouchSession
    UpdateSessionUserStatus CreateSessionNote ListSessionInbox MarkSessionNoteRead SaveSessionChatNotifications
    repo_store rpc_session_store] in Hv |- *; split_given.
  - travel_struct 200%Z; [reflexivity|read_with c_DeviceSession].
  - travel 200%Z; [reflexivity|read_one c_bool].
  - travel_struct 200%Z; [reflexivity|read_closed].
  - travel_struct 201%Z; [reflexivity|read_with c_Note].
  - travel 200%Z; [reflexivity|read_with (c_list c_NoteInboxItem)].
  - travel 200%Z; [reflexivity|read_closed].
  - match goal with H : negb _ = true |- _ => apply negb_true_iff, bool_decide_eq_false in H end.
    travel 200%Z; [reflexivity|read_closed].
Qed.

Lemma search_users_clamped t q limit :
  dbman_SearchUsers user_match DB t q (clamp limit 100 20) = dbman_SearchUsers user_match DB t q limit.
Proof. exact (f_equal (λ l, repo_SearchUsers user_match DB t q l) (clamp_idem limit 100 20 ltac:(lia))). Qed.

Lemma list_audit_clamped t u limit from to_ action at_ id :
  dbman_ListAliasAudit DB t u (clamp limit 200 50) from to_ action at_ id
  = dbman_ListAliasAudit DB t u limit from to_ action at_ id.
Proof. unfold dbman_ListAliasAudit. by rewrite clamp_idem by lia. Qed.

(** The login answers 401 to whatever went wrong, in words of its own. *)
Lemma authenticate_travels t email password env0 :
  given t = true → given email = true → given password = true →
  travels (λ env, on_org (run_org (H := dbman_org_store user_match DB generate compare) env
    (RqAuthenticateUser t email password))) (enc_ok c_User)
    (run_org (H := rpc_org_store invalidate user_match DB generate compare net) env0 (RqAuthenticateUser t email password)).
Proof.
  intros Ht He Hp. eexists _, _, _, _, 200%Z, 401%Z, (enc c_User).
  split_and!; [reflexivity|intros ?; reflexivity| |by_computation|by_computation| |read_with c_User].
  - intros env w.
    assert (∀ k, with_body (dec_object ["tenant_id"; "email"; "password"] (λ o,
        t ← required c_string (o "tenant_id"); email ← required c_string (o "email");
        password ← required c_string (o "password"); Some (t, email, password)))
        (marshal_json (JObj [("email", JStr email); ("password", JStr password); ("tenant_id", JStr t)])) k w
      = k (t, email, password) w) as Hbind.
    { intros k. eapply with_body_Ok, bind_marshal; [wf_payload|bind_fields; reflexivity]. }
    unfold authenticateUser. rewrite Hbind. cbn [run_org og_AuthenticateUser dbman_org_store].
    destruct (on_org _ w) as [w' [a|e]]; eauto.
  - intros ?. cbn [run_org og_AuthenticateUser dbman_org_store]. eauto with atomic.
Qed.

Lemma org_request_travels {A} (rq : org_request A) env0 :
  valid_org rq = true →
  travels (λ env, on_org (run_org (H := dbman_org_store user_match DB generate compare) env rq)) (org_answer_ok rq)
    (run_org (H := rpc_org_store invalidate user_match DB generate compare net) env0 rq).
Proof.
  intros Hv. destruct rq; try (by cbn [valid_org] in Hv; split_given; apply authenticate_travels);
  cbn [valid_org org_answer_ok run_org og_CreateOrgUnit og_ListOrgUnits og_CreateUser og_UpdateUserStatus
    og_SearchUsers og_ListAliases og_AddAlias og_DeleteAlias og_ListAliasAudit
    dbman_org_store rpc_org_store] in Hv |- *; split_given.
  - travel 201%Z; [reflexivity|read_one c_string].
  - travel 200%Z; [reflexivity|read_with (c_list c_OrgUnit)].
  - assert (Hne : user ≠ zero c_User).
    { intros ->. match goal with H : given (Email _) = true |- _ => by apply given_ne in H end. }
    travel 201%Z; [reflexivity|read_one c_string].
  - travel 200%Z; [reflexivity|read_closed].
  - travel 200%Z; [by rewrite search_users_clamped|read_with (c_list c_User)].
  - travel 200%Z; [reflexivity|read_with (c_list c_string)].
  - travel 200%Z; [reflexivity|read_closed].
  - travel 200%Z; [reflexivity|read_closed].
  - travel 200%Z; [by rewrite list_audit_clamped|read_with (c_list c_AliasAudit)].
Qed.

(** ** Tenants and files *)

Lemma list_tenants_travels : travels (λ _, on_tenant_table repo_ListTenants) (enc_ok (c_list c_Tenant))
  (tenant_ListTenants invalidate user_match DB generate compare net).
Proof.
  eexists _, _, _, _, 200%Z, 500%Z, _.
  split_and!; [reflexivity|intros ?; reflexivity| |by_computation|by_computation| |read_with (c_list c_Tenant)].
  - intros env. by apply answer_answers.
  - intros ?. eauto with atomic.
Qed.

Lemma create_tenant_travels item : enc_ok c_Tenant item = true →
  travels (λ env, on_tenants (dbman_CreateTenant invalidate env item)) (enc_ok c_Tenant)
    (tenant_CreateTenant invalidate user_match DB generate compare net item).
Proof. intros Hi. travel_struct 201%Z; [reflexivity|read_with c_Tenant]. Qed.

Lemma update_tenant_travels item : enc_ok c_Tenant item = true →
  travels (λ env, on_tenants (dbman_UpdateTenant invalidate env item)) (enc_ok c_Tenant)
    (tenant_UpdateTenantConfig invalidate user_match DB generate compare net item).
Proof. intros Hi. travel_struct 200%Z; [reflexivity|read_with c_Tenant]. Qed.

Lemma get_tenant_travels t : given t = true →
  travels (λ _, on_tenant_table (repo_GetTenant t)) (enc_ok c_Tenant)
    (chat_GetTenant invalidate user_match DB generate compare net t).
Proof. intros Ht. travel 200%Z; [reflexivity|read_with c_Tenant]. Qed.

Lemma create_file_travels item :
  enc_ok c_FileObject item = true → given (fo_TenantID item) = true → given (fo_RoomID item) = true →
  given (UploaderID item) = true → given (fo_ObjectKey item) = true → given (fo_ContentType item) = true →
  given (OriginalName item) = true →
  travels (λ env, on_files (repo_CreateFile DB env item)) (enc_ok c_FileObject)
    (file_CreateFile invalidate user_match DB generate compare net item).
Proof. intros. travel_struct 201%Z; [not_refused|read_with c_FileObject]. Qed.
End requests.
