(* ===== verification/Composition.v ===== *)
(** * Services and dbman together

    What holds of a service, its client and dbman as a whole: the stores of the services refine
    dbman's operations; a write whose answer is lost is made twice; an error of dbman counts
    against the endpoint it came from; and no request can create a user, since the password does
    not travel. *)

From S2P Require Import Prelude GoStrings GoEncoding Cursor EndpointClient Env Auth SessionStore Paging ChatStore.
From S2P Require Import GoJson GoTime JsonText ChatService Users Tenants FileStore Wire Gin Binding DbmanApi Rpc Clients Remote.
From S2P Require Import ChatApi RemoteChat RemoteOrg.

(** ** A request that dbman refuses whenever it arrives *)
Section refused.
Context {A W : Type}.
Variables (clock : nat → time * time) (act : nat → string → string → string → W → W * outcome A).

Lemma world_loop_refused path body w :
  (∀ k e, (act k e path body w).1 = w ∧ ∀ st d, (act k e path body w).2 = Response st d → (300 ≤ st)%Z) →
  ∀ fuel off start lastErr c, ∃ c' err, world_loop clock act fuel off start path body lastErr c w = ((c', w), Err err).
Proof.
  intros Hact. induction fuel as [|fuel IH]; intros off start lastErr c; cbn [world_loop]; [eauto|].
  set (e := endpoint_at _ _ _). destruct (isCoolingDown e _ c) as [c1 cooling]. destruct cooling; [apply IH|].
  destruct (Hact off e) as [Hw Hst]. destruct (act off e path body w) as [w1 out]. cbn [fst snd] in Hw, Hst. subst w1.
  destruct out as [er|er|st d]; [apply IH|apply IH|]. specialize (Hst st d eq_refl).
  destruct (500 <=? st)%Z; [apply IH|]. rewrite (proj2 (Z.leb_le 300 st)) by done. eauto.
Qed.
End refused.

Section composition.
Context `{Postgres} `{Gin} {R : Type} (invalidate : string → R → R) (user_match : User → string → bool).
Variable DB : string → result unit.
Variables (generate : string → result string) (compare : string → string → result unit).
Variable net : nat → nat → Delivery.
Notation Dbman := (Dbman (R := R)).
Notation Remote := (Remote (R := R)).
Notation serve := (serve_post invalidate user_match DB generate compare).
Notation post := (post invalidate user_match DB generate compare net).

(** dbman answers this request with an error on these tables, whatever the moment. *)
Definition refuses (st : Z) (path : string) (payload : json) (w : Dbman) : Prop :=
  ∀ env, ∃ msg, serve env (BasePath +:+ path) (marshal_json payload) w = (w, Answered (RError st msg)).

Lemma post_refused {A} path payload (read : json → option A) (s : Remote) :
  (∀ env, ∃ st msg, (300 ≤ st)%Z ∧ serve env (BasePath +:+ path) (marshal_json payload) (rm_db s) = (rm_db s, Answered (RError st msg))) →
  ∃ c err, post path payload read s = (mkRemote c (rm_db s) (S (rm_calls s)), Err err).
Proof.
  intros Href. unfold Clients.post, call. destruct (decide (endpoints (rm_client s) = [])) as [He|He].
  - unfold post_world. rewrite He. eauto.
  - rewrite post_world_loop by done. rewrite base_path.
    assert (Hact : ∀ k e, (attempt invalidate user_match DB generate compare (net (rm_calls s)) read k e
        (BasePath +:+ path) (marshal_json payload) (rm_db s)).1 = rm_db s ∧ ∀ st d,
        (attempt invalidate user_match DB generate compare (net (rm_calls s)) read k e
          (BasePath +:+ path) (marshal_json payload) (rm_db s)).2 = Response st d → (300 ≤ st)%Z).
    { intros k e. unfold attempt, exchange. destruct (Href (d_env (net (rm_calls s) k))) as (st & msg & Hst & Hs). rewrite Hs.
      destruct (d_fate _); cbn; (split; [done|]); intros st' d; [done..|]. by intros [= <- _]. }
    edestruct (world_loop_refused (λ k, d_clock (net (rm_calls s) k)) _ _ _ _ Hact) as (c & err & ->). eauto.
Qed.

(** ** Users *)

Lemma dec_field_ind {A} (P : A → Prop) (c : codec A) ws :
  (∀ a v a', dec c a v = Some a' → P a → P a') → ∀ old a, dec_field c old ws = Some a → P old → P a.
Proof.
  intros Hdec. unfold dec_field. induction ws as [|v ws IH] using rev_ind; intros old a; cbn; [by intros [= ->]|].
  rewrite foldl_app. cbn. destruct (foldl _ _ ws) as [b|] eqn:E; [|done]. cbn. intros Hd Hold.
  eapply Hdec; [exact Hd|]. by eapply IH.
Qed.

Lemma decoded_user_has_no_password old v u : dec c_User old v = Some u → PasswordHash old = "" → PasswordHash u = "".
Proof.
  unfold c_User, c_struct. cbn [dec]. unfold dec_object.
  destruct v; try done; cbn [f_decode];
  repeat match goal with |- context [dec_field ?c ?o ?ws ≫= _] => destruct (dec_field c o ws); cbn [mbind option_bind]; [|done] end;
  by intros [= <-].
Qed.

Lemma createUser_refused env body (w : Dbman) :
  ∃ st msg, (400 ≤ st)%Z ∧ createUser DB generate env body w = (w, RError st msg).
Proof.
  unfold createUser, with_body, ShouldBindJSON. destruct (parse_json body) as [v|]; [|by eexists _, _].
  destruct (dec_object _ _ v) as [[t user]|] eqn:E; [|by eexists _, _].
  assert (PasswordHash user = "") as Hp.
  { assert (∀ ws u, required_value c_User ws = Some u → PasswordHash u = "") as Hreq.
    { intros ws u. unfold required_value. destruct (dec_field c_User _ ws) as [u'|] eqn:Ed; [|done]. cbn.
      case_match; [done|]. intros [= <-]. by eapply (dec_field_ind _ _ _ decoded_user_has_no_password _ _ Ed). }
    revert E. unfold dec_object. destruct v; try done;
    destruct (required c_string _); cbn [mbind option_bind]; try done;
    destruct (required_value c_User _) eqn:Eu; cbn [mbind option_bind]; try done;
    intros [= _ <-]; by eapply Hreq. }
  unfold answer, on_org, dbman_CreateUser. rewrite Hp. cbn. exists 500%Z, "password is required".
  split; [lia|]. by destruct w.
Qed.

(** ** Endpoints that answer with errors *)

(** Requests in a row, their answers thrown away. *)
Fixpoint run_posts (reqs : list (string * json)) (s : Remote) : Remote :=
  match reqs with
  | [] => s
  | (path, payload) :: rest => run_posts rest (post path payload (λ _, Some tt) s).1
  end.

(** The one endpoint of the client, which has failed [k] times and is not cooling down. *)
Definition strained (e : string) (k : Z) (c : Client) : Prop :=
  endpoints c = [e] ∧ cooldownTo c !! e = None ∧ failures c e = k.

Lemma strained_ready e k c : strained e k c → ready c.
Proof. intros (He & Hc & _). split; [by rewrite He|]. rewrite He. by intros e' ->%list_elem_of_singleton. Qed.

Lemma endpoint_at_only (e : string) start k : endpoint_at [e] start k = e.
Proof. unfold endpoint_at. cbn [length]. by rewrite Z.mod_1_r. Qed.

Lemma strained_first e k c : strained e k c → first_endpoint c = e.
Proof.
  intros (He & _). unfold first_endpoint. rewrite He. apply endpoint_at_only.
Qed.

Lemma post_500 {A} path payload (read : json → option A) s e k :
  strained e k (rm_client s) → delivered net s → refuses 500 path payload (rm_db s) →
  ∃ err, post path payload read s
    = (mkRemote (onFailure e (d_clock (net (rm_calls s) 0)).2
         (set_next (wrap32u (next (rm_client s) + 1)) (rm_client s))) (rm_db s) (S (rm_calls s)), Err err).
Proof.
  intros Hs Hdel Href. unfold Clients.post.
  pose proof (first_attempt invalidate user_match DB generate compare net (BasePath +:+ path) payload read s
    (strained_ready _ _ _ Hs) Hdel) as Hone. cbv zeta in Hone. rewrite base_path in Hone.
  destruct (Href (first_env net s)) as [msg Hm]. unfold exchange in Hone. rewrite Hm in Hone. destruct Hone as (H500 & _).
  rewrite (strained_first _ _ _ Hs) in H500. eexists. apply H500; cbn; [lia|]. destruct Hs as (-> & _). done.
Qed.

Lemma onFailure_strained e k now c n :
  strained e k c → (k + 1 < failThreshold c)%Z → strained e (k + 1) (onFailure e now (set_next n c)).
Proof.
  intros (He & Hc & Hk) Hlt. unfold strained. rewrite failures_onFailure, decide_True by done.
  change (failures (set_next n c) e) with (failures c e). change (failThreshold (set_next n c)) with (failThreshold c).
  rewrite Hk. rewrite (proj2 (Z.leb_gt (failThreshold c) (k + 1))) by lia. split_and!; [..|done].
  - by destruct (onFailure_frame e now (set_next n c)) as (-> & _).
  - unfold onFailure. change (failureCnt (set_next n c)) with (failureCnt c).
    change (default 0 (failureCnt c !! e))%Z with (failures c e). rewrite Hk.
    change (failThreshold (set_next n c)) with (failThreshold c).
    by rewrite (proj2 (Z.leb_gt (failThreshold c) (k + 1))) by lia.
Qed.

Lemma onFailure_opens e k now c n :
  strained e k c → (failThreshold c ≤ k + 1)%Z →
  cooldownTo (onFailure e now (set_next n c)) !! e = Some (now + endpointCooldown c)%Z.
Proof.
  intros (He & Hc & Hk) Hle. unfold onFailure. change (failureCnt (set_next n c)) with (failureCnt c).
  change (default 0 (failureCnt c !! e))%Z with (failures c e). rewrite Hk.
  change (failThreshold (set_next n c)) with (failThreshold c).
  rewrite (proj2 (Z.leb_le (failThreshold c) (k + 1))) by lia. cbn. by rewrite lookup_insert_eq.
Qed.

(** What a run of refused requests leaves, when it ends with the threshold. *)
Lemma refused_run reqs e k s :
  strained e k (rm_client s) → reqs ≠ [] → (k + Z.of_nat (length reqs) = failThreshold (rm_client s))%Z →
  (∀ i, i < length reqs → d_fate (net (rm_calls s + i) 0) = Delivered) →
  Forall (λ r, refuses 500 r.1 r.2 (rm_db s)) reqs →
  let s' := run_posts reqs s in
  rm_db s' = rm_db s ∧ rm_calls s' = rm_calls s + length reqs ∧ endpoints (rm_client s') = [e]
  ∧ cooldownTo (rm_client s') !! e
    = Some ((d_clock (net (rm_calls s + length reqs - 1) 0)).2 + endpointCooldown (rm_client s))%Z.
Proof.
  revert k s. induction reqs as [|[path payload] reqs IH]; intros k s Hs Hne Hlen Hdel Href; [done|].
  apply Forall_cons in Href as [Href Hrefs].
  destruct (post_500 path payload (λ _, Some tt) s e k Hs) as [err Herr]; [|exact Href|].
  { unfold delivered. rewrite <-(Nat.add_0_r (rm_calls s)). apply Hdel. cbn. lia. }
  cbn [run_posts]. rewrite Herr. cbn [fst]. set (c' := onFailure _ _ _).
  destruct (onFailure_frame e (d_clock (net (rm_calls s) 0)).2 (set_next (wrap32u (next (rm_client s) + 1)) (rm_client s)))
    as (Heps & Hthr & Hcd). fold c' in Heps, Hthr, Hcd. cbn [length] in Hlen.
  destruct reqs as [|r reqs].
  - cbn. split_and!; [done|lia|rewrite Heps; by destruct Hs|].
    replace (rm_calls s + 1 - 1) with (rm_calls s) by lia. apply (onFailure_opens e k); [done|]. cbn in Hlen. lia.
  - destruct (IH (k + 1)%Z (mkRemote c' (rm_db s) (S (rm_calls s)))) as (H1 & H2 & H3 & H4); cbn [rm_client rm_db rm_calls].
    + apply onFailure_strained; [done|]. cbn [length] in Hlen. lia.
    + done.
    + rewrite Hthr. cbn in Hlen |- *. lia.
    + intros i Hi. replace (S (rm_calls s) + i) with (rm_calls s + S i) by lia. apply Hdel. cbn in Hi |- *. lia.
    + done.
    + cbn [rm_client rm_db rm_calls] in *. split_and!; [done|rewrite H2; cbn; lia|done|]. rewrite H4, Hcd.
      cbn [length]. change (endpointCooldown (set_next _ (rm_client s))) with (endpointCooldown (rm_client s)).
      by replace (S (rm_calls s) + S (length reqs) - 1) with (rm_calls s + S (S (length reqs)) - 1) by lia.
Qed.

(** A call while the one endpoint cools down does not reach dbman. *)
Lemma post_cooling {A} path payload (read : json → option A) s e until :
  endpoints (rm_client s) = [e] → cooldownTo (rm_client s) !! e = Some until →
  ((d_clock (net (rm_calls s) 0)).1 ≤ until)%Z →
  ∃ c, post path payload read s = (mkRemote c (rm_db s) (S (rm_calls s)), Err "dbman request failed").
Proof.
  intros He Hc Hnow. unfold Clients.post, call. rewrite post_world_loop by by rewrite He.
  rewrite He. cbn [length world_loop]. change (endpoints (set_next _ (rm_client s))) with (endpoints (rm_client s)).
  rewrite He, endpoint_at_only.
  unfold isCoolingDown. change (cooldownTo (set_next _ (rm_client s))) with (cooldownTo (rm_client s)). rewrite Hc.
  rewrite (proj2 (Z.ltb_ge until (d_clock (net (rm_calls s) 0)).1)) by done. cbn. eauto.
Qed.

(** * Properties *)

(** C4: The stores of the services refine dbman.  When endpoints are configured and none is cooling down, and the first
    attempt of a call goes through, then a request of the chat service's store interface, of the session service's or
    of orgHub's, made over the network (marshalled, routed, bound, run, answered, decoded), has the value and leaves
    the tables of dbman's operation called directly, at the moment and with the identifiers of the dbman that ran it,
    with the limit of an inbox as dbman's handler clamps it; the client is ready for the next call.  When the
    operation fails, a client with one endpoint fails, and the tables are as before.  The request's arguments must be
    ones dbman's handlers accept and JSON carries: the identifiers and texts the handlers require are not empty, a chat
    notification is not all empty, texts are valid UTF-8, times are ones RFC 3339 can write and numbers fit 64 bits,
    and a user to be created has no password (one with a password never arrives: see no_user_over_the_network); and
    the value the operation answers must be one JSON carries. *)
Theorem stores_refine_dbman (s : Remote) :
  ready (rm_client s) → delivered net s →
  (∀ A (rq : chat_request A),
     let direct := on_chat (run_request (H := dbman_chat_store DB) (first_env net s) rq) in
     valid_request rq = true → (∀ w a, direct (rm_db s) = (w, Ok a) → answer_ok rq a = true) →
     same_outcome direct s
       (run_request (H := rpc_chat_store invalidate user_match DB generate compare net) (first_env net s) rq s))
  ∧ (∀ A (rq : session_request A),
     let direct := on_session (run_session (H := repo_store DB) (first_env net s) (served_session rq)) in
     valid_session rq = true → (∀ w a, direct (rm_db s) = (w, Ok a) → session_answer_ok rq a = true) →
     same_outcome direct s
       (run_session (H := rpc_session_store invalidate user_match DB generate compare net) (first_env net s) rq s))
  ∧ (∀ A (rq : org_request A),
     let direct := on_org (run_org (H := dbman_org_store user_match DB generate compare) (first_env net s) rq) in
     valid_org rq = true → (∀ w a, direct (rm_db s) = (w, Ok a) → org_answer_ok rq a = true) →
     same_outcome direct s
       (run_org (H := rpc_org_store invalidate user_match DB generate compare net) (first_env net s) rq s)).
Proof.
  intros Hr Hd. split_and!; intros A rq direct Hv Hans.
  - exact (travels_outcome _ _ _ _ _ _ _ _ _ s (chat_request_travels _ _ _ _ _ _ rq _ Hv) Hr Hd Hans).
  - exact (travels_outcome _ _ _ _ _ _ _ _ _ s (session_request_travels _ _ _ _ _ _ rq _ Hv) Hr Hd Hans).
  - exact (travels_outcome _ _ _ _ _ _ _ _ _ s (org_request_travels _ _ _ _ _ _ rq _ Hv) Hr Hd Hans).
Qed.

(** C17: A write whose answer is lost is made twice.  When the first attempt at storing a message
    reaches dbman but its answer does not come back, the client tries the next endpoint: the
    caller sees one message, and the tables hold two, with the same author, room and body. *)
Theorem lost_reply_stores_twice (m : Message) (s : Remote) e env d1 m1 d2 m2 :
  let chat (w : Dbman) := o_chat (db_org w) in
  ready (rm_client s) → NoDup (endpoints (rm_client s)) → 2 ≤ length (endpoints (rm_client s)) →
  d_fate (net (rm_calls s) 0) = LostReply e → d_fate (net (rm_calls s) 1) = Delivered →
  valid_request (RqCreateMessage m) = true →
  repo_CreateMessage DB (d_env (net (rm_calls s) 0)) m (chat (rm_db s)) = (d1, Ok m1) →
  repo_CreateMessage DB (d_env (net (rm_calls s) 1)) m d1 = (d2, Ok m2) → enc_ok c_Message m2 = true →
  let '(s', r) := st_CreateMessage (ChatBackend := rpc_chat_store invalidate user_match DB generate compare net) env m s in
  r = Ok m2 ∧ messages (chat (rm_db s')) = messages (chat (rm_db s)) ++ [as_stored m1; as_stored m2]
  ∧ m_ID m1 ≠ m_ID m2 ∧ m_RoomID m1 = m_RoomID m2 ∧ SenderID m1 = SenderID m2 ∧ m_Body m1 = m_Body m2.
Proof.
  intros chat Hr Hnd H2 Hf0 Hf1 Hv E1 E2 Hok.
  destruct (create_message_stored DB _ _ _ _ _ E1) as (Hm1 & _ & Hid1 & Hfields1).
  destruct (create_message_stored DB _ _ _ _ _ E2) as (Hm2 & Hnew & Hid2 & Hfields2).
  destruct (travels_twice _ _ _ _ _ _ _ _ _ s e
    (mkDbman (set_o_chat d1 (db_org (rm_db s))) (db_files (rm_db s)) (db_session (rm_db s)) (db_tenants (rm_db s))) (Ok m1)
    (mkDbman (set_o_chat d2 (db_org (rm_db s))) (db_files (rm_db s)) (db_session (rm_db s)) (db_tenants (rm_db s))) m2
    (chat_request_travels invalidate user_match DB generate compare net (RqCreateMessage m) env Hv) Hr Hnd H2 Hf0 Hf1)
    as (c & Hc & _); [| |exact Hok|].
  - cbn. unfold on_chat, on_org. fold (chat (rm_db s)). by rewrite E1.
  - cbn. unfold on_chat, on_org. cbn. by rewrite E2.
  - cbn [run_request] in Hc. rewrite Hc. cbn. split; [done|]. rewrite Hm2, Hm1, <-app_assoc. split; [done|].
    split; [|destruct Hfields1 as (? & ? & ?), Hfields2 as (? & ? & ?); split_and!; congruence].
    intros Heq. apply Hnew. rewrite Hm1, fmap_app, <-Heq. apply elem_of_app. right. by left.
Qed.

(** C11: No user is ever created over the network.  The password of a new user is a field that JSON
    leaves out, so whatever orgHub sends, on whatever network, and whatever anyone posts to
    dbman's route, dbman answers an error and stores nothing: orgHub's CreateUser always fails. *)
Theorem no_user_over_the_network (env : Env) (t : string) (user : User) (s : Remote) (body : string) :
  (∃ c err, og_CreateUser (OrgBackend := rpc_org_store invalidate user_match DB generate compare net) env t user s
            = (mkRemote c (rm_db s) (S (rm_calls s)), Err err))
  ∧ ∃ st msg, (400 ≤ st)%Z ∧ serve env (BasePath +:+ "/users/create") body (rm_db s) = (rm_db s, Answered (RError st msg)).
Proof.
  split.
  - apply post_refused. intros env'. destruct (createUser_refused env'
      (marshal_json (JObj [("tenant_id", JStr t); ("user", enc c_User user)])) (rm_db s)) as (st & msg & Hst & Hm).
    exists st, msg. split; [lia|]. by erewrite serve_base, Hm by reflexivity.
  - destruct (createUser_refused env body (rm_db s)) as (st & msg & Hst & Hm). exists st, msg. split; [done|].
    by erewrite serve_base, Hm by reflexivity.
Qed.

(** C12: Requests that dbman refuses cut a service off from it.  dbman answers a failed operation with
    500, which its clients count as a failure of the endpoint.  With one endpoint, as many
    refused requests as the threshold (here: requests that dbman answers with 500 on these tables)
    put it into cooldown: the next call of that service, whatever it is, fails without reaching
    dbman. *)
Theorem refused_requests_cut_off_service {A} reqs e (s : Remote) path payload (read : json → option A) :
  endpoints (rm_client s) = [e] → cooldownTo (rm_client s) !! e = None → failures (rm_client s) e = 0%Z →
  reqs ≠ [] → Z.of_nat (length reqs) = failThreshold (rm_client s) →
  (∀ i, i < length reqs → d_fate (net (rm_calls s + i) 0) = Delivered) →
  Forall (λ r, refuses 500 r.1 r.2 (rm_db s)) reqs →
  ((d_clock (net (rm_calls s + length reqs) 0)).1
   ≤ (d_clock (net (rm_calls s + length reqs - 1) 0)).2 + endpointCooldown (rm_client s))%Z →
  ∃ c, post path payload read (run_posts reqs s)
       = (mkRemote c (rm_db s) (S (rm_calls s + length reqs)), Err "dbman request failed").
Proof.
  intros He Hc Hf Hne Hlen Hdel Href Hnow.
  destruct (refused_run reqs e 0%Z s) as (H1 & H2 & H3 & H4); [done|done|lia|done|done|].
  destruct (post_cooling path payload read (run_posts reqs s) e _ H3 H4) as [c Hp]; [by rewrite H2|].
  exists c. by rewrite Hp, H1, H2.
Qed.
End composition.

(** * Concrete runs *)

#[local] Existing Instance demo_pg.

#[local] Instance demo_gin : Gin := {| bind_error _ := "EOF"; required_struct := true |}.

Definition demo_delivery (i : nat) (f : fate) : Delivery :=
  mkDelivery (Z.of_nat i, Z.of_nat i) (mkEnv 50 ("n" +:+ FormatInt (Z.of_nat i))) f.

(** A network that delivers; one that loses the first answer of every call. *)
Definition demo_up (call try : nat) : Delivery := demo_delivery (call + try) Delivered.
Definition demo_lossy (call try : nat) : Delivery :=
  demo_delivery (call + try) (if Nat.eqb try 0 then LostReply "timeout" else Delivered).

Definition demo_remote (eps : list string) : Remote (R := unit) :=
  mkRemote (NewClientWithEndpoints (λ _, "") eps)
    (mkDbman (mkOrgDB demo_chat [] []) [] (mkSessionDB ∅ ∅ ∅ ∅ [] [] []) (mkTenantService ∅ [])) 0.

Definition demo_message : Message := mkMessage "a" "" "r" "u" "hello" "{}" zero_time.

Lemma demo_ready eps : normalizeEndpoints eps ≠ [] → ready (rm_client (demo_remote eps)).
Proof. intros Hne. split; [done|]. intros e _. apply lookup_empty. Qed.

Lemma stores_refine_dbman_witness :
  same_outcome (on_chat (run_request (H := dbman_chat_store (λ _, Ok tt))
      (mkEnv 50 "n0") (RqCreateMessage demo_message))) (demo_remote ["http://a"])
    (run_request (H := rpc_chat_store (λ _, id) (λ _ _, true) (λ _, Ok tt) Ok (λ _ _, Ok tt) demo_up)
       (mkEnv 50 "n0") (RqCreateMessage demo_message) (demo_remote ["http://a"])).
Proof.
  apply (proj1 (stores_refine_dbman (λ _, id) (λ _ _, true) (λ _, Ok tt) Ok (λ _ _, Ok tt) demo_up (demo_remote ["http://a"])
    (demo_ready ["http://a"] ltac:(vm_compute; discriminate)) eq_refl) Message (RqCreateMessage demo_message)).
  - vm_compute. reflexivity.
  - intros w a E. vm_compute in E. injection E as <- <-. vm_compute. reflexivity.
Defined.

Lemma lost_reply_stores_twice_witness :
  m_Body <$> messages (o_chat (db_org (rm_db (st_CreateMessage (ChatBackend := rpc_chat_store (λ _, id) (λ _ _, true)
    (λ _, Ok tt) Ok (λ _ _, Ok tt) demo_lossy) (mkEnv 0 "") demo_message (demo_remote ["http://a"; "http://b"])).1)))
  = ["first"; "second"; "hello"; "hello"].
Proof.
  pose proof (lost_reply_stores_twice (λ _, id) (λ _ _, true) (λ _, Ok tt) Ok (λ _ _, Ok tt) demo_lossy demo_message
    (demo_remote ["http://a"; "http://b"]) "timeout" (mkEnv 0 "") _ _ _ _
    (demo_ready ["http://a"; "http://b"] ltac:(vm_compute; discriminate)) ltac:(by_computation) ltac:(vm_compute; lia) eq_refl eq_refl
    eq_refl eq_refl eq_refl ltac:(vm_compute; reflexivity)) as Ht.
  destruct (st_CreateMessage _ _ _) as [s' r]. cbn [fst]. destruct Ht as (_ & -> & _). reflexivity.
Defined.

(** In the witness three messages go to an unknown room; after that, a membership check fails. *)
Lemma refused_requests_cut_off_service_witness :
  ∃ c, post (λ _, id) (λ _ _, true) (λ _, Ok tt) Ok (λ _ _, Ok tt) demo_up "/rooms/members/check"
         (JObj [("room_id", JStr "r"); ("tenant_id", JStr "a"); ("user_id", JStr "u")]) (read_field c_bool "ok")
         (run_posts (λ _, id) (λ _ _, true) (λ _, Ok tt) Ok (λ _ _, Ok tt) demo_up
            (replicate 3 ("/messages", enc c_Message (mkMessage "a" "" "nowhere" "u" "x" "{}" zero_time)))
            (demo_remote ["http://a"]))
       = (mkRemote c (rm_db (demo_remote ["http://a"])) 4, Err "dbman request failed").
Proof.
  apply (refused_requests_cut_off_service (λ _, id) (λ _ _, true) (λ _, Ok tt) Ok (λ _ _, Ok tt) demo_up
    (replicate 3 ("/messages", enc c_Message (mkMessage "a" "" "nowhere" "u" "x" "{}" zero_time))) "http://a"
    (demo_remote ["http://a"])); try reflexivity; try discriminate.
  - cbn [replicate]. repeat apply Forall_cons_2; try apply Forall_nil_2; intros env; eexists; vm_compute; reflexivity.
Defined.
