(* ===== verification/EndToEnd.v ===== *)
(** * A message from the request to the tables

    chat's handler, its service, its dbman client, the network, dbman's handler and its tables in
    one run: what a request to send a message does when its first call arrives, whatever becomes
    of the calls after it. *)

From S2P Require Import Prelude GoStrings GoEncoding Cursor EndpointClient Env Auth SessionStore Paging ChatStore.
From S2P Require Import GoJson GoTime JsonText ChatService RealtimeRooms RealtimeWS Users Tenants FileStore Wire Gin Binding.
From S2P Require Import ChatApi DbmanApi Rpc Clients Remote RemoteChat Composition.

(** ** What every attempt preserves, the call preserves *)
Section keeps.
Context {A W : Type} (clock : nat → time * time) (act : nat → string → string → string → W → W * outcome A) (P : W → Prop).

Lemma world_loop_keeps path body :
  (∀ k e w, P w → P (act k e path body w).1) →
  ∀ fuel off start lastErr c w, P w → P (world_loop clock act fuel off start path body lastErr c w).1.2.
Proof.
  intros Hact. induction fuel as [|fuel IH]; intros off start lastErr c w Hw; cbn [world_loop]; [done|].
  set (e := endpoint_at _ _ _). destruct (isCoolingDown e _ c) as [c1 cooling]. destruct cooling; [by apply IH|].
  specialize (Hact off e w Hw). destruct (act off e path body w) as [w1 out]. cbn [fst] in Hact.
  by repeat case_match; try apply IH.
Qed.
End keeps.

Lemma created_in_tenant `{Postgres} (DB : string → result unit) env m d d' m' :
  repo_CreateMessage DB env m d = (d', Ok m') → m_TenantID m' = m_TenantID m ∧ MetaJSON m' = MetaJSON m.
Proof. unfold repo_CreateMessage. by repeat case_match; intros [= <- <-]. Qed.

Section end_to_end.
Context `{Postgres} `{Gin} {R : Type} (invalidate : string → R → R) (user_match : User → string → bool).
Variable DB : string → result unit.
Variables (generate : string → result string) (compare : string → string → result unit).
Variable net : nat → nat → Delivery.
Variables (useMQ hasMQ : bool) (vector : string → option string → Z → result (list string)).
Variable ClientForTenant : string → result unit.
Variable redis : string → wsEnvelope → result unit.
Notation Dbman := (Dbman (R := R)).
Notation Remote := (Remote (R := R)).

(** chat's store is dbman over the network. *)
#[local] Instance remote_store : ChatBackend Remote :=
  rpc_chat_store invalidate user_match DB generate compare net.
Notation App := (ChatApp (S := Remote)).

Definition chat_of (d : Dbman) : ChatDB := o_chat (db_org d).
(** The store of a chat process, and the messages behind it. *)
Definition store_of (w : App) : Remote := cstore (ca_chat w).
Definition stored (w : App) : list Message := messages (chat_of (rm_db (store_of w))).

Lemma post_keeps {A} (P : Dbman → Prop) path payload (read : json → option A) s :
  (∀ env w, P w → P (exchange invalidate user_match DB generate compare env (BasePath +:+ path) (marshal_json payload) w).1) →
  P (rm_db s) → P (rm_db (post invalidate user_match DB generate compare net path payload read s).1).
Proof.
  intros Hserve Hs. unfold Clients.post, call. destruct (decide (endpoints (rm_client s) = [])) as [He|He].
  { unfold post_world. by rewrite He. }
  rewrite post_world_loop by done. rewrite base_path.
  assert (∀ k e w, P w → P (attempt invalidate user_match DB generate compare (net (rm_calls s)) read k e
    (BasePath +:+ path) (marshal_json payload) w).1) as Hact.
  { intros k e w Hw. unfold attempt. specialize (Hserve (d_env (net (rm_calls s) k)) w Hw).
    destruct (d_fate _); [done|done|]. by destruct (exchange _ _ _ _ _ _ _ _ w). }
  pose proof (world_loop_keeps (λ k, d_clock (net (rm_calls s) k)) _ P _ _ Hact) as Hk.
  match goal with |- context [world_loop ?cl ?ac ?f ?o ?st ?p ?b ?l ?c ?w] =>
    specialize (Hk f o st l c w Hs); by destruct (world_loop cl ac f o st p b l c w) as [[c' w'] r] end.
Qed.

(** A read mark over any network leaves the messages. *)
Lemma mark_read_keeps_messages env t r u id s :
  messages (chat_of (rm_db (st_MarkReadUpTo env t r u id s).1)) = messages (chat_of (rm_db s)).
Proof.
  cbn [st_MarkReadUpTo remote_store rpc_chat_store]. unfold chat_MarkReadUpTo.
  apply (post_keeps (λ d, messages (chat_of d) = messages (chat_of (rm_db s)))); [|done].
  intros env' w Hw. erewrite exchange_base by reflexivity. unfold markReadUpTo, with_body.
  destruct (ShouldBindJSON _ _) as [[[[t' r'] u'] id']|]; [|done].
  unfold answer, on_chat, on_org. pose proof (mark_read_mute DB env' t' r' u' id' (chat_of w)) as Hm. unfold chat_of in *.
  destruct (repo_MarkReadUpTo DB env' t' r' u' id' (o_chat (db_org w))) as [d [[]|e]]; cbn in *; by rewrite Hm.
Qed.

(** What a client posts: the text, and the members it may leave out. *)
Record Posting := mkPosting {
  p_text : string;
  p_file : option string;
  p_files : option (list string);
  p_emojis : option (list string);
}.

Definition posting_json (p : Posting) : json :=
  JObj (("body", JStr (p_text p))
    :: from_option (λ f, [("file_id", JStr f)]) [] (p_file p)
    ++ from_option (λ fs, [("file_ids", JList (JStr <$> fs))]) [] (p_files p)
    ++ from_option (λ es, [("emojis", JList (JStr <$> es))]) [] (p_emojis p)).

(** A text that is there, in UTF-8 like the others. *)
Definition posting_ok (p : Posting) : bool :=
  given (p_text p) && from_option utf8 true (p_file p) && from_option (forallb utf8) true (p_files p)
  && from_option (forallb utf8) true (p_emojis p).

Lemma text_list_wf l : forallb utf8 l = true → wf_json (JList (JStr <$> l)) = true.
Proof. exact (enc_wf (c := c_list c_string) l). Qed.

Lemma texts_ok (o : option (list string)) : from_option (forallb utf8) true o = true → enc_ok (c_ptr (c_list c_string)) o = true.
Proof. destruct o as [l|]; [|done]. cbn. by rewrite andb_true_r. Qed.

Lemma message_binds p :
  posting_ok p = true →
  ShouldBindJSON (dec_object ["body"; "file_id"; "file_ids"; "emojis"] (λ o,
      body ← required c_string (o "body"); fileID ← optional (c_ptr c_string) (o "file_id");
      fileIDs ← optional (c_list c_string) (o "file_ids"); emojis ← optional (c_ptr (c_list c_string)) (o "emojis");
      Some (body, fileID, fileIDs, emojis))) (marshal_json (posting_json p))
  = Ok (p_text p, p_file p, default [] (p_files p), p_emojis p).
Proof.
  destruct p as [text file files emojis]. unfold posting_ok, posting_json. cbn [p_text p_file p_files p_emojis].
  intros [[[Ht Hf]%andb_true_iff Hfs]%andb_true_iff Hes]%andb_true_iff. apply bind_marshal.
  - destruct file as [fid|], files as [fids|], emojis as [es|]; cbn [from_option app] in *; each_member;
      first [reflexivity | by apply given_spec in Ht as [_ ?] | exact Hf | by apply text_list_wf].
  - pose proof (optional_enc (c_ptr (c_list c_string)) emojis (texts_ok _ Hes)) as He.
    unfold dec_object. destruct file as [fid|], files as [fids|], emojis as [es|]; cbn [from_option app] in *;
      rewrite !members_of_assoc by reflexivity; cbn [assoc String.eqb Ascii.eqb Bool.eqb];
      rewrite required_given by done; cbn [mbind option_bind];
      first [change (optional (c_ptr c_string) [JStr fid]) with (Some (Some fid))
            | change (optional (c_ptr c_string) []) with (Some (@None string))]; cbn [mbind option_bind];
      try (change (JList (JStr <$> fids)) with (enc (c_list c_string) fids); rewrite (optional_enc (c_list c_string) fids) by exact Hfs; cbn [mbind option_bind]);
      try (change (JList (JStr <$> es)) with (enc (c_ptr (c_list c_string)) (Some es)); rewrite He); reflexivity.
Qed.

(** The message a request asks for. *)
Definition asked (t r u : string) (p : Posting) : Message :=
  mkMessage t "" r u (p_text p) (BuildMessageMeta (p_file p) (default [] (p_files p)) (p_emojis p)) zero_time.

Lemma meta_utf8 fileID fileIDs emojis :
  from_option utf8 true fileID = true → forallb utf8 fileIDs = true → from_option (forallb utf8) true emojis = true →
  utf8 (BuildMessageMeta fileID fileIDs emojis) = true.
Proof.
  intros Hf Hfs Hes.
  assert (Hids : ∀ v, v ∈ normalizedFileIDs fileID fileIDs → utf8 v = true).
  { intros v (_ & raw & Hraw & ->)%elem_of_normalizedFileIDs. apply utf8_TrimSpace. destruct Hraw as [->|Hraw]; [exact Hf|].
    rewrite forallb_forall in Hfs. by apply Hfs, list_elem_of_In. }
  assert (Hall : forallb utf8 (normalizedFileIDs fileID fileIDs) = true).
  { apply forallb_forall. by intros v Hv%list_elem_of_In%Hids. }
  unfold BuildMessageMeta. apply utf8_marshal, wf_obj. apply Forall_cons. split.
  { split; [done|]. destruct emojis as [es|]; [|done]. by apply text_list_wf. }
  destruct (normalizedFileIDs fileID fileIDs) as [|id ids]; [constructor|].
  repeat (apply Forall_cons; split); [split; [done|apply Hids; by left]|split; [done|by apply text_list_wf]|constructor].
Qed.

Lemma asked_valid t r u p :
  given t = true → given r = true → given u = true → posting_ok p = true → valid_request (RqCreateMessage (asked t r u p)) = true.
Proof.
  unfold posting_ok. intros Ht Hr Hu [[[Hx Hf]%andb_true_iff Hfs]%andb_true_iff Hes]%andb_true_iff.
  cbn [valid_request asked m_TenantID m_RoomID SenderID]. rewrite Ht, Hr, Hu. cbn [andb].
  assert (utf8 (BuildMessageMeta (p_file p) (default [] (p_files p)) (p_emojis p)) = true) as Hm.
  { apply meta_utf8; [done| |done]. by destruct (p_files p). }
  apply given_spec in Ht as [_ Ht], Hr as [_ Hr], Hu as [_ Hu], Hx as [_ Hx].
  unfold c_Message, c_struct, asked. cbn -[utf8 BuildMessageMeta encodable]. rewrite Ht, Hr, Hu, Hx, Hm. reflexivity.
Qed.

(** The service stores the message, whatever becomes of the read mark. *)
Lemma create_over_network env msg (s : ChatSvc Remote) d m :
  valid_request (RqCreateMessage msg) = true → MetaJSON msg ≠ "" →
  ready (rm_client (cstore s)) → delivered net (cstore s) →
  repo_CreateMessage DB (first_env net (cstore s)) msg (chat_of (rm_db (cstore s))) = (d, Ok m) → enc_ok c_Message m = true →
  ∃ s', CreateMessage useMQ hasMQ env msg s = (s', Ok m) ∧ messages (chat_of (rm_db (cstore s'))) = messages d.
Proof.
  intros Hv Hmeta Hready Hdel Hrepo Hok. unfold CreateMessage. rewrite decide_False by done.
  assert (mkMessage (m_TenantID msg) (m_ID msg) (m_RoomID msg) (SenderID msg) (m_Body msg) (MetaJSON msg) (m_CreatedAt msg) = msg)
    as -> by by destruct msg.
  pose proof (travels_outcome _ _ _ _ _ _ _ _ _ (cstore s)
    (chat_request_travels invalidate user_match DB generate compare net (RqCreateMessage msg) env Hv) Hready Hdel) as Hone.
  cbn [run_request st_CreateMessage dbman_chat_store] in Hone. unfold same_outcome, on_chat, on_org in Hone.
  fold (chat_of (rm_db (cstore s))) in Hone. rewrite Hrepo in Hone.
  destruct Hone as (c & Hcall & _ & _). { intros w a [= _ <-]. exact Hok. }
  unfold on_cstore at 1. cbn [st_CreateMessage remote_store rpc_chat_store] in Hcall |- *. rewrite Hcall.
  set (s1 := if IsMQEnabled useMQ hasMQ then _ else _).
  assert (messages (chat_of (rm_db (cstore s1))) = messages d) as Hs1 by (subst s1; by destruct (IsMQEnabled useMQ hasMQ)).
  clearbody s1. unfold on_cstore. cbn [cstore mq_sent indexed].
  pose proof (mark_read_keeps_messages env (m_TenantID msg) (m_RoomID m) (SenderID m) (m_ID m) (cstore s1)) as Hkeep.
  destruct (st_MarkReadUpTo env (m_TenantID msg) (m_RoomID m) (SenderID m) (m_ID m) (cstore s1)) as [st r].
  eexists. split; [done|]. cbn in *. by rewrite Hkeep.
Qed.

(** The envelope of a message that was stored. *)
Definition announcement (r u : string) (m : Message) : wsEnvelope := mkWsEnvelope "message" r u "" (PMessage m).

(** What the handler makes of a message that is stored: MQ carries it, or the room's channel, which may refuse it. *)
Definition after_storing (t r u : string) (m : Message) (w : App) : App * response json :=
  if IsMQEnabled useMQ hasMQ then (w, RJson 201 (enc c_Message m))
  else
    match ClientForTenant t with
    | Err e => (w, RError 500 e)
    | Ok _ =>
        match redis (room_channel t r) (announcement r u m) with
        | Err e => (w, RError 500 e)
        | Ok _ => (mkChatApp (ca_chat w) (ca_out w ++ [(room_channel t r, announcement r u m)]), RJson 201 (enc c_Message m))
        end
    end.

Lemma posted_message_run env rq t r u role p (w : App) d m :
  HasPrefix (headers (rq_ctx rq) "Authorization") "Bearer " = true →
  rq_body rq = marshal_json (posting_json p) → rq_param rq "id" = r →
  given t = true → given r = true → given u = true → posting_ok p = true →
  ready (rm_client (store_of w)) → delivered net (store_of w) →
  repo_CreateMessage DB (first_env net (store_of w)) (asked t r u p) (chat_of (rm_db (store_of w))) = (d, Ok m) →
  enc_ok c_Message m = true →
  ∃ s', messages (chat_of (rm_db (cstore s'))) = messages d
    ∧ serve_chat useMQ hasMQ vector ClientForTenant redis (λ _, Ok (u, t, role)) env "POST /api/v1/rooms/:id/messages" rq w
      = after_storing t r u m (mkChatApp s' (ca_out w)).
Proof.
  intros Hauth Hbody Hparam Ht Hr Hu Hx Hready Hdel Hrepo Hok.
  unfold serve_chat. cbn [find_route chat_routes]. do 4 (rewrite decide_False by done). rewrite decide_True by done.
  cbn [guarded].
  assert (∃ c, AuthRequired (λ _, Ok (u, t, role)) (rq_ctx rq) = Next c) as [c Hc].
  { unfold AuthRequired. rewrite Hauth. cbn [negb]. eauto. }
  destruct (auth_context_inv _ _ _ Hc) as (token & u' & t' & role' & _ & [= <- <- <-] & Htc & Hac). rewrite Hc.
  unfold api_createMessage, with_tenant, with_actor, with_body. cbn [rq_ctx rq_body with_ctx].
  rewrite Htc, Hac, Hbody, message_binds by done. change (Param (with_ctx c rq) "id") with (rq_param rq "id"). rewrite Hparam.
  unfold create_and_publish, on_svc.
  fold (asked t r u p).
  destruct (create_over_network env (asked t r u p) (ca_chat w) d m) as (s' & Hc' & Hs');
    [by apply asked_valid|done|done|done|done|done|].
  exists s'. split; [done|]. rewrite Hc'. unfold after_storing. destruct (IsMQEnabled useMQ hasMQ); [done|].
  unfold PublishMessage, announcement. destruct (ClientForTenant t) as [|e]; [by destruct (redis _ _) as [|e]|done].
Qed.

(** C15: A request to send a message, from chat's handler to dbman's tables.  The body is the JSON text of an object
    with a text, a file, files and emojis, each of the last three or not.  When the first call arrives at dbman and the
    message can be stored there, then, whatever becomes of the call that marks it read (it may be lost, be
    repeated, or fail), exactly one message more is in the tables, the one that was asked for, from the user and in the
    tenant of the token, with the text and with the metadata made of the files and emojis (the column is JSONB:
    it reads back as PostgreSQL writes that JSON); the answer is that message with 201, or an error, of its
    publication; and it is announced on the room's channel as dbman answered it, or not at all.  (Dbman's endpoints are
    configured and none is cooling down; tenant, room, user and text are not empty, everything is UTF-8, and what dbman
    answers can be written as JSON.) *)
Theorem posted_message_reaches_tables env rq t r u role p (w : App) d m :
  HasPrefix (headers (rq_ctx rq) "Authorization") "Bearer " = true →
  rq_body rq = marshal_json (posting_json p) → rq_param rq "id" = r →
  given t = true → given r = true → given u = true → posting_ok p = true →
  ready (rm_client (store_of w)) → delivered net (store_of w) →
  repo_CreateMessage DB (first_env net (store_of w)) (asked t r u p) (chat_of (rm_db (store_of w))) = (d, Ok m) →
  enc_ok c_Message m = true →
  let '(w', res) := serve_chat useMQ hasMQ vector ClientForTenant redis (λ _, Ok (u, t, role)) env
                      "POST /api/v1/rooms/:id/messages" rq w in
  stored w' = stored w ++ [as_stored m] ∧ m_TenantID m = t ∧ m_RoomID m = r ∧ SenderID m = u ∧ m_Body m = p_text p
  ∧ MetaJSON m = BuildMessageMeta (p_file p) (default [] (p_files p)) (p_emojis p) ∧ m_ID m ∉ m_ID <$> stored w
  ∧ (res = RJson 201 (enc c_Message m) ∨ ∃ e, res = RError 500 e)
  ∧ (ca_out w' = ca_out w ∨ ca_out w' = ca_out w ++ [(room_channel t r, mkWsEnvelope "message" r u "" (PMessage m))]).
Proof.
  intros Hauth Hbody Hparam Ht Hr Hu Hx Hready Hdel Hrepo Hok.
  destruct (posted_message_run env rq t r u role p w d m) as (s' & Hs' & ->); [done..|].
  destruct (create_message_stored DB _ _ _ _ _ Hrepo) as (Hd & Hnew & _ & Hmr & Hmu & Hmb).
  destruct (created_in_tenant DB _ _ _ _ _ Hrepo) as [Hmt Hmm]. rewrite Hd in Hs'.
  assert (stored (mkChatApp s' (ca_out w)) = stored w ++ [as_stored m]) as Hst by exact Hs'.
  unfold after_storing, announcement. destruct (IsMQEnabled useMQ hasMQ); [|destruct (ClientForTenant t); [destruct (redis _ _)|]];
    split_and!; eauto.
Qed.
End end_to_end.

(** * A concrete run *)

#[local] Existing Instance demo_pg.
#[local] Instance demo_gin : Gin := {| bind_error _ := "EOF"; required_struct := true |}.

(** The first call arrives, every later attempt is lost. *)
Definition demo_once (call try : nat) : Delivery :=
  demo_delivery (call + try) (if Nat.eqb call 0 then Delivered else Lost "connection refused").

Definition demo_remote_app : ChatApp (S := Remote (R := unit)) :=
  mkChatApp (mkChatSvc (demo_remote ["http://a"]) [] []) [].

Definition demo_posting : Posting := mkPosting "hi" (Some " f1") None (Some [":)"]).

Lemma posted_message_reaches_tables_witness :
  let '(w', res) := serve_chat (H0 := remote_store (λ _, id) (λ _ _, true) (λ _, Ok tt) Ok (λ _ _, Ok tt) demo_once)
    false false (λ _ _ _, Err "off") (λ _, Ok tt) (λ _ _, Ok tt) (λ _, Ok ("u", "a", "user")) (mkEnv 0 "")
    "POST /api/v1/rooms/:id/messages" (demo_request (marshal_json (posting_json demo_posting))) demo_remote_app in
  m_Body <$> stored w' = ["first"; "second"; "hi"] ∧ status_of res = 201%Z.
Proof.
  pose proof (posted_message_reaches_tables (λ _, id) (λ _ _, true) (λ _, Ok tt) Ok (λ _ _, Ok tt) demo_once false false
    (λ _ _ _, Err "off") (λ _, Ok tt) (λ _ _, Ok tt) (mkEnv 0 "")
    (demo_request (marshal_json (posting_json demo_posting))) "a" "r" "u" "user" demo_posting demo_remote_app _ _
    eq_refl eq_refl eq_refl eq_refl eq_refl eq_refl eq_refl (demo_ready ["http://a"] ltac:(vm_compute; discriminate)) eq_refl
    eq_refl ltac:(vm_compute; reflexivity)) as Ht.
  match goal with |- let '(_, _) := ?x in _ => assert (status_of x.2 = 201%Z) as Hst by (vm_compute; reflexivity); destruct x as [w' res] end.
  split; [|exact Hst]. destruct Ht as (-> & _). reflexivity.
Defined.

(** ** A frame that is stored twice *)

#[local] Existing Instance map_redis.

(** The answer of the first call is lost; the other calls arrive. *)
Definition demo_flaky (call try : nat) : Delivery :=
  demo_delivery (call + try) (if Nat.eqb call 0 then LostReply "timeout" else Delivered).

Definition demo_remote_world : WSWorld (Remote (R := unit)) (gmap string time) :=
  mkWSWorld (mkChatSvc (demo_remote ["http://a"]) [] []) ∅ [] [] [].

(** With one endpoint, a message whose answer is lost is stored and reported as not persisted; its idempotency key is
    deleted, and the client's second attempt, with the same client_msg_id, is stored too. *)
Lemma lost_reply_stores_frame_twice :
  let handle w := (handle_frame (H := remote_store (λ _, id) (λ _ _, true) (λ _, Ok tt) Ok (λ _ _, Ok tt) demo_flaky)
                     false false demo_cx (mkEnv 90 "") (Ok demo_frame) w).2 in
  let stored w := m_Body <$> messages (chat_of (rm_db (cstore (w_chat w)))) in
  let w1 := handle demo_remote_world in
  let w2 := handle w1 in
  w_errors w1 = [(7, "failed to persist message")] ∧ w_redis w1 = ∅ ∧ stored w1 = ["first"; "second"; "hi"]
  ∧ stored w2 = ["first"; "second"; "hi"; "hi"] ∧ m_Body ∘ snd <$> w_created w2 = ["hi"].
Proof. cbv zeta. split_and!; vm_compute; reflexivity. Qed.
