(* ===== verification/Delivery.v ===== *)
(** * A message from the request to the sockets of its room

    [EndToEnd] takes a posted message to the tables and to the room's channel.  Here Redis takes it to the nodes that
    have sockets in the room, and their consumers to these sockets, as the text a client can read. *)

From S2P Require Import Prelude GoStrings GoEncoding Cursor EndpointClient Env Auth SessionStore Paging ChatStore.
From S2P Require Import GoJson GoTime JsonText ChatService RealtimeRooms RealtimeWS Users Tenants FileStore Wire Gin Binding.
From S2P Require Import ChatApi DbmanApi Rpc Clients Remote RemoteChat Composition EndToEnd.

(** ** The text of an envelope *)

(** What [json.Marshal] writes for a [wsEnvelope]. *)
(* server/chat/service/realtime_service.go: wsEnvelope *)
Definition envelope_json (e : wsEnvelope) : json :=
  JObj [("type", JStr (Type_ e)); ("room_id", JStr (ws_RoomID e)); ("user_id", JStr (ws_UserID e));
        ("target_id", JStr (TargetID e));
        ("payload", match ws_Payload e with PAny v => v | PMessage m => enc c_Message m end)].

Definition frame (e : wsEnvelope) : string := marshal_json (envelope_json e).

(** A client that reads a frame: the message in it. *)
Definition read_frame (text : string) : option Message :=
  v ← parse_json text;
  match v with
  | JObj ms => match assoc "payload" ms with [p] => dec c_Message (zero c_Message) p | _ => None end
  | _ => None
  end.

Lemma read_announcement r u m :
  utf8 r = true → utf8 u = true → enc_ok c_Message m = true → read_frame (frame (announcement r u m)) = Some m.
Proof.
  intros Hr Hu Hm. unfold read_frame, frame. rewrite parse_marshal.
  - cbn [mbind option_bind envelope_json announcement assoc String.eqb Ascii.eqb Bool.eqb ws_Payload]. by apply dec_enc.
  - apply wf_obj. repeat (apply Forall_cons; split); try (by split); [split; [done|]|constructor]. by apply enc_wf.
Qed.

(** ** A node *)

(** The consumer of a room, when it has subscribed to a channel of a Redis server and has not returned. *)
Definition listens (redis channel k : string) (s : RealtimeService) : Prop :=
  ∃ st c, rooms s !! k = Some st ∧ consumers s !! cancel st = Some c
    ∧ c_redis c = redis ∧ c_channel c = channel ∧ c_phase c ≠ Starting ∧ c_phase c ≠ Returned.

(** The consumer of a room runs until it has nothing to do. *)
Definition settle (k : string) (s : RealtimeService) : RealtimeService :=
  match rooms s !! k with
  | None => s
  | Some st =>
      match consumers s !! cancel st with
      | None => s
      | Some c => drain (work c) (cancel st) s
      end
  end.

(** The texts of publications, those written to a socket, and those its room's consumer has yet to write. *)
Definition payloads (s : RealtimeService) (l : list nat) : list string := omap (λ i, snd <$> published s !! i) l.
Definition frames (x : nat) (s : RealtimeService) : list string := payloads s (seen x s).
Definition pending (k : string) (s : RealtimeService) : list string :=
  match rooms s !! k with
  | None => []
  | Some st =>
      match consumers s !! cancel st with
      | None => []
      | Some c => payloads s (held c ++ queued c)
      end
  end.

Lemma drain_published n id s : published (drain n id s) = published s.
Proof.
  revert s. induction n as [|n IH]; intros s; cbn [drain]; [done|].
  destruct (consumers s !! id) as [c|]; [|done]. destruct (c_phase c) as [|[|i q]|i q|]; try done; by rewrite IH.
Qed.

Lemma payloads_app s l1 l2 : payloads s (l1 ++ l2) = payloads s l1 ++ payloads s l2.
Proof. apply omap_app. Qed.

Lemma payloads_publish redis channel p s l :
  Forall (λ i, i < length (published s)) l → payloads (redis_publish redis channel p s) l = payloads s l.
Proof.
  unfold payloads. induction 1 as [|i l Hi Hl IH]; [done|]. cbn. rewrite lookup_app_l by done.
  destruct (published s !! i); cbn; by rewrite <-IH.
Qed.

Lemma seen_bound prompt x s : rt_reachable prompt s → Forall (λ i, i < length (published s)) (seen x s).
Proof.
  intros [_ Hrt]%reachable_ok. apply Forall_forall. intros i Hi. unfold seen in Hi.
  apply list_elem_of_fmap in Hi as ([y j] & -> & [_ Hin]%list_elem_of_filter).
  destruct (routed_delivered _ Hrt y j Hin) as (? & ? & ? & ? & ? & ? & ? & _ & _ & _ & Hp). cbn. by eapply lookup_lt_Some.
Qed.

Lemma work_bound prompt id c s :
  rt_reachable prompt s → consumers s !! id = Some c → Forall (λ i, i < length (published s)) (held c ++ queued c).
Proof.
  intros [_ Hrt]%reachable_ok Hl. apply Forall_forall. intros i Hi.
  destruct (routed_pending _ Hrt id c i Hl Hi) as [p Hp]. by eapply lookup_lt_Some.
Qed.

(** What a publication does at a node that listens to its channel. *)
Lemma publication_reaches_room prompt redis channel k p s :
  rt_reachable prompt s → listens redis channel k s →
  let s' := settle k (redis_publish redis channel p s) in
  rt_reachable prompt s'
  ∧ ∀ x, frames x s' = frames x s ++ (if decide (x ∈ sockets k s) then pending k s ++ [p] else []).
Proof.
  intros Hreach (st & c & Hst & Hc & Hredis & Hchan & Hns & Hnr). cbv zeta.
  destruct (reachable_ok _ _ Hreach) as [Hok _]. destruct (ok_room _ Hok k st Hst) as (_ & c0 & Hc0 & Hk & Hd).
  rewrite Hc in Hc0. injection Hc0 as <-.
  set (n := length (published s)). set (s1 := redis_publish redis channel p s). set (c1 := push redis channel n c).
  assert (consumers s1 !! cancel st = Some c1) as Hc1 by (cbn; by rewrite lookup_fmap, Hc).
  assert (c_phase c = Holding (hd 0 (held c)) (queued c) ∨ c_phase c = Waiting (queued c)) as Hph.
  { unfold held, queued. destruct (c_phase c); cbn; auto; done. }
  assert (held c1 ++ queued c1 = (held c ++ queued c) ++ [n] ∧ c_roomKey c1 = k ∧ c_done c1 = false
    ∧ ((∃ q, c_phase c1 = Waiting q) ∨ ∃ i q, c_phase c1 = Holding i q)) as (Hwork & Hk1 & Hd1 & Hrun).
  { unfold c1, push. rewrite decide_True by done. unfold held, queued.
    destruct Hph as [Hph|Hph]; rewrite Hph; cbn; split_and!; eauto. }
  destruct (drain_delivers prompt (work c1) (cancel st) c1 s1 Hc1 Hd1 Hrun) as (Hsteps & Hseen & _ & _); [done|].
  unfold settle. change (rooms s1) with (rooms s). rewrite Hst, Hc1. split.
  { unfold rt_reachable in *. etrans; [|exact Hsteps]. eapply rtc_r; [exact Hreach|]. apply step_publish. }
  intros x. unfold frames, payloads at 1. rewrite drain_published. fold (payloads s1 (seen x (drain (work c1) (cancel st) s1))).
  rewrite Hseen, Hk1, Hwork, payloads_app. change (seen x s1) with (seen x s). unfold s1 at 1.
  rewrite payloads_publish by (by eapply seen_bound). f_equal.
  change (sockets k s1) with (sockets k s). destruct (decide (x ∈ sockets k s)); [|done].
  rewrite payloads_app. unfold s1 at 1. rewrite payloads_publish by (by eapply work_bound).
  unfold pending. rewrite Hst, Hc. f_equal. unfold payloads. cbn. unfold n. by rewrite lookup_app_r, Nat.sub_diag.
Qed.

(** ** From the request to the sockets *)
Section delivery.
Context `{Postgres} `{Gin} {R : Type} (invalidate : string → R → R) (user_match : User → string → bool).
Variable DB : string → result unit.
Variables (generate : string → result string) (compare : string → string → result unit).
Variable net : nat → nat → Delivery.
Variables (useMQ hasMQ : bool) (vector : string → option string → Z → result (list string)).
Variable ClientForTenant : string → result unit.
Variable redis : string → wsEnvelope → result unit.
#[local] Instance delivery_store : ChatBackend (Remote (R := R)) :=
  remote_store invalidate user_match DB generate compare net.
Notation App := (ChatApp (S := Remote (R := R))).

(** The request, the token and the first call of [posted_message_run]. *)
Record posted (rq : Request) (t r u : string) (p : Posting) (w : App) (m : Message) : Prop := mkPosted {
  posted_token : HasPrefix (headers (rq_ctx rq) "Authorization") "Bearer " = true;
  posted_body : rq_body rq = marshal_json (posting_json p);
  posted_room : rq_param rq "id" = r;
  posted_given : given t = true ∧ given r = true ∧ given u = true ∧ posting_ok p = true;
  posted_ready : ready (rm_client (store_of w)) ∧ delivered net (store_of w);
  posted_stored : ∃ d, repo_CreateMessage DB (first_env net (store_of w)) (asked t r u p)
                         (chat_of (rm_db (store_of w))) = (d, Ok m);
  posted_sent : enc_ok c_Message m = true;
}.

Lemma posted_run env rq t r u role p w m :
  posted rq t r u p w m →
  ∃ s', stored (mkChatApp s' (ca_out w)) = stored w ++ [as_stored m]
    ∧ serve_chat useMQ hasMQ vector ClientForTenant redis (λ _, Ok (u, t, role)) env "POST /api/v1/rooms/:id/messages" rq w
      = after_storing useMQ hasMQ ClientForTenant redis t r u m (mkChatApp s' (ca_out w)).
Proof.
  intros [Hauth Hbody Hroom (Ht & Hr & Hu & Hx) [Hready Hdel] [d Hrepo] Hok].
  destruct (posted_message_run invalidate user_match DB generate compare net useMQ hasMQ vector ClientForTenant redis
    env rq t r u role p w d m) as (s' & Hs' & Hrun); [done..|].
  exists s'. split; [|exact Hrun]. destruct (create_message_stored DB _ _ _ _ _ Hrepo) as [Hd _].
  unfold stored, store_of. cbn [ca_chat]. rewrite Hs'. exact Hd.
Qed.

(** C13: A posted message reaches the sockets of its room.  The body is the JSON text of an object with a text, a file,
    files and emojis, each of the last three or not.  Without MQ, when the first call of the request arrives at dbman
    and the message can be stored there, and Redis takes the publication, the request is answered with the message dbman
    answered (stored with its metadata as the JSONB column reads back); and at every node that listens to the room's
    channel, in any state it can reach, the consumer hands each socket of the room what was waiting for it and then one
    text more, from which a client reads exactly that message; sockets of other rooms are handed nothing.
    If consumers are prompt (one whose context is cancelled gets no message from Redis any more), none is handed the
    same publication twice.  To be handed a text is a call of the socket's WriteMessage, whose error the code ignores.
    (Dbman's endpoints are configured and none is cooling down; tenant, room, user and text are not empty, everything is
    UTF-8, and what dbman answers can be written as JSON; the tenant's Redis client is found.) *)
Theorem posted_message_reaches_sockets prompt env rq t r u role p w m server (nodes : list RealtimeService) :
  posted rq t r u p w m →
  IsMQEnabled useMQ hasMQ = false → ClientForTenant t = Ok tt →
  redis (room_channel t r) (announcement r u m) = Ok tt →
  Forall (λ s, rt_reachable prompt s ∧ listens server (room_channel t r) (room_key t r) s) nodes →
  let '(w', res) := serve_chat useMQ hasMQ vector ClientForTenant redis (λ _, Ok (u, t, role)) env
                      "POST /api/v1/rooms/:id/messages" rq w in
  let text' := frame (announcement r u m) in
  res = RJson 201 (enc c_Message m) ∧ stored w' = stored w ++ [as_stored m]
  ∧ ca_out w' = ca_out w ++ [(room_channel t r, announcement r u m)]
  ∧ read_frame text' = Some m ∧ m_TenantID m = t ∧ m_RoomID m = r ∧ SenderID m = u ∧ m_Body m = p_text p
  ∧ MetaJSON m = BuildMessageMeta (p_file p) (default [] (p_files p)) (p_emojis p)
  ∧ Forall (λ s,
      let s' := settle (room_key t r) (redis_publish server (room_channel t r) text' s) in
      rt_reachable prompt s'
      ∧ ∀ x, (prompt = true → NoDup (seen x s'))
          ∧ frames x s' = frames x s
              ++ (if decide (x ∈ sockets (room_key t r) s) then pending (room_key t r) s ++ [text'] else [])) nodes.
Proof.
  intros Hp Hmq Hclient Hredis Hnodes.
  destruct (posted_run env rq t r u role p w m Hp) as (s' & Hst & ->).
  destruct Hp as [_ _ _ (Ht & Hr & Hu & Hx) _ [d Hrepo] Hok].
  destruct (create_message_stored DB _ _ _ _ _ Hrepo) as (_ & _ & _ & Hmr & Hmu & Hmb).
  destruct (created_in_tenant DB _ _ _ _ _ Hrepo) as [Hmt Hmm].
  unfold after_storing. rewrite Hmq, Hclient, Hredis. cbv zeta.
  apply given_spec in Hr as [_ Hr], Hu as [_ Hu].
  split_and!; try done; [by apply read_announcement|].
  eapply Forall_impl; [exact Hnodes|]. intros s [Hreach Hlisten].
  destruct (publication_reaches_room prompt server _ _ (frame (announcement r u m)) s Hreach Hlisten) as [Hreach' Hframes].
  split; [done|]. intros x. split; [intros ->; by apply seen_once|apply Hframes].
Qed.

(** With MQ the room's channel gets nothing: what the queue does with the message is up to its consumers, of which the
    repository has none. *)
Theorem mq_message_is_not_announced env rq t r u role p w m :
  posted rq t r u p w m → IsMQEnabled useMQ hasMQ = true →
  let '(w', res) := serve_chat useMQ hasMQ vector ClientForTenant redis (λ _, Ok (u, t, role)) env
                      "POST /api/v1/rooms/:id/messages" rq w in
  res = RJson 201 (enc c_Message m) ∧ stored w' = stored w ++ [as_stored m] ∧ ca_out w' = ca_out w.
Proof.
  intros Hp Hmq. destruct (posted_run env rq t r u role p w m Hp) as (s' & Hst & ->).
  unfold after_storing. by rewrite Hmq.
Qed.
End delivery.

(** ** A concrete run: a node with two sockets in the room, and one publication queued *)

#[local] Existing Instance demo_pg.
#[local] Instance demo_gin : Gin := {| bind_error _ := "EOF"; required_struct := true |}.

Definition demo_posted : Message :=
  mkMessage "a" (new_uuid (first_env demo_once (store_of demo_remote_app))) "r" "u" "hi" (BuildMessageMeta (Some " f1") [] (Some [":)"]))
    (NOW (first_env demo_once (store_of demo_remote_app))).

Lemma posted_message_reaches_sockets_witness :
  let text := frame (announcement "r" "u" demo_posted) in
  frames 2 (settle (room_key "a" "r") (redis_publish "redis" (room_channel "a" "r") text demo_rooms)) = ["hello"; text]
  ∧ read_frame text = Some demo_posted.
Proof.
  cbv zeta.
  pose proof (posted_message_reaches_sockets (λ _, id) (λ _ _, true) (λ _, Ok tt) Ok (λ _ _, Ok tt) demo_once false false
    (λ _ _ _, Err "off") (λ _, Ok tt) (λ _ _, Ok tt) true (mkEnv 0 "")
    (demo_request (marshal_json (posting_json demo_posting))) "a" "r" "u" "user" demo_posting demo_remote_app demo_posted
    "redis" [demo_rooms]) as Ht.
  match type of Ht with ?P1 → _ → _ → _ → ?P5 → _ => assert P1 as H1; [|assert P5 as H5; [|specialize (Ht H1 eq_refl eq_refl eq_refl H5)]] end.
  - split; [reflexivity|reflexivity|reflexivity|by split_and!| |eexists; reflexivity|vm_compute; reflexivity].
    split; [apply (demo_ready ["http://a"]); vm_compute; discriminate|reflexivity].
  - apply Forall_singleton. split; [apply demo_rooms_reachable|].
    exists (mkRoomState {[1; 2]} 0), demo_consumer. split_and!; [reflexivity..|discriminate|discriminate].
  - match type of Ht with let '(_, _) := ?x in _ => destruct x as [w' res] end.
    destruct Ht as (_ & _ & _ & Hread & _ & _ & _ & _ & _ & Hnodes). split; [|exact Hread].
    apply Forall_singleton in Hnodes as [_ Hx]. destruct (Hx 2) as [_ ->]. reflexivity.
Defined.
