(* ===== verification/HubSubscriber.v ===== *)
(** * The hub's subscription to Redis

    UseRedis, StartRedisSubscriber and StopRedisSubscriber of server/session/service/hub.go: the
    subscription a hub holds, the goroutine that consumes it ([SessionHub.consume]), and how they end.
    Calls, messages and failures of Redis interleave as the steps of a relation. *)

From S2P Require Import Prelude GoStrings GoEncoding Cursor Env SessionStore Paging ChatStore GoJson GoTime JsonText.
From S2P Require Import Users Tenants FileStore Wire GoFloat SessionHub.

(** ** The subscription

    [sub_redis]: whether the hub has a Redis client; [redisSub]: the subscription it holds, with the
    context of its consumer ([subCancel] belongs to the same); [running]: the consumers that have not
    returned; [ended]: the subscriptions that were cancelled and closed. *)
(* server/session/service/hub.go: Hub #25-31 *)
Record Subscriber := mkSubscriber {
  sub_redis : bool;
  redisSub : option nat;
  fresh_sub : nat;
  running : gset nat;
  ended : gset nat;
}.

Definition no_subscriber : Subscriber := mkSubscriber false None 0 ∅ ∅.

(* server/session/service/hub.go: UseRedis *)
Definition UseRedis (client : bool) (s : Subscriber) : Subscriber :=
  mkSubscriber client (redisSub s) (fresh_sub s) (running s) (ended s).

(* server/session/service/hub.go: StartRedisSubscriber *)
Definition StartRedisSubscriber (s : Subscriber) : Subscriber * result unit :=
  if negb (sub_redis s) then (s, Err "redis client is nil")
  else
    match redisSub s with
    | Some _ => (s, Ok tt)
    | None =>
        let sub := fresh_sub s in
        (mkSubscriber (sub_redis s) (Some sub) (S sub) ({[sub]} ∪ running s) (ended s), Ok tt)
    end.

(* server/session/service/hub.go: StopRedisSubscriber *)
Definition StopRedisSubscriber (s : Subscriber) : Subscriber :=
  match redisSub s with
  | Some sub => mkSubscriber (sub_redis s) None (fresh_sub s) (running s) ({[sub]} ∪ ended s)
  | None => s
  end.

(** The consumer of a subscription receives messages: it runs, and the subscription is not closed. *)
Definition receiving (s : Subscriber) (sub : nat) : Prop := sub ∈ running s ∧ sub ∉ ended s.

#[export] Instance receiving_dec s sub : Decision (receiving s sub).
Proof. unfold receiving. apply _. Defined.

(** ** A node: its hub and its subscription *)
Record Node := mkNode { node_sub : Subscriber; node_hub : Hub }.

(** What happens at a node.  A message reaches each consumer that receives; [ReceiveMessage] may fail at any time,
    and a consumer that sees an error returns. *)
Inductive event :=
| EvUseRedis (client : bool)
| EvStart
| EvStop
| EvRegister (c : WSClient)
| EvUnregister (c : WSClient)
| EvMessage (sub : nat) (msg : string)
| EvReceiveError (sub : nat).

Inductive node_step : event → Node → Node → Prop :=
| node_use s h client : node_step (EvUseRedis client) (mkNode s h) (mkNode (UseRedis client s) h)
| node_start s h : node_step EvStart (mkNode s h) (mkNode (StartRedisSubscriber s).1 h)
| node_stop s h : node_step EvStop (mkNode s h) (mkNode (StopRedisSubscriber s) h)
| node_register s h c : node_step (EvRegister c) (mkNode s h) (mkNode s (Register c h))
| node_unregister s h c : node_step (EvUnregister c) (mkNode s h) (mkNode s (Unregister c h))
| node_message s h sub msg :
    receiving s sub →
    node_step (EvMessage sub msg) (mkNode s h) (mkNode s (consume msg h))
| node_error s h sub :
    sub ∈ running s →
    node_step (EvReceiveError sub) (mkNode s h)
      (mkNode (mkSubscriber (sub_redis s) (redisSub s) (fresh_sub s) (running s ∖ {[sub]}) (ended s)) h).

Inductive node_steps : list event → Node → Node → Prop :=
| steps_nil n : node_steps [] n n
| steps_cons e es n n' n'' : node_step e n n' → node_steps es n' n'' → node_steps (e :: es) n n''.

(** What a node does with a message on the channel: every consumer that receives handles it. *)
Definition hear (msg : string) (n : Node) : Node :=
  foldl (λ n sub, if decide (receiving (node_sub n) sub)
                  then mkNode (node_sub n) (consume msg (node_hub n)) else n)
    n (elements (running (node_sub n))).

(** ** The invariant *)

Record sub_inv (s : Subscriber) : Prop := mkSubInv {
  inv_fresh : ∀ sub, redisSub s = Some sub ∨ sub ∈ running s ∨ sub ∈ ended s → sub < fresh_sub s;
  inv_held : ∀ sub, redisSub s = Some sub → sub ∉ ended s;
  inv_one : ∀ sub, receiving s sub → redisSub s = Some sub;
}.

Lemma no_subscriber_inv : sub_inv no_subscriber.
Proof. split; unfold receiving, no_subscriber; cbn; set_solver. Qed.

Lemma StartRedisSubscriber_inv s : sub_inv s → sub_inv (StartRedisSubscriber s).1.
Proof.
  intros Hinv. unfold StartRedisSubscriber. destruct (sub_redis s); [|done]. cbn [negb].
  destruct (redisSub s) as [sub|] eqn:E; [done|]. destruct Hinv as [Hf _ Ho].
  split; unfold receiving; cbn.
  - intros sub. rewrite elem_of_union, elem_of_singleton.
    intros [[= <-]|[[->|?]|?]]; [lia|lia|..]; apply Nat.lt_lt_succ_r, Hf; auto.
  - intros sub [= <-] He. pose proof (Hf (fresh_sub s) (or_intror (or_intror He))). lia.
  - intros sub [[->%elem_of_singleton|Hr]%elem_of_union Hn]; [done|].
    specialize (Ho sub (conj Hr Hn)). congruence.
Qed.

Lemma StopRedisSubscriber_inv s : sub_inv s → sub_inv (StopRedisSubscriber s).
Proof.
  intros Hinv. unfold StopRedisSubscriber. destruct (redisSub s) as [sub|] eqn:E; [|done].
  destruct Hinv as [Hf Hh Ho]. split; unfold receiving; cbn; [|done|].
  - intros sub'. rewrite elem_of_union, elem_of_singleton. intros [?|[?|[->|?]]]; [done|..]; apply Hf; auto.
  - intros sub' [Hr [Hne Hn]%not_elem_of_union]. specialize (Ho sub' (conj Hr Hn)). set_solver.
Qed.

Lemma node_step_inv e n n' : node_step e n n' → sub_inv (node_sub n) → sub_inv (node_sub n').
Proof.
  intros Hstep Hinv. destruct Hstep; cbn in *;
    auto using StartRedisSubscriber_inv, StopRedisSubscriber_inv;
    destruct Hinv as [Hf Hh Ho]; split; unfold receiving in *; cbn; set_solver.
Qed.

Lemma node_steps_inv es n n' : node_steps es n n' → sub_inv (node_sub n) → sub_inv (node_sub n').
Proof. induction 1; eauto using node_step_inv. Qed.

(** ** What a node hears *)

Lemma hear_list msg s h (l : list nat) sub :
  NoDup l → (∀ sub', receiving s sub' → sub' = sub) →
  foldl (λ n sub, if decide (receiving (node_sub n) sub)
                  then mkNode (node_sub n) (consume msg (node_hub n)) else n)
    (mkNode s h) l
  = mkNode s (if decide (sub ∈ l ∧ receiving s sub) then consume msg h else h).
Proof.
  intros Hnd Hone. revert h. induction Hnd as [|x l Hx Hnd IH]; intros h; [by rewrite decide_False by set_solver|].
  cbn [foldl node_sub node_hub]. destruct (decide (receiving s x)) as [Hr|Hr]; rewrite IH.
  - pose proof (Hone x Hr) as ->. rewrite decide_False by tauto.
    rewrite decide_True by (split; [left|done]). done.
  - f_equal. apply decide_ext. split; intros [Hin Hs]; (split; [|done]); [by right|].
    apply elem_of_cons in Hin as [->|Hin]; done.
Qed.

(** A message is handled at most once, by the consumer of the subscription the hub holds. *)
Lemma hear_held msg n sub :
  sub_inv (node_sub n) → redisSub (node_sub n) = Some sub →
  hear msg n = mkNode (node_sub n)
    (if decide (sub ∈ running (node_sub n)) then consume msg (node_hub n)
     else node_hub n).
Proof.
  destruct n as [s h]. cbn. intros Hinv Hs. unfold hear. cbn. rewrite (hear_list msg s h _ sub).
  - f_equal. apply decide_ext. unfold receiving. rewrite elem_of_elements.
    pose proof (inv_held s Hinv sub Hs). tauto.
  - apply NoDup_elements.
  - intros sub' Hr. pose proof (inv_one s Hinv sub' Hr). congruence.
Qed.

Lemma hear_unsubscribed msg n :
  sub_inv (node_sub n) → redisSub (node_sub n) = None → hear msg n = n.
Proof.
  destruct n as [s h]. cbn. intros Hinv Hs. unfold hear. cbn. rewrite (hear_list msg s h _ 0).
  - rewrite decide_False; [done|]. intros [_ Hr]. pose proof (inv_one s Hinv _ Hr). congruence.
  - apply NoDup_elements.
  - intros sub' Hr. pose proof (inv_one s Hinv sub' Hr). congruence.
Qed.

(** Only StopRedisSubscriber lets go of a subscription, and nothing restarts a consumer. *)
Lemma ended_stays e n n' sub :
  node_step e n n' → e ≠ EvStop → redisSub (node_sub n) = Some sub → sub ∉ running (node_sub n) →
  redisSub (node_sub n') = Some sub ∧ sub ∉ running (node_sub n').
Proof.
  intros Hstep Hne Hs Hr. destruct Hstep; cbn in *; try done; [|set_solver].
  unfold StartRedisSubscriber. destruct (sub_redis s); [|done]. cbn. by rewrite Hs.
Qed.

Lemma ended_stays_steps es n n' sub :
  node_steps es n n' → EvStop ∉ es → redisSub (node_sub n) = Some sub → sub ∉ running (node_sub n) →
  redisSub (node_sub n') = Some sub ∧ sub ∉ running (node_sub n').
Proof.
  induction 1 as [|e es n n' n'' Hstep Hsteps IH]; [done|]. intros [Hne Hes]%not_elem_of_cons Hs Hr.
  destruct (ended_stays e n n' sub Hstep) as [Hs' Hr']; auto.
Qed.

(** The messages one entry point published and the channel brought back to this node. *)
Definition notify_and_hear (redis : option (string → result unit)) (tenantID userID : string) (payload : json) (n : Node) : Node :=
  let '(h, published) := NotifyUser redis tenantID userID payload (node_hub n) in
  let n := mkNode (node_sub n) h in
  match published with Some msg => hear msg n | None => n end.

(** in every state a node reaches from its start, once the consumer of its subscription has
    returned on an error of Redis, whatever follows short of StopRedisSubscriber (which only the
    shutdown calls) leaves the node deaf: StartRedisSubscriber answers success and starts nothing,
    and a notification that Redis accepts is written to none of the node's own sockets, while one
    that Redis refuses still is delivered locally. *)
Theorem subscriber_error_deafens_node publish es0 es (n0 n n' : Node) sub
    tenantID userID payload :
  node_sub n0 = no_subscriber →
  node_steps es0 n0 n →
  redisSub (node_sub n) = Some sub → sub ∈ running (node_sub n) →
  node_steps (EvReceiveError sub :: es) n n' → EvStop ∉ es →
  (sub_redis (node_sub n') = true → StartRedisSubscriber (node_sub n') = (node_sub n', Ok tt))
  ∧ (∀ msg, hear msg n' = n')
  ∧ notify_and_hear (Some publish)
      tenantID userID payload n'
    = mkNode (node_sub n')
        (if publishNotifyUser (Some publish) tenantID userID payload
         then node_hub n' else (notifyUserLocal tenantID userID payload (node_hub n')).1).
Proof.
  intros H0 Hpre Hs Hr Hsteps Hstop.
  assert (sub_inv (node_sub n')) as Hinv.
  { eapply node_steps_inv, node_steps_inv; [done..|]. rewrite H0. apply no_subscriber_inv. }
  assert (redisSub (node_sub n') = Some sub ∧ sub ∉ running (node_sub n')) as [Hs' Hr'].
  { inversion Hsteps as [|? ? ? n1 ? Hstep Hrest]; subst. inversion Hstep; subst. cbn in *.
    eapply ended_stays_steps; [done..| |]; cbn; [done|set_solver]. }
  assert (∀ msg, hear msg n' = n') as Hdeaf.
  { intros msg. rewrite (hear_held msg n' sub), decide_False by done. by destruct n'. }
  split; [|split; [done|]].
  - unfold StartRedisSubscriber. intros ->. cbn. by rewrite Hs'.
  - unfold notify_and_hear, NotifyUser.
    destruct (publishNotifyUser _ _ _ _); [|done]. destruct n'. apply Hdeaf.
Qed.

(** ** A cluster of nodes

    One notification, from any node: a node that publishes it leaves the rest to the channel. *)

Inductive notification :=
| ToUser (tenantID userID : string) (payload : json)
| ToUsers (tenantID : string) (userIDs : list string) (builder : string → json)
| ToTenant (tenantID : string) (payload : json).

(** The entry point of the hub for each. *)
Definition notify (redis : option (string → result unit)) (n : notification) (h : Hub) : Hub * option string :=
  match n with
  | ToUser t u p => NotifyUser redis t u p h
  | ToUsers t us builder => NotifyUsers redis t us builder h
  | ToTenant t p => BroadcastTenant redis t p h
  end.

(** The identifiers are UTF-8, and so are the payloads, whose numbers a float64 holds. *)
Definition plain_notification (n : notification) : bool :=
  match n with
  | ToUser t u p => utf8 t && utf8 u && plain_payload p
  | ToUsers t us builder => utf8 t && forallb (λ u, utf8 u && plain_payload (builder u)) us
  | ToTenant t p => utf8 t && plain_payload p
  end.

(** The notification as the channel hands it over: its payloads are maps, and a user listed twice is one user. *)
Definition over_redis (n : notification) : notification :=
  match n with
  | ToUser t u p => ToUser t u (any_of_json p)
  | ToUsers t us builder => ToUsers t (dedupe us) (any_of_json ∘ builder)
  | ToTenant t p => ToTenant t (any_of_json p)
  end.

(** What a node owes its own sockets. *)
Definition deliver_here (n : notification) (h : Hub) : Hub :=
  match n with
  | ToUser t u p => (notifyUserLocal t u p h).1
  | ToUsers t us builder => foldl (λ h u, (notifyUserLocal t u (builder u) h).1) h us
  | ToTenant t p => (broadcastTenantLocal t p h).1
  end.

Definition cluster_notify (redis : option (string → result unit)) (i : nat) (n : notification) (nodes : list Node) :
    list Node :=
  match nodes !! i with
  | None => nodes
  | Some nd =>
      let '(h, published) := notify redis n (node_hub nd) in
      let nodes := <[i := mkNode (node_sub nd) h]> nodes in
      match published with Some msg => hear msg <$> nodes | None => nodes end
  end.

(** The node holds a subscription whose consumer runs. *)
Definition listening (nd : Node) : bool :=
  match redisSub (node_sub nd) with Some sub => bool_decide (sub ∈ running (node_sub nd)) | None => false end.

Definition at_hub (f : Hub → Hub) (nd : Node) : Node := mkNode (node_sub nd) (f (node_hub nd)).

Definition reachable (nd : Node) : Prop := ∃ es, node_steps es (mkNode no_subscriber NewHub) nd.

Lemma reachable_inv nd : reachable nd → sub_inv (node_sub nd).
Proof. intros [es Hes]. eapply node_steps_inv; [exact Hes|apply no_subscriber_inv]. Qed.

Lemma hear_listening msg nd :
  sub_inv (node_sub nd) →
  hear msg nd = if listening nd then at_hub (consume msg) nd else nd.
Proof.
  intros Hinv. unfold listening. destruct (redisSub (node_sub nd)) as [sub|] eqn:E.
  - rewrite (hear_held msg nd sub) by done. unfold at_hub.
    case_bool_decide; [by rewrite decide_True|]. rewrite decide_False by done. by destruct nd.
  - by rewrite hear_unsubscribed.
Qed.

(** A notification that is published changes nothing where it was made, and a node that consumes it delivers it. *)
Lemma notify_published redis n h h' b node :
  plain_notification n = true → notify redis n h = (h', Some b) →
  h' = h ∧ consume b node = deliver_here (over_redis n) node.
Proof.
  destruct n as [t u p|t us builder|t p]; cbn [notify deliver_here plain_notification over_redis]; intros Hp Hn;
    repeat match goal with H : (_ && _)%bool = true |- _ => apply andb_true_iff in H as [? ?] end.
  - by apply (proj1 (redis_path_delivers_as_local redis h node t u [] p (λ _, p) ltac:(done))).
  - apply (proj1 (proj2 (redis_path_delivers_as_local redis h node t "" us JNull builder ltac:(done)))); [|done].
    intros v Hv. match goal with H : forallb _ us = true |- _ => rewrite forallb_forall in H; apply andb_true_iff, H end.
    by apply list_elem_of_In.
  - by apply (proj2 (proj2 (redis_path_delivers_as_local redis h node t "" [] p (λ _, p) ltac:(done)))).
Qed.

Lemma notify_unpublished redis n h h' : notify redis n h = (h', None) → h' = deliver_here n h.
Proof.
  destruct n as [t u p|t us builder|t p]; cbn [notify deliver_here].
  - unfold NotifyUser. case_match; intros; by simplify_eq.
  - unfold NotifyUsers. case_match; intros; by simplify_eq.
  - unfold BroadcastTenant. case_match; intros; by simplify_eq.
Qed.

(** What a node makes of a notification that was published. *)
Lemma hear_published redis n h h' b nd :
  plain_notification n = true → notify redis n h = (h', Some b) → reachable nd →
  hear b nd = if listening nd then at_hub (deliver_here (over_redis n)) nd else nd.
Proof.
  intros Hp Hn Hr. rewrite hear_listening by by apply reachable_inv. destruct (listening nd); [|done].
  unfold at_hub. f_equal. by eapply notify_published.
Qed.

(** One node of the cluster: whether it delivers, and what. *)
Definition reached (redis : option (string → result unit)) (i : nat) (n : notification) (h : Hub) (k : nat) (nd : Node) : bool :=
  if (notify redis n h).2 then listening nd else bool_decide (k = i).
Definition handed_over (redis : option (string → result unit)) (n : notification) (h : Hub) : notification :=
  if (notify redis n h).2 then over_redis n else n.

Lemma cluster_node redis i n (nodes : list Node) nd k nd' :
  plain_notification n = true → Forall reachable nodes → nodes !! i = Some nd → nodes !! k = Some nd' →
  cluster_notify redis i n nodes !! k
  = Some (if reached redis i n (node_hub nd) k nd' then at_hub (deliver_here (handed_over redis n (node_hub nd))) nd' else nd').
Proof.
  intros Hp Hreach Hi Hk. unfold cluster_notify, reached, handed_over. rewrite Hi.
  destruct (notify redis n (node_hub nd)) as [h [b|]] eqn:En; cbn [snd].
  - destruct (notify_published _ _ _ _ _ (node_hub nd) Hp En) as [-> _].
    rewrite list_insert_id by (rewrite Hi; by destruct nd).
    rewrite list_lookup_fmap, Hk. cbn. f_equal. eapply hear_published; [done..|]. by eapply Forall_lookup_1.
  - apply notify_unpublished in En as ->. case_bool_decide as Heq.
    + subst k. rewrite list_lookup_insert_eq by by eapply lookup_lt_Some. by simplify_eq.
    + by rewrite list_lookup_insert_ne.
Qed.

(** C36: A notification in a cluster of nodes that share Redis, each in a state it can reach.  If the node where it is
    made publishes it, every node whose subscription is alive, this one included, delivers it to its own sockets
    exactly once, as the local path would (a user listed twice once, and the payloads as maps of any), and no other
    node changes; if it does not (no Redis, or a publication that Redis refuses), that node delivers it to its own
    sockets and no other node does.  The notification's strings are UTF-8 and a float64 holds its numbers. *)
Theorem cluster_delivers_once redis i n (nodes : list Node) nd :
  plain_notification n = true → Forall reachable nodes → nodes !! i = Some nd →
  cluster_notify redis i n nodes
  = if (notify redis n (node_hub nd)).2
    then (λ nd, if listening nd then at_hub (deliver_here (over_redis n)) nd else nd) <$> nodes
    else alter (at_hub (deliver_here n)) i nodes.
Proof.
  intros Hp Hreach Hi. unfold cluster_notify. rewrite Hi.
  destruct (notify redis n (node_hub nd)) as [h [b|]] eqn:En; cbn [snd].
  - destruct (notify_published _ _ _ _ _ (node_hub nd) Hp En) as [-> _].
    rewrite list_insert_id by (rewrite Hi; by destruct nd).
    apply list_fmap_ext. intros k nd' Hk. eapply hear_published; [done..|]. by eapply Forall_lookup_1.
  - apply notify_unpublished in En as ->. rewrite list_insert_alter. apply list_alter_ext; [|done].
    intros x. by rewrite Hi; intros [= <-].
Qed.

(** ** A node with one client *)

Section demo.
Let ann := mkWSClient "acme" "ann" "s1" 7.
Let hub0 := Register ann NewHub.
Let s0 := (StartRedisSubscriber (UseRedis true no_subscriber)).1.
Let s1 := mkSubscriber true (Some 0) 1 (running s0 ∖ {[0]}) (ended s0).
Let redis := Some (λ _ : string, Ok tt : result unit).

Lemma healthy_node_hears :
  sent (node_hub (notify_and_hear redis "acme" "ann" (JStr "hi") (mkNode s0 hub0))) = [(7, JStr "hi")].
Proof. vm_compute. reflexivity. Qed.

Lemma stop_and_start_revives :
  sent (node_hub (notify_and_hear redis "acme" "ann" (JStr "hi")
    (mkNode (StartRedisSubscriber (StopRedisSubscriber s1)).1 hub0))) = [(7, JStr "hi")].
Proof. vm_compute. reflexivity. Qed.

Lemma subscriber_error_deafens_node_witness :
  node_hub (notify_and_hear redis "acme" "ann" (JStr "hi") (mkNode s1 hub0)) = hub0.
Proof.
  destruct (subscriber_error_deafens_node (λ _, Ok tt)
    [EvUseRedis true; EvStart; EvRegister ann] [EvStart]
    (mkNode no_subscriber NewHub) (mkNode s0 hub0) (mkNode s1 hub0) 0 "acme" "ann" (JStr "hi")) as (_ & _ & H).
  - reflexivity.
  - repeat econstructor.
  - reflexivity.
  - by_computation.
  - eapply steps_cons; [by apply (node_error s0); by_computation|].
    eapply steps_cons; [apply (node_start s1)|apply steps_nil].
  - set_solver.
  - etrans; [exact (f_equal node_hub H)|]. vm_compute. reflexivity.
Defined.

(** Two nodes: the user's socket is at the other one, and gets the members of the file sorted. *)
Let here := mkNode s0 NewHub.
Let there := mkNode s0 (Register (mkWSClient "t" "u" "s" 7) NewHub).
Let payload := JObj [("file_name", JStr "f"); ("content_type", JStr "text/plain"); ("size_bytes", JNum 5)].

Lemma cluster_delivers_once_witness :
  sent ∘ node_hub <$> cluster_notify redis 0 (ToUser "t" "u" payload) [here; there]
  = [[]; [(7, JObj [("content_type", JStr "text/plain"); ("file_name", JStr "f"); ("size_bytes", JNum 5)])]].
Proof.
  assert (∀ nd, nd ∈ [here; there] → reachable nd) as Hreach.
  { intros nd [->|[->|[]%elem_of_nil]%elem_of_cons]%elem_of_cons.
    - exists [EvUseRedis true; EvStart]. repeat econstructor.
    - exists [EvUseRedis true; EvStart; EvRegister (mkWSClient "t" "u" "s" 7)]. repeat econstructor. }
  rewrite (cluster_delivers_once redis 0 (ToUser "t" "u" payload) [here; there] here eq_refl
    (proj2 (Forall_forall _ _) Hreach) eq_refl).
  vm_compute. reflexivity.
Defined.
End demo.
