(* ===== verification/NoteDelivery.v ===== *)
(** * A note from the request to the inboxes and the sockets

    server/session/service/note_service.go, from session's handler through its dbman client, the network and dbman's
    tables, and from the hub through Redis to the sockets of every node: [SessionApi], [SessionServices], [RemoteOrg]
    and [HubSubscriber] in one run. *)

From S2P Require Import Prelude GoStrings GoEncoding Cursor EndpointClient Env Auth SessionStore Paging ChatStore.
From S2P Require Import GoJson GoTime JsonText ChatService Users Tenants FileStore Wire Gin Binding GoFloat ChatApi.
From S2P Require Import DbmanApi Rpc Clients Remote RemoteOrg Composition SessionHub SessionServices SessionApi HubSubscriber.

(** ** The frame of a note *)

(** The sizes of the files are numbers a float64 holds. *)
Definition small_files (n : Note) : bool := forallb (λ f, (Z.abs (nf_SizeBytes f) <=? 2 ^ 53)%Z) (Files n).

Lemma plain_files n :
  forallb (enc_ok c_NoteFile) (Files n) = true → small_files n = true →
  plain_payload (enc (c_list c_NoteFile) (Files n)) = true.
Proof.
  intros Hok Hs. unfold plain_payload. rewrite enc_wf by done. cbn.
  apply forallb_forall. intros v Hv%list_elem_of_In. apply list_elem_of_fmap in Hv as (f & -> & Hf%list_elem_of_In).
  unfold small_files in Hs. rewrite forallb_forall in Hs. cbn. by rewrite (Hs f Hf).
Qed.

Lemma plain_members ms :
  forallb (λ '(k, w), utf8 k && plain_payload w) ms = true → plain_payload (JObj ms) = true.
Proof.
  unfold plain_payload. cbn [wf_json exact]. rewrite !forallb_forall. intros Hms.
  apply andb_true_iff. rewrite !forallb_forall. split; intros [k w] Hin; specialize (Hms (k, w) Hin); cbn in Hms;
    repeat match goal with H : (_ && _)%bool = true |- _ => apply andb_true_iff in H as [? ?] end; [|done].
  by apply andb_true_iff.
Qed.

Lemma plain_string s : utf8 s = true → plain_payload (JStr s) = true.
Proof. intros Hs. unfold plain_payload. cbn. by rewrite Hs. Qed.

Lemma plain_time x : bool_decide (encodable x) = true → plain_payload (enc c_time x) = true.
Proof. intros Hx. unfold plain_payload. by rewrite (enc_wf (c := c_time)). Qed.

(** The parts of a note that can be written down. *)
Lemma note_parts n :
  enc_ok c_Note n = true →
  (utf8 (NoteID n) = true ∧ utf8 (Title n) = true ∧ utf8 (Body n) = true ∧ bool_decide (encodable (n_CreatedAt n)) = true)
  ∧ forallb (enc_ok c_NoteFile) (Files n) = true
  ∧ ∀ r, r ∈ Recipients n → utf8 (nr_UserID r) = true ∧ utf8 (nr_Type r) = true.
Proof.
  unfold c_Note, c_struct. cbn -[utf8 encodable]. intros Hn.
  repeat match goal with H : (_ && _)%bool = true |- _ => apply andb_true_iff in H as [? ?] end.
  split_and!; try done. intros r Hr.
  match goal with H : forallb _ (Recipients n) = true |- _ => rewrite forallb_forall in H; apply list_elem_of_In, H in Hr end.
  by apply andb_true_iff in Hr as [? [? _]%andb_true_iff].
Qed.

Lemma note_frame_plain t sender n types u :
  enc_ok c_Note n = true → small_files n = true → utf8 t = true → utf8 sender = true →
  utf8 (default "" (types !! u)) = true → plain_payload (note_frame t sender n types u) = true.
Proof.
  intros ((? & ? & ? & ?) & ? & _)%note_parts Hs Ht Hsender Hty. apply plain_members. cbn [forallb].
  rewrite !plain_string, plain_time, plain_files by done. reflexivity.
Qed.

(** What the service announces of a note that can be written down. *)
Definition announced (t sender : string) (n : Note) : notification :=
  ToUsers t (addressees n) (note_frame t sender n (recipientTypes (Recipients n))).

Lemma announced_plain t sender n :
  enc_ok c_Note n = true → small_files n = true → utf8 t = true → utf8 sender = true →
  plain_notification (announced t sender n) = true.
Proof.
  intros Hn Hs Ht Hsender. pose proof (note_parts n Hn) as (_ & _ & Hr).
  destruct (recipientTypes_spec (Recipients n)) as [_ Hval].
  cbn [plain_notification announced]. rewrite Ht. cbn [andb].
  apply forallb_forall. intros u Hu%list_elem_of_In. unfold addressees in Hu.
  apply list_elem_of_fmap in Hu as ([u' ty] & -> & Hin%elem_of_map_to_list). cbn [fst].
  destruct (Hval _ _ Hin) as (r & Hrn & <- & <-). destruct (Hr r Hrn) as [Hru Hrt].
  rewrite Hru. cbn [andb]. apply note_frame_plain; [done..|]. by rewrite Hin.
Qed.

(** ** From the request to the tables and the channel *)
Section delivery.
Context `{Postgres} `{Gin} {R : Type} (invalidate : string → R → R) (user_match : User → string → bool).
Variable DB : string → result unit.
Variables (generate : string → result string) (compare : string → string → result unit).
Variable net : nat → nat → Delivery.
Variable redis : option (string → result unit).
#[local] Instance note_store : SessionStore (Remote (R := R)) :=
  rpc_session_store invalidate user_match DB generate compare net.
Notation App := (Svc (Remote (R := R))).

(** The session tables behind a session process. *)
Definition tables (w : App) : SessionDB := db_session (rm_db (store w)).
Definition call_env (w : App) : Env := first_env net (store w).
(** The note as dbman stores it when the first call arrives. *)
Definition new_note (t u : string) (input : NoteCreateInput) (w : App) : Note := stored_note (call_env w) (asked_note t u input).

Record noted (rq : Request) (t u : string) (input : NoteCreateInput) (w : App) : Prop := mkNoted {
  nt_token : HasPrefix (headers (rq_ctx rq) "Authorization") "Bearer " = true;
  nt_body : rq_body rq = marshal_json (enc c_NoteCreateInput input);
  nt_sender : TrimSpace t ≠ "" ∧ TrimSpace u ≠ "" ∧ utf8 t = true ∧ utf8 u = true;
  nt_input : enc_ok c_NoteCreateInput input = true;
  nt_ready : ready (rm_client (store w)) ∧ delivered net (store w);
  nt_storable : storable DB (call_env w) t input (tables w);
  nt_asked : enc_ok c_Note (asked_note t u input) = true;
  nt_stored : enc_ok c_Note (new_note t u input w) = true;
  nt_small : small_files (new_note t u input w) = true;
}.

Lemma noted_run env read rq t u role input (w : App) :
  noted rq t u input w →
  ∃ st, repo_CreateNote DB (call_env w) (asked_note t u input) (tables w) = (db_session (rm_db st), Ok (new_note t u input w))
    ∧ serve_session redis (λ _, Ok (u, t, role)) env read "POST /api/v1/notes" rq w
      = (SessionServices.on_hub (λ h, notify redis (announced t u (new_note t u input w)) h) (mkSvc st (hub w) (SessionServices.published w)),
         RJson 201 (enc c_Note (new_note t u input w))).
Proof.
  intros [Hauth Hbody (Ht & Hu & Ht8 & Hu8) Hin [Hready Hdel] Hst Hasked Hsent _].
  destruct (note_stored DB (call_env w) t u input (tables w) Hst) as (d & Hd & _).
  pose proof (travels_outcome _ _ _ _ _ _ _ _ _ (store w)
    (session_request_travels invalidate user_match DB generate compare net (RqCreateSessionNote (asked_note t u input)) env Hasked)
    Hready Hdel) as Hone.
  unfold same_outcome, on_session in Hone. cbn [served_session run_session CreateSessionNote repo_store] in Hone.
  fold (tables w) (call_env w) in Hone. rewrite Hd in Hone.
  destruct Hone as (c & Hcall & _ & _). { intros w' a [= _ <-]. exact Hsent. }
  match type of Hcall with _ = (?st, _) => exists st end. split; [exact Hd|].
  unfold serve_session. cbn [find_route session_routes]. do 3 (rewrite decide_False by done). rewrite decide_True by done.
  cbn [guarded].
  assert (∃ c, AuthRequired (λ _, Ok (u, t, role)) (rq_ctx rq) = Next c) as [cx Hcx].
  { unfold AuthRequired. rewrite Hauth. cbn [negb]. eauto. }
  destruct (auth_next_context _ _ _ Hcx) as (token & u' & t' & role' & _ & [= <- <- <-] & H1 & H2 & _). rewrite Hcx.
  unfold sendNote, with_session_actor, session_actor, with_body. cbn [rq_ctx rq_body with_ctx].
  rewrite H1, H2, decide_False by tauto. rewrite Hbody.
  rewrite (bind_marshal _ _ input) by (by apply enc_wf || by apply dec_enc).
  unfold answer. erewrite SendNote_announces; [|apply Hst|apply Hst|exact Hcall]. done.
Qed.

(** ** To the sockets of every node *)

(** The cluster after a request at node [i]: the hub of that node is the process's, and Redis hands every node what the
    request published. *)
Definition after_request (i : nat) (w w' : App) (nodes : list Node) : list Node :=
  foldl (λ ns msg, hear msg <$> ns) (alter (λ nd, mkNode (node_sub nd) (hub w')) i nodes)
    (drop (length (SessionServices.published w)) (SessionServices.published w')).

Lemma after_notification i n (w : App) st nodes nd :
  nodes !! i = Some nd → node_hub nd = hub w →
  after_request i w (SessionServices.on_hub (λ h, notify redis n h) (mkSvc st (hub w) (SessionServices.published w))) nodes
  = cluster_notify redis i n nodes.
Proof.
  intros Hi Hh. unfold after_request, SessionServices.on_hub, cluster_notify. rewrite Hi, Hh. cbn [hub].
  destruct (notify redis n (hub w)) as [h b] eqn:En. cbn [SessionServices.published hub]. rewrite drop_app_length.
  assert (alter (λ nd0, mkNode (node_sub nd0) h) i nodes = <[i := mkNode (node_sub nd) h]> nodes) as ->.
  { rewrite list_insert_alter. apply list_alter_ext; [|done]. intros x. by rewrite Hi; intros [= <-]. }
  by destruct b.
Qed.

(** The frames of a note on one node: as they were made, or, once they came over Redis, as maps of any. *)
Definition note_frames (carried : bool) (t u : string) (n : Note) (h : Hub) : list (nat * json) :=
  addressees n ≫= λ user,
    (λ c, (ws_Conn c, (if carried then any_of_json else id) (note_frame t u n (recipientTypes (Recipients n)) user)))
      <$> members (sessions_of h (userKey t user)).

Lemma announced_sent h0 t u n h :
  sent (deliver_here (handed_over redis (announced t u n) h0) h)
  = sent h ++ note_frames (bool_decide (is_Some (notify redis (announced t u n) h0).2)) t u n h.
Proof.
  unfold handed_over. destruct (notify redis (announced t u n) h0).2; cbn [deliver_here announced over_redis].
  - rewrite dedupe_id by apply NoDup_fst_map_to_list. rewrite (proj2 (notify_users_sent _ _ _ _)).
    by rewrite bool_decide_true.
  - rewrite (proj2 (notify_users_sent _ _ _ _)). by rewrite bool_decide_false by (by intros []).
Qed.

(** C14: A note from session's handler to the inboxes and the sockets.  When the first call of the request arrives at
    dbman and the note can be stored there, the request is answered with the note as it is stored, from the user and in
    the tenant of the token; each user it names finds it unread in the inbox dbman lists, under the list that names the
    user, provided no more of the user's notes than the inbox is asked for (the services take 1 to 200) are dated
    as late as it, itself included; and no other user finds it.  If the announcement is published, every node of the cluster
    whose subscription is alive hands each session of each named user exactly one frame, with the type of that user; if
    it is not, the node of the request hands them to its own sessions; and no other node and no other session is
    handed anything.  (The write itself may fail on the way to the browser: see session_writes_exclusive.)  Dbman's
    endpoints are configured and none is cooling down; tenant and user are not blank, the request's texts are UTF-8, its
    title is not blank, no user is named twice, and the sizes of its files are integers a float64 holds. *)
Theorem sent_note_reaches_recipients env read rq t u role input (w : App) i (nodes : list Node) nd :
  noted rq t u input w →
  Forall reachable nodes → nodes !! i = Some nd → node_hub nd = hub w →
  let n := new_note t u input w in
  let '(w', res) := serve_session redis (λ _, Ok (u, t, role)) env read "POST /api/v1/notes" rq w in
  let published := bool_decide (is_Some (notify redis (announced t u n) (hub w)).2) in
  res = RJson 201 (enc c_Note n) ∧ SenderUserID n = u ∧ n_TenantID n = t
  ∧ (∀ user limit, (Z.of_nat (dated_as_late n user (tables w')) ≤ limit)%Z → inbox_shows DB limit n user (tables w'))
  ∧ addressees n ≡ₚ nr_UserID <$> recipients_of input
  ∧ (∀ user ty, mkNoteRecipient user ty ∈ recipients_of input → recipientTypes (Recipients n) !! user = Some ty)
  ∧ ∀ k x, nodes !! k = Some x →
      sent ∘ node_hub <$> after_request i w w' nodes !! k
      = Some (sent (node_hub x)
              ++ if (if published then listening x else bool_decide (k = i))
                 then note_frames published t u n (node_hub x) else []).
Proof.
  intros Hnoted Hreach Hi Hh. cbv zeta.
  destruct (noted_run env read rq t u role input w Hnoted) as (st & Hst & ->).
  destruct Hnoted as [_ _ (_ & _ & Ht8 & Hu8) _ _ Hok _ Hsent Hsmall].
  destruct (note_stored DB (call_env w) t u input (tables w) Hok) as (d & Hd & Hinbox).
  fold (new_note t u input w) in *. rewrite Hst in Hd. injection Hd as Hd.
  destruct (addressees_recipients (call_env w) t u input (st_distinct _ _ _ _ _ Hok)) as [Hus Hty].
  split_and!; [done..| | | |].
  - intros user limit. unfold tables. rewrite on_hub_store. cbn [store]. rewrite Hd. apply Hinbox.
  - exact Hus.
  - exact Hty.
  - intros k x Hk. rewrite (after_notification i _ w st nodes nd) by done.
    rewrite (cluster_node redis i _ nodes nd k x) by (try done; by apply announced_plain). cbn [fmap option_fmap option_map].
    rewrite Hh. unfold reached. cbn [compose]. f_equal.
    assert (∀ b : bool, sent (node_hub (if b then at_hub (deliver_here (handed_over redis (announced t u (new_note t u input w)) (hub w))) x else x))
      = sent (node_hub x) ++ (if b then note_frames (bool_decide (is_Some (notify redis (announced t u (new_note t u input w)) (hub w)).2))
          t u (new_note t u input w) (node_hub x) else [])) as Hcase.
    { intros []; [apply announced_sent|by rewrite app_nil_r]. }
    unfold compose. rewrite Hcase. destruct (notify redis (announced t u (new_note t u input w)) (hub w)).2; [|done].
    done.
Qed.
End delivery.

(** ** A concrete run: a note to b and c, whose sockets are at two nodes *)

#[local] Existing Instance demo_pg.
#[local] Instance demo_gin : Gin := {| bind_error _ := "EOF"; required_struct := true |}.

Definition demo_input : NoteCreateInput :=
  mkNoteCreateInput " hi " "body" ["b"] [" c"; "c"] [] [mkNoteFile "f.txt" "k/f" "text/plain" 5].

Definition demo_node (c : WSClient) : Node :=
  mkNode (StartRedisSubscriber (UseRedis true no_subscriber)).1 (Register c NewHub).

Definition demo_here : Node := demo_node (mkWSClient "a" "b" "s1" 4).
Definition demo_there : Node := demo_node (mkWSClient "a" "c" "s2" 5).

Definition demo_session_app : Svc (Remote (R := unit)) :=
  mkSvc (mkRemote (rm_client (demo_remote ["http://a"]))
    (mkDbman (db_org (rm_db (demo_remote []))) [] (empty_db {["a"]}) (db_tenants (rm_db (demo_remote [])))) 0)
    (node_hub demo_here) [].

Definition demo_note_request : Request := demo_request (marshal_json (enc c_NoteCreateInput demo_input)).

Lemma demo_node_reachable c : reachable (demo_node c).
Proof. exists [EvUseRedis true; EvStart; EvRegister c]. repeat econstructor. Qed.

Lemma sent_note_reaches_recipients_witness :
  let '(w', res) := serve_session (H0 := note_store (λ _, id) (λ _ _, true) (λ _, Ok tt) Ok (λ _ _, Ok tt) demo_up)
    (Some (λ _, Ok tt)) (λ _, Ok ("u", "a", "user")) (mkEnv 0 "") (λ _, Ok []) "POST /api/v1/notes" demo_note_request demo_session_app in
  status_of res = 201%Z
  ∧ sent ∘ node_hub <$> after_request 0 demo_session_app w' [demo_here; demo_there] !! 1
    = Some [(5, JObj [("body", JStr "body"); ("created_at", JStr "1970-01-01T00:00:00.00000005Z");
        ("files", JList [JObj [("content_type", JStr "text/plain"); ("file_name", JStr "f.txt"); ("object_key", JStr "k/f");
                               ("size_bytes", JNum 5)]]);
        ("note_id", JStr "n0"); ("recipient_type", JStr "cc"); ("sender_user_id", JStr "u"); ("tenant_id", JStr "a");
        ("title", JStr "hi"); ("type", JStr "note.received")])].
Proof.
  pose proof (sent_note_reaches_recipients (λ _, id) (λ _ _, true) (λ _, Ok tt) Ok (λ _ _, Ok tt) demo_up
    (Some (λ _, Ok tt)) (mkEnv 0 "") (λ _, Ok []) demo_note_request "a" "u" "user" demo_input demo_session_app 0
    [demo_here; demo_there] demo_here) as Ht.
  match type of Ht with ?P1 → ?P2 → _ => assert P1 as H1; [|assert P2 as H2; [|specialize (Ht H1 H2 eq_refl eq_refl)]] end.
  - split; [reflexivity|reflexivity| |reflexivity| | |vm_compute; reflexivity..].
    + split_and!; by vm_compute.
    + split; [apply (demo_ready ["http://a"]); vm_compute; discriminate|reflexivity].
    + split; [apply empty_db_inv|reflexivity|cbn; set_solver|reflexivity|by vm_compute..|].
      vm_compute. apply NoDup_cons. split; [|apply NoDup_singleton].
      intros Hin. apply list_elem_of_singleton in Hin. discriminate.
  - repeat (apply Forall_cons; split; [apply demo_node_reachable|]). constructor.
  - match type of Ht with let n := _ in let '(_, _) := ?x in _ => destruct x as [w' res] end.
    cbv zeta in Ht. destruct Ht as (-> & _ & _ & _ & _ & _ & Hnodes). split; [reflexivity|].
    rewrite (Hnodes 1 demo_there eq_refl). vm_compute. reflexivity.
Defined.
