(* ===== verification/SocketWriters.v ===== *)
(** * Who writes to a socket, and when

    A WebSocket connection of gorilla/websocket takes one writer at a time: its documentation asks the application not
    to call the write methods concurrently.  In the session service every write goes through WriteJSON of
    server/session/service/hub.go, which holds the mutex of the client while it writes.  [SessionHub] writes a frame in one
    step; here a call of WriteJSON is taken apart, and any number of goroutines interleave.  The chat service
    (server/chat/service/realtime_service.go) writes from the goroutine that reads the connection and from the room's
    consumer, under no common lock. *)

From S2P Require Import Prelude GoStrings RealtimeRooms.

(** ** The session service: a mutex per client *)

(** Where a call of WriteJSON stands: before the lock, with the lock, writing with the lock. *)
Inductive stage := Waits | Holds | Writes.

#[export] Instance stage_eq_dec : EqDecision stage.
Proof. solve_decision. Defined.

Section session.
Context {P : Type}.

Record writer := mkWriter { w_conn : nat; w_payload : P; w_stage : stage }.

Definition at_stage (st : stage) (w : writer) : writer := mkWriter (w_conn w) (w_payload w) st.
Definition to_write (w : writer) : nat * P := (w_conn w, w_payload w).

(** [mus]: the goroutine that holds the mutex of a connection; [made]: the calls so far; [wire]: the frames written;
    [dropped]: the frames whose writing failed. *)
Record Sockets := mkSockets {
  mus : gmap nat nat;
  writers : gmap nat writer;
  made : list (nat * P);
  wire : list (nat * P);
  dropped : list (nat * P);
}.

Definition no_writers : Sockets := mkSockets ∅ ∅ [] [] [].

(** The end of a write: the deferred Unlock, and the frame written or, when the deadline of 5 seconds has passed, the
    connection is closed or the payload has no JSON, not: the error of [Conn.WriteJSON] is thrown away. *)
Definition write_over (ok : bool) (g : nat) (w : writer) (s : Sockets) : Sockets :=
  mkSockets (delete (w_conn w) (mus s)) (delete g (writers s)) (made s)
    (wire s ++ if ok then [to_write w] else []) (dropped s ++ if ok then [] else [to_write w]).

(* server/session/service/hub.go: WriteJSON *)
Inductive write_step : Sockets → Sockets → Prop :=
| write_call g conn p s :
    writers s !! g = None →
    write_step s (mkSockets (mus s) (<[g := mkWriter conn p Waits]> (writers s)) (made s ++ [(conn, p)]) (wire s) (dropped s))
| write_lock g w s :
    writers s !! g = Some w → w_stage w = Waits → mus s !! w_conn w = None →
    write_step s (mkSockets (<[w_conn w := g]> (mus s)) (<[g := at_stage Holds w]> (writers s)) (made s) (wire s) (dropped s))
| write_begin g w s :
    writers s !! g = Some w → w_stage w = Holds →
    write_step s (mkSockets (mus s) (<[g := at_stage Writes w]> (writers s)) (made s) (wire s) (dropped s))
| write_end ok g w s :
    writers s !! g = Some w → w_stage w = Writes → write_step s (write_over ok g w s).

(** The mutex of a connection belongs to the goroutine past its lock; every call is on the wire, dropped or under way. *)
Record writers_ok (s : Sockets) : Prop := mkWritersOk {
  ok_holder c g : mus s !! c = Some g → ∃ w, writers s !! g = Some w ∧ w_conn w = c ∧ w_stage w ≠ Waits;
  ok_holds g w : writers s !! g = Some w → w_stage w ≠ Waits → mus s !! w_conn w = Some g;
  ok_made : made s ≡ₚ wire s ++ dropped s ++ (to_write ∘ snd <$> map_to_list (writers s));
}.

Lemma no_writers_ok : writers_ok no_writers.
Proof. split; cbn; intros *; by rewrite ?lookup_empty, ?map_to_list_empty. Qed.

(** A goroutine that goes on, and keeps what it has to write. *)
Lemma stage_made (ws : gmap nat writer) g w st :
  ws !! g = Some w →
  to_write ∘ snd <$> map_to_list (<[g := at_stage st w]> ws) ≡ₚ to_write ∘ snd <$> map_to_list ws.
Proof.
  intros Hg. rewrite <-(insert_id ws g w Hg) at 2. rewrite <-!(insert_delete_eq ws g).
  rewrite !map_to_list_insert by apply lookup_delete_eq. done.
Qed.

Lemma write_step_ok s s' : write_step s s' → writers_ok s → writers_ok s'.
Proof.
  intros Hstep [Hh Hw Hm]. destruct Hstep as [g conn p s Hg|g w s Hg Hst Hmu|g w s Hg Hst|ok g w s Hg Hst]; split; cbn.
  - intros c g' Hc. destruct (Hh c g' Hc) as (w & Hg' & Hrest). exists w. rewrite lookup_insert_ne; [done|congruence].
  - intros g' w' [[<- <-]|[Hne Hg']]%lookup_insert_Some; [done|]. eauto.
  - rewrite map_to_list_insert, fmap_cons by done. cbn. rewrite Hm. solve_Permutation.
  - intros c g' [[<- <-]|[Hne Hc]]%lookup_insert_Some.
    + exists (at_stage Holds w). by rewrite lookup_insert_eq.
    + destruct (Hh c g' Hc) as (w' & Hg' & Hc' & Hst'). exists w'. rewrite lookup_insert_ne; [done|].
      intros <-. rewrite Hg in Hg'. congruence.
  - intros g' w' [[<- <-]|[Hne Hg']]%lookup_insert_Some Hst'; [by rewrite lookup_insert_eq|].
    rewrite lookup_insert_ne; [by apply Hw|]. intros Heq. rewrite Heq in Hmu. by rewrite (Hw g' w') in Hmu.
  - by rewrite stage_made.
  - intros c g' Hc. destruct (Hh c g' Hc) as (w' & Hg' & Hc' & Hst').
    destruct (decide (g' = g)) as [->|Hne]; [|rewrite lookup_insert_ne by done; eauto].
    rewrite Hg in Hg'. injection Hg' as <-. exists (at_stage Writes w). by rewrite lookup_insert_eq.
  - intros g' w' [[<- <-]|[Hne Hg']]%lookup_insert_Some Hst'; [|eauto]. apply (Hw g w Hg). by rewrite Hst.
  - by rewrite stage_made.
  - intros c g' [Hne Hc]%lookup_delete_Some. destruct (Hh c g' Hc) as (w' & Hg' & Hc' & Hst'). exists w'.
    rewrite lookup_delete_ne; [done|]. intros <-. rewrite Hg in Hg'. congruence.
  - intros g' w' [Hne Hg']%lookup_delete_Some Hst'. rewrite lookup_delete_ne; [by apply Hw|].
    intros Heq. pose proof (Hw g' w' Hg' Hst') as H1. rewrite <-Heq, (Hw g w Hg) in H1 by (by rewrite Hst). congruence.
  - rewrite Hm, <-(insert_delete_id (writers s) g w) at 1 by done.
    rewrite map_to_list_insert, fmap_cons by apply lookup_delete_eq. cbn. destruct ok; rewrite ?app_nil_r; solve_Permutation.
Qed.

Lemma write_steps_ok s s' : rtc write_step s s' → writers_ok s → writers_ok s'.
Proof. induction 1; eauto using write_step_ok. Qed.

(** A goroutine past its lock can finish, with its frame on the wire or without. *)
Lemma holder_finishes ok g w s :
  writers s !! g = Some w → w_stage w ≠ Waits → ∃ s', rtc write_step s s' ∧ s' = write_over ok g w s.
Proof.
  intros Hg Hst. destruct (w_stage w) eqn:E; [done| |].
  - eexists. split.
    + eapply rtc_l; [by eapply write_begin|]. eapply rtc_l; [|apply rtc_refl].
      apply (write_end ok g (at_stage Writes w)); [apply lookup_insert_eq|done].
    + unfold write_over. cbn. by rewrite delete_insert_eq.
  - eexists. split; [eapply rtc_l; [by apply (write_end ok)|apply rtc_refl]|done].
Qed.

Lemma waiter_finishes ok g w s :
  writers s !! g = Some w → w_stage w = Waits → mus s !! w_conn w = None →
  ∃ s', rtc write_step s s' ∧ s' = write_over ok g w s.
Proof.
  intros Hg Hst Hmu.
  destruct (holder_finishes ok g (at_stage Holds w)
    (mkSockets (<[w_conn w := g]> (mus s)) (<[g := at_stage Holds w]> (writers s)) (made s) (wire s) (dropped s)))
    as (s' & Hrun & ->); [apply lookup_insert_eq|done|].
  eexists. split; [eapply rtc_l; [by apply write_lock|exact Hrun]|].
  unfold write_over. cbn. by rewrite !delete_insert_eq.
Qed.

(** A call that nothing interrupts and whose write succeeds is the single step of [SessionHub.WriteJSON]. *)
Lemma write_alone g conn p s :
  writers s !! g = None → mus s !! conn = None →
  rtc write_step s (mkSockets (mus s) (writers s) (made s ++ [(conn, p)]) (wire s ++ [(conn, p)]) (dropped s)).
Proof.
  intros Hg Hmu. eapply rtc_l; [by apply (write_call g conn p)|].
  eapply rtc_l; [apply (write_lock g (mkWriter conn p Waits)); [apply lookup_insert_eq|done|done]|].
  eapply rtc_l; [eapply (write_begin g (mkWriter conn p Holds)); [apply lookup_insert_eq|done]|].
  eapply rtc_l; [eapply (write_end true g (mkWriter conn p Writes)); [apply lookup_insert_eq|done]|].
  unfold write_over. cbn. rewrite !insert_insert_eq, !delete_insert_id, app_nil_r by done. apply rtc_refl.
Qed.
End session.
Arguments writer : clear implicits.
Arguments Sockets : clear implicits.

(** C37: The writes to a session's socket exclude each other, and a failed one frees the lock.  However the goroutines that
    call WriteJSON interleave, and whichever writes fail, at any moment at most one of them is writing to a connection;
    each call so far has its frame on the wire once, or dropped (its write failed, which the code ignores), or is not
    over; and each that is not over can run to its end, whoever has the lock now and whether its own write then
    succeeds or fails, after which its frame is on the wire behind all that was there, or dropped, and the lock
    of the connection is free. *)
Theorem session_writes_exclusive {P} (s : Sockets P) :
  rtc write_step no_writers s →
  (∀ g1 g2 w1 w2, writers s !! g1 = Some w1 → writers s !! g2 = Some w2 →
     w_stage w1 = Writes → w_stage w2 = Writes → w_conn w1 = w_conn w2 → g1 = g2)
  ∧ made s ≡ₚ wire s ++ dropped s ++ (to_write ∘ snd <$> map_to_list (writers s))
  ∧ ∀ (ok : bool) g w, writers s !! g = Some w →
      ∃ s' others, rtc write_step s s' ∧ writers s' !! g = None ∧ mus s' !! w_conn w = None
        ∧ wire s' = wire s ++ others ++ (if ok then [to_write w] else [])
        ∧ dropped s' = dropped s ++ (if ok then [] else [to_write w]) ∧ length others ≤ 1.
Proof.
  intros Hrun. pose proof (write_steps_ok _ _ Hrun no_writers_ok) as [Hh Hw Hm]. split; [|split; [done|]].
  - intros g1 g2 w1 w2 H1 H2 S1 S2 Hc.
    pose proof (Hw g1 w1 H1 ltac:(by rewrite S1)) as E1. pose proof (Hw g2 w2 H2 ltac:(by rewrite S2)) as E2. congruence.
  - intros ok g w Hg. destruct (decide (w_stage w = Waits)) as [Hst|Hst].
    + destruct (mus s !! w_conn w) as [h|] eqn:Hmu.
      * destruct (Hh _ _ Hmu) as (v & Hv & Hc & Hsv).
        destruct (holder_finishes true h v s Hv Hsv) as (s1 & Hr1 & Hs1).
        assert (g ≠ h) as Hne by (intros ->; congruence).
        destruct (waiter_finishes ok g w s1) as (s2 & Hr2 & ->); subst s1; cbn;
          [by rewrite lookup_delete_ne|done|by rewrite Hc, lookup_delete_eq|].
        exists (write_over ok g w (write_over true h v s)), [to_write v]. cbn.
        split_and!; [by etrans|apply lookup_delete_eq|apply lookup_delete_eq|by rewrite <-app_assoc|by rewrite app_nil_r|done].
      * destruct (waiter_finishes ok g w s Hg Hst Hmu) as (s' & Hr & ->). exists (write_over ok g w s), [].
        cbn. split_and!; [done|apply lookup_delete_eq|apply lookup_delete_eq|done|done|lia].
    + destruct (holder_finishes ok g w s Hg Hst) as (s' & Hr & ->). exists (write_over ok g w s), [].
      cbn. split_and!; [done|apply lookup_delete_eq|apply lookup_delete_eq|done|done|lia].
Qed.

(** ** The chat service: no lock of the connection *)

(** A consumer, and the goroutine that reads a connection and answers a bad frame with an error. *)
Inductive chat_writer := ByConsumer (id : nat) | ByReader.

#[export] Instance chat_writer_eq_dec : EqDecision chat_writer.
Proof. solve_decision. Defined.

(** The service and who is writing to which connection.  A consumer writes what it holds to the sockets of its room, one
    after the other, under the read lock of the rooms; the goroutine that reads a connection writes one answer at a time
    and takes no lock.  The rooms stand still while anyone writes, which the read lock asks for only of the consumers:
    the steps below are some of the program's interleavings, which is what a collision needs. *)
(* server/chat/service/realtime_service.go: writeWSError *)
Inductive chat_write_step (prompt : bool) : RealtimeService * list (chat_writer * nat) → RealtimeService * list (chat_writer * nat) → Prop :=
| chat_rooms_step s s' : rt_step prompt s s' → chat_write_step prompt (s, []) (s', [])
| chat_consumer_writes s ws id c i q conn :
    consumers s !! id = Some c → c_phase c = Holding i q → conn ∈ sockets (c_roomKey c) s →
    (∀ conn', (ByConsumer id, conn') ∉ ws) →
    chat_write_step prompt (s, ws) (s, (ByConsumer id, conn) :: ws)
| chat_reader_writes s ws conn :
    conn ∈ joined s → conn ∉ closed s → (ByReader, conn) ∉ ws →
    chat_write_step prompt (s, ws) (s, (ByReader, conn) :: ws)
| chat_writes_end s ws1 ws2 w : chat_write_step prompt (s, ws1 ++ w :: ws2) (s, ws1 ++ ws2).

(** While a consumer has a publication for a socket, a bad frame of that socket's client makes two goroutines write to it
    at once.  The library forbids it and panics when it notices; the consumer's panic is not recovered and ends the
    process. *)
Theorem chat_writers_collide prompt (s : RealtimeService) id c i q conn :
  consumers s !! id = Some c → c_phase c = Holding i q → conn ∈ sockets (c_roomKey c) s →
  conn ∈ joined s → conn ∉ closed s →
  ∃ ws, rtc (chat_write_step prompt) (s, []) (s, ws) ∧ (ByConsumer id, conn) ∈ ws ∧ (ByReader, conn) ∈ ws.
Proof.
  intros Hc Hph Hin Hj Hcl. exists [(ByReader, conn); (ByConsumer id, conn)]. split; [|set_solver].
  eapply rtc_l; [eapply chat_consumer_writes; [done..|intros ?; by apply not_elem_of_nil]|].
  eapply rtc_l; [apply chat_reader_writes; [done..|]|apply rtc_refl].
  by intros [?|?%not_elem_of_nil]%elem_of_cons.
Qed.

(** ** Concrete runs *)

(** In the witness the first of two writes fails. *)
Lemma session_writes_exclusive_witness :
  let s := mkSockets ∅ {[2 := mkWriter 7 "b" Waits]} [(7, "a"); (7, "b")] [] [(7, "a")] in
  made s ≡ₚ wire s ++ dropped s ++ (to_write ∘ snd <$> map_to_list (writers s)).
Proof.
  apply session_writes_exclusive.
  eapply rtc_l; [apply (write_call 1 7 "a"); reflexivity|].
  eapply rtc_l; [apply (write_lock 1 (mkWriter 7 "a" Waits)); reflexivity|].
  eapply rtc_l; [apply (write_begin 1 (mkWriter 7 "a" Holds)); reflexivity|].
  eapply rtc_l; [apply (write_end false 1 (mkWriter 7 "a" Writes)); reflexivity|].
  eapply rtc_l; [apply (write_call 2 7 "b"); reflexivity|]. apply rtc_refl.
Defined.

Lemma chat_writers_collide_witness :
  ∃ s ws, rt_reachable true s ∧ rtc (chat_write_step true) (s, []) (s, ws) ∧ (ByConsumer 0, 2) ∈ ws ∧ (ByReader, 2) ∈ ws.
Proof.
  exists (receive 0 0 [] demo_rooms).
  destruct (chat_writers_collide true (receive 0 0 [] demo_rooms) 0 (set_phase (Holding 0 []) demo_consumer) 0 [] 2)
    as (ws & Hws); [reflexivity|reflexivity|by_computation|by_computation|by_computation|].
  exists ws. split; [|exact Hws]. eapply rtc_r; [apply demo_rooms_reachable|].
  apply (step_receive _ _ 0 demo_consumer); [reflexivity|reflexivity|done].
Defined.
